(** * Stargazer: the star catalog service

    A shallow embedding of [StarCatalogService.ts] (the astronomy core of the
    Stargazer front end) and the properties its specification states.

    JavaScript numbers are IEEE 754 binary64 values; they are modelled by
    Rocq's primitive [float], whose operations are the same binary64
    operations.  The transcendental functions of the JavaScript [Math] object
    are implementation-approximated in ECMAScript, so they are taken as an
    interface ([MathLib]) whose laws are the values ECMAScript fixes. *)

From Stdlib Require Import ZArith Lia Bool List String Ascii.
From Stdlib Require Import Floats.
From Stdlib Require Import Permutation Sorted.
From Stdlib Require Import Reals Lra.
Import ListNotations.

Set Warnings "-inexact-float".

Local Open Scope float_scope.

(** ** JavaScript numbers *)

Module Number.

Definition number := float.

(** An integer as a number; exact below 2^53 in magnitude. *)
Definition of_Z (z : Z) : number :=
  match z with
  | Z0 => 0
  | Zpos _ => of_uint63 (Uint63.of_Z z)
  | Zneg p => - of_uint63 (Uint63.of_Z (Zpos p))
  end.

(** [x > y] and [x >= y] of JavaScript: false as soon as one side is NaN. *)
Definition gtb (x y : number) : bool := y <? x.
Definition geb (x y : number) : bool := y <=? x.

End Number.

Abbreviation number := Number.number.
Notation "x >? y" := (Number.gtb x y) (at level 70, no associativity) : float_scope.
Notation "x >=? y" := (Number.geb x y) (at level 70, no associativity) : float_scope.

(** ** The [Math] object *)

Definition Math_PI : number := 3.141592653589793.

Definition Math_abs (x : number) : number := PrimFloat.abs x.

(** [Math.floor]: the largest integral number not above [x]; NaN, the
    infinities and the zeros are returned unchanged. *)
Definition Math_floor (x : number) : number :=
  match Prim2SF x with
  | S754_finite s m e =>
      if (0 <=? e)%Z then x
      else
        let d := (2 ^ (- e))%Z in
        let q := (Zpos m / d)%Z in
        if (Zpos m mod d =? 0)%Z then x
        else if s then Number.of_Z (- (q + 1)) else Number.of_Z q
  | _ => x
  end.

(** [Math.min] and [Math.max] on two arguments: NaN if either is NaN, and
    -0 is below +0. *)
Definition Math_min (x y : number) : number :=
  if is_nan x || is_nan y then nan
  else if x <? y then x
  else if y <? x then y
  else if get_sign x then x else y.

Definition Math_max (x y : number) : number :=
  if is_nan x || is_nan y then nan
  else if x <? y then y
  else if y <? x then x
  else if get_sign x then y else x.

(** The implementation-approximated functions of [Math]. *)
Class MathLib : Type := {
  Math_sin : number -> number;
  Math_cos : number -> number;
  Math_tan : number -> number;
  Math_asin : number -> number;
  Math_acos : number -> number;
  Math_atan2 : number -> number -> number;
  Math_sqrt : number -> number
}.

(** What ECMAScript (sections Math.sin, Math.cos, Math.asin, Math.acos) fixes
    about them, as far as the development uses it. *)
Class MathLibLaws (M : MathLib) : Prop := {
  sin_pos_zero : Math_sin 0 = 0;
  cos_pos_zero : Math_cos 0 = 1;
  sin_finite : forall x, is_finite x = true -> is_finite (Math_sin x) = true;
  cos_finite : forall x, is_finite x = true -> is_finite (Math_cos x) = true;
  cos_nan : Math_cos nan = nan;
  asin_above_one : forall x, (1 <? x) = true -> Math_asin x = nan;
  acos_above_one : forall x, (1 <? x) = true -> Math_acos x = nan;
  acos_nan : Math_acos nan = nan
}.

(** ** Dates

    The service reads a [Date] only through its UTC getters; a (valid) date is
    modelled by the integers those getters return.  [getUTCMonth] counts from
    0. *)

Record Date : Type := {
  utcFullYear : Z;
  utcMonth : Z;
  utcDate : Z;
  utcHours : Z;
  utcMinutes : Z;
  utcSeconds : Z
}.

Definition getUTCFullYear (d : Date) : number := Number.of_Z (utcFullYear d).
Definition getUTCMonth (d : Date) : number := Number.of_Z (utcMonth d).
Definition getUTCDate (d : Date) : number := Number.of_Z (utcDate d).
Definition getUTCHours (d : Date) : number := Number.of_Z (utcHours d).
Definition getUTCMinutes (d : Date) : number := Number.of_Z (utcMinutes d).
Definition getUTCSeconds (d : Date) : number := Number.of_Z (utcSeconds d).

(** 2000-01-01T12:00:00Z, the J2000.0 epoch. *)
Definition J2000_noon : Date :=
  {| utcFullYear := 2000; utcMonth := 0; utcDate := 1;
     utcHours := 12; utcMinutes := 0; utcSeconds := 0 |}.

(** ** Time system *)

(** [dateToJulianDay] *)
Definition dateToJulianDay (date : Date) : number :=
  let a := Math_floor ((14 - (getUTCMonth date + 1)) / 12) in
  let y := getUTCFullYear date + 4800 - a in
  let m := (getUTCMonth date + 1) + 12 * a - 3 in
  let jdn := getUTCDate date + Math_floor ((153 * m + 2) / 5) + 365 * y +
             Math_floor (y / 4) - Math_floor (y / 100) + Math_floor (y / 400) - 32045 in
  let jd := jdn + (getUTCHours date - 12) / 24 +
            getUTCMinutes date / 1440 + getUTCSeconds date / 86400 in
  jd.

(** ** Loops that may not finish

    [normalizeAngle] is written with two [while] loops; on binary64 numbers
    they need not finish (adding 360 to -1e300 changes nothing).  The loops
    are run with a bound on the number of iterations and answer [None] when
    the bound is reached; functions that call them pass the bound on. *)

Notation "x <- e ;; k" :=
  (match e with Some x => k | None => None end)
  (at level 61, e at next level, right associativity).

(** [while (angle < 0) angle += 360] *)
Fixpoint add_turns (fuel : nat) (angle : number) : option number :=
  if angle <? 0 then
    match fuel with
    | O => None
    | S fuel' => add_turns fuel' (angle + 360)
    end
  else Some angle.

(** [while (angle >= 360) angle -= 360] *)
Fixpoint drop_turns (fuel : nat) (angle : number) : option number :=
  if angle >=? 360 then
    match fuel with
    | O => None
    | S fuel' => drop_turns fuel' (angle - 360)
    end
  else Some angle.

(** [normalizeAngle] *)
Definition normalizeAngle (fuel : nat) (angle : number) : option number :=
  angle <- add_turns fuel angle ;;
  drop_turns fuel angle.

(** [calculateLocalSiderealTime] *)
Definition calculateLocalSiderealTime (fuel : nat) (longitude : number) (timestamp : Date)
  : option number :=
  let jd := dateToJulianDay timestamp in
  let t := (jd - 2451545.0) / 36525.0 in
  let gmst := 280.46061837 + 360.98564736629 * (jd - 2451545.0) +
              0.000387933 * t * t - t * t * t / 38710000.0 in
  gmst <- normalizeAngle fuel gmst ;;
  let lst := gmst + longitude in
  normalizeAngle fuel lst.

(** ** Coordinates *)

Record CelestialCoordinate : Type := { ra : number; dec : number }.

Record GeolocationCoords : Type := {
  latitude : number;
  longitude : number;
  altitude_m : option number   (* the optional [altitude] of the observer *)
}.

Record HorizontalCoordinate : Type := { azimuth : number; altitude : number }.

Section Geometry.
Context {M : MathLib}.

(** [celestialToHorizontal] *)
Definition celestialToHorizontal (fuel : nat) (celestial : CelestialCoordinate)
    (location : GeolocationCoords) (timestamp : Date) : option HorizontalCoordinate :=
  let ra := ra celestial in
  let dec := dec celestial in
  let latitude := latitude location in
  let longitude := longitude location in
  lst <- calculateLocalSiderealTime fuel longitude timestamp ;;
  let hourAngle := lst - ra in
  let latRad := (latitude * Math_PI) / 180 in
  let decRad := (dec * Math_PI) / 180 in
  let haRad := (hourAngle * Math_PI) / 180 in
  let sinAlt := Math_sin decRad * Math_sin latRad +
                Math_cos decRad * Math_cos latRad * Math_cos haRad in
  let altitude := Math_asin sinAlt * 180 / Math_PI in
  let cosAz := (Math_sin decRad - Math_sin latRad * sinAlt) /
               (Math_cos latRad * Math_cos (Math_asin sinAlt)) in
  let azimuth := Math_acos (Math_max (-1) (Math_min 1 cosAz)) * 180 / Math_PI in
  let azimuth := if Math_sin haRad >? 0 then 360 - azimuth else azimuth in
  Some {| azimuth := azimuth; altitude := altitude |}.

(** [calculateAngularDistance] *)
Definition calculateAngularDistance (coord1 coord2 : CelestialCoordinate) : number :=
  let ra1Rad := (ra coord1 * Math_PI) / 180 in
  let dec1Rad := (dec coord1 * Math_PI) / 180 in
  let ra2Rad := (ra coord2 * Math_PI) / 180 in
  let dec2Rad := (dec coord2 * Math_PI) / 180 in
  let deltaRa := ra2Rad - ra1Rad in
  let distance := Math_acos
    (Math_sin dec1Rad * Math_sin dec2Rad +
     Math_cos dec1Rad * Math_cos dec2Rad * Math_cos deltaRa) in
  (distance * 180) / Math_PI.

(** ** Kepler solver *)

(** The body of the Newton-Raphson [for] loop of [solveKeplerEquation], run
    at most [n] times from the estimate [E]. *)
Fixpoint newton_raphson (n : nat) (eccentricity M E : number) : number :=
  match n with
  | O => E
  | S n' =>
      let dE := (E - eccentricity * Math_sin E - M) / (1 - eccentricity * Math_cos E) in
      let E := E - dE in
      if Math_abs dE <? 1e-8 then E else newton_raphson n' eccentricity M E
  end.

(** [solveKeplerEquation] *)
Definition solveKeplerEquation (meanAnomaly eccentricity : number) : number :=
  let M := meanAnomaly * Math_PI / 180 in
  let E := newton_raphson 10 eccentricity M M in
  E * 180 / Math_PI.

(** [calculateTrueAnomaly] *)
Definition calculateTrueAnomaly (fuel : nat) (eccentricAnomaly eccentricity : number)
  : option number :=
  let E := eccentricAnomaly * Math_PI / 180 in
  let nu := 2 * Math_atan2
    (Math_sqrt (1 + eccentricity) * Math_sin (E / 2))
    (Math_sqrt (1 - eccentricity) * Math_cos (E / 2)) in
  normalizeAngle fuel (nu * 180 / Math_PI).

(** [calculateSunPosition] *)
Definition calculateSunPosition (fuel : nat) (timestamp : Date) : option CelestialCoordinate :=
  let jd := dateToJulianDay timestamp in
  let n := jd - 2451545.0 in
  L <- normalizeAngle fuel (280.460 + 0.9856474 * n) ;;
  g0 <- normalizeAngle fuel (357.528 + 0.9856003 * n) ;;
  let g := g0 * Math_PI / 180 in
  lambda <- normalizeAngle fuel (L + 1.915 * Math_sin g + 0.020 * Math_sin (2 * g)) ;;
  let lambdaRad := lambda * Math_PI / 180 in
  let obliquity := 23.439 * Math_PI / 180 in
  let ra := Math_atan2 (Math_cos obliquity * Math_sin lambdaRad) (Math_cos lambdaRad)
            * 180 / Math_PI in
  let dec := Math_asin (Math_sin obliquity * Math_sin lambdaRad) * 180 / Math_PI in
  ra <- normalizeAngle fuel ra ;;
  Some {| ra := ra; dec := dec |}.

End Geometry.

(** ** Catalog entries *)

Module Star.
Record t : Type := {
  id : string;
  name : string;
  commonName : option string;
  ra : number;          (* right ascension in degrees *)
  dec : number;         (* declination in degrees *)
  magnitude : number;   (* visual magnitude *)
  spectralClass : option string;
  constellation : option string
}.
End Star.

Module Line.
Record t : Type := { from : string; to : string }.
End Line.

Module Constellation.
Record t : Type := {
  id : string;
  name : string;
  abbreviation : string;
  stars : list string;
  lines : list Line.t;
  mythology : option string
}.
End Constellation.

Module PlanetType.
Variant t : Type := planet | sun.
End PlanetType.

Module OrbitalElements.
Record t : Type := {
  semiMajorAxis : number;             (* AU *)
  eccentricity : number;
  inclination : number;               (* degrees *)
  longitudeOfAscendingNode : number;  (* degrees *)
  argumentOfPeriapsis : number;       (* degrees *)
  meanAnomalyAtEpoch : number;        (* degrees *)
  epoch : number;                     (* Julian day *)
  dailyMotion : number                (* degrees per day *)
}.
End OrbitalElements.

Module PhysicalData.
Record t : Type := {
  mass : number;
  diameter : number;
  distanceFromSun : number;
  orbitalPeriod : number;
  rotationPeriod : number
}.
End PhysicalData.

Module Planet.
Record t : Type := {
  id : string;
  name : string;
  commonName : string;
  type : PlanetType.t;
  color : number;
  radius : number;
  orbitalElements : OrbitalElements.t;
  physicalData : PhysicalData.t
}.
End Planet.

(** ** Planet positions *)

Record Vector3 : Type := { x : number; y : number; z : number }.

Section Orbits.
Context {M : MathLib}.

(** [calculateHeliocentricCoordinates] *)
Definition calculateHeliocentricCoordinates (planet : Planet.t) (trueAnomaly : number)
  : Vector3 :=
  let el := Planet.orbitalElements planet in
  let nu := trueAnomaly * Math_PI / 180 in
  let omega := OrbitalElements.argumentOfPeriapsis el * Math_PI / 180 in
  let Omega := OrbitalElements.longitudeOfAscendingNode el * Math_PI / 180 in
  let i := OrbitalElements.inclination el * Math_PI / 180 in
  let e := OrbitalElements.eccentricity el in
  let a := OrbitalElements.semiMajorAxis el in
  let r := a * (1 - e * e) / (1 + e * Math_cos nu) in
  let xOrb := r * Math_cos nu in
  let yOrb := r * Math_sin nu in
  let x := xOrb * (Math_cos omega * Math_cos Omega - Math_sin omega * Math_sin Omega * Math_cos i) +
           yOrb * (- Math_sin omega * Math_cos Omega - Math_cos omega * Math_sin Omega * Math_cos i) in
  let y := xOrb * (Math_cos omega * Math_sin Omega + Math_sin omega * Math_cos Omega * Math_cos i) +
           yOrb * (- Math_sin omega * Math_sin Omega + Math_cos omega * Math_cos Omega * Math_cos i) in
  let z := xOrb * (Math_sin omega * Math_sin i) +
           yOrb * (Math_cos omega * Math_sin i) in
  {| x := x; y := y; z := z |}.

(** [heliocentricToGeocentric]; the sun position and the timestamp it is
    passed are not used. *)
Definition heliocentricToGeocentric (fuel : nat) (helioCoords : Vector3)
    (sunPos : CelestialCoordinate) (timestamp : Date) : option CelestialCoordinate :=
  let x := x helioCoords in
  let y := y helioCoords in
  let z := z helioCoords in
  let distance := Math_sqrt (x * x + y * y + z * z) in
  let longitude := Math_atan2 y x * 180 / Math_PI in
  let latitude := Math_asin (z / distance) * 180 / Math_PI in
  let obliquity := 23.439 * Math_PI / 180 in
  let lambdaRad := longitude * Math_PI / 180 in
  let betaRad := latitude * Math_PI / 180 in
  let ra := Math_atan2
    (Math_cos obliquity * Math_sin lambdaRad - Math_sin obliquity * Math_tan betaRad)
    (Math_cos lambdaRad) * 180 / Math_PI in
  let dec := Math_asin
    (Math_sin obliquity * Math_sin lambdaRad + Math_cos obliquity * Math_sin betaRad)
    * 180 / Math_PI in
  ra <- normalizeAngle fuel ra ;;
  Some {| ra := ra; dec := dec |}.

(** [calculatePlanetPosition] *)
Definition calculatePlanetPosition (fuel : nat) (planet : Planet.t) (timestamp : Date)
  : option CelestialCoordinate :=
  match Planet.type planet with
  | PlanetType.sun => calculateSunPosition fuel timestamp
  | PlanetType.planet =>
      let el := Planet.orbitalElements planet in
      let jd := dateToJulianDay timestamp in
      let t := (jd - OrbitalElements.epoch el) / 365.25 in
      meanAnomaly <- normalizeAngle fuel
        (OrbitalElements.meanAnomalyAtEpoch el +
         OrbitalElements.dailyMotion el * (jd - OrbitalElements.epoch el)) ;;
      let eccentricAnomaly := solveKeplerEquation meanAnomaly (OrbitalElements.eccentricity el) in
      trueAnomaly <- calculateTrueAnomaly fuel eccentricAnomaly (OrbitalElements.eccentricity el) ;;
      let helioCoords := calculateHeliocentricCoordinates planet trueAnomaly in
      sunPos <- calculateSunPosition fuel timestamp ;;
      heliocentricToGeocentric fuel helioCoords sunPos timestamp
  end.

End Orbits.

(** ** Strings

    Catalog names are ASCII; strings are modelled by [string] and the three
    methods the search uses are written out for ASCII text. *)

Definition lower_ascii (c : ascii) : ascii :=
  let n := nat_of_ascii c in
  if (65 <=? n)%nat && (n <=? 90)%nat then ascii_of_nat (n + 32) else c.

(** [String.prototype.toLowerCase] *)
Fixpoint toLowerCase (s : string) : string :=
  match s with
  | EmptyString => EmptyString
  | String c s' => String (lower_ascii c) (toLowerCase s')
  end.

Definition is_white_space (c : ascii) : bool :=
  let n := nat_of_ascii c in
  (n =? 32)%nat || ((9 <=? n)%nat && (n <=? 13)%nat).

Fixpoint trimStart (s : string) : string :=
  match s with
  | EmptyString => EmptyString
  | String c s' => if is_white_space c then trimStart s' else s
  end.

Fixpoint trimEnd (s : string) : string :=
  match s with
  | EmptyString => EmptyString
  | String c s' =>
      match trimEnd s' with
      | EmptyString => if is_white_space c then EmptyString else String c EmptyString
      | t => String c t
      end
  end.

(** [String.prototype.trim] *)
Definition trim (s : string) : string := trimEnd (trimStart s).

(** [String.prototype.includes] *)
Fixpoint includes (s searchString : string) : bool :=
  prefix searchString s ||
  match s with
  | EmptyString => false
  | String _ s' => includes s' searchString
  end.

(** ** Maps and arrays *)

(** A JavaScript [Map] with string keys.  Iteration follows insertion order,
    and setting a key that is present replaces its value in place. *)
Module JsMap.

Definition t (V : Type) : Type := list (string * V).

Definition empty {V : Type} : t V := [].

Fixpoint set {V : Type} (key : string) (value : V) (m : t V) : t V :=
  match m with
  | [] => [(key, value)]
  | (k, v) :: m' =>
      if String.eqb k key then (key, value) :: m' else (k, v) :: set key value m'
  end.

Fixpoint get {V : Type} (key : string) (m : t V) : option V :=
  match m with
  | [] => None
  | (k, v) :: m' => if String.eqb k key then Some v else get key m'
  end.

Definition values {V : Type} (m : t V) : list V := map snd m.

Definition size {V : Type} (m : t V) : number := Number.of_Z (Z.of_nat (List.length m)).

End JsMap.

(** [Array.prototype.sort] with a comparator.  ECMAScript reads a NaN result
    as +0 and requires the sort to be stable; for a consistent comparator the
    result is then the one of insertion sort. *)
Section ArraySort.
Context {A : Type} (comparefn : A -> A -> number).

Definition SortCompare (a b : A) : number :=
  let v := comparefn a b in
  if is_nan v then 0 else v.

Fixpoint sort_insert (a : A) (sorted : list A) : list A :=
  match sorted with
  | [] => [a]
  | b :: rest =>
      if SortCompare a b >? 0 then b :: sort_insert a rest else a :: b :: rest
  end.

Definition Array_sort (l : list A) : list A := fold_right sort_insert [] l.

End ArraySort.

(** ** Completions *)

Variant JsError : Type := Error (message : string).

Variant completion (A : Type) : Type :=
| Normal (value : A)
| Throw (error : JsError).
Arguments Normal {A} value.
Arguments Throw {A} error.

(** ** The service *)

Module StarData.
Record t : Type := { stars : list Star.t; constellations : list Constellation.t }.
End StarData.

Module PlanetData.
Record t : Type := { planets : list Planet.t }.
End PlanetData.

(** The fields of a [StarCatalogService] object.  [STAR_DATA] and
    [PLANET_DATA] are its two read-only data fields. *)
Record StarCatalogService : Type := {
  stars : JsMap.t Star.t;
  constellations : JsMap.t Constellation.t;
  planets : JsMap.t Planet.t;
  isInitialized : bool;
  STAR_DATA : StarData.t;
  PLANET_DATA : PlanetData.t
}.

(** The object as its field initialisers leave it, for given embedded data. *)
Definition new_StarCatalogService (starData : StarData.t) (planetData : PlanetData.t)
  : StarCatalogService :=
  {| stars := JsMap.empty; constellations := JsMap.empty; planets := JsMap.empty;
     isInitialized := false; STAR_DATA := starData; PLANET_DATA := planetData |}.

Definition not_initialized : JsError := Error "Star catalog not initialized".

(** [loadEmbeddedCatalog] *)
Definition loadEmbeddedCatalog (this : StarCatalogService) : completion StarCatalogService :=
  let stars :=
    fold_left (fun m starData => JsMap.set (Star.id starData) starData m)
      (StarData.stars (STAR_DATA this)) (stars this) in
  let constellations :=
    fold_left (fun m constellationData =>
                 JsMap.set (Constellation.id constellationData) constellationData m)
      (StarData.constellations (STAR_DATA this)) (constellations this) in
  Normal {| stars := stars; constellations := constellations; planets := planets this;
            isInitialized := isInitialized this;
            STAR_DATA := STAR_DATA this; PLANET_DATA := PLANET_DATA this |}.

(** [loadPlanetaryData] *)
Definition loadPlanetaryData (this : StarCatalogService) : completion StarCatalogService :=
  let planets :=
    fold_left (fun m planetData => JsMap.set (Planet.id planetData) planetData m)
      (PlanetData.planets (PLANET_DATA this)) (planets this) in
  Normal {| stars := stars this; constellations := constellations this; planets := planets;
            isInitialized := isInitialized this;
            STAR_DATA := STAR_DATA this; PLANET_DATA := PLANET_DATA this |}.

(** [initialize]: the two loads, then the flag; an error of a load is logged
    and thrown again. *)
Definition initialize (this : StarCatalogService) : completion StarCatalogService :=
  match loadEmbeddedCatalog this with
  | Throw error => Throw error
  | Normal this =>
      match loadPlanetaryData this with
      | Throw error => Throw error
      | Normal this =>
          Normal {| stars := stars this; constellations := constellations this;
                    planets := planets this; isInitialized := true;
                    STAR_DATA := STAR_DATA this; PLANET_DATA := PLANET_DATA this |}
      end
  end.

(** The comparator [(a, b) => a.magnitude - b.magnitude]. *)
Definition by_magnitude (a b : Star.t) : number := Star.magnitude a - Star.magnitude b.

(** A planet with its [position] and [horizontal] coordinates, as
    [getVisiblePlanets] returns it. *)
Record VisiblePlanet : Type := {
  body : Planet.t;
  position : CelestialCoordinate;
  horizontal : HorizontalCoordinate
}.

Record Statistics : Type := {
  totalStars : number;
  totalConstellations : number;
  totalPlanets : number;
  brightestStar : option Star.t
}.

Section Queries.
Context {M : MathLib}.

(** [isAboveHorizon] *)
Definition isAboveHorizon (fuel : nat) (star : Star.t) (location : GeolocationCoords)
    (timestamp : Date) : option bool :=
  horizontal <- celestialToHorizontal fuel
                  {| ra := Star.ra star; dec := Star.dec star |} location timestamp ;;
  Some (altitude horizontal >? -0.5).

(** The [for] loop of [getVisibleStars] over the stars still to visit. *)
Fixpoint visible_stars_loop (fuel : nat) (location : GeolocationCoords) (maxMagnitude : number)
    (timestamp : Date) (todo visibleStars : list Star.t) : option (list Star.t) :=
  match todo with
  | [] => Some visibleStars
  | star :: todo =>
      if Star.magnitude star >? maxMagnitude then
        visible_stars_loop fuel location maxMagnitude timestamp todo visibleStars
      else
        above <- isAboveHorizon fuel star location timestamp ;;
        visible_stars_loop fuel location maxMagnitude timestamp todo
          (if above then visibleStars ++ [star] else visibleStars)
  end.

(** [getVisibleStars] (the default [maxMagnitude] is 4.0, the default
    [timestamp] the current time). *)
Definition getVisibleStars (fuel : nat) (this : StarCatalogService)
    (location : GeolocationCoords) (maxMagnitude : number) (timestamp : Date)
  : option (completion (list Star.t)) :=
  if negb (isInitialized this) then Some (Throw not_initialized)
  else
    visibleStars <- visible_stars_loop fuel location maxMagnitude timestamp
                      (JsMap.values (stars this)) [] ;;
    Some (Normal (Array_sort by_magnitude visibleStars)).

(** The [for] loop of [getStarsInView]. *)
Fixpoint stars_in_view_loop (centerCoordinate : CelestialCoordinate)
    (maxDistance maxMagnitude : number) (todo starsInView : list Star.t) : list Star.t :=
  match todo with
  | [] => starsInView
  | star :: todo =>
      if Star.magnitude star >? maxMagnitude then
        stars_in_view_loop centerCoordinate maxDistance maxMagnitude todo starsInView
      else
        let distance := calculateAngularDistance
                          {| ra := Star.ra star; dec := Star.dec star |} centerCoordinate in
        stars_in_view_loop centerCoordinate maxDistance maxMagnitude todo
          (if distance <=? maxDistance then starsInView ++ [star] else starsInView)
  end.

(** [getStarsInView] *)
Definition getStarsInView (this : StarCatalogService) (centerCoordinate : CelestialCoordinate)
    (fieldOfViewDegrees maxMagnitude : number) : completion (list Star.t) :=
  if negb (isInitialized this) then Throw not_initialized
  else
    let maxDistance := fieldOfViewDegrees / 2 in
    let starsInView := stars_in_view_loop centerCoordinate maxDistance maxMagnitude
                         (JsMap.values (stars this)) [] in
    Normal (Array_sort by_magnitude starsInView).

(** [getStar] *)
Definition getStar (this : StarCatalogService) (id : string) : completion (option Star.t) :=
  Normal (JsMap.get id (stars this)).

End Queries.

(** The [for] loop of [searchStars]. *)
Fixpoint search_loop (sanitizedQuery : string) (todo results : list Star.t) : list Star.t :=
  match todo with
  | [] => results
  | star :: todo =>
      let nameMatch := includes (toLowerCase (Star.name star)) sanitizedQuery in
      let commonNameMatch :=
        match Star.commonName star with
        | Some commonName => includes (toLowerCase commonName) sanitizedQuery
        | None => false
        end in
      search_loop sanitizedQuery todo
        (if nameMatch || commonNameMatch then results ++ [star] else results)
  end.

(** [searchStars] *)
Definition searchStars (this : StarCatalogService) (query : string)
  : completion (list Star.t) :=
  if negb (isInitialized this) then Throw not_initialized
  else
    let sanitizedQuery := trim (toLowerCase query) in
    let results := search_loop sanitizedQuery (JsMap.values (stars this)) [] in
    Normal (Array_sort by_magnitude results).

(** [getConstellations] *)
Definition getConstellations (this : StarCatalogService) : completion (list Constellation.t) :=
  Normal (JsMap.values (constellations this)).

(** [getConstellation] *)
Definition getConstellation (this : StarCatalogService) (id : string)
  : completion (option Constellation.t) :=
  Normal (JsMap.get id (constellations this)).

(** [getPlanets] *)
Definition getPlanets (this : StarCatalogService) : completion (list Planet.t) :=
  Normal (JsMap.values (planets this)).

(** [getPlanet] *)
Definition getPlanet (this : StarCatalogService) (id : string) : completion (option Planet.t) :=
  Normal (JsMap.get id (planets this)).

Section PlanetQueries.
Context {M : MathLib}.

(** The [for] loop of [getVisiblePlanets]. *)
Fixpoint visible_planets_loop (fuel : nat) (location : GeolocationCoords) (timestamp : Date)
    (todo : list Planet.t) (visiblePlanets : list VisiblePlanet) : option (list VisiblePlanet) :=
  match todo with
  | [] => Some visiblePlanets
  | planet :: todo =>
      position <- calculatePlanetPosition fuel planet timestamp ;;
      horizontal <- celestialToHorizontal fuel position location timestamp ;;
      visible_planets_loop fuel location timestamp todo
        (if altitude horizontal >? -0.5
         then visiblePlanets ++
              [{| body := planet; position := position; horizontal := horizontal |}]
         else visiblePlanets)
  end.

(** [getVisiblePlanets] *)
Definition getVisiblePlanets (fuel : nat) (this : StarCatalogService)
    (location : GeolocationCoords) (timestamp : Date)
  : option (completion (list VisiblePlanet)) :=
  if negb (isInitialized this) then Some (Throw not_initialized)
  else
    visiblePlanets <- visible_planets_loop fuel location timestamp
                        (JsMap.values (planets this)) [] ;;
    Some (Normal visiblePlanets).

End PlanetQueries.

(** [stars.reduce((brightest, star) => ..., stars[0] || null)]: the callback
    reads [brightest.magnitude], which throws a [TypeError] on [null]. *)
Definition brighter (brightest : option Star.t) (star : Star.t) : completion (option Star.t) :=
  match brightest with
  | None => Throw (Error "Cannot read properties of null (reading 'magnitude')")
  | Some brightest =>
      Normal (Some (if Star.magnitude star <? Star.magnitude brightest then star else brightest))
  end.

Fixpoint reduce {A B : Type} (callbackfn : B -> A -> completion B) (l : list A)
    (initialValue : B) : completion B :=
  match l with
  | [] => Normal initialValue
  | a :: l' =>
      match callbackfn initialValue a with
      | Normal accumulator => reduce callbackfn l' accumulator
      | Throw error => Throw error
      end
  end.

(** [getStatistics] *)
Definition getStatistics (this : StarCatalogService) : completion Statistics :=
  let stars_ := JsMap.values (stars this) in
  match reduce brighter stars_ (hd_error stars_) with
  | Throw error => Throw error
  | Normal brightestStar =>
      Normal {| totalStars := JsMap.size (stars this);
                totalConstellations := JsMap.size (constellations this);
                totalPlanets := JsMap.size (planets this);
                brightestStar := brightestStar |}
  end.

(** ** The embedded data

    [STAR_DATA] and [PLANET_DATA] as the class declares them. *)

Local Open Scope string_scope.
Local Open Scope float_scope.

Definition embedded_stars : list Star.t := [
  {| Star.id := "hip_677"; Star.name := "Alpheratz"; Star.commonName := Some "Alpha Andromedae";
     Star.ra := 2.096916; Star.dec := 29.09043; Star.magnitude := 2.06;
     Star.spectralClass := Some "B8IVpMnHg"; Star.constellation := Some "Andromeda" |};
  {| Star.id := "hip_113881"; Star.name := "Fomalhaut"; Star.commonName := Some "Alpha Piscis Austrini";
     Star.ra := 344.41269; Star.dec := (-29.62224); Star.magnitude := 1.16;
     Star.spectralClass := Some "A3V"; Star.constellation := Some "Piscis Austrinus" |};
  {| Star.id := "hip_21421"; Star.name := "Aldebaran"; Star.commonName := Some "Alpha Tauri";
     Star.ra := 68.98016; Star.dec := 16.5093; Star.magnitude := 0.85;
     Star.spectralClass := Some "K5III"; Star.constellation := Some "Taurus" |};
  {| Star.id := "hip_25336"; Star.name := "Capella"; Star.commonName := Some "Alpha Aurigae";
     Star.ra := 79.17232; Star.dec := 45.99799; Star.magnitude := 0.08;
     Star.spectralClass := Some "G5III"; Star.constellation := Some "Auriga" |};
  {| Star.id := "hip_27989"; Star.name := "Betelgeuse"; Star.commonName := Some "Alpha Orionis";
     Star.ra := 88.79294; Star.dec := 7.40706; Star.magnitude := 0.5;
     Star.spectralClass := Some "M1-M2Ia-Iab"; Star.constellation := Some "Orion" |};
  {| Star.id := "hip_24436"; Star.name := "Bellatrix"; Star.commonName := Some "Gamma Orionis";
     Star.ra := 81.28277; Star.dec := 6.3497; Star.magnitude := 1.64;
     Star.spectralClass := Some "B2III"; Star.constellation := Some "Orion" |};
  {| Star.id := "hip_25930"; Star.name := "Mintaka"; Star.commonName := Some "Delta Orionis";
     Star.ra := 83.00171; Star.dec := (-0.29909); Star.magnitude := 2.23;
     Star.spectralClass := Some "O9.5II"; Star.constellation := Some "Orion" |};
  {| Star.id := "hip_26311"; Star.name := "Alnilam"; Star.commonName := Some "Epsilon Orionis";
     Star.ra := 84.05338; Star.dec := (-1.20191); Star.magnitude := 1.7;
     Star.spectralClass := Some "B0Ia"; Star.constellation := Some "Orion" |};
  {| Star.id := "hip_26727"; Star.name := "Alnitak"; Star.commonName := Some "Zeta Orionis";
     Star.ra := 85.18965; Star.dec := (-1.94258); Star.magnitude := 1.79;
     Star.spectralClass := Some "O9.7Ib"; Star.constellation := Some "Orion" |};
  {| Star.id := "hip_32349"; Star.name := "Sirius"; Star.commonName := Some "Alpha Canis Majoris";
     Star.ra := 101.28715; Star.dec := (-16.71611); Star.magnitude := (-1.46);
     Star.spectralClass := Some "A1V"; Star.constellation := Some "Canis Major" |};
  {| Star.id := "hip_37279"; Star.name := "Procyon"; Star.commonName := Some "Alpha Canis Minoris";
     Star.ra := 114.82563; Star.dec := 5.22499; Star.magnitude := 0.38;
     Star.spectralClass := Some "F5IV-V"; Star.constellation := Some "Canis Minor" |};
  {| Star.id := "hip_69673"; Star.name := "Arcturus"; Star.commonName := Some "Alpha Bootis";
     Star.ra := 213.9153; Star.dec := 19.18241; Star.magnitude := (-0.05);
     Star.spectralClass := Some "K1.5IIIFe-0.5"; Star.constellation := Some "Bootes" |};
  {| Star.id := "hip_91262"; Star.name := "Vega"; Star.commonName := Some "Alpha Lyrae";
     Star.ra := 279.23473; Star.dec := 38.78369; Star.magnitude := 0.03;
     Star.spectralClass := Some "A0V"; Star.constellation := Some "Lyra" |};
  {| Star.id := "hip_102098"; Star.name := "Deneb"; Star.commonName := Some "Alpha Cygni";
     Star.ra := 310.35798; Star.dec := 45.28034; Star.magnitude := 1.25;
     Star.spectralClass := Some "A2Ia"; Star.constellation := Some "Cygnus" |};
  {| Star.id := "hip_97649"; Star.name := "Altair"; Star.commonName := Some "Alpha Aquilae";
     Star.ra := 297.69582; Star.dec := 8.86832; Star.magnitude := 0.77;
     Star.spectralClass := Some "A7V"; Star.constellation := Some "Aquila" |};
  {| Star.id := "hip_61084"; Star.name := "Spica"; Star.commonName := Some "Alpha Virginis";
     Star.ra := 201.29825; Star.dec := (-11.16132); Star.magnitude := 1.04;
     Star.spectralClass := Some "B1III-IV"; Star.constellation := Some "Virgo" |};
  {| Star.id := "hip_68702"; Star.name := "Antares"; Star.commonName := Some "Alpha Scorpii";
     Star.ra := 247.35191; Star.dec := (-26.432); Star.magnitude := 1.09;
     Star.spectralClass := Some "M1.5Iab-Ib"; Star.constellation := Some "Scorpius" |};
  {| Star.id := "hip_54061"; Star.name := "Dubhe"; Star.commonName := Some "Alpha Ursae Majoris";
     Star.ra := 165.93196; Star.dec := 61.75103; Star.magnitude := 1.79;
     Star.spectralClass := Some "K0III"; Star.constellation := Some "Ursa Major" |};
  {| Star.id := "hip_53910"; Star.name := "Merak"; Star.commonName := Some "Beta Ursae Majoris";
     Star.ra := 165.46038; Star.dec := 56.38245; Star.magnitude := 2.37;
     Star.spectralClass := Some "A1V"; Star.constellation := Some "Ursa Major" |};
  {| Star.id := "hip_58001"; Star.name := "Phecda"; Star.commonName := Some "Gamma Ursae Majoris";
     Star.ra := 178.45728; Star.dec := 53.69476; Star.magnitude := 2.44;
     Star.spectralClass := Some "A0V"; Star.constellation := Some "Ursa Major" |};
  {| Star.id := "hip_59774"; Star.name := "Megrez"; Star.commonName := Some "Delta Ursae Majoris";
     Star.ra := 183.85657; Star.dec := 57.03258; Star.magnitude := 3.31;
     Star.spectralClass := Some "A3V"; Star.constellation := Some "Ursa Major" |};
  {| Star.id := "hip_62956"; Star.name := "Alioth"; Star.commonName := Some "Epsilon Ursae Majoris";
     Star.ra := 193.50728; Star.dec := 55.95982; Star.magnitude := 1.77;
     Star.spectralClass := Some "A1III-IVp"; Star.constellation := Some "Ursa Major" |};
  {| Star.id := "hip_65378"; Star.name := "Mizar"; Star.commonName := Some "Zeta Ursae Majoris";
     Star.ra := 200.98142; Star.dec := 54.92535; Star.magnitude := 2.27;
     Star.spectralClass := Some "A2V"; Star.constellation := Some "Ursa Major" |};
  {| Star.id := "hip_67301"; Star.name := "Alkaid"; Star.commonName := Some "Eta Ursae Majoris";
     Star.ra := 206.88513; Star.dec := 49.31324; Star.magnitude := 1.86;
     Star.spectralClass := Some "B3V"; Star.constellation := Some "Ursa Major" |};
  {| Star.id := "hip_11767"; Star.name := "Polaris"; Star.commonName := Some "Alpha Ursae Minoris";
     Star.ra := 37.95456; Star.dec := 89.26411; Star.magnitude := 1.98;
     Star.spectralClass := Some "F7Ib"; Star.constellation := Some "Ursa Minor" |};
  {| Star.id := "hip_85822"; Star.name := "Kochab"; Star.commonName := Some "Beta Ursae Minoris";
     Star.ra := 222.67635; Star.dec := 74.1555; Star.magnitude := 2.08;
     Star.spectralClass := Some "K4III"; Star.constellation := Some "Ursa Minor" |};
  {| Star.id := "hip_82080"; Star.name := "Pherkad"; Star.commonName := Some "Gamma Ursae Minoris";
     Star.ra := 230.18216; Star.dec := 71.83402; Star.magnitude := 3.05;
     Star.spectralClass := Some "A3II-III"; Star.constellation := Some "Ursa Minor" |};
  {| Star.id := "hip_77055"; Star.name := "Yildun"; Star.commonName := Some "Delta Ursae Minoris";
     Star.ra := 211.09729; Star.dec := 86.58638; Star.magnitude := 4.35;
     Star.spectralClass := Some "A1Vn"; Star.constellation := Some "Ursa Minor" |};
  {| Star.id := "hip_75097"; Star.name := "Urodelus"; Star.commonName := Some "Epsilon Ursae Minoris";
     Star.ra := 213.91192; Star.dec := 82.0372; Star.magnitude := 4.23;
     Star.spectralClass := Some "G5III"; Star.constellation := Some "Ursa Minor" |};
  {| Star.id := "hip_79822"; Star.name := "Ahfa al Farkadain"; Star.commonName := Some "Zeta Ursae Minoris";
     Star.ra := 228.05758; Star.dec := 77.79481; Star.magnitude := 4.32;
     Star.spectralClass := Some "A3Vn"; Star.constellation := Some "Ursa Minor" |};
  {| Star.id := "hip_72607"; Star.name := "Anwar al Farkadain"; Star.commonName := Some "Eta Ursae Minoris";
     Star.ra := 211.20944; Star.dec := 73.28879; Star.magnitude := 4.95;
     Star.spectralClass := Some "F5V"; Star.constellation := Some "Ursa Minor" |};
  {| Star.id := "hip_3179"; Star.name := "Caph"; Star.commonName := Some "Beta Cassiopeiae";
     Star.ra := 10.12684; Star.dec := 59.14978; Star.magnitude := 2.27;
     Star.spectralClass := Some "F2III-IV"; Star.constellation := Some "Cassiopeia" |};
  {| Star.id := "hip_746"; Star.name := "Schedar"; Star.commonName := Some "Alpha Cassiopeiae";
     Star.ra := 2.29716; Star.dec := 56.53741; Star.magnitude := 2.23;
     Star.spectralClass := Some "K0IIIa"; Star.constellation := Some "Cassiopeia" |};
  {| Star.id := "hip_4427"; Star.name := "Gamma Cassiopeiae"; Star.commonName := Some "Tsih";
     Star.ra := 14.17713; Star.dec := 60.71674; Star.magnitude := 2.47;
     Star.spectralClass := Some "B0IVe"; Star.constellation := Some "Cassiopeia" |};
  {| Star.id := "hip_6686"; Star.name := "Ruchbah"; Star.commonName := Some "Delta Cassiopeiae";
     Star.ra := 21.45343; Star.dec := 60.23531; Star.magnitude := 2.68;
     Star.spectralClass := Some "A5V"; Star.constellation := Some "Cassiopeia" |};
  {| Star.id := "hip_8886"; Star.name := "Segin"; Star.commonName := Some "Epsilon Cassiopeiae";
     Star.ra := 28.59891; Star.dec := 63.67007; Star.magnitude := 3.38;
     Star.spectralClass := Some "B3III"; Star.constellation := Some "Cassiopeia" |};
  {| Star.id := "hip_49669"; Star.name := "Regulus"; Star.commonName := Some "Alpha Leonis";
     Star.ra := 152.09296; Star.dec := 11.96721; Star.magnitude := 1.35;
     Star.spectralClass := Some "B8IVn"; Star.constellation := Some "Leo" |};
  {| Star.id := "hip_57632"; Star.name := "Denebola"; Star.commonName := Some "Beta Leonis";
     Star.ra := 177.26499; Star.dec := 14.57206; Star.magnitude := 2.14;
     Star.spectralClass := Some "A3V"; Star.constellation := Some "Leo" |};
  {| Star.id := "hip_50583"; Star.name := "Algieba"; Star.commonName := Some "Gamma Leonis";
     Star.ra := 154.99343; Star.dec := 19.84186; Star.magnitude := 2.08;
     Star.spectralClass := Some "K1III"; Star.constellation := Some "Leo" |};
  {| Star.id := "hip_54872"; Star.name := "Zosma"; Star.commonName := Some "Delta Leonis";
     Star.ra := 168.52703; Star.dec := 20.52426; Star.magnitude := 2.56;
     Star.spectralClass := Some "A4V"; Star.constellation := Some "Leo" |};
  {| Star.id := "hip_47908"; Star.name := "Algenubi"; Star.commonName := Some "Epsilon Leonis";
     Star.ra := 146.46707; Star.dec := 23.77435; Star.magnitude := 2.98;
     Star.spectralClass := Some "G1II"; Star.constellation := Some "Leo" |};
  {| Star.id := "hip_46750"; Star.name := "Adhafera"; Star.commonName := Some "Zeta Leonis";
     Star.ra := 143.21396; Star.dec := 23.41735; Star.magnitude := 3.44;
     Star.spectralClass := Some "F0III"; Star.constellation := Some "Leo" |};
  {| Star.id := "hip_55642"; Star.name := "Chort"; Star.commonName := Some "Theta Leonis";
     Star.ra := 170.83844; Star.dec := 15.42958; Star.magnitude := 3.34;
     Star.spectralClass := Some "A2V"; Star.constellation := Some "Leo" |};
  {| Star.id := "hip_54879"; Star.name := "Coxa"; Star.commonName := Some "Iota Leonis";
     Star.ra := 168.56056; Star.dec := 10.53272; Star.magnitude := 3.94;
     Star.spectralClass := Some "F3V"; Star.constellation := Some "Leo" |};
  {| Star.id := "hip_56211"; Star.name := "Chertan"; Star.commonName := Some "Mu Leonis";
     Star.ra := 172.49726; Star.dec := 26.00677; Star.magnitude := 3.88;
     Star.spectralClass := Some "K2III"; Star.constellation := Some "Leo" |};
  {| Star.id := "hip_100453"; Star.name := "Sadr"; Star.commonName := Some "Gamma Cygni";
     Star.ra := 305.55715; Star.dec := 40.25669; Star.magnitude := 2.2;
     Star.spectralClass := Some "F8Ib"; Star.constellation := Some "Cygnus" |};
  {| Star.id := "hip_95947"; Star.name := "Gienah"; Star.commonName := Some "Epsilon Cygni";
     Star.ra := 292.68035; Star.dec := 33.97029; Star.magnitude := 2.46;
     Star.spectralClass := Some "K0III"; Star.constellation := Some "Cygnus" |};
  {| Star.id := "hip_104732"; Star.name := "Albireo"; Star.commonName := Some "Beta Cygni";
     Star.ra := 292.68035; Star.dec := 27.95968; Star.magnitude := 3.08;
     Star.spectralClass := Some "K3II"; Star.constellation := Some "Cygnus" |};
  {| Star.id := "hip_94779"; Star.name := "Fawaris"; Star.commonName := Some "Delta Cygni";
     Star.ra := 289.24498; Star.dec := 45.13081; Star.magnitude := 2.87;
     Star.spectralClass := Some "A0IV"; Star.constellation := Some "Cygnus" |}
].

Definition line (a b : string) : Line.t := {| Line.from := a; Line.to := b |}.

Definition embedded_constellations : list Constellation.t := [
  {| Constellation.id := "orion"; Constellation.name := "Orion";
     Constellation.abbreviation := "Ori";
     Constellation.stars := ["hip_27989"; "hip_24436"; "hip_25930"; "hip_26311"; "hip_26727"];
     Constellation.lines :=
       [line "hip_25930" "hip_26311";
        line "hip_26311" "hip_26727";
        line "hip_24436" "hip_27989";
        line "hip_24436" "hip_25930";
        line "hip_27989" "hip_26311"];
     Constellation.mythology := Some "The Hunter in Greek mythology" |};
  {| Constellation.id := "canis_major"; Constellation.name := "Canis Major";
     Constellation.abbreviation := "CMa";
     Constellation.stars := ["hip_32349"];
     Constellation.lines :=
       [];
     Constellation.mythology := Some "Orion's hunting dog" |};
  {| Constellation.id := "summer_triangle"; Constellation.name := "Summer Triangle";
     Constellation.abbreviation := "ST";
     Constellation.stars := ["hip_91262"; "hip_102098"; "hip_97649"];
     Constellation.lines :=
       [line "hip_91262" "hip_102098";
        line "hip_102098" "hip_97649";
        line "hip_97649" "hip_91262"];
     Constellation.mythology := Some "Three bright stars forming a triangle in summer sky" |};
  {| Constellation.id := "taurus"; Constellation.name := "Taurus";
     Constellation.abbreviation := "Tau";
     Constellation.stars := ["hip_21421"];
     Constellation.lines :=
       [];
     Constellation.mythology := Some "The Bull - contains the bright star Aldebaran" |};
  {| Constellation.id := "ursa_major"; Constellation.name := "Ursa Major";
     Constellation.abbreviation := "UMa";
     Constellation.stars := ["hip_54061"; "hip_53910"; "hip_58001"; "hip_59774"; "hip_62956"; "hip_65378"; "hip_67301"];
     Constellation.lines :=
       [line "hip_54061" "hip_53910";
        line "hip_53910" "hip_58001";
        line "hip_58001" "hip_59774";
        line "hip_59774" "hip_54061";
        line "hip_59774" "hip_62956";
        line "hip_62956" "hip_65378";
        line "hip_65378" "hip_67301"];
     Constellation.mythology := Some "The Great Bear - most recognizable constellation in northern sky" |};
  {| Constellation.id := "ursa_minor"; Constellation.name := "Ursa Minor";
     Constellation.abbreviation := "UMi";
     Constellation.stars := ["hip_11767"; "hip_85822"; "hip_82080"; "hip_77055"; "hip_75097"; "hip_79822"; "hip_72607"];
     Constellation.lines :=
       [line "hip_85822" "hip_82080";
        line "hip_82080" "hip_79822";
        line "hip_79822" "hip_72607";
        line "hip_72607" "hip_85822";
        line "hip_72607" "hip_75097";
        line "hip_75097" "hip_77055";
        line "hip_77055" "hip_11767"];
     Constellation.mythology := Some "The Little Bear - contains Polaris, the North Star" |};
  {| Constellation.id := "cassiopeia"; Constellation.name := "Cassiopeia";
     Constellation.abbreviation := "Cas";
     Constellation.stars := ["hip_746"; "hip_3179"; "hip_4427"; "hip_6686"; "hip_8886"];
     Constellation.lines :=
       [line "hip_746" "hip_3179";
        line "hip_3179" "hip_4427";
        line "hip_4427" "hip_6686";
        line "hip_6686" "hip_8886"];
     Constellation.mythology := Some "The Queen - distinctive W-shaped constellation" |};
  {| Constellation.id := "leo"; Constellation.name := "Leo";
     Constellation.abbreviation := "Leo";
     Constellation.stars := ["hip_49669"; "hip_57632"; "hip_50583"; "hip_54872"; "hip_47908"; "hip_46750"; "hip_55642"; "hip_54879"; "hip_56211"];
     Constellation.lines :=
       [line "hip_49669" "hip_47908";
        line "hip_47908" "hip_56211";
        line "hip_56211" "hip_46750";
        line "hip_46750" "hip_50583";
        line "hip_50583" "hip_47908";
        line "hip_49669" "hip_54872";
        line "hip_54872" "hip_55642";
        line "hip_55642" "hip_57632";
        line "hip_54872" "hip_54879"];
     Constellation.mythology := Some "The Lion - represents the Nemean Lion defeated by Hercules" |};
  {| Constellation.id := "cygnus"; Constellation.name := "Cygnus";
     Constellation.abbreviation := "Cyg";
     Constellation.stars := ["hip_102098"; "hip_100453"; "hip_95947"; "hip_104732"; "hip_94779"];
     Constellation.lines :=
       [line "hip_102098" "hip_100453";
        line "hip_100453" "hip_104732";
        line "hip_95947" "hip_94779";
        line "hip_95947" "hip_100453";
        line "hip_100453" "hip_94779"];
     Constellation.mythology := Some "The Swan - also known as the Northern Cross" |}
].

Definition embedded_STAR_DATA : StarData.t :=
  {| StarData.stars := embedded_stars; StarData.constellations := embedded_constellations |}.

Definition embedded_planets : list Planet.t := [
  {| Planet.id := "sun"; Planet.name := "Sun"; Planet.commonName := "Sol";
     Planet.type := PlanetType.sun; Planet.color := 16766720; Planet.radius := 8;
     Planet.orbitalElements :=
       {| OrbitalElements.semiMajorAxis := 0; OrbitalElements.eccentricity := 0;
          OrbitalElements.inclination := 0;
          OrbitalElements.longitudeOfAscendingNode := 0;
          OrbitalElements.argumentOfPeriapsis := 0;
          OrbitalElements.meanAnomalyAtEpoch := 0;
          OrbitalElements.epoch := 2451545; OrbitalElements.dailyMotion := 0 |};
     Planet.physicalData :=
       {| PhysicalData.mass := 333000; PhysicalData.diameter := 109;
          PhysicalData.distanceFromSun := 0; PhysicalData.orbitalPeriod := 0;
          PhysicalData.rotationPeriod := 25.4 |} |};
  {| Planet.id := "mercury"; Planet.name := "Mercury"; Planet.commonName := "Mercury";
     Planet.type := PlanetType.planet; Planet.color := 16753920; Planet.radius := 2.5;
     Planet.orbitalElements :=
       {| OrbitalElements.semiMajorAxis := 0.38709927; OrbitalElements.eccentricity := 0.20563593;
          OrbitalElements.inclination := 7.00497902;
          OrbitalElements.longitudeOfAscendingNode := 48.33076593;
          OrbitalElements.argumentOfPeriapsis := 77.45779628;
          OrbitalElements.meanAnomalyAtEpoch := 252.2503235;
          OrbitalElements.epoch := 2451545; OrbitalElements.dailyMotion := 4.0923344368 |};
     Planet.physicalData :=
       {| PhysicalData.mass := 0.055; PhysicalData.diameter := 0.383;
          PhysicalData.distanceFromSun := 0.39; PhysicalData.orbitalPeriod := 87.97;
          PhysicalData.rotationPeriod := 58.65 |} |};
  {| Planet.id := "venus"; Planet.name := "Venus"; Planet.commonName := "Venus";
     Planet.type := PlanetType.planet; Planet.color := 16711680; Planet.radius := 3.5;
     Planet.orbitalElements :=
       {| OrbitalElements.semiMajorAxis := 0.72333566; OrbitalElements.eccentricity := 0.00677672;
          OrbitalElements.inclination := 3.39467605;
          OrbitalElements.longitudeOfAscendingNode := 76.67984255;
          OrbitalElements.argumentOfPeriapsis := 131.60246718;
          OrbitalElements.meanAnomalyAtEpoch := 181.9790995;
          OrbitalElements.epoch := 2451545; OrbitalElements.dailyMotion := 1.6021302244 |};
     Planet.physicalData :=
       {| PhysicalData.mass := 0.815; PhysicalData.diameter := 0.949;
          PhysicalData.distanceFromSun := 0.72; PhysicalData.orbitalPeriod := 224.7;
          PhysicalData.rotationPeriod := (-243.02) |} |};
  {| Planet.id := "earth"; Planet.name := "Earth"; Planet.commonName := "Earth";
     Planet.type := PlanetType.planet; Planet.color := 7050198; Planet.radius := 3.5;
     Planet.orbitalElements :=
       {| OrbitalElements.semiMajorAxis := 1.00000261; OrbitalElements.eccentricity := 0.01671123;
          OrbitalElements.inclination := (-1.531e-05);
          OrbitalElements.longitudeOfAscendingNode := 0;
          OrbitalElements.argumentOfPeriapsis := 102.93768193;
          OrbitalElements.meanAnomalyAtEpoch := 100.46457166;
          OrbitalElements.epoch := 2451545; OrbitalElements.dailyMotion := 0.9856002585 |};
     Planet.physicalData :=
       {| PhysicalData.mass := 1; PhysicalData.diameter := 1;
          PhysicalData.distanceFromSun := 1; PhysicalData.orbitalPeriod := 365.25;
          PhysicalData.rotationPeriod := 1 |} |};
  {| Planet.id := "mars"; Planet.name := "Mars"; Planet.commonName := "Mars";
     Planet.type := PlanetType.planet; Planet.color := 16711680; Planet.radius := 3;
     Planet.orbitalElements :=
       {| OrbitalElements.semiMajorAxis := 1.52371034; OrbitalElements.eccentricity := 0.0933941;
          OrbitalElements.inclination := 1.84969142;
          OrbitalElements.longitudeOfAscendingNode := 49.55953891;
          OrbitalElements.argumentOfPeriapsis := (-4.55343205);
          OrbitalElements.meanAnomalyAtEpoch := (-4.55343205);
          OrbitalElements.epoch := 2451545; OrbitalElements.dailyMotion := 0.5240207766 |};
     Planet.physicalData :=
       {| PhysicalData.mass := 0.107; PhysicalData.diameter := 0.532;
          PhysicalData.distanceFromSun := 1.52; PhysicalData.orbitalPeriod := 686.98;
          PhysicalData.rotationPeriod := 1.03 |} |};
  {| Planet.id := "jupiter"; Planet.name := "Jupiter"; Planet.commonName := "Jupiter";
     Planet.type := PlanetType.planet; Planet.color := 8388736; Planet.radius := 6;
     Planet.orbitalElements :=
       {| OrbitalElements.semiMajorAxis := 5.202887; OrbitalElements.eccentricity := 0.04838624;
          OrbitalElements.inclination := 1.30439695;
          OrbitalElements.longitudeOfAscendingNode := 100.47390909;
          OrbitalElements.argumentOfPeriapsis := 273.867409;
          OrbitalElements.meanAnomalyAtEpoch := 19.895114;
          OrbitalElements.epoch := 2451545; OrbitalElements.dailyMotion := 0.0831294023 |};
     Planet.physicalData :=
       {| PhysicalData.mass := 317.8; PhysicalData.diameter := 11.21;
          PhysicalData.distanceFromSun := 5.2; PhysicalData.orbitalPeriod := 4332.59;
          PhysicalData.rotationPeriod := 0.41 |} |};
  {| Planet.id := "saturn"; Planet.name := "Saturn"; Planet.commonName := "Saturn";
     Planet.type := PlanetType.planet; Planet.color := 16711680; Planet.radius := 5.5;
     Planet.orbitalElements :=
       {| OrbitalElements.semiMajorAxis := 9.53667594; OrbitalElements.eccentricity := 0.05386179;
          OrbitalElements.inclination := 2.48599187;
          OrbitalElements.longitudeOfAscendingNode := 113.66242448;
          OrbitalElements.argumentOfPeriapsis := 339.392919;
          OrbitalElements.meanAnomalyAtEpoch := 316.967353;
          OrbitalElements.epoch := 2451545; OrbitalElements.dailyMotion := 0.0334442282 |};
     Planet.physicalData :=
       {| PhysicalData.mass := 95.2; PhysicalData.diameter := 9.45;
          PhysicalData.distanceFromSun := 9.54; PhysicalData.orbitalPeriod := 10759.22;
          PhysicalData.rotationPeriod := 0.45 |} |};
  {| Planet.id := "uranus"; Planet.name := "Uranus"; Planet.commonName := "Uranus";
     Planet.type := PlanetType.planet; Planet.color := 255; Planet.radius := 4.5;
     Planet.orbitalElements :=
       {| OrbitalElements.semiMajorAxis := 19.18916464; OrbitalElements.eccentricity := 0.04725744;
          OrbitalElements.inclination := 0.77263783;
          OrbitalElements.longitudeOfAscendingNode := 74.01692503;
          OrbitalElements.argumentOfPeriapsis := 96.998392;
          OrbitalElements.meanAnomalyAtEpoch := 142.23851;
          OrbitalElements.epoch := 2451545; OrbitalElements.dailyMotion := 0.0116771814 |};
     Planet.physicalData :=
       {| PhysicalData.mass := 14.5; PhysicalData.diameter := 4.01;
          PhysicalData.distanceFromSun := 19.22; PhysicalData.orbitalPeriod := 30688.5;
          PhysicalData.rotationPeriod := (-0.72) |} |};
  {| Planet.id := "neptune"; Planet.name := "Neptune"; Planet.commonName := "Neptune";
     Planet.type := PlanetType.planet; Planet.color := 255; Planet.radius := 4.3;
     Planet.orbitalElements :=
       {| OrbitalElements.semiMajorAxis := 30.06992276; OrbitalElements.eccentricity := 0.00859048;
          OrbitalElements.inclination := 1.77004347;
          OrbitalElements.longitudeOfAscendingNode := 131.78422574;
          OrbitalElements.argumentOfPeriapsis := 272.84611;
          OrbitalElements.meanAnomalyAtEpoch := 260.2471152;
          OrbitalElements.epoch := 2451545; OrbitalElements.dailyMotion := 0.0060190454 |};
     Planet.physicalData :=
       {| PhysicalData.mass := 17.1; PhysicalData.diameter := 3.88;
          PhysicalData.distanceFromSun := 30.05; PhysicalData.orbitalPeriod := 60182;
          PhysicalData.rotationPeriod := 0.67 |} |}
].

Definition embedded_PLANET_DATA : PlanetData.t := {| PlanetData.planets := embedded_planets |}.

(** [getInstance], before any call of [initialize]. *)
Definition getInstance : StarCatalogService :=
  new_StarCatalogService embedded_STAR_DATA embedded_PLANET_DATA.

(** ** A sample of a Math library

    The values of [Math.sin], [Math.cos], [Math.asin] and [Math.acos] at the
    binary64 arguments that the worked examples below reach.  Each listed
    value is the correctly rounded value of the function at that argument.
    At every other argument the sample answers a fixed value inside the range
    of the function; no statement depends on those. *)

Definition sample_sin (x : number) : number :=
  if is_nan x || is_infinity x then nan
  else if x =? 0 then x
  else if x =? 0.6452482244623036 then 0.6013967761004443
  else if x =? 0.5235987755982988 then 0.49999999999999994
  else if x =? -0.008726646259971648 then -0.008726535498373935
  else if x =? 1.5707963267948966 then 1
  else if x =? 4.71238898038469 then -1
  else 0.

Definition sample_cos (x : number) : number :=
  if is_nan x || is_infinity x then nan
  else if x =? 0 then 1
  else if x =? 0.6452482244623036 then 0.7989505101669265
  else if x =? 0.5235987755982988 then 0.8660254037844387
  else if x =? -0.008726646259971648 then 0.9999619230641713
  else if x =? 1.5707963267948966 then 6.123233995736766e-17
  else if x =? 4.71238898038469 then -1.8369701987210297e-16
  else 1.

Definition sample_asin (x : number) : number :=
  if is_nan x || (1 <? x) || (x <? -1) then nan
  else if x =? -0.008726535498373935 then -0.008726646259971648
  else if x =? 0.6013967761004443 then 0.6452482244623036
  else x.

Definition sample_acos (x : number) : number :=
  if is_nan x || (1 <? x) || (x <? -1) then nan
  else if x =? 0 then 1.5707963267948966
  else 0.

#[local] Instance SampleMath : MathLib := {|
  Math_sin := sample_sin;
  Math_cos := sample_cos;
  Math_tan := fun x => if is_nan x || is_infinity x then nan else x;
  Math_asin := sample_asin;
  Math_acos := sample_acos;
  Math_atan2 := fun y x => if is_nan y || is_nan x then nan else 0;
  Math_sqrt := PrimFloat.sqrt
|}.

(** ** The angle loops in exact arithmetic

    The two loops of [normalizeAngle] read over the real numbers, where
    additions and subtractions do not round. *)

Module Exact.
Local Open Scope R_scope.

Fixpoint add_turns (fuel : nat) (angle : R) : option R :=
  if Rlt_dec angle 0 then
    match fuel with
    | O => None
    | S fuel' => add_turns fuel' (angle + 360)
    end
  else Some angle.

Fixpoint drop_turns (fuel : nat) (angle : R) : option R :=
  if Rle_dec 360 angle then
    match fuel with
    | O => None
    | S fuel' => drop_turns fuel' (angle - 360)
    end
  else Some angle.

Definition normalizeAngle (fuel : nat) (angle : R) : option R :=
  angle <- add_turns fuel angle ;;
  drop_turns fuel angle.

End Exact.

(** ** The order of binary64 numbers

    An integer key that orders the numbers other than NaN as [<] does: the
    value scaled by 2^1074, with the infinities beyond every finite key. *)

Local Open Scope Z_scope.

Definition SFkey (f : spec_float) : Z :=
  match f with
  | S754_zero _ => 0
  | S754_nan => 0
  | S754_infinity s => cond_Zopp s (2 ^ 2098)
  | S754_finite s m e => cond_Zopp s (Zpos m * 2 ^ (e + 1074))
  end.

Definition fkey (x : number) : Z := SFkey (Prim2SF x).

(** Zero or a finite non-zero number. *)
Definition SFfinite (f : spec_float) : bool :=
  match f with
  | S754_zero _ | S754_finite _ _ _ => true
  | _ => false
  end.

(** The number of bits that rounding [z * 2^e] shifts out. *)
Definition rounding_shift (z e : Z) : Z :=
  Z.max 0 (fexp prec emax (Zdigits2 z + e) - e).

(** 360 as a binary64 number, its key, and the key of 2^56. *)
Definition SF360 : spec_float := S754_finite false 6333186975989760 (-44).

Definition turn_key : Z := 6333186975989760 * 2 ^ 1030.

Definition magnitude_limit : Z := 2 ^ 1130.

(** A rounded non-zero value keeps its sign and is not zero. *)
Definition signed_nonzero (s : bool) (f : spec_float) : Prop :=
  (exists m e, f = S754_finite s m e) \/ f = S754_infinity s.

Local Close Scope Z_scope.

(** ** Vocabulary of the statements *)

(** Every star id that a constellation names, in its member list or at an
    end of one of its lines, is the id of a star of the data. *)
Definition known_star (d : StarData.t) (id : string) : bool :=
  existsb (fun s => String.eqb (Star.id s) id) (StarData.stars d).

Definition references_exist (d : StarData.t) : bool :=
  forallb (fun c =>
             forallb (known_star d) (Constellation.stars c) &&
             forallb (fun l => known_star d (Line.from l) && known_star d (Line.to l))
                     (Constellation.lines c))
          (StarData.constellations d).

(** The test of the loop of [searchStars] on one star. *)
Definition search_match (sanitizedQuery : string) (star : Star.t) : bool :=
  includes (toLowerCase (Star.name star)) sanitizedQuery ||
  match Star.commonName star with
  | Some commonName => includes (toLowerCase commonName) sanitizedQuery
  | None => false
  end.

(** Brightest first: magnitudes never decrease along the list. *)
Definition brightest_first (l : list Star.t) : Prop :=
  StronglySorted (fun a b => (Star.magnitude a <=? Star.magnitude b) = true) l.

(** The stars of one magnitude come in [result] in the order they have in
    [selected]. *)
Definition ties_in_order_of (selected result : list Star.t) : Prop :=
  forall v : number,
    filter (fun s => Star.magnitude s =? v) result =
    filter (fun s => Star.magnitude s =? v) selected.

Definition finite_magnitudes (l : list Star.t) : Prop :=
  Forall (fun s => is_finite (Star.magnitude s) = true) l.

(** The tests of the loops of [getStarsInView] and [getVisibleStars] on one
    star. *)
Section Tests.
Context {M : MathLib}.

Definition in_view (centerCoordinate : CelestialCoordinate) (maxDistance maxMagnitude : number)
    (star : Star.t) : bool :=
  negb (Star.magnitude star >? maxMagnitude) &&
  (calculateAngularDistance {| ra := Star.ra star; dec := Star.dec star |} centerCoordinate
   <=? maxDistance).

Definition seen_above (fuel : nat) (location : GeolocationCoords) (maxMagnitude : number)
    (timestamp : Date) (star : Star.t) : bool :=
  negb (Star.magnitude star >? maxMagnitude) &&
  match isAboveHorizon fuel star location timestamp with
  | Some above => above
  | None => false
  end.

End Tests.

(** The stars a query selects, in the order of the catalog, and the array it
    returns: the same stars, brightest first, ties in catalog order. *)
Definition sorted_selection (selected result : list Star.t) : Prop :=
  Permutation selected result /\ brightest_first result /\ ties_in_order_of selected result.

(** The ids and magnitudes of the stars a query returns. *)
Definition ids_and_magnitudes (c : completion (list Star.t))
  : completion (list (string * number)) :=
  match c with
  | Normal l => Normal (map (fun s => (Star.id s, Star.magnitude s)) l)
  | Throw error => Throw error
  end.

(** *** Sample inputs *)

Definition north_pole : GeolocationCoords :=
  {| latitude := 90; longitude := 0; altitude_m := None |}.

Definition test_star (id : string) (ra dec magnitude : number) : Star.t :=
  {| Star.id := id; Star.name := id; Star.commonName := None;
     Star.ra := ra; Star.dec := dec; Star.magnitude := magnitude;
     Star.spectralClass := None; Star.constellation := None |}.

(** Two stars on the meridian opposite to the sidereal time of [J2000_noon]
    at longitude 0: one half a degree under the polar horizon, one well
    above it. *)
Definition star_on_margin : Star.t := test_star "on_margin" 10.46061837 (-0.5) 1.
Definition star_high : Star.t := test_star "high" 10.46061837 36.97 2.

Definition horizon_data : StarData.t :=
  {| StarData.stars := [star_on_margin; star_high]; StarData.constellations := [] |}.

(** Vega, as the embedded data lists it. *)
Definition star_vega : Star.t :=
  {| Star.id := "hip_91262"; Star.name := "Vega"; Star.commonName := Some "Alpha Lyrae";
     Star.ra := 279.23473; Star.dec := 38.78369; Star.magnitude := 0.03;
     Star.spectralClass := Some "A0V"; Star.constellation := Some "Lyra" |}.

Definition no_planets : PlanetData.t := {| PlanetData.planets := [] |}.

(** The service over [data], after [initialize]. *)
Definition initialized (starData : StarData.t) (planetData : PlanetData.t)
  : StarCatalogService :=
  match initialize (new_StarCatalogService starData planetData) with
  | Normal this => this
  | Throw _ => new_StarCatalogService starData planetData
  end.

(** An observer at latitude 36.97 on the Greenwich meridian, and the point
    of the sky at the zenith there at the J2000.0 epoch (the sidereal time is
    then 280.46061837 degrees). *)
Definition zenith_observer : GeolocationCoords :=
  {| latitude := 36.97; longitude := 0; altitude_m := None |}.

Definition zenith_star : CelestialCoordinate := {| ra := 280.46061837; dec := 36.97 |}.

(** Data whose only constellation names a star that is not there. *)
Definition dangling_data : StarData.t :=
  {| StarData.stars := [test_star "hip_1" 0 0 1];
     StarData.constellations :=
       [{| Constellation.id := "ghost"; Constellation.name := "Ghost";
           Constellation.abbreviation := "Gho";
           Constellation.stars := ["hip_1"; "hip_404"];
           Constellation.lines := [line "hip_1" "hip_404"];
           Constellation.mythology := None |}] |}.

(** ** The rendering helpers of the AR view

    Two pure functions of [ARStargazer.tsx], which draws the stars that the
    service lists. *)

(** [getStarSize] *)
Definition getStarSize (magnitude : number) : number :=
  if magnitude <? 0 then 2.0
  else if magnitude <? 1 then 1.5
  else if magnitude <? 2 then 1.2
  else if magnitude <? 3 then 1.0
  else 0.8.

(** [getStarOpacity] *)
Definition getStarOpacity (magnitude : number) : number :=
  let clampedMagnitude := Math_max (-2) (Math_min 6 magnitude) in
  Math_max 0.7 (Math_min 1.0 (1.0 - (clampedMagnitude + 2) / 8)).

(** ** Vocabulary of the further properties *)

(** Loading a list of entries into a map, each under its own id: the loops
    of [loadEmbeddedCatalog] and [loadPlanetaryData]. *)
Definition load_entries {A : Type} (key : A -> string) (l : list A) (m : JsMap.t A) : JsMap.t A :=
  fold_left (fun m x => JsMap.set (key x) x m) l m.

(** The last entry of [data] with the id [id]. *)
Definition last_with_id {A : Type} (key : A -> string) (id : string) (data : list A) : option A :=
  find (fun x => String.eqb (key x) id) (rev data).

(** [result] has pairwise distinct ids, holds entries of [data] only, and
    has every id of [data]. *)
Definition distinct_entries_of {A : Type} (key : A -> string) (data result : list A) : Prop :=
  NoDup (map key result) /\ incl result data /\ incl (map key data) (map key result).

(** No string occurs twice. *)
Fixpoint no_repeat (l : list string) : bool :=
  match l with
  | [] => true
  | a :: l' => negb (existsb (String.eqb a) l') && no_repeat l'
  end.

(** A string of ASCII white space only: tab, line feed, vertical tab, form
    feed, carriage return and space. *)
Fixpoint blank (s : string) : bool :=
  match s with
  | EmptyString => true
  | String c s' => is_white_space c && blank s'
  end.

(** The query, lower-cased, occurs in the lower-cased name or common name. *)
Definition names_contain (query : string) (star : Star.t) : bool :=
  includes (toLowerCase (Star.name star)) (toLowerCase query) ||
  match Star.commonName star with
  | Some commonName => includes (toLowerCase commonName) (toLowerCase query)
  | None => false
  end.

Section PlanetTest.
Context {M : MathLib}.

(** The test of the loop of [getVisiblePlanets] on one planet. *)
Definition planet_above (fuel : nat) (location : GeolocationCoords) (timestamp : Date)
    (planet : Planet.t) : bool :=
  match calculatePlanetPosition fuel planet timestamp with
  | Some position =>
      match celestialToHorizontal fuel position location timestamp with
      | Some horizontal => altitude horizontal >? -0.5
      | None => false
      end
  | None => false
  end.

End PlanetTest.

(** A normalized angle: NaN, or a number of [[0,360)]. *)
Definition normalized (r : number) : Prop :=
  is_nan r = true \/ ((0 <=? r) = true /\ (r <? 360) = true).

(** ** The calendar and the Julian Day number

    Integers held by binary64 numbers, the day count of [dateToJulianDay] in
    integer arithmetic, and the Gregorian calendar the service's dates come
    from. *)

Local Open Scope Z_scope.

(** A number that is the integer [X], not negative; zero is +0. *)
Definition SFint (a : spec_float) (X : Z) : Prop :=
  match a with
  | S754_zero false => X = 0
  | S754_finite false m e => Zpos m * 2 ^ (e + 1074) = X * 2 ^ 1074
  | _ => False
  end.

Definition is_int (x : number) (X : Z) : Prop := SFint (Prim2SF x) X.

(** A positive number whose integer part is [N]. *)
Definition SFfloor_is (r : spec_float) (N : Z) : Prop :=
  match r with
  | S754_zero false => N = 0
  | S754_finite false m e =>
      N * 2 ^ 1074 <= Zpos m * 2 ^ (e + 1074) < (N + 1) * 2 ^ 1074
  | _ => False
  end.

(** The day count of [dateToJulianDay], in integers. *)
Definition julian_day_number (date : Date) : Z :=
  let a := (14 - (utcMonth date + 1)) / 12 in
  let y := utcFullYear date + 4800 - a in
  let m := (utcMonth date + 1) + 12 * a - 3 in
  utcDate date + (153 * m + 2) / 5 + 365 * y + y / 4 - y / 100 + y / 400 - 32045.

(** The dates the getters of a JavaScript [Date] can answer, from year 0. *)
Definition date_in_range (date : Date) : Prop :=
  0 <= utcFullYear date <= 275760 /\ 0 <= utcMonth date <= 11 /\ 1 <= utcDate date <= 31.

(** The Gregorian calendar: leap years, the lengths of the months (counted
    from 0, as [getUTCMonth] does) and the day after a date. *)
Definition leap_year (year : Z) : bool :=
  (year mod 4 =? 0) && (negb (year mod 100 =? 0) || (year mod 400 =? 0)).

Definition days_in_month (year month : Z) : Z :=
  if month =? 1 then (if leap_year year then 29 else 28)
  else if (month =? 3) || (month =? 5) || (month =? 8) || (month =? 10) then 30
  else 31.

Definition next_day (date : Date) : Date :=
  if utcDate date <? days_in_month (utcFullYear date) (utcMonth date) then
    {| utcFullYear := utcFullYear date; utcMonth := utcMonth date;
       utcDate := utcDate date + 1;
       utcHours := utcHours date; utcMinutes := utcMinutes date;
       utcSeconds := utcSeconds date |}
  else if utcMonth date <? 11 then
    {| utcFullYear := utcFullYear date; utcMonth := utcMonth date + 1; utcDate := 1;
       utcHours := utcHours date; utcMinutes := utcMinutes date;
       utcSeconds := utcSeconds date |}
  else
    {| utcFullYear := utcFullYear date + 1; utcMonth := 0; utcDate := 1;
       utcHours := utcHours date; utcMinutes := utcMinutes date;
       utcSeconds := utcSeconds date |}.

(** A date of the calendar, at noon UTC. *)
Definition calendar_noon (date : Date) : Prop :=
  0 <= utcFullYear date < 275760 /\ 0 <= utcMonth date <= 11 /\
  1 <= utcDate date <= days_in_month (utcFullYear date) (utcMonth date) /\
  utcHours date = 12 /\ utcMinutes date = 0 /\ utcSeconds date = 0.

(** 2024-02-29, a leap day, at noon and in the evening. *)
Definition leap_day_noon : Date :=
  {| utcFullYear := 2024; utcMonth := 1; utcDate := 29;
     utcHours := 12; utcMinutes := 0; utcSeconds := 0 |}.

Definition leap_day_evening : Date :=
  {| utcFullYear := 2024; utcMonth := 1; utcDate := 29;
     utcHours := 21; utcMinutes := 30; utcSeconds := 15 |}.

(** ** Bounds

    Numbers of bounded magnitude, and the inputs for which the loops of the
    position computations are shown to end. *)

(** A finite number of magnitude at most 2^p. *)
Definition below (x : number) (p : Z) : Prop :=
  is_finite x = true /\ Z.abs (fkey x) <= 2 ^ (p + 1074).

(** The time of day the getters of a [Date] can answer. *)
Definition clock_in_range (date : Date) : Prop :=
  0 <= utcHours date <= 23 /\ 0 <= utcMinutes date <= 59 /\ 0 <= utcSeconds date <= 59.

(** NaN, or a finite number of magnitude at most 2^p. *)
Definition tame (x : number) (p : Z) : Prop := is_nan x = true \/ below x p.

Local Close Scope Z_scope.

(** NaN, or a number from [lo] to [hi]. *)
Definition within (x lo hi : number) : Prop :=
  is_nan x = true \/ ((lo <=? x) = true /\ (x <=? hi) = true).

(** A [Math] library whose sine is NaN or in [[-1, 1]] and whose arc tangent
    is NaN or in [[-4, 4]]. *)
Definition ranges_kept (M : MathLib) : Prop :=
  (forall x, within (Math_sin x) (-1) 1) /\
  (forall y x, within (Math_atan2 y x) (-4) 4).

(** Orbital elements of ordinary size: angles of at most a turn, an epoch
    that is a Julian Day up to 2^22. *)
Definition elements_bounded (planet : Planet.t) : Prop :=
  let el := Planet.orbitalElements planet in
  within (OrbitalElements.meanAnomalyAtEpoch el) (-360) 360 /\
  within (OrbitalElements.dailyMotion el) (-360) 360 /\
  within (OrbitalElements.epoch el) 0 4194304.

(** Mercury, as the embedded data lists it. *)
Definition planet_mercury : Planet.t :=
  {| Planet.id := "mercury"; Planet.name := "Mercury"; Planet.commonName := "Mercury";
     Planet.type := PlanetType.planet; Planet.color := 16753920; Planet.radius := 2.5;
     Planet.orbitalElements :=
       {| OrbitalElements.semiMajorAxis := 0.38709927; OrbitalElements.eccentricity := 0.20563593;
          OrbitalElements.inclination := 7.00497902;
          OrbitalElements.longitudeOfAscendingNode := 48.33076593;
          OrbitalElements.argumentOfPeriapsis := 77.45779628;
          OrbitalElements.meanAnomalyAtEpoch := 252.2503235;
          OrbitalElements.epoch := 2451545; OrbitalElements.dailyMotion := 4.0923344368 |};
     Planet.physicalData :=
       {| PhysicalData.mass := 0.055; PhysicalData.diameter := 0.383;
          PhysicalData.distanceFromSun := 0.39; PhysicalData.orbitalPeriod := 87.97;
          PhysicalData.rotationPeriod := 58.65 |} |}.

(** ** A second sample of a Math library

    The correctly rounded values of the functions at the arguments that the
    queries reach on the embedded catalog: [getVisibleStars] (magnitude
    limit 0.5) and [getVisiblePlanets] for an observer in San Francisco on
    2024-02-29 at 21:30:15 UTC, [getStarsInView] (magnitude limit 0.5)
    around a direction of the winter sky.  Elsewhere the functions answer as
    at 0. *)

Definition lookup (table : list (number * number)) (otherwise x : number) : number :=
  match find (fun entry => x =? fst entry) table with
  | Some entry => snd entry
  | None => otherwise
  end.

Definition lookup2 (table : list (number * number * number)) (otherwise y x : number)
  : number :=
  match find (fun entry => (y =? fst (fst entry)) && (x =? snd (fst entry))) table with
  | Some entry => snd entry
  | None => otherwise
  end.

Definition sky_sin_table : list (number * number) := [
  (0.8028163747994266, 0.7193154305037763); (0.659296379611606, 0.6125608456070996);
  (4.889710100159624, (-0.9843197607729787)); (0.1292775848927712, 0.12891778956326455);
  (4.721798605076408, (-0.999955729808226)); ((-0.2917511576255493), (-0.2876298218732255));
  (4.503733503140807, (-0.9783103097054091)); (0.09119327888377853, 0.0910669342918372);
  (4.267442451425405, (-0.9026336811366141)); (0.33479621296748546, 0.3285767044740062);
  (2.5380014552107553, 0.5676027699365963); (0.6769030865727996, 0.6263819371398619);
  (1.3979623361847955, 0.985101348501961); (0.9746084709544525, 0.8274821111391962);
  (1.949216941908905, 0.9292493032596707); (5.947939697135971, (-0.32900111661252684));
  (0.40908772337495086, 0.3977724943404499); ((-0.13124405023721586), (-0.13086759479575805));
  (0.29772629406340334, 0.29334729040535173); (0.15223322189998004, 0.15164590321871968);
  (0.19137241079620942, 0.19020642990871442); (0.19133994343476435, 0.19017455516733012);
  (0.09566997170446796, 0.0955240980259716); (0.2353534611427102, 0.23318671699055527);
  (1.3518935764250155, 0.9761363141866615); (0.8435309954891993, 0.7469952812266907);
  (0.12225994793212572, 0.1219555954958008); (2.4309017293633097, 0.6523575859874251);
  (0.12224332204770018, 0.12193909369748031); (0.38048096508110646, 0.37136708175549804);
  (3.757393153400775, (-0.5776121643479417)); (4.9115796471665725, (-0.980227046530808));
  (4.904928003409522, (-0.9815215532385229)); (4.9049281506172, (-0.9815215250700855));
  (2.4524640753085993, 0.6358648600935626); (4.898272286753051, (-0.9827733860486375));
  (2.296896356038777, 0.7477695008675163); (1.3383157224083446, 0.973097877863491);
  (0.05924827411109565, 0.05921361641934489); (2.2494487591363757, 0.7784193536254975);
  (0.04683848237210373, 0.04682135820112143); (0.36033918891553407, 0.35259165883325794);
  (3.9665230760584254, (-0.734500568150071)); (2.771184174799518, 0.36199623773198814);
  (2.777140785892287, 0.3564372174719979); (2.777140680762706, 0.35643731569659);
  (1.3885703403813532, 0.9834427382397892); (2.783051437911083, 0.3509085873177685);
  (1.796601474049171, 0.9746141576524492); (0.0, 0.0);
  ((-2.6720990848033185e-07), (-2.6720990848032867e-07)); ((-1.7035323952193373), (-0.9912034948242058));
  (2.648593951373612e-07, 2.648593951373581e-07); ((-0.40527689871058153), (-0.39427324353091625));
  (1.703653908166644, 0.9911874056767801); (5.238386489586237, (-0.8648235466124853));
  (5.153643390128978, (-0.9042166489115379)); (5.153950228054172, (-0.9040855638296625));
  (2.576975116097314, 0.5350927533854555); (5.067655693540364, (-0.9375537485470877));
  ((-0.07947238153833505), (-0.07938875188733427)); (0.8649771297497417, 0.7610804288705494);
  (0.03228320542488929, 0.03227759809551506); ((-0.4298882718224301), (-0.41676924274079963));
  ((-0.031062796863537988), (-0.031057801702810663)); ((-0.1955176822779541), (-0.19427437996786648));
  (0.37491705802496755, 0.36619534968632955); (0.5854708567225466, 0.5525918800430588);
  (0.6133322847981078, 0.5755955750832339); (0.61332132886706, 0.5755866160057479);
  (0.3066606644326599, 0.30187678011440316); (0.6417489782036149, 0.5985973752572155);
  (4.7798880009559515, (-0.9977228059049978)); (1.7536005259699599, 0.9833377906228251);
  (0.02276602153047185, 0.022764055007962785); (0.8921802846205577, 0.7784421968417837);
  ((-0.01727540432308866), (-0.017274545058467115)); (0.29819335790691637, 0.2937937742036377);
  (5.417019341332929, (-0.7618510383362196)); (4.40042727674306, (-0.9517333032084275));
  (4.349998879368701, (-0.9350521802839079)); (4.350062478178951, (-0.935074724814241));
  (2.1750312391394497, 0.8229370097038181); (4.30014837297448, (-0.9162253944300818));
  (5.92352389450442, (-0.35195733028669385)); (1.9837835429754036, 0.9159260004105776);
  (0.04338874330931085, 0.04337513077195402); ((-0.3593854318267707), (-0.3516989943841006));
  ((-0.031086988310576904), (-0.031081981470566167)); ((-0.16921986604893), (-0.1684134095237185));
  (0.30842977053358767, 0.3035628787453144); (4.281192474987092, (-0.9084663109796469));
  (4.239092231207508, (-0.8900703933860395)); (4.239129229788241, (-0.8900872575844456));
  (2.119564614908212, 0.8531676752811762); (4.197497169787435, (-0.8703460042557448));
  (1.6929413095401276, 0.9925495715006878); (1.2918390439753025, 0.9613430765831165);
  (0.013485074058964219, 0.013484665358803426); (0.8991243654848589, 0.7827823062514911);
  ((-0.005160975760326486), (-0.00516095284934844)); (0.31165484071663335, 0.3066341783903066);
  (5.413301648250341, (-0.7642539120420277)); (5.469295942945101, (-0.7269633999589341));
  (5.463013921517556, (-0.7312627419215962)); (5.463014045713609, (-0.731262657207973));
  (2.7315070228568046, 0.398687860251198); (5.45671359417445, (-0.7355456275043508));
  (4.762062970758626, (-0.9987665010102375)); (2.300068641354461, 0.7456594763314649);
  (0.030893086454925476, 0.030888172717733225); ((-0.04776400739975074), (-0.047745848000363376));
  ((-0.022030052470584927), (-0.022028270564521762)); ((-0.03921262098357531), (-0.03920257267472546));
  (0.023409770909534108, 0.023407632807924017); (0.3490658503988659, 0.3420201433256687)
].

Definition sky_cos_table : list (number * number) := [
  (0.8028163747994266, 0.694683605275932); (0.659296379611606, 0.790423437423964);
  (4.889710100159624, 0.1763933347715442); (0.5674471265347049, 0.843275842602728);
  (0.1292775848927712, 0.9916552846297557); (4.721798605076408, 0.009409485836012038);
  (0.0864530580344771, 0.9962652614083358); ((-0.2917511576255493), 0.9577416590966358);
  (4.503733503140807, (-0.2071447270004876)); ((-0.33948737570928234), 0.9429254952346715);
  (0.09119327888377853, 0.9958447737869021); (4.267442451425405, (-0.4304096161539206));
  ((-0.28692906609114605), 0.9591174960962483); (0.33479621296748546, 0.9444772889154093);
  (2.5380014552107553, (-0.8233025540834326)); ((-0.4261328451441017), 0.9105710528732253);
  (0.6769030865727996, 0.7795163043996669); (1.3979623361847955, 0.17197480390923012);
  (0.5116985855603629, 0.8719140382042088); (0.40908772337495086, 0.9174840831023592);
  (5.947939697135971, 0.9443295321378605); ((-0.13124405023721586), 0.9913998550697762);
  (0.29772629406340334, 0.9560059451759901); (0.7328443153266152, 0.7432746031019755);
  (0.15223322189998004, 0.9884348840651966); (0.19137241079620942, 0.981744118404272);
  (0.19133994343476435, 0.9817502933877372); (0.09566997170446796, 0.9954271177219981);
  (0.2353534611427102, 0.9724319796361938); (1.3518935764250155, 0.21715868881092332);
  (0.8435309954891993, 0.6648293388720576); (0.12225994793212572, 0.992535557412058);
  (2.4309017293633097, (-0.7579113272703207)); (0.38048096508110646, 0.9284861283769431);
  (3.757393153400775, (-0.8163113300679382)); ((-0.38073578186171714), 0.9283914676697286);
  (4.9115796471665725, 0.1978760653780268); (4.904928003409522, 0.1913516149088832);
  (4.9049281506172, 0.19135175939638907); (2.4524640753085993, (-0.7718004144195533));
  (4.898272286753051, 0.1848146955047021); (2.296896356038777, (-0.6639584125322501));
  (1.3383157224083446, 0.2303921007707737); (0.05924827411109565, 0.9982453343895691);
  (2.2494487591363757, (-0.6277446215629909)); (0.36033918891553407, 0.9357772823280182);
  (3.9665230760584254, (-0.6786080720027008)); ((-0.2900035249093238), 0.9582428675510797);
  (2.771184174799518, (-0.932179555594246)); (2.777140785892287, (-0.9343192762652496));
  (2.777140680762706, (-0.934319238793149)); (1.3885703403813532, 0.1812191507634483);
  (2.783051437911083, (-0.9364097198057312)); (1.796601474049171, (-0.22389114253004075));
  (0.0, 1.0); ((-2.6720990848033185e-07), 0.9999999999999643);
  ((-1.7035323952193373), (-0.132346635198182)); ((-0.40527689871058153), 0.9189932586453563);
  (1.703653908166644, (-0.13246707827884707)); ((-0.3445143639398305), 0.9412395821292218);
  (5.238386489586237, 0.502075923765124); (5.153643390128978, 0.42707405895370026);
  (5.153950228054172, 0.42735148680541774); (2.576975116097314, (-0.8447933151217356));
  (5.067655693540364, 0.3478404355236812); ((-0.07947238153833505), 0.9968437320231147);
  (0.8649771297497417, 0.648657521956094); (0.03228320542488929, 0.9994789425801748);
  ((-0.4298882718224301), 0.9090123202164316); ((-0.1955176822779541), 0.9809472285949439);
  (0.37491705802496755, 0.9305379980785883); (0.6466303966006165, 0.7981185134062602);
  (0.5854708567225466, 0.8334519866857825); (0.6133322847981078, 0.8177345131181644);
  (0.61332132886706, 0.8177408192545189); (0.3066606644326599, 0.953346951339207);
  (0.6417489782036149, 0.8010500498315772); (4.7798880009559515, 0.06744777666504702);
  (1.7536005259699599, (-0.18178775957973872)); (0.02276602153047185, 0.9997408653244072);
  (0.8921802846205577, 0.6277162943369701); (0.29819335790691637, 0.9558688289923372);
  (5.417019341332929, 0.6477522638988026); (0.7333605186956783, 0.7429291710315682);
  (4.40042727674306, (-0.3069262445017946)); (4.349998879368701, (-0.35451011289709383));
  (4.350062478178951, (-0.35445064397398324)); (2.1750312391394497, (-0.5681326236537891));
  (4.30014837297448, (-0.4006632334036168)); (5.92352389450442, 0.9360160456196588);
  (1.9837835429754036, (-0.40134718358533766)); (0.04338874330931085, 0.9990588561393747);
  ((-0.3593854318267707), 0.9361131434550058); ((-0.16921986604893), 0.9857164518727464);
  (0.30842977053358767, 0.9528114077024149); (0.6934623926361727, 0.7690374548415014);
  (4.281192474987092, (-0.4179580861940961)); (4.239092231207508, (-0.4558230959677458));
  (4.239129229788241, (-0.45579016431445823)); (2.119564614908212, (-0.5216367681206084));
  (4.197497169787435, (-0.4924406897039063)); (1.6929413095401276, (-0.12184148765425137));
  (1.2918390439753025, 0.27535338949377086); (0.013485074058964219, 0.9999090777666543);
  (0.8991243654848589, 0.6222956379564272); (0.31165484071663335, 0.9518274426821816);
  (5.413301648250341, 0.6449154657228003); (0.7383007909396706, 0.7396132482128391);
  (5.469295942945101, 0.6866762083545248); (5.463013921517556, 0.6820958893567011);
  (5.463014045713609, 0.6820959801766424); (2.7315070228568046, (-0.917086686245265));
  (5.45671359417445, 0.6774751876336363); (4.762062970758626, 0.04965356442157322);
  (2.300068641354461, (-0.6663272059259516)); (0.030893086454925476, 0.9995228465553749);
  ((-0.04776400739975074), 0.9988595166482253); ((-0.03921262098357531), 0.9992312836854553);
  (0.023409770909534108, 0.9997260038262131); (0.8719508761141176, 0.6433342100413026);
  (0.3490658503988659, 0.9396926207859084); (0.18897866635233962, 0.982196610852563);
  (0.02106717126912283, 0.9997780953547897); ((-0.19699793066647797), 0.9806585796682342);
  ((-0.43328898238187996), 0.9075897551011565); ((-2.1627299785965297), (-0.5579667317335082));
  ((-3.3027690976224893), (-0.9870391712940391))
].

Definition sky_tan_table : list (number * number) := [
  (0.12224332204770018, 0.12285589538701422); (0.04683848237210373, 0.046872764555270445);
  (2.648593951373612e-07, 2.648593951373674e-07); ((-0.031062796863537988), (-0.031072791524533037));
  ((-0.01727540432308866), (-0.017277123083154527)); ((-0.031086988310576904), (-0.03109700634706545));
  ((-0.005160975760326486), (-0.005161021582831808)); ((-0.022030052470584927), (-0.022033617061185416))
].

Definition sky_asin_table : list (number * number) := [
  (0.5374810259745539, 0.5674471265347049); (0.0863454046894227, 0.0864530580344771);
  ((-0.33300376940276455), (-0.33948737570928234)); ((-0.28300817776534853), (-0.28692906609114605));
  ((-0.41335258275393183), (-0.4261328451441017)); (0.48965897314603524, 0.5116985855603629);
  ((-0.13086759479575805), (-0.13124405023721586)); (0.6689864455903429, 0.7328443153266152);
  (0.12193909369748031, 0.12224332204770018); (0.37136708175549804, 0.38048096508110646);
  ((-0.3716036635422845), (-0.38073578186171714)); (0.04682135820112143, 0.04683848237210373);
  (0.35259165883325794, 0.36033918891553407); ((-0.2859556028258303), (-0.2900035249093238));
  (2.648593951373581e-07, 2.648593951373612e-07); ((-0.39427324353091625), (-0.40527689871058153));
  ((-0.33773961721007495), (-0.3445143639398305)); ((-0.031057801702810663), (-0.031062796863537988));
  ((-0.19427437996786645), (-0.19551768227795407)); (0.602500488429828, 0.6466303966006165);
  ((-0.017274545058467115), (-0.01727540432308866)); (0.2937937742036377, 0.29819335790691637);
  (0.6693700372965218, 0.7333605186956783); ((-0.031081981470566167), (-0.031086988310576904));
  ((-0.1684134095237185), (-0.16921986604893)); (0.6392037179576677, 0.6934623926361727);
  ((-0.00516095284934844), (-0.005160975760326486)); (0.30663417839030666, 0.3116548407166334);
  (0.6730321263268592, 0.7383007909396706); ((-0.022028270564521762), (-0.022030052470584927));
  ((-0.03920257267472546), (-0.03921262098357531)); (0.765585458450285, 0.8719508761141176)
].

Definition sky_acos_table : list (number * number) := [
  (0.5852202093876715, 0.9456447253615305); (0.09654442592429692, 1.474101289321883);
  ((-0.11222807308608841), 1.683261333303351); (0.348797707268905, 1.2145083886752324);
  (0.8083238089448662, 0.6294968929047257); (0.47365769595203827, 1.0773570383466826);
  ((-0.920273980858759), 2.7395764629701223); (0.8162696538147087, 0.6158726487912036);
  (0.6967845081695787, 0.7998915421207512); ((-0.2518719933344853), 1.8254104523577155);
  ((-0.8929875227966199), 2.674736140173039); ((-0.19794011412406826), 1.770052334732919);
  ((-0.9211985703381697), 2.741946088060616); ((-0.1807005959518387), 1.752495053586943);
  ((-0.9993388692830364), 3.1052277370140455); (0.8871875666713235, 0.4795826551850706);
  (0.9757368520940188, 0.22073470255764197); (0.7842006317309648, 0.6693895000036109);
  (0.8804583143925178, 0.49396833625616765); ((-0.3828258553483892), 1.9636495709426094);
  ((-0.508776597959042), 2.104559443678343)
].

Definition sky_atan2_table : list (number * number * number) := [
  ((-0.30185328781489656), 0.9443295321378605, (-0.3093838406408079));
  (0.10488684855066578, 0.8871953642752759, 0.1176767305713551);
  (0.20004215243389958, (-0.23240967303492258), 2.43090172936331);
  (0.5496590056820192, (-0.7579113272703207), 2.5141346072014064);
  (0.6380157612899053, (-0.7691808311773805), 2.4491361433765255);
  (0.561711620580897, (-0.4529839180472552), 2.249448759136376);
  (0.6955426704564381, (-0.6277446215629909), 2.3050046845437557);
  (0.9916259608557166, 0.17969857386711233, 1.3915257189555414);
  ((-1.0066824006296482), (-0.1344133965752323), (-1.7035323952193373));
  ((-0.9094135349704228), (-0.132346635198182), (-1.715311454744049));
  (0.5595223416485695, (-0.8043771760515355), 2.533827846770182);
  ((-0.6093958745454291), 1.3291488455528324, (-0.4298882718224301));
  ((-0.3700192447504728), 0.9090123202164316, (-0.38657460460237203));
  (0.3090938508011646, 0.9299965526057681, 0.32087448910180744);
  (3.889312559312351, 3.1362442544285543, 0.8921802846205577);
  (0.7210806895613835, 0.6277162943369701, 0.8545084192692523);
  (0.8448087890246472, (-0.5526205353882235), 2.15007418648724);
  ((-3.416420982803619), 9.093448194751266, (-0.35938543182677074));
  ((-0.3103086956093253), 0.9361131434550058, (-0.32008731711099203));
  (0.8730942333536708, (-0.5091619938939482), 2.0987485848937175);
  (15.344277347677295, 12.198381063030073, 0.8991243654848589);
  (0.7202432189482474, 0.6222956379564272, 0.8582261123518399);
  (0.4003966582949774, (-0.9131390825884234), 2.7283567970872253);
  ((-1.4269550125296), 29.852388297370503, (-0.04776400739975074));
  ((-0.03504168875678798), 0.9988595166482253, (-0.03506731748693849))
].

#[local] Instance SkyMath : MathLib := {|
  Math_sin := fun x => if is_nan x || is_infinity x then nan else lookup sky_sin_table 0 x;
  Math_cos := fun x => if is_nan x || is_infinity x then nan else lookup sky_cos_table 1 x;
  Math_tan := fun x => if is_nan x || is_infinity x then nan else lookup sky_tan_table 0 x;
  Math_asin := fun x =>
    if is_nan x || (1 <? x) || (x <? -1) then nan else lookup sky_asin_table 0 x;
  Math_acos := fun x =>
    if is_nan x || (1 <? x) || (x <? -1) then nan
    else lookup sky_acos_table 1.5707963267948966 x;
  Math_atan2 := fun y x => if is_nan y || is_nan x then nan else lookup2 sky_atan2_table 0 y x;
  Math_sqrt := PrimFloat.sqrt
|}.

Definition san_francisco : GeolocationCoords :=
  {| latitude := 37.7749; longitude := -122.4194; altitude_m := None |}.

(** A direction between Orion, Gemini and Auriga. *)
Definition winter_sky : CelestialCoordinate := {| ra := 90; dec := 20 |}.

(** ** Vocabulary of the visible bodies *)

Section VisibleBodies.
Context {M : MathLib}.

(** [result] holds exactly the stars of the catalog that pass the magnitude
    limit and whose computed altitude is strictly above -0.5. *)
Definition stars_above_margin (fuel : nat) (this : StarCatalogService)
    (location : GeolocationCoords) (maxMagnitude : number) (timestamp : Date)
    (result : list Star.t) : Prop :=
  forall star, In star result <->
    In star (JsMap.values (stars this)) /\
    (Star.magnitude star >? maxMagnitude) = false /\
    exists h, celestialToHorizontal fuel {| ra := Star.ra star; dec := Star.dec star |}
                location timestamp = Some h /\
              (altitude h >? -0.5) = true.

(** [result] holds exactly the planets of the catalog whose computed
    altitude is strictly above -0.5, each with its computed position and
    horizontal coordinates. *)
Definition planets_above_margin (fuel : nat) (this : StarCatalogService)
    (location : GeolocationCoords) (timestamp : Date) (result : list VisiblePlanet) : Prop :=
  forall vp, In vp result <->
    In (body vp) (JsMap.values (planets this)) /\
    calculatePlanetPosition fuel (body vp) timestamp = Some (position vp) /\
    celestialToHorizontal fuel (position vp) location timestamp = Some (horizontal vp) /\
    (altitude (horizontal vp) >? -0.5) = true.

End VisibleBodies.

(** The ids of the stars a query returns. *)
Definition star_ids (c : option (completion (list Star.t))) : list string :=
  match c with
  | Some (Normal l) => map Star.id l
  | _ => []
  end.

(** The ids of the planets [getVisiblePlanets] returns, with their computed
    altitudes. *)
Definition planet_ids_and_altitudes (c : option (completion (list VisiblePlanet)))
  : list (string * number) :=
  match c with
  | Some (Normal l) => map (fun vp => (Planet.id (body vp), altitude (horizontal vp))) l
  | _ => []
  end.

(** * Properties *)

(** ** Facts about binary64 arithmetic

    Proved from the specification of the primitive operations
    ([FloatAxioms]) over [spec_float]. *)

Local Open Scope Z_scope.

Lemma digits2_pos_bounds (m : positive) :
  2 ^ (Zpos (digits2_pos m) - 1) <= Zpos m < 2 ^ Zpos (digits2_pos m).
Proof.
  induction m as [m IH | m IH |]; cbn [digits2_pos].
  - rewrite Pos2Z.inj_succ.
    replace (Z.succ (Zpos (digits2_pos m)) - 1) with (Z.succ (Zpos (digits2_pos m) - 1)) by lia.
    rewrite !Z.pow_succ_r by lia. lia.
  - rewrite Pos2Z.inj_succ.
    replace (Z.succ (Zpos (digits2_pos m)) - 1) with (Z.succ (Zpos (digits2_pos m) - 1)) by lia.
    rewrite !Z.pow_succ_r by lia. lia.
  - cbn. lia.
Qed.

Lemma valid_finite_bounds s m e :
  valid_binary (S754_finite s m e) = true ->
  -1074 <= e <= 971 /\ Zpos m < 2 ^ 53 /\ (-1074 < e -> 2 ^ 52 <= Zpos m).
Proof.
  unfold SpecFloat.valid_binary, bounded, canonical_mantissa.
  intros H. apply andb_true_iff in H as [H1 H2].
  apply Z.eqb_eq in H1. apply Z.leb_le in H2.
  unfold fexp, SpecFloat.emin in H1.
  change prec with 53 in H1, H2. change emax with 1024 in H1, H2.
  pose proof (digits2_pos_bounds m) as [Hlo Hhi].
  set (d := Zpos (digits2_pos m)) in *.
  assert (Hd : d <= 53) by lia.
  split; [lia|]. split.
  - apply Z.lt_le_trans with (1 := Hhi). apply Z.pow_le_mono_r; lia.
  - intros He. assert (d = 53) by lia. subst d. rewrite H in Hlo. exact Hlo.
Qed.

Lemma key_finite_lt (m1 m2 : positive) (e1 e2 : Z) :
  valid_binary (S754_finite false m1 e1) = true ->
  valid_binary (S754_finite false m2 e2) = true ->
  e1 < e2 ->
  Zpos m1 * 2 ^ (e1 + 1074) < Zpos m2 * 2 ^ (e2 + 1074).
Proof.
  intros V1 V2 He.
  apply valid_finite_bounds in V1 as (B1 & M1 & _).
  apply valid_finite_bounds in V2 as (B2 & _ & L2).
  specialize (L2 ltac:(lia)).
  assert (P1 : 0 < 2 ^ (e1 + 1074)) by (apply Z.pow_pos_nonneg; lia).
  assert (P2 : 2 * 2 ^ (e1 + 1074) <= 2 ^ (e2 + 1074)).
  { rewrite <- Z.pow_succ_r by lia. apply Z.pow_le_mono_r; lia. }
  change (2 ^ 53) with (2 * 2 ^ 52) in M1.
  assert (0 < 2 ^ 52) by reflexivity.
  nia.
Qed.

Lemma key_bound s m e :
  valid_binary (S754_finite s m e) = true ->
  0 < Zpos m * 2 ^ (e + 1074) < 2 ^ 2098.
Proof.
  intros V. apply valid_finite_bounds in V as (B & Mb & _).
  assert (P1 : 0 < 2 ^ (e + 1074)) by (apply Z.pow_pos_nonneg; lia).
  assert (P2 : 2 ^ (e + 1074) <= 2 ^ 2045) by (apply Z.pow_le_mono_r; lia).
  split; [lia|].
  replace (2 ^ 2098) with (2 ^ 53 * 2 ^ 2045) by (rewrite <- Z.pow_add_r by lia; reflexivity).
  assert (0 < 2 ^ 53) by reflexivity.
  nia.
Qed.

Lemma valid_finite_sign s s' m e :
  valid_binary (S754_finite s m e) = valid_binary (S754_finite s' m e).
Proof. reflexivity. Qed.

Lemma compare_scale (a b p : Z) : 0 < p -> (a * p ?= b * p) = (a ?= b).
Proof.
  intros Hp.
  destruct (Z.compare_spec a b) as [E | E | E].
  - subst. apply Z.compare_refl.
  - apply Z.compare_lt_iff. nia.
  - apply Z.compare_gt_iff. nia.
Qed.

Lemma SFcompare_key (a b : spec_float) :
  valid_binary a = true -> valid_binary b = true ->
  a <> S754_nan -> b <> S754_nan ->
  SFcompare a b = Some (SFkey a ?= SFkey b).
Proof.
  intros Va Vb Na Nb.
  destruct a as [sa | sa | | sa ma ea]; try congruence;
  destruct b as [sb | sb | | sb mb eb]; try congruence; cbn [SFcompare SFkey].
  - reflexivity.
  - destruct sb; reflexivity.
  - pose proof (key_bound _ _ _ Vb). destruct sb; cbn [cond_Zopp]; f_equal; symmetry.
    + apply Z.compare_gt_iff. lia.
    + apply Z.compare_lt_iff. lia.
  - destruct sa; reflexivity.
  - destruct sa, sb; reflexivity.
  - pose proof (key_bound _ _ _ Vb). destruct sa, sb; cbn [cond_Zopp]; f_equal; symmetry;
      first [apply Z.compare_lt_iff; lia | apply Z.compare_gt_iff; lia].
  - pose proof (key_bound _ _ _ Va). destruct sa; cbn [cond_Zopp]; f_equal; symmetry.
    + apply Z.compare_lt_iff. lia.
    + apply Z.compare_gt_iff. lia.
  - pose proof (key_bound _ _ _ Va). destruct sa, sb; cbn [cond_Zopp]; f_equal; symmetry;
      first [apply Z.compare_lt_iff; lia | apply Z.compare_gt_iff; lia].
  - pose proof (key_bound _ _ _ Va) as Ka. pose proof (key_bound _ _ _ Vb) as Kb.
    rewrite (valid_finite_sign sa false) in Va. rewrite (valid_finite_sign sb false) in Vb.
    pose proof (valid_finite_bounds _ _ _ Va) as (Ba & _ & _).
    change (Pos.compare_cont Eq ma mb) with (Pos.compare ma mb).
    rewrite Pos2Z.inj_compare.
    destruct sa, sb; cbn [cond_Zopp]; f_equal.
    + (* both negative *)
      rewrite Z.compare_opp.
      destruct (Z.compare_spec ea eb) as [E | E | E]; symmetry.
      * subst eb. rewrite compare_scale by (apply Z.pow_pos_nonneg; lia).
        apply Z.compare_antisym.
      * apply Z.compare_gt_iff. pose proof (key_finite_lt _ _ _ _ Va Vb E). lia.
      * apply Z.compare_lt_iff. pose proof (key_finite_lt _ _ _ _ Vb Va E). lia.
    + symmetry. apply Z.compare_lt_iff. lia.
    + symmetry. apply Z.compare_gt_iff. lia.
    + destruct (Z.compare_spec ea eb) as [E | E | E]; symmetry.
      * subst eb. apply compare_scale. apply Z.pow_pos_nonneg; lia.
      * apply Z.compare_lt_iff. exact (key_finite_lt _ _ _ _ Va Vb E).
      * apply Z.compare_gt_iff. pose proof (key_finite_lt _ _ _ _ Vb Va E). lia.
Qed.

(** Right shifts keep a mantissa positive. *)

Lemma shr_1_m mrs : 0 <= shr_m mrs -> shr_m (shr_1 mrs) = shr_m mrs / 2.
Proof.
  destruct mrs as [m r s]. cbn [shr_m]. intros Hm.
  destruct m as [| p | p]; [reflexivity | | lia].
  destruct p as [p | p |]; cbn [shr_1 shr_m].
  - rewrite Pos2Z.inj_xI. apply Z.div_unique with (r := 1); lia.
  - rewrite Pos2Z.inj_xO. apply Z.div_unique with (r := 0); lia.
  - reflexivity.
Qed.

Lemma shr_m_iter (p : positive) : forall mrs,
  0 <= shr_m mrs -> shr_m (SpecFloat.iter_pos shr_1 p mrs) = shr_m mrs / 2 ^ Zpos p.
Proof.
  induction p as [p IH | p IH |]; intros mrs Hm; cbn [SpecFloat.iter_pos].
  - assert (H1 : 0 <= shr_m (shr_1 mrs)).
    { rewrite shr_1_m by exact Hm. apply Z.div_pos; lia. }
    assert (H2 : 0 <= shr_m (SpecFloat.iter_pos shr_1 p (shr_1 mrs))).
    { rewrite IH by exact H1. apply Z.div_pos; lia. }
    rewrite IH by exact H2. rewrite IH by exact H1. rewrite shr_1_m by exact Hm.
    rewrite !Z.div_div by lia. f_equal.
    replace (Zpos p~1) with (1 + Zpos p + Zpos p) by lia.
    rewrite !Z.pow_add_r by lia. lia.
  - assert (H2 : 0 <= shr_m (SpecFloat.iter_pos shr_1 p mrs)).
    { rewrite IH by exact Hm. apply Z.div_pos; lia. }
    rewrite IH by exact H2. rewrite IH by exact Hm.
    rewrite !Z.div_div by lia. f_equal.
    replace (Zpos p~0) with (Zpos p + Zpos p) by lia.
    rewrite !Z.pow_add_r by lia. lia.
  - rewrite shr_1_m by exact Hm. reflexivity.
Qed.

Lemma shr_record_of_loc_m m l : shr_m (shr_record_of_loc m l) = m.
Proof. destruct l as [| []]; reflexivity. Qed.

Lemma shr_fexp_pos (m e : Z) (l : location) :
  0 < m -> -1074 <= e ->
  0 < shr_m (fst (shr_fexp prec emax m e l)) /\ -1074 <= snd (shr_fexp prec emax m e l).
Proof.
  intros Hm He. unfold shr_fexp, shr, fexp, SpecFloat.emin.
  change prec with 53. change emax with 1024.
  destruct m as [| p | p]; try lia. cbn [Zdigits2].
  pose proof (digits2_pos_bounds p) as [Hlo Hhi].
  set (d := Zpos (digits2_pos p)) in *.
  destruct (Z.max (d + e - 53) (3 - 1024 - 53) - e) as [| n | n] eqn:En;
    cbn [fst snd]; rewrite ?shr_record_of_loc_m; try (split; lia).
  assert (Hn : Zpos n = d - 53) by lia.
  split; [| lia].
  rewrite shr_m_iter by (rewrite shr_record_of_loc_m; lia).
  rewrite shr_record_of_loc_m.
  apply Z.div_str_pos. split; [apply Z.pow_pos_nonneg; lia |].
  apply Z.le_trans with (2 := Hlo). apply Z.pow_le_mono_r; lia.
Qed.

Lemma round_nearest_even_ge mx lx : mx <= round_nearest_even mx lx.
Proof.
  destruct lx as [| []]; cbn [round_nearest_even]; try lia.
  destruct (Z.even mx); lia.
Qed.

Lemma binary_round_aux_sign sx mx ex lx :
  0 < mx -> -1074 <= ex -> signed_nonzero sx (binary_round_aux prec emax sx mx ex lx).
Proof.
  intros Hm He. unfold binary_round_aux.
  pose proof (shr_fexp_pos mx ex lx Hm He) as [H1 H2].
  destruct (shr_fexp prec emax mx ex lx) as [mrs' e']. cbn [fst snd] in H1, H2.
  pose proof (round_nearest_even_ge (shr_m mrs') (loc_of_shr_record mrs')) as Hr.
  pose proof (shr_fexp_pos (round_nearest_even (shr_m mrs') (loc_of_shr_record mrs')) e'
                loc_Exact ltac:(lia) H2) as [H3 H4].
  destruct (shr_fexp prec emax _ e' loc_Exact) as [mrs'' e'']. cbn [fst snd] in H3, H4.
  destruct (shr_m mrs'') as [| p | p]; try lia.
  destruct (Z.leb e'' (emax - prec)).
  - left. eauto.
  - right. reflexivity.
Qed.

Lemma binary_round_sign sx mx ex :
  -1074 <= ex -> signed_nonzero sx (binary_round prec emax sx mx ex).
Proof.
  intros He. unfold binary_round.
  destruct (shl_align mx ex (fexp prec emax (Zpos (digits2_pos mx) + ex))) as [mz ez] eqn:E.
  apply binary_round_aux_sign; [lia |].
  unfold shl_align in E.
  destruct (fexp prec emax (Zpos (digits2_pos mx) + ex) - ex) eqn:E2; inversion E; subst; try lia.
  unfold fexp, SpecFloat.emin. change prec with 53. change emax with 1024. lia.
Qed.

Lemma binary_normalize_sign (z e : Z) (szero : bool) :
  -1074 <= e ->
  match z with
  | Z0 => binary_normalize prec emax z e szero = S754_zero szero
  | Zpos _ => signed_nonzero false (binary_normalize prec emax z e szero)
  | Zneg _ => signed_nonzero true (binary_normalize prec emax z e szero)
  end.
Proof.
  intros He. destruct z; cbn [binary_normalize]; [reflexivity | |];
    apply binary_round_sign; exact He.
Qed.

Lemma iter_xO_value (m d : positive) : Zpos (Pos.iter xO m d) = Zpos m * 2 ^ Zpos d.
Proof.
  induction d as [| d IH] using Pos.peano_ind.
  - cbn. lia.
  - rewrite Pos.iter_succ, Pos2Z.inj_xO, IH, Pos2Z.inj_succ, Z.pow_succ_r by lia. lia.
Qed.

Lemma shl_align_fst (m : positive) (e e' : Z) :
  e' <= e -> Zpos (fst (shl_align m e e')) = Zpos m * 2 ^ (e - e').
Proof.
  intros H. unfold shl_align.
  destruct (e' - e) as [| d | d] eqn:E; cbn [fst]; try lia.
  - replace (e - e') with 0 by lia. lia.
  - rewrite iter_xO_value. f_equal. f_equal. lia.
Qed.

Lemma key_aligned (s : bool) (m : positive) (e e' : Z) :
  -1074 <= e' <= e ->
  cond_Zopp s (Zpos m * 2 ^ (e + 1074)) =
  cond_Zopp s (Zpos (fst (shl_align m e e'))) * 2 ^ (e' + 1074).
Proof.
  intros H. rewrite shl_align_fst by lia.
  replace (e + 1074) with ((e - e') + (e' + 1074)) by lia.
  rewrite Z.pow_add_r by lia. destruct s; cbn [cond_Zopp]; lia.
Qed.

Lemma signed_nonzero_ltb_zero s f s0 :
  signed_nonzero s f ->
  SFltb f (S754_zero s0) = s /\ SFltb (S754_zero s0) f = negb s /\ f <> S754_nan.
Proof.
  intros [(m & e & ->) | ->]; destruct s; cbn; repeat split; congruence.
Qed.

Lemma SFsub_sign (a b : spec_float) (s0 : bool) :
  valid_binary a = true -> valid_binary b = true ->
  SFfinite a = true -> SFfinite b = true ->
  SFltb (SF64sub a b) (S754_zero s0) = (SFkey a <? SFkey b) /\
  SFltb (S754_zero s0) (SF64sub a b) = (SFkey b <? SFkey a) /\
  SF64sub a b <> S754_nan.
Proof.
  intros Va Vb Fa Fb. unfold SF64sub.
  destruct a as [sa | sa | | sa ma ea]; try discriminate;
  destruct b as [sb | sb | | sb mb eb]; try discriminate; cbn [SFsub SFkey].
  - destruct sa, sb; cbn; repeat split; congruence.
  - pose proof (key_bound _ _ _ Vb) as Kb.
    destruct sb; cbn [negb cond_Zopp]; cbn [SFltb SFcompare]; repeat split; try congruence;
      symmetry; first [apply Z.ltb_lt; lia | apply Z.ltb_ge; lia].
  - pose proof (key_bound _ _ _ Va) as Ka.
    destruct sa; cbn [negb cond_Zopp]; cbn [SFltb SFcompare]; repeat split; try congruence;
      symmetry; first [apply Z.ltb_lt; lia | apply Z.ltb_ge; lia].
  - pose proof (valid_finite_bounds _ _ _ Va) as (Ba & _ & _).
    pose proof (valid_finite_bounds _ _ _ Vb) as (Bb & _ & _).
    set (ez := Z.min ea eb).
    rewrite (key_aligned sa ma ea ez) by lia.
    rewrite (key_aligned sb mb eb ez) by lia.
    set (A := cond_Zopp sa (Zpos (fst (shl_align ma ea ez)))).
    set (B := cond_Zopp sb (Zpos (fst (shl_align mb eb ez)))).
    assert (P : 0 < 2 ^ (ez + 1074)) by (apply Z.pow_pos_nonneg; lia).
    pose proof (binary_normalize_sign (A - B) ez false ltac:(lia)) as Hs.
    destruct (A - B) as [| p | p] eqn:E.
    + rewrite Hs. assert (HAB : A = B) by lia. rewrite HAB. cbn [SFltb SFcompare].
      repeat split; try congruence; symmetry; apply Z.ltb_irrefl.
    + destruct (signed_nonzero_ltb_zero _ _ s0 Hs) as (H1 & H2 & H3).
      rewrite H1, H2. repeat split; try exact H3; symmetry.
      * apply Z.ltb_ge. nia.
      * apply Z.ltb_lt. nia.
    + destruct (signed_nonzero_ltb_zero _ _ s0 Hs) as (H1 & H2 & H3).
      rewrite H1, H2. repeat split; try exact H3; symmetry.
      * apply Z.ltb_lt. nia.
      * apply Z.ltb_ge. nia.
Qed.

(** *** Exact and bounded rounding

    The number of binary digits of a mantissa, right shifts that lose
    nothing, and the value that rounding gives: the value itself when no
    set bit is shifted out, and a value at most one unit of the last
    place above it otherwise. *)

Lemma digits2_pos_unique (m : positive) (d : Z) :
  2 ^ (d - 1) <= Zpos m < 2 ^ d -> Zpos (digits2_pos m) = d.
Proof.
  intros [Hlo Hhi]. pose proof (digits2_pos_bounds m) as [Glo Ghi].
  set (d' := Zpos (digits2_pos m)) in *.
  assert (0 < d) by (destruct d; try lia; cbn in Hhi; lia).
  destruct (Z.lt_trichotomy d' d) as [L | [E | G]]; [exfalso | exact E | exfalso].
  - assert (2 ^ d' <= 2 ^ (d - 1)) by (apply Z.pow_le_mono_r; lia). lia.
  - assert (2 ^ d <= 2 ^ (d' - 1)) by (apply Z.pow_le_mono_r; lia). lia.
Qed.

Lemma digits_div (m : positive) (n : Z) :
  0 <= n < Zpos (digits2_pos m) ->
  exists q : positive, Zpos m / 2 ^ n = Zpos q /\ Zpos (digits2_pos q) = Zpos (digits2_pos m) - n.
Proof.
  intros Hn. pose proof (digits2_pos_bounds m) as [Glo Ghi].
  set (d := Zpos (digits2_pos m)) in *.
  assert (P : 0 < 2 ^ n) by (apply Z.pow_pos_nonneg; lia).
  assert (E1 : 2 ^ (d - 1) = 2 ^ (d - n - 1) * 2 ^ n).
  { rewrite <- Z.pow_add_r by lia. f_equal. lia. }
  assert (E2 : 2 ^ d = 2 ^ (d - n) * 2 ^ n).
  { rewrite <- Z.pow_add_r by lia. f_equal. lia. }
  assert (Q1 : 2 ^ (d - n - 1) <= Zpos m / 2 ^ n).
  { apply Z.div_le_lower_bound; [exact P | lia]. }
  assert (Q2 : Zpos m / 2 ^ n < 2 ^ (d - n)).
  { apply Z.div_lt_upper_bound; [exact P | lia]. }
  assert (0 < 2 ^ (d - n - 1)) by (apply Z.pow_pos_nonneg; lia).
  destruct (Zpos m / 2 ^ n) as [| q | q] eqn:Eq; try lia.
  exists q. split; [reflexivity |]. apply digits2_pos_unique. lia.
Qed.

Lemma shr_1_exact (m : Z) :
  0 <= m -> shr_1 {| shr_m := 2 * m; shr_r := false; shr_s := false |}
            = {| shr_m := m; shr_r := false; shr_s := false |}.
Proof. intros H. destruct m as [| p | p]; try lia; reflexivity. Qed.

Lemma shr_iter_exact (p : positive) : forall m : Z,
  0 <= m ->
  SpecFloat.iter_pos shr_1 p {| shr_m := m * 2 ^ Zpos p; shr_r := false; shr_s := false |}
  = {| shr_m := m; shr_r := false; shr_s := false |}.
Proof.
  induction p as [p IH | p IH |]; intros m Hm; cbn [SpecFloat.iter_pos].
  - assert (P : 0 < 2 ^ Zpos p) by (apply Z.pow_pos_nonneg; lia).
    replace (m * 2 ^ Zpos p~1) with (2 * ((m * 2 ^ Zpos p) * 2 ^ Zpos p)).
    + rewrite shr_1_exact by nia. rewrite IH by nia. apply IH. exact Hm.
    + replace (Zpos p~1) with (1 + Zpos p + Zpos p) by lia.
      rewrite !Z.pow_add_r by lia. lia.
  - assert (P : 0 < 2 ^ Zpos p) by (apply Z.pow_pos_nonneg; lia).
    replace (m * 2 ^ Zpos p~0) with ((m * 2 ^ Zpos p) * 2 ^ Zpos p).
    + rewrite IH by nia. apply IH. exact Hm.
    + replace (Zpos p~0) with (Zpos p + Zpos p) by lia.
      rewrite !Z.pow_add_r by lia. lia.
  - rewrite Z.pow_1_r, Z.mul_comm. apply shr_1_exact. exact Hm.
Qed.

Lemma fexp_value (x : Z) : fexp prec emax x = Z.max (x - 53) (-1074).
Proof. reflexivity. Qed.

Lemma digits2_pos_le (a : positive) (k : Z) :
  0 <= k -> Zpos a <= 2 ^ k -> Zpos (digits2_pos a) <= k + 1.
Proof.
  intros Hk H. pose proof (digits2_pos_bounds a) as [Glo _].
  destruct (Z_le_gt_dec (Zpos (digits2_pos a)) (k + 1)) as [L | G]; [exact L | exfalso].
  assert (2 ^ (k + 1) <= 2 ^ (Zpos (digits2_pos a) - 1)) by (apply Z.pow_le_mono_r; lia).
  rewrite Z.pow_add_r in H0 by lia. assert (0 < 2 ^ k) by (apply Z.pow_pos_nonneg; lia). lia.
Qed.

Lemma shr_fexp_shift (m : positive) (e : Z) (l : location) :
  -1074 <= e ->
  let n := Z.max 0 (fexp prec emax (Zpos (digits2_pos m) + e) - e) in
  snd (shr_fexp prec emax (Zpos m) e l) = e + n /\
  shr_m (fst (shr_fexp prec emax (Zpos m) e l)) = Zpos m / 2 ^ n /\
  (l = loc_Exact -> Zpos m = Zpos m / 2 ^ n * 2 ^ n ->
   loc_of_shr_record (fst (shr_fexp prec emax (Zpos m) e l)) = loc_Exact).
Proof.
  intros He n. unfold shr_fexp, shr. cbn [Zdigits2]. fold n.
  subst n. destruct (fexp prec emax (Zpos (digits2_pos m) + e) - e) as [| p | p] eqn:En;
    cbn [fst snd].
  - change (Z.max 0 0) with 0. rewrite shr_record_of_loc_m, Z.pow_0_r, Z.div_1_r.
    repeat split; [lia |]. intros -> _. reflexivity.
  - replace (Z.max 0 (Zpos p)) with (Zpos p) by lia.
    rewrite shr_m_iter by (rewrite shr_record_of_loc_m; lia).
    rewrite shr_record_of_loc_m. repeat split.
    intros -> H. cbn [shr_record_of_loc]. rewrite H.
    rewrite shr_iter_exact; [reflexivity |].
    apply Z.div_pos; [lia | apply Z.pow_pos_nonneg; lia].
  - replace (Z.max 0 (Zneg p)) with 0 by lia.
    rewrite shr_record_of_loc_m, Z.pow_0_r, Z.div_1_r.
    repeat split; [lia |]. intros -> _. reflexivity.
Qed.

Lemma round_nearest_even_le mx lx : round_nearest_even mx lx <= mx + 1.
Proof.
  destruct lx as [| []]; cbn [round_nearest_even]; try lia.
  destruct (Z.even mx); lia.
Qed.

Lemma binary_round_aux_value (s : bool) (mx : positive) (ex : Z) :
  -1074 <= ex <= 971 -> Zpos (digits2_pos mx) + ex <= 1023 ->
  let n := Z.max 0 (fexp prec emax (Zpos (digits2_pos mx) + ex) - ex) in
  exists m2 e2,
    binary_round_aux prec emax s (Zpos mx) ex loc_Exact = S754_finite s m2 e2 /\
    Zpos m2 * 2 ^ (e2 + 1074) <= (Zpos mx / 2 ^ n + 1) * 2 ^ (ex + n + 1074) /\
    (Zpos mx = Zpos mx / 2 ^ n * 2 ^ n ->
     Zpos m2 * 2 ^ (e2 + 1074) = Zpos mx * 2 ^ (ex + 1074)).
Proof.
  intros He Hd n. unfold binary_round_aux.
  destruct (shr_fexp_shift mx ex loc_Exact ltac:(lia)) as (S1 & S2 & S3).
  fold n in S1, S2, S3.
  pose proof (shr_fexp_pos (Zpos mx) ex loc_Exact ltac:(lia) ltac:(lia)) as [P1 P2].
  destruct (shr_fexp prec emax (Zpos mx) ex loc_Exact) as [mrs' e'].
  cbn [fst snd] in S1, S2, S3, P1, P2.
  pose proof (round_nearest_even_ge (shr_m mrs') (loc_of_shr_record mrs')) as R1.
  pose proof (round_nearest_even_le (shr_m mrs') (loc_of_shr_record mrs')) as R2.
  set (m1' := round_nearest_even (shr_m mrs') (loc_of_shr_record mrs')) in *.
  assert (Hn : 0 <= n) by (subst n; lia).
  pose proof (digits2_pos_bounds mx) as [Dlo Dhi].
  set (d := Zpos (digits2_pos mx)) in *.
  assert (Hnd : n < d).
  { subst n. rewrite fexp_value. assert (0 < d) by (subst d; lia). lia. }
  destruct (digits_div mx n ltac:(fold d; lia)) as (q & Eq & Dq). fold d in Dq.
  rewrite <- S2 in Eq.
  destruct m1' as [| p1 | p1] eqn:E1; try lia.
  assert (Dp1 : Zpos (digits2_pos p1) <= d - n + 1).
  { apply digits2_pos_le; [lia |].
    pose proof (digits2_pos_bounds q) as [_ Qhi]. rewrite Dq in Qhi. lia. }
  destruct (shr_fexp_shift p1 e' loc_Exact ltac:(lia)) as (T1 & T2 & T3).
  pose proof (shr_fexp_pos (Zpos p1) e' loc_Exact ltac:(lia) ltac:(lia)) as [Q1 Q2].
  set (n2 := Z.max 0 (fexp prec emax (Zpos (digits2_pos p1) + e') - e')) in *.
  destruct (shr_fexp prec emax (Zpos p1) e' loc_Exact) as [mrs'' e''].
  cbn [fst snd] in T1, T2, T3, Q1, Q2.
  assert (Hn2 : 0 <= n2) by (subst n2; lia).
  assert (Le : e'' <= 971).
  { rewrite T1. subst n2. rewrite fexp_value. subst n. rewrite fexp_value in *. lia. }
  destruct (shr_m mrs'') as [| m2 | m2] eqn:E2; try lia.
  change (emax - prec) with 971.
  destruct (Z.leb_spec e'' 971) as [_ | ?]; [| lia].
  exists m2, e''. split; [reflexivity |].
  assert (Pn2 : 0 < 2 ^ n2) by (apply Z.pow_pos_nonneg; lia).
  assert (Pe' : 0 < 2 ^ (e' + 1074)) by (apply Z.pow_pos_nonneg; lia).
  assert (V2 : Zpos m2 * 2 ^ (e'' + 1074) <= Zpos p1 * 2 ^ (e' + 1074)).
  { rewrite T1. replace (e' + n2 + 1074) with (n2 + (e' + 1074)) by lia.
    rewrite Z.pow_add_r by lia. rewrite T2.
    pose proof (Z.mul_div_le (Zpos p1) (2 ^ n2) Pn2). nia. }
  split.
  - rewrite <- S1, <- S2. nia.
  - intros Hx. specialize (S3 eq_refl Hx).
    assert (Ep : Zpos p1 = shr_m mrs').
    { rewrite <- E1. subst m1'. rewrite S3. reflexivity. }
    assert (Hz : n2 = 0).
    { assert (Epq : p1 = q) by (apply Pos2Z.inj; congruence).
      subst n2. rewrite Epq, fexp_value, Dq, S1. subst n.
      rewrite fexp_value. lia. }
    rewrite Hz in T1, T2. rewrite Z.pow_0_r, Z.div_1_r in T2.
    rewrite T1, T2, Ep, S1, S2.
    replace (ex + n + 0 + 1074) with (n + (ex + 1074)) by lia.
    rewrite Z.pow_add_r by lia. rewrite Hx at 2. ring.
Qed.

Lemma digits2_pos_lt (a : positive) (k : Z) :
  0 <= k -> Zpos a < 2 ^ k -> Zpos (digits2_pos a) <= k.
Proof.
  intros Hk H. pose proof (digits2_pos_bounds a) as [Glo _].
  destruct (Z_le_gt_dec (Zpos (digits2_pos a)) k) as [L | G]; [exact L | exfalso].
  assert (2 ^ k <= 2 ^ (Zpos (digits2_pos a) - 1)) by (apply Z.pow_le_mono_r; lia).
  lia.
Qed.

Lemma binary_round_value (s : bool) (mx : positive) (ex : Z) :
  -1074 <= ex <= 971 -> Zpos (digits2_pos mx) + ex <= 1023 ->
  let n := Z.max 0 (fexp prec emax (Zpos (digits2_pos mx) + ex) - ex) in
  exists m2 e2,
    binary_round prec emax s mx ex = S754_finite s m2 e2 /\
    Zpos m2 * 2 ^ (e2 + 1074) <= (Zpos mx / 2 ^ n + 1) * 2 ^ (ex + n + 1074) /\
    (Zpos mx = Zpos mx / 2 ^ n * 2 ^ n ->
     Zpos m2 * 2 ^ (e2 + 1074) = Zpos mx * 2 ^ (ex + 1074)).
Proof.
  intros He Hd n. unfold binary_round.
  pose proof (digits2_pos_bounds mx) as [Dlo Dhi].
  set (d := Zpos (digits2_pos mx)) in *.
  set (ez := fexp prec emax (d + ex)) in *.
  assert (Hez : ez = Z.max (d + ex - 53) (-1074)) by reflexivity.
  destruct (Z_lt_le_dec ez ex) as [L | L].
  - (* the mantissa is shifted left to the exponent [ez] *)
    pose proof (shl_align_fst mx ex ez ltac:(lia)) as Hm.
    assert (Hs : snd (shl_align mx ex ez) = ez).
    { unfold shl_align. destruct (ez - ex) eqn:E; try lia. reflexivity. }
    destruct (shl_align mx ex ez) as [mz ez']. cbn [fst snd] in Hm, Hs. subst ez'.
    assert (Pk : 0 < 2 ^ (ex - ez)) by (apply Z.pow_pos_nonneg; lia).
    assert (Dz : Zpos (digits2_pos mz) = d + (ex - ez)).
    { apply digits2_pos_unique. rewrite Hm.
      replace (d + (ex - ez) - 1) with ((d - 1) + (ex - ez)) by lia.
      rewrite !Z.pow_add_r by lia. nia. }
    destruct (binary_round_aux_value s mz ez ltac:(lia) ltac:(lia)) as (m2 & e2 & E & _ & X).
    rewrite Dz in X. replace (d + (ex - ez) + ez) with (d + ex) in X by lia. fold ez in X.
    replace (Z.max 0 (ez - ez)) with 0 in X by lia.
    rewrite Z.pow_0_r, Z.div_1_r in X. specialize (X ltac:(lia)).
    assert (V : Zpos m2 * 2 ^ (e2 + 1074) = Zpos mx * 2 ^ (ex + 1074)).
    { rewrite X, Hm. replace (ex + 1074) with ((ex - ez) + (ez + 1074)) by lia.
      rewrite (Z.pow_add_r 2 (ex - ez) (ez + 1074)) by lia. ring. }
    exists m2, e2. split; [exact E |]. split; [| intros _; exact V].
    rewrite V. replace n with 0 by (subst n; lia).
    rewrite Z.pow_0_r, Z.div_1_r, Z.add_0_r.
    assert (0 < 2 ^ (ex + 1074)) by (apply Z.pow_pos_nonneg; lia). nia.
  - assert (Hs : shl_align mx ex ez = (mx, ex)).
    { unfold shl_align. destruct (ez - ex) eqn:E; try lia; reflexivity. }
    rewrite Hs. apply binary_round_aux_value; assumption.
Qed.

Lemma binary_normalize_value (z e : Z) :
  -1074 <= e <= 971 -> Zdigits2 z + e <= 1023 ->
  let n := rounding_shift z e in
  let r := binary_normalize prec emax z e false in
  SFfinite r = true /\
  Z.abs (SFkey r) <= (Z.abs z / 2 ^ n + 1) * 2 ^ (e + n + 1074) /\
  (0 <= z -> 0 <= SFkey r) /\ (z <= 0 -> SFkey r <= 0) /\
  (Z.abs z = Z.abs z / 2 ^ n * 2 ^ n -> SFkey r = z * 2 ^ (e + 1074)).
Proof.
  intros He Hd n r. subst n r. unfold rounding_shift.
  assert (P : forall k, 0 <= k -> 0 < 2 ^ k) by (intros; apply Z.pow_pos_nonneg; lia).
  destruct z as [| p | p]; cbn [binary_normalize Zdigits2 Z.abs] in *.
  - cbn [SFfinite SFkey]. rewrite Z.div_0_l by (apply Z.pow_nonzero; lia).
    specialize (P (e + Z.max 0 (fexp prec emax (0 + e) - e) + 1074) ltac:(lia)).
    repeat split; lia.
  - destruct (binary_round_value false p e He Hd) as (m2 & e2 & -> & B & X).
    cbn [SFfinite SFkey cond_Zopp].
    assert (0 <= Zpos m2 * 2 ^ (e2 + 1074)).
    { apply Z.mul_nonneg_nonneg; [lia | apply Z.pow_nonneg; lia]. }
    repeat split; first [lia | exact X].
  - destruct (binary_round_value true p e He Hd) as (m2 & e2 & -> & B & X).
    cbn [SFfinite SFkey cond_Zopp].
    assert (0 <= Zpos m2 * 2 ^ (e2 + 1074)).
    { apply Z.mul_nonneg_nonneg; [lia | apply Z.pow_nonneg; lia]. }
    repeat split; try lia; intros H; rewrite (X H); lia.
Qed.

(** *** Adding and taking off a full turn

    Below 2^56 the difference of a number and 360 is a binary64 number,
    so that the subtraction and the addition of the loops are exact there;
    the last addition of the first loop is rounded and stays within
    [[0,360]]. *)

Lemma Zdigits2_lt (z k : Z) : 0 <= k -> Z.abs z < 2 ^ k -> Zdigits2 z <= k.
Proof.
  intros Hk H. destruct z as [| p | p]; cbn [Zdigits2 Z.abs] in *;
    [lia | apply digits2_pos_lt; assumption | apply digits2_pos_lt; assumption].
Qed.

Lemma multiple_div (w n k : Z) : 0 <= n <= k -> w * 2 ^ k = w * 2 ^ k / 2 ^ n * 2 ^ n.
Proof.
  intros H. replace k with ((k - n) + n) at 2 by lia.
  rewrite Z.pow_add_r, Z.mul_assoc by lia.
  rewrite Z.div_mul by (apply Z.pow_nonzero; lia).
  rewrite <- Z.mul_assoc, <- Z.pow_add_r by lia. do 2 f_equal. lia.
Qed.

Lemma aligned_difference (ma : positive) (ea : Z) :
  valid_binary (S754_finite false ma ea) = true ->
  turn_key <= Zpos ma * 2 ^ (ea + 1074) < magnitude_limit ->
  let ez := Z.min ea (-44) in
  let D := Zpos (fst (shl_align ma ea ez)) - Zpos (fst (shl_align 6333186975989760 (-44) ez)) in
  -1074 <= ez <= 971 /\ 0 <= D /\
  D * 2 ^ (ez + 1074) = Zpos ma * 2 ^ (ea + 1074) - turn_key /\
  forall z, Z.abs z = D ->
    Zdigits2 z + ez <= 1023 /\
    Z.abs z = Z.abs z / 2 ^ rounding_shift z ez * 2 ^ rounding_shift z ez.
Proof.
  intros V [Hlo Hhi] ez D.
  pose proof (valid_finite_bounds _ _ _ V) as (Be & Bm & Bn).
  assert (Hea : ea <= 3).
  { destruct (Z_le_gt_dec ea 3) as [L | G]; [exact L | exfalso].
    specialize (Bn ltac:(lia)).
    assert (2 ^ 1078 <= 2 ^ (ea + 1074)) by (apply Z.pow_le_mono_r; lia).
    unfold magnitude_limit in Hhi. change (2 ^ 1130) with (2 ^ 52 * 2 ^ 1078) in Hhi.
    assert (0 < 2 ^ 1078) by reflexivity. nia. }
  assert (Hez : -1074 <= ez <= ea /\ ez <= -44) by (subst ez; lia).
  set (A := Zpos (fst (shl_align ma ea ez))) in *.
  set (B := Zpos (fst (shl_align 6333186975989760 (-44) ez))) in *.
  assert (EA : A = Zpos ma * 2 ^ (ea - ez)) by (apply shl_align_fst; lia).
  assert (EB : B = 6333186975989760 * 2 ^ (-44 - ez)) by (apply shl_align_fst; lia).
  assert (PP : 0 < 2 ^ (ez + 1074)) by (apply Z.pow_pos_nonneg; lia).
  assert (KA : Zpos ma * 2 ^ (ea + 1074) = A * 2 ^ (ez + 1074)).
  { rewrite EA, <- Z.mul_assoc, <- Z.pow_add_r by lia. do 2 f_equal. lia. }
  assert (KB : turn_key = B * 2 ^ (ez + 1074)).
  { unfold turn_key. rewrite EB, <- Z.mul_assoc, <- Z.pow_add_r by lia. do 2 f_equal. lia. }
  rewrite KA, KB in *.
  assert (HD : 0 <= D) by (subst D; nia).
  split; [lia |]. split; [exact HD |]. split; [subst D; ring |].
  intros z Hz.
  set (k := ea - ez) in *.
  assert (Hk : 0 <= k <= 47) by (subst k; lia).
  assert (Pk : 0 < 2 ^ k) by (apply Z.pow_pos_nonneg; lia).
  assert (Dk : exists w, D = w * 2 ^ k).
  { destruct (Z_le_gt_dec ea (-44)) as [L | G].
    - exists D. replace k with 0 by (subst k ez; lia). lia.
    - exists (Zpos ma - 45 * 2 ^ (47 - k)). subst D. rewrite EA, EB.
      replace (-44 - ez) with 0 by (subst ez; lia).
      rewrite Z.mul_sub_distr_r, <- Z.mul_assoc, <- Z.pow_add_r by lia.
      replace (47 - k + k) with 47 by lia. reflexivity. }
  assert (Dlt : D < 2 ^ (53 + k)).
  { rewrite Z.pow_add_r by lia. subst D. rewrite EA. nia. }
  pose proof (Zdigits2_lt z (53 + k) ltac:(lia) ltac:(lia)) as Dd.
  split; [subst k; lia |].
  unfold rounding_shift. rewrite fexp_value.
  set (n := Z.max 0 (Z.max (Zdigits2 z + ez - 53) (-1074) - ez)).
  assert (Hn : 0 <= n <= k) by (subst n k; lia).
  rewrite Hz. destruct Dk as [w ->]. apply multiple_div. exact Hn.
Qed.

Lemma SFsub_turn (ma : positive) (ea : Z) :
  valid_binary (S754_finite false ma ea) = true ->
  turn_key <= Zpos ma * 2 ^ (ea + 1074) < magnitude_limit ->
  let r := SF64sub (S754_finite false ma ea) SF360 in
  SFfinite r = true /\ SFkey r = Zpos ma * 2 ^ (ea + 1074) - turn_key.
Proof.
  intros V H r.
  destruct (aligned_difference ma ea V H) as (He & HD & HK & Hz).
  subst r. unfold SF64sub, SF360. cbn [SFsub cond_Zopp].
  match goal with |- context [binary_normalize _ _ ?z ?e _] =>
    specialize (Hz z ltac:(apply Z.abs_eq; exact HD)); destruct Hz as [Hd Hx];
    destruct (binary_normalize_value z e He Hd) as (F & _ & _ & _ & X) end.
  split; [exact F |]. rewrite (X Hx). exact HK.
Qed.

Lemma SFadd_turn (ma : positive) (ea : Z) :
  valid_binary (S754_finite true ma ea) = true ->
  turn_key <= Zpos ma * 2 ^ (ea + 1074) < magnitude_limit ->
  let r := SF64add (S754_finite true ma ea) SF360 in
  SFfinite r = true /\ SFkey r = turn_key - Zpos ma * 2 ^ (ea + 1074).
Proof.
  intros V H r. rewrite (valid_finite_sign true false) in V.
  destruct (aligned_difference ma ea V H) as (He & HD & HK & Hz).
  subst r. unfold SF64add, SF360. cbn [SFadd cond_Zopp].
  change (IntDef.Z.min ea (-44)) with (Z.min ea (-44)).
  match goal with |- context [binary_normalize _ _ ?z ?e _] =>
    specialize (Hz z ltac:(lia)); destruct Hz as [Hd Hx];
    destruct (binary_normalize_value z e He Hd) as (F & _ & _ & _ & X) end.
  split; [exact F |]. rewrite (X Hx). lia.
Qed.

Lemma SFadd_last_turn (ma : positive) (ea : Z) :
  valid_binary (S754_finite true ma ea) = true ->
  Zpos ma * 2 ^ (ea + 1074) < turn_key ->
  let r := SF64add (S754_finite true ma ea) SF360 in
  SFfinite r = true /\ 0 <= SFkey r <= turn_key.
Proof.
  intros V H r. rewrite (valid_finite_sign true false) in V.
  pose proof (valid_finite_bounds _ _ _ V) as (Be & Bm & Bn).
  assert (Hea : ea <= -44).
  { destruct (Z_le_gt_dec ea (-44)) as [L | G]; [exact L | exfalso].
    specialize (Bn ltac:(lia)).
    assert (2 ^ 1031 <= 2 ^ (ea + 1074)) by (apply Z.pow_le_mono_r; lia).
    unfold turn_key in H. assert (0 < 2 ^ 1031) by reflexivity.
    assert (6333186975989760 * 2 ^ 1030 < 2 ^ 52 * 2 ^ 1031) by reflexivity. nia. }
  subst r. unfold SF64add, SF360. cbn [SFadd cond_Zopp].
  change (IntDef.Z.min ea (-44)) with (Z.min ea (-44)).
  replace (Z.min ea (-44)) with ea by lia.
  set (A := Zpos (fst (shl_align ma ea ea))).
  set (B := Zpos (fst (shl_align 6333186975989760 (-44) ea))).
  assert (EA : A = Zpos ma).
  { subst A. rewrite shl_align_fst by lia. rewrite Z.sub_diag. lia. }
  set (s := -44 - ea). assert (Hs : 0 <= s) by (subst s; lia).
  assert (EB : B = 6333186975989760 * 2 ^ s) by (apply shl_align_fst; lia).
  assert (PP : 0 < 2 ^ (ea + 1074)) by (apply Z.pow_pos_nonneg; lia).
  assert (Ps : 0 < 2 ^ s) by (apply Z.pow_pos_nonneg; lia).
  assert (KB : turn_key = B * 2 ^ (ea + 1074)).
  { unfold turn_key. rewrite EB, <- Z.mul_assoc, <- Z.pow_add_r by lia.
    do 2 f_equal. subst s. lia. }
  set (z := - A + B).
  assert (Hz : 0 < z < B) by (subst z; rewrite KB, EA in *; nia).
  assert (Bd : B < 2 ^ (53 + s)).
  { rewrite Z.pow_add_r, EB by lia. assert (6333186975989760 < 2 ^ 53) by reflexivity. nia. }
  pose proof (Zdigits2_lt z (53 + s) ltac:(lia) ltac:(lia)) as Dd.
  destruct (binary_normalize_value z ea ltac:(lia) ltac:(lia)) as (F & U & P & _ & _).
  split; [exact F |]. split; [apply P; lia |].
  unfold rounding_shift in *. rewrite fexp_value in *.
  set (n := Z.max 0 (Z.max (Zdigits2 z + ea - 53) (-1074) - ea)) in *.
  assert (Hn : 0 <= n <= s) by (subst n; lia).
  assert (Pn : 0 < 2 ^ n) by (apply Z.pow_pos_nonneg; lia).
  assert (EBn : B = 6333186975989760 * 2 ^ (s - n) * 2 ^ n).
  { rewrite EB, <- Z.mul_assoc, <- Z.pow_add_r by lia. do 2 f_equal. lia. }
  rewrite (Z.abs_eq z) in U by lia.
  assert (Q : z / 2 ^ n < 6333186975989760 * 2 ^ (s - n)).
  { apply Z.div_lt_upper_bound; [exact Pn |]. rewrite Z.mul_comm. lia. }
  assert (Hk : 0 <= SFkey (binary_normalize prec emax z ea false)) by (apply P; lia).
  rewrite Z.abs_eq in U by exact Hk.
  apply Z.le_trans with (1 := U).
  rewrite KB. replace (ea + n + 1074) with (n + (ea + 1074)) by lia.
  rewrite Z.pow_add_r by lia. rewrite EBn at 1. nia.
Qed.

(** *** The same facts on primitive numbers *)

Local Open Scope float_scope.

Lemma SFeqb_refl (f : spec_float) : SFeqb f f = negb (match f with S754_nan => true | _ => false end).
Proof.
  destruct f as [s | s | | s m e]; cbn; try reflexivity.
  - destruct s; reflexivity.
  - rewrite Z.compare_refl. change (Pos.compare_cont Eq m m) with (Pos.compare m m).
    rewrite Pos.compare_refl. destruct s; reflexivity.
Qed.

Lemma is_nan_Prim2SF (x : float) : is_nan x = true <-> Prim2SF x = S754_nan.
Proof.
  unfold is_nan. rewrite eqb_spec, SFeqb_refl, negb_involutive.
  destruct (Prim2SF x); split; congruence.
Qed.

Lemma is_nan_false (x : float) : is_nan x = false <-> Prim2SF x <> S754_nan.
Proof.
  rewrite <- is_nan_Prim2SF. destruct (is_nan x); split; congruence.
Qed.

Lemma is_finite_Prim2SF (x : float) : is_finite x = SFfinite (Prim2SF x).
Proof.
  unfold is_finite, is_infinity.
  rewrite eqb_spec, abs_spec.
  assert (Hn : is_nan x = match Prim2SF x with S754_nan => true | _ => false end).
  { unfold is_nan. rewrite eqb_spec, SFeqb_refl, negb_involutive. reflexivity. }
  rewrite Hn. change (Prim2SF infinity) with (S754_infinity false).
  destruct (Prim2SF x) as [s | s | | s m e]; reflexivity.
Qed.

Lemma is_finite_not_nan (x : float) : is_finite x = true -> is_nan x = false.
Proof.
  rewrite is_finite_Prim2SF. intros H. apply is_nan_false.
  destruct (Prim2SF x); try discriminate; congruence.
Qed.

Lemma compare_key (x y : float) :
  is_nan x = false -> is_nan y = false ->
  SFcompare (Prim2SF x) (Prim2SF y) = Some (fkey x ?= fkey y)%Z.
Proof.
  intros Hx Hy. apply SFcompare_key; try apply Prim2SF_valid; apply is_nan_false; assumption.
Qed.

Lemma ltb_key (x y : float) :
  is_nan x = false -> is_nan y = false -> (x <? y) = (fkey x <? fkey y)%Z.
Proof.
  intros Hx Hy. rewrite ltb_spec. unfold SFltb. rewrite compare_key by assumption.
  unfold Z.ltb. destruct (fkey x ?= fkey y)%Z; reflexivity.
Qed.

Lemma leb_key (x y : float) :
  is_nan x = false -> is_nan y = false -> (x <=? y) = (fkey x <=? fkey y)%Z.
Proof.
  intros Hx Hy. rewrite leb_spec. unfold SFleb. rewrite compare_key by assumption.
  unfold Z.leb. destruct (fkey x ?= fkey y)%Z; reflexivity.
Qed.

Lemma eqb_key (x y : float) :
  is_nan x = false -> is_nan y = false -> (x =? y) = (fkey x =? fkey y)%Z.
Proof.
  intros Hx Hy. rewrite eqb_spec. unfold SFeqb. rewrite compare_key by assumption.
  unfold Z.eqb. destruct (fkey x ?= fkey y)%Z eqn:E; try reflexivity.
  - apply Z.compare_eq in E. rewrite E. destruct (fkey y); try reflexivity; symmetry; apply Pos.eqb_refl.
  - destruct (fkey x), (fkey y); try reflexivity; try discriminate;
      symmetry; apply Pos.eqb_neq; intros ->; cbn in E; rewrite ?Pos.compare_refl in E; discriminate.
  - destruct (fkey x), (fkey y); try reflexivity; try discriminate;
      symmetry; apply Pos.eqb_neq; intros ->; cbn in E; rewrite ?Pos.compare_refl in E; discriminate.
Qed.

Lemma ltb_nan_l (x y : float) : is_nan x = true -> (x <? y) = false.
Proof. intros H. apply is_nan_Prim2SF in H. rewrite ltb_spec, H. reflexivity. Qed.

Lemma ltb_nan_r (x y : float) : is_nan y = true -> (x <? y) = false.
Proof.
  intros H. apply is_nan_Prim2SF in H. rewrite ltb_spec, H.
  destruct (Prim2SF x); reflexivity.
Qed.

Lemma sub_sign (x y : float) :
  is_finite x = true -> is_finite y = true ->
  (x - y <? 0) = (x <? y) /\ (0 <? x - y) = (y <? x) /\ is_nan (x - y) = false.
Proof.
  intros Fx Fy.
  pose proof (is_finite_not_nan _ Fx) as Nx. pose proof (is_finite_not_nan _ Fy) as Ny.
  rewrite is_finite_Prim2SF in Fx, Fy.
  destruct (SFsub_sign (Prim2SF x) (Prim2SF y) false
              (Prim2SF_valid x) (Prim2SF_valid y) Fx Fy) as (H1 & H2 & H3).
  rewrite !(ltb_key x y), !(ltb_key y x) by assumption.
  rewrite !ltb_spec, sub_spec. change (Prim2SF 0) with (S754_zero false).
  repeat split; try assumption.
  apply is_nan_false. rewrite sub_spec. exact H3.
Qed.

(** *** Order *)

Local Open Scope list_scope.
Local Open Scope float_scope.

Lemma ltb_irrefl (x : number) : (x <? x) = false.
Proof.
  destruct (is_nan x) eqn:N.
  - apply ltb_nan_l. exact N.
  - rewrite ltb_key by assumption. apply Z.ltb_irrefl.
Qed.

Lemma ltb_not_nan (x y : number) : (x <? y) = true -> is_nan x = false /\ is_nan y = false.
Proof.
  intros H. split.
  - destruct (is_nan x) eqn:N; [| reflexivity]. rewrite ltb_nan_l in H by exact N. discriminate.
  - destruct (is_nan y) eqn:N; [| reflexivity]. rewrite ltb_nan_r in H by exact N. discriminate.
Qed.

Lemma leb_not_nan (x y : number) : (x <=? y) = true -> is_nan x = false /\ is_nan y = false.
Proof.
  rewrite leb_spec. intros H. split; apply is_nan_false; intros E; rewrite E in H.
  - discriminate.
  - destruct (Prim2SF x); discriminate.
Qed.

Lemma ltb_trans (x y z : number) : (x <? y) = true -> (y <? z) = true -> (x <? z) = true.
Proof.
  intros H1 H2.
  destruct (ltb_not_nan _ _ H1) as [Nx Ny]. destruct (ltb_not_nan _ _ H2) as [_ Nz].
  rewrite ltb_key in * by assumption. apply Z.ltb_lt in H1, H2. apply Z.ltb_lt. lia.
Qed.

Lemma leb_finite_key (x y : number) :
  is_finite x = true -> is_finite y = true -> (x <=? y) = (fkey x <=? fkey y)%Z.
Proof. intros Fx Fy. apply leb_key; apply is_finite_not_nan; assumption. Qed.

Lemma ltb_finite_key (x y : number) :
  is_finite x = true -> is_finite y = true -> (x <? y) = (fkey x <? fkey y)%Z.
Proof. intros Fx Fy. apply ltb_key; apply is_finite_not_nan; assumption. Qed.

(** *** Special values *)

Lemma not_nan_cases (x : number) :
  is_nan x = false ->
  is_finite x = true \/ exists s, Prim2SF x = S754_infinity s.
Proof.
  intros N. apply is_nan_false in N. rewrite is_finite_Prim2SF.
  destruct (Prim2SF x) as [s | s | | s m e]; cbn [SFfinite]; try congruence; eauto.
Qed.

Lemma SFadd_finite_not_nan (a b : spec_float) :
  valid_binary a = true -> valid_binary b = true ->
  a <> S754_nan -> SFfinite b = true -> SF64add a b <> S754_nan.
Proof.
  intros Va Vb Na Fb. unfold SF64add.
  destruct a as [sa | sa | | sa ma ea]; try congruence;
  destruct b as [sb | sb | | sb mb eb]; try discriminate; cbn [SFadd]; try congruence.
  - destruct sa, sb; congruence.
  - pose proof (valid_finite_bounds _ _ _ Va) as (Ba & _).
    pose proof (valid_finite_bounds _ _ _ Vb) as (Bb & _).
    match goal with |- binary_normalize _ _ ?z ?e _ <> _ =>
      pose proof (binary_normalize_sign z e false ltac:(lia)) as H; destruct z end.
    + rewrite H. congruence.
    + destruct H as [(m & e & ->) | ->]; congruence.
    + destruct H as [(m & e & ->) | ->]; congruence.
Qed.

Lemma add_finite_not_nan (x y : number) :
  is_nan x = false -> is_finite y = true -> is_nan (x + y) = false.
Proof.
  intros N F. apply is_nan_false. rewrite add_spec.
  apply SFadd_finite_not_nan; try apply Prim2SF_valid.
  - apply is_nan_false. exact N.
  - rewrite <- is_finite_Prim2SF. exact F.
Qed.

(** Full turns on primitive numbers. *)

Lemma Prim2SF_360 : Prim2SF 360 = SF360.
Proof. reflexivity. Qed.

Lemma fkey_360 : fkey 360 = turn_key.
Proof. reflexivity. Qed.

Lemma turn_key_bounds : (0 < turn_key < magnitude_limit)%Z.
Proof. split; reflexivity. Qed.

Lemma sub_turn (a : number) :
  is_finite a = true -> (turn_key <= fkey a < magnitude_limit)%Z ->
  is_finite (a - 360) = true /\ fkey (a - 360) = (fkey a - turn_key)%Z.
Proof.
  rewrite !is_finite_Prim2SF. unfold fkey. rewrite sub_spec, Prim2SF_360.
  pose proof (Prim2SF_valid a) as V. pose proof turn_key_bounds as K.
  destruct (Prim2SF a) as [s | s | | s m e]; try discriminate; intros _ H; cbn [SFkey] in H.
  - lia.
  - pose proof (key_bound _ _ _ V). destruct s; cbn [cond_Zopp] in H; [lia |].
    cbn [SFkey cond_Zopp]. apply SFsub_turn; assumption.
Qed.

Lemma add_turn (a : number) :
  is_finite a = true -> (- magnitude_limit < fkey a <= - turn_key)%Z ->
  is_finite (a + 360) = true /\ fkey (a + 360) = (fkey a + turn_key)%Z.
Proof.
  rewrite !is_finite_Prim2SF. unfold fkey. rewrite add_spec, Prim2SF_360.
  pose proof (Prim2SF_valid a) as V. pose proof turn_key_bounds as K.
  destruct (Prim2SF a) as [s | s | | s m e]; try discriminate; intros _ H; cbn [SFkey] in H.
  - lia.
  - pose proof (key_bound _ _ _ V). destruct s; cbn [cond_Zopp] in H; [| lia].
    cbn [SFkey cond_Zopp].
    destruct (SFadd_turn m e V ltac:(lia)) as [F E]. split; [exact F |]. rewrite E. lia.
Qed.

Lemma add_last_turn (a : number) :
  is_finite a = true -> (- turn_key < fkey a < 0)%Z ->
  is_finite (a + 360) = true /\ (0 <= fkey (a + 360)%float <= turn_key)%Z.
Proof.
  rewrite !is_finite_Prim2SF. unfold fkey. rewrite add_spec, Prim2SF_360.
  pose proof (Prim2SF_valid a) as V.
  destruct (Prim2SF a) as [s | s | | s m e]; try discriminate; intros _ H; cbn [SFkey] in H.
  - lia.
  - pose proof (key_bound _ _ _ V). destruct s; cbn [cond_Zopp] in H; [| lia].
    apply SFadd_last_turn; [exact V | lia].
Qed.

(** Taking a full turn off a number that is at least 360 leaves a number
    that is not negative. *)
Lemma drop_turn_sign (a : number) :
  (360 <=? a) = true -> is_nan (a - 360) = false /\ (a - 360 <? 0) = false.
Proof.
  intros H. destruct (leb_not_nan _ _ H) as [_ N].
  destruct (not_nan_cases a N) as [F | [s E]].
  - destruct (sub_sign a 360 F eq_refl) as (H1 & _ & H3). split; [exact H3 |].
    rewrite H1. rewrite ltb_key, leb_key in * by (assumption || reflexivity).
    apply Z.leb_le in H. apply Z.ltb_ge. exact H.
  - rewrite leb_spec, E in H.
    change (Prim2SF 360) with (S754_finite false 6333186975989760 (-44)) in H.
    destruct s; [discriminate |].
    assert (E' : Prim2SF (a - 360) = S754_infinity false).
    { rewrite sub_spec, E. reflexivity. }
    split.
    + apply is_nan_false. rewrite E'. discriminate.
    + rewrite ltb_spec, E'. reflexivity.
Qed.

(** One Newton step for eccentricity 0, started at [E = M]: the correction
    [dE] is +0 and [E - dE] is [E]. *)
Lemma circular_step (E s c : number) :
  is_finite E = true -> is_finite s = true -> is_finite c = true ->
  (E - 0 * s - E) / (1 - 0 * c) = 0 /\ E - 0 = E.
Proof.
  intros FE Fs Fc. rewrite is_finite_Prim2SF in FE, Fs, Fc.
  split; apply Prim2SF_inj.
  - rewrite div_spec, !sub_spec, !mul_spec.
    change (Prim2SF 0) with (S754_zero false).
    change (Prim2SF 1) with (S754_finite false 4503599627370496 (-52)).
    destruct (Prim2SF c) as [sc | | | sc mc ec]; try discriminate;
    destruct (Prim2SF s) as [ss | | | ss ms es]; try discriminate;
    destruct (Prim2SF E) as [sE | | | sE mE eE]; try discriminate;
    cbn [SF64mul SFmul xorb SF64sub SFsub SF64div SFdiv];
    try (destruct sE, ss; reflexivity);
    rewrite Z.sub_diag; reflexivity.
  - rewrite sub_spec. change (Prim2SF 0) with (S754_zero false).
    destruct (Prim2SF E) as [sE | | | sE mE eE]; try discriminate.
    + destruct sE; reflexivity.
    + reflexivity.
Qed.

(** ** The sample Math library obeys the laws *)

#[local] Instance SampleMath_laws : MathLibLaws SampleMath.
Proof.
  assert (Hf : forall x, is_finite x = true -> (is_nan x || is_infinity x) = false).
  { intros x H. unfold is_finite in H. apply negb_true_iff in H. exact H. }
  constructor; cbn [Math_sin Math_cos Math_asin Math_acos SampleMath].
  - reflexivity.
  - reflexivity.
  - intros x F. unfold sample_sin. rewrite (Hf x F).
    repeat match goal with |- context [if ?b then _ else _] => destruct b end;
      try exact F; reflexivity.
  - intros x F. unfold sample_cos. rewrite (Hf x F).
    repeat match goal with |- context [if ?b then _ else _] => destruct b end; reflexivity.
  - reflexivity.
  - intros x H. unfold sample_asin. rewrite H, orb_true_r. reflexivity.
  - intros x H. unfold sample_acos. rewrite H, orb_true_r. reflexivity.
  - reflexivity.
Qed.

(** ** Time system *)

Example floor_samples :
  (Math_floor 2.5, Math_floor (-2.5), Math_floor (-0.5), Math_floor 0.5, Math_floor 13)
  = (2, -3, -1, 0, 13).
Proof. vm_compute. reflexivity. Qed.

Lemma julian_day_epoch : dateToJulianDay J2000_noon = 2451545.0.
Proof. vm_compute. reflexivity. Qed.

(** C6.  [dateToJulianDay] applied to the UTC timestamp 2000-01-01T12:00:00Z
    returns exactly 2451545.0, the J2000.0 epoch. *)
Theorem julian_day_of_J2000 : dateToJulianDay J2000_noon = 2451545.0.
Proof. vm_compute. reflexivity. Qed.

(** At the J2000.0 epoch and longitude 0 the sidereal time needs no turn of
    either loop. *)
Lemma sidereal_time_J2000 (fuel : nat) :
  calculateLocalSiderealTime fuel 0 J2000_noon = Some 280.46061837.
Proof.
  unfold calculateLocalSiderealTime. rewrite julian_day_epoch. cbv zeta.
  change (280.46061837 + 360.98564736629 * (2451545.0 - 2451545.0) +
          0.000387933 * ((2451545.0 - 2451545.0) / 36525.0) * ((2451545.0 - 2451545.0) / 36525.0) -
          (2451545.0 - 2451545.0) / 36525.0 * ((2451545.0 - 2451545.0) / 36525.0) *
          ((2451545.0 - 2451545.0) / 36525.0) / 38710000.0)
    with 280.46061837.
  assert (H : normalizeAngle fuel 280.46061837 = Some 280.46061837).
  { unfold normalizeAngle. destruct fuel; reflexivity. }
  rewrite H. change (280.46061837 + 0) with 280.46061837. exact H.
Qed.

(** ** Angle normalization *)

(** *** On binary64 numbers *)

Lemma add_turns_result (fuel : nat) : forall a r,
  is_nan a = false -> add_turns fuel a = Some r -> is_nan r = false /\ (r <? 0) = false.
Proof.
  induction fuel as [| fuel IH]; intros a r N; cbn [add_turns];
    destruct (a <? 0) eqn:E; try discriminate.
  - intros [= <-]. auto.
  - apply IH. apply add_finite_not_nan; [exact N | reflexivity].
  - intros [= <-]. auto.
Qed.

Lemma drop_turns_result (fuel : nat) : forall a r,
  is_nan a = false -> (a <? 0) = false -> drop_turns fuel a = Some r ->
  is_nan r = false /\ (r <? 0) = false /\ (360 <=? r) = false.
Proof.
  induction fuel as [| fuel IH]; intros a r N P; cbn [drop_turns]; unfold Number.geb;
    destruct (360 <=? a) eqn:E; try discriminate.
  - intros [= <-]. auto.
  - destruct (drop_turn_sign a E) as [N' P']. apply IH; assumption.
  - intros [= <-]. auto.
Qed.

Lemma normalizeAngle_range (fuel : nat) (x r : number) :
  is_nan x = false -> normalizeAngle fuel x = Some r ->
  (0 <=? r) = true /\ (r <? 360) = true.
Proof.
  intros N. unfold normalizeAngle.
  destruct (add_turns fuel x) as [a |] eqn:Ea; [| discriminate].
  destruct (add_turns_result fuel x a N Ea) as [Na Pa].
  intros H. destruct (drop_turns_result fuel a r Na Pa H) as (Nr & P & Q).
  rewrite ltb_key, leb_key in * by (assumption || reflexivity).
  apply Z.ltb_ge in P. apply Z.leb_gt in Q. split; [apply Z.leb_le | apply Z.ltb_lt]; assumption.
Qed.


(** The second loop ends within [n] iterations on a number below
    [360 (n + 1)] and below 2^56. *)
Lemma drop_turns_returns (n : nat) : forall (fuel : nat) (a : number),
  (n <= fuel)%nat -> is_finite a = true ->
  (0 <= fkey a < magnitude_limit)%Z -> (fkey a < (Z.of_nat n + 1) * turn_key)%Z ->
  exists r, drop_turns fuel a = Some r.
Proof.
  pose proof turn_key_bounds as K.
  induction n as [| n IH]; intros fuel a Hf F B L.
  - exists a. assert (E : (360 <=? a) = false).
    { rewrite leb_finite_key, fkey_360 by (exact F || reflexivity). apply Z.leb_gt. lia. }
    destruct fuel; cbn [drop_turns]; unfold Number.geb; rewrite E; reflexivity.
  - destruct (360 <=? a) eqn:E.
    + destruct fuel as [| fuel]; [lia |]. cbn [drop_turns]. unfold Number.geb. rewrite E.
      rewrite leb_finite_key, fkey_360 in E by (exact F || reflexivity). apply Z.leb_le in E.
      destruct (sub_turn a F ltac:(lia)) as [F' K'].
      apply IH; [lia | exact F' | lia | lia].
    + exists a. destruct fuel; cbn [drop_turns]; unfold Number.geb; rewrite E; reflexivity.
Qed.

(** The first loop ends within [n] iterations on a number above [-360 n]
    and above -2^56, on a number that is not negative and not above the
    larger of its input and 360. *)
Lemma add_turns_returns (n : nat) : forall (fuel : nat) (a : number),
  (n <= fuel)%nat -> is_finite a = true ->
  (- magnitude_limit < fkey a)%Z -> (- Z.of_nat n * turn_key < fkey a)%Z ->
  exists r, add_turns fuel a = Some r /\ is_finite r = true /\
            (0 <= fkey r <= Z.max (fkey a) turn_key)%Z.
Proof.
  pose proof turn_key_bounds as K.
  assert (stop : forall (fuel : nat) (a : number), is_finite a = true -> (0 <= fkey a)%Z ->
            add_turns fuel a = Some a).
  { intros fuel a F P. assert (E : (a <? 0) = false).
    { rewrite ltb_finite_key by (exact F || reflexivity). apply Z.ltb_ge. exact P. }
    destruct fuel; cbn [add_turns]; rewrite E; reflexivity. }
  induction n as [| n IH]; intros fuel a Hf F B L.
  - exists a. rewrite stop by (exact F || lia). repeat split; [exact F | lia | lia].
  - destruct (Z_lt_le_dec (fkey a) 0) as [N | P].
    + assert (E : (a <? 0) = true).
      { rewrite ltb_finite_key by (exact F || reflexivity). apply Z.ltb_lt. exact N. }
      destruct fuel as [| fuel]; [lia |]. cbn [add_turns]. rewrite E.
      destruct (Z_le_gt_dec (fkey a) (- turn_key)) as [Far | Near].
      * destruct (add_turn a F ltac:(lia)) as [F' K'].
        destruct (IH fuel (a + 360) ltac:(lia) F' ltac:(lia) ltac:(lia)) as (r & Hr & Fr & Br).
        exists r. repeat split; [exact Hr | exact Fr | lia | lia].
      * destruct (add_last_turn a F ltac:(lia)) as [F' K'].
        exists (a + 360). rewrite stop by (exact F' || lia).
        repeat split; [exact F' | lia | lia].
    + exists a. rewrite stop by (exact F || lia). repeat split; [exact F | lia | lia].
Qed.

(** Both loops end on every number of magnitude below 2^56. *)
Lemma normalizeAngle_returns (x : number) :
  (-72057594037927936 <? x) = true -> (x <? 72057594037927936) = true ->
  exists fuel0, forall fuel, (fuel0 <= fuel)%nat ->
    exists r, normalizeAngle fuel x = Some r /\ (0 <=? r) = true /\ (r <? 360) = true.
Proof.
  intros Lo Hi. pose proof turn_key_bounds as K.
  destruct (ltb_not_nan _ _ Hi) as [N _].
  rewrite ltb_key in Lo, Hi by (exact N || reflexivity).
  apply Z.ltb_lt in Lo, Hi.
  change (fkey 72057594037927936) with magnitude_limit in Hi.
  change (fkey (-72057594037927936)) with (- magnitude_limit)%Z in Lo.
  assert (F : is_finite x = true).
  { destruct (not_nan_cases x N) as [F | [s E]]; [exact F | exfalso].
    unfold fkey in Lo, Hi. rewrite E in Lo, Hi. cbn [SFkey] in Lo, Hi.
    assert (magnitude_limit < 2 ^ 2098)%Z by reflexivity.
    destruct s; cbn [cond_Zopp] in Lo, Hi; lia. }
  set (n := Z.to_nat (Z.abs (fkey x) / turn_key + 1)).
  assert (Hn : (Z.abs (fkey x) < Z.of_nat n * turn_key)%Z).
  { subst n. rewrite Z2Nat.id by (pose proof (Z.div_pos (Z.abs (fkey x)) turn_key); lia).
    pose proof (Z.mul_succ_div_gt (Z.abs (fkey x)) turn_key ltac:(lia)). lia. }
  exists n. intros fuel Hf.
  destruct (add_turns_returns n fuel x Hf F ltac:(lia) ltac:(lia)) as (a & Ha & Fa & Ba).
  destruct (drop_turns_returns n fuel a Hf Fa ltac:(lia) ltac:(lia)) as (r & Hr).
  assert (E : normalizeAngle fuel x = Some r) by (unfold normalizeAngle; rewrite Ha; exact Hr).
  exists r. split; [exact E |]. exact (normalizeAngle_range fuel x r N E).
Qed.


(** *** In exact arithmetic *)

Section ExactLoops.
Local Open Scope R_scope.





End ExactLoops.




(** ** Kepler solver *)

Section Kepler.
Context {M : MathLib} {L : MathLibLaws M}.

Lemma newton_raphson_circular (n : nat) (E : number) :
  is_finite E = true -> newton_raphson (S n) 0 E E = E.
Proof.
  intros F. cbn [newton_raphson].
  destruct (circular_step E (Math_sin E) (Math_cos E) F (sin_finite _ F) (cos_finite _ F))
    as [H1 H2].
  rewrite H1, H2. reflexivity.
Qed.

Lemma solveKeplerEquation_circular (meanAnomaly : number) :
  is_finite (meanAnomaly * Math_PI / 180) = true ->
  solveKeplerEquation meanAnomaly 0 = meanAnomaly * Math_PI / 180 * 180 / Math_PI.
Proof.
  intros F. unfold solveKeplerEquation. rewrite newton_raphson_circular by exact F. reflexivity.
Qed.

End Kepler.

(** C7, as the claim states it, fails: for a mean anomaly of 30 degrees and
    eccentricity 0 the solver returns 29.999999999999996. *)
Lemma solveKeplerEquation_30_is_not_30 :
  @solveKeplerEquation SampleMath 30 0 = 29.999999999999996 /\
  (29.999999999999996 =? 30) = false.
Proof. split; vm_compute; reflexivity. Qed.

(** C7 (amended).  For eccentricity 0 the solver applies no correction: for
    every mean anomaly [M] whose radian value [M * PI / 180] is finite it
    returns that value converted back to degrees, [M * PI / 180 * 180 / PI]
    as binary64 arithmetic evaluates it. *)
Theorem solveKeplerEquation_circular_orbit (M : MathLib) (L : MathLibLaws M)
    (meanAnomaly : number) :
  is_finite (meanAnomaly * Math_PI / 180) = true ->
  solveKeplerEquation meanAnomaly 0 = meanAnomaly * Math_PI / 180 * 180 / Math_PI.
Proof. exact (solveKeplerEquation_circular meanAnomaly). Qed.

Lemma solveKeplerEquation_circular_orbit_witness :
  is_finite (90 * Math_PI / 180) = true /\
  @solveKeplerEquation SampleMath 90 0 = 90 * Math_PI / 180 * 180 / Math_PI /\
  90 * Math_PI / 180 * 180 / Math_PI = 90.
Proof.
  split; [reflexivity |]. split; [| reflexivity].
  apply (solveKeplerEquation_circular_orbit SampleMath SampleMath_laws 90). reflexivity.
Defined.

(** ** Horizontal coordinates and angular distance *)

Section Zenith.
Context {M : MathLib} {L : MathLibLaws M}.
Hypothesis sin_at : Math_sin 0.6452482244623036 = 0.6013967761004443.
Hypothesis cos_at : Math_cos 0.6452482244623036 = 0.7989505101669265.

(** With the two values above, the squares of sine and cosine add up to
    1.0000000000000002, outside the domain of [asin] and [acos]. *)
Lemma celestialToHorizontal_zenith (fuel : nat) :
  celestialToHorizontal fuel zenith_star zenith_observer J2000_noon
  = Some {| azimuth := nan; altitude := nan |}.
Proof.
  unfold celestialToHorizontal, zenith_star, zenith_observer.
  cbn [ra dec latitude longitude]. rewrite sidereal_time_J2000. cbv zeta.
  change (36.97 * Math_PI / 180) with 0.6452482244623036.
  change ((280.46061837 - 280.46061837) * Math_PI / 180) with 0.
  rewrite sin_at, cos_at, cos_pos_zero, sin_pos_zero.
  change (0.6013967761004443 * 0.6013967761004443 +
          0.7989505101669265 * 0.7989505101669265 * 1) with 1.0000000000000002.
  rewrite (asin_above_one 1.0000000000000002) by reflexivity.
  rewrite cos_nan.
  change (Math_max (-1)
            (Math_min 1 ((0.6013967761004443 - 0.6013967761004443 * 1.0000000000000002) /
                         (0.7989505101669265 * nan)))) with nan.
  rewrite acos_nan. reflexivity.
Qed.

Lemma calculateAngularDistance_same_point (rightAscension : number) :
  is_finite (rightAscension * Math_PI / 180) = true ->
  calculateAngularDistance {| ra := rightAscension; dec := 36.97 |}
                           {| ra := rightAscension; dec := 36.97 |} = nan.
Proof.
  intros F. unfold calculateAngularDistance. cbn [ra dec]. cbv zeta.
  change (36.97 * Math_PI / 180) with 0.6452482244623036.
  assert (E : rightAscension * Math_PI / 180 - rightAscension * Math_PI / 180 = 0).
  { apply Prim2SF_inj. rewrite sub_spec. rewrite is_finite_Prim2SF in F.
    change (Prim2SF 0) with (S754_zero false).
    destruct (Prim2SF (rightAscension * Math_PI / 180)) as [s | | | s m e]; try discriminate.
    - destruct s; reflexivity.
    - unfold SF64sub. cbn [SFsub]. rewrite Z.sub_diag. reflexivity. }
  rewrite E, sin_at, cos_at, cos_pos_zero.
  change (0.6013967761004443 * 0.6013967761004443 +
          0.7989505101669265 * 0.7989505101669265 * 1) with 1.0000000000000002.
  rewrite (acos_above_one 1.0000000000000002) by reflexivity. reflexivity.
Qed.

End Zenith.

(** C1 (the code does not do this).  For the star at the zenith of an
    observer at latitude 36.97 (declination 36.97, right ascension equal to
    the local sidereal time) [celestialToHorizontal] returns NaN for the
    azimuth, and for the altitude, on every Math library that returns the
    correctly rounded sine and cosine of 0.6452482244623036: the sine of the
    altitude is computed as 1.0000000000000002 and [asin] is applied to it
    unclamped. *)
Theorem zenith_azimuth_is_NaN (M : MathLib) (L : MathLibLaws M) (fuel : nat) :
  Math_sin 0.6452482244623036 = 0.6013967761004443 ->
  Math_cos 0.6452482244623036 = 0.7989505101669265 ->
  celestialToHorizontal fuel zenith_star zenith_observer J2000_noon
  = Some {| azimuth := nan; altitude := nan |}.
Proof. intros Hs Hc. exact (celestialToHorizontal_zenith Hs Hc fuel). Qed.

Lemma zenith_azimuth_is_NaN_witness :
  (@Math_sin SampleMath 0.6452482244623036 = 0.6013967761004443 /\
   @Math_cos SampleMath 0.6452482244623036 = 0.7989505101669265) /\
  @celestialToHorizontal SampleMath 1 zenith_star zenith_observer J2000_noon
  = Some {| azimuth := nan; altitude := nan |}.
Proof.
  split; [split; reflexivity |].
  apply (zenith_azimuth_is_NaN SampleMath SampleMath_laws 1); reflexivity.
Defined.

(** C2 (the code does not do this).  [calculateAngularDistance] passes the
    cosine of the separation to [acos] unclamped: for two equal coordinates
    of declination 36.97 the argument is 1.0000000000000002 and the distance
    is NaN, on every Math library that returns the correctly rounded sine and
    cosine of 0.6452482244623036. *)
Theorem angular_distance_to_itself_is_NaN (M : MathLib) (L : MathLibLaws M)
    (rightAscension : number) :
  Math_sin 0.6452482244623036 = 0.6013967761004443 ->
  Math_cos 0.6452482244623036 = 0.7989505101669265 ->
  is_finite (rightAscension * Math_PI / 180) = true ->
  calculateAngularDistance {| ra := rightAscension; dec := 36.97 |}
                           {| ra := rightAscension; dec := 36.97 |} = nan.
Proof. intros Hs Hc. exact (calculateAngularDistance_same_point Hs Hc rightAscension). Qed.

Lemma angular_distance_to_itself_is_NaN_witness :
  (@Math_sin SampleMath 0.6452482244623036 = 0.6013967761004443 /\
   @Math_cos SampleMath 0.6452482244623036 = 0.7989505101669265 /\
   is_finite (101.28715 * Math_PI / 180) = true) /\
  @calculateAngularDistance SampleMath {| ra := 101.28715; dec := 36.97 |}
                                       {| ra := 101.28715; dec := 36.97 |} = nan.
Proof.
  split; [repeat split; reflexivity |].
  apply (angular_distance_to_itself_is_NaN SampleMath SampleMath_laws 101.28715); reflexivity.
Defined.

(** ** The catalog *)

(** *** Initialization *)

Lemma initialize_completes (starData : StarData.t) (planetData : PlanetData.t) :
  exists this, initialize (new_StarCatalogService starData planetData) = Normal this /\
               isInitialized this = true.
Proof. unfold initialize, loadEmbeddedCatalog, loadPlanetaryData. eexists. split; reflexivity. Qed.

(** *** Sorting by magnitude *)

Lemma SortCompare_by_magnitude (a b : Star.t) :
  is_finite (Star.magnitude a) = true -> is_finite (Star.magnitude b) = true ->
  (SortCompare by_magnitude a b >? 0) = (Star.magnitude b <? Star.magnitude a).
Proof.
  intros Fa Fb. unfold SortCompare, by_magnitude, Number.gtb.
  destruct (sub_sign _ _ Fa Fb) as (_ & H & N). rewrite N. exact H.
Qed.

Lemma sort_insert_perm (a : Star.t) (l : list Star.t) :
  Permutation (a :: l) (sort_insert by_magnitude a l).
Proof.
  induction l as [| b l IH]; cbn [sort_insert]; [reflexivity |].
  destruct (SortCompare by_magnitude a b >? 0); [| reflexivity].
  rewrite perm_swap. apply perm_skip. exact IH.
Qed.

Lemma Array_sort_perm (l : list Star.t) : Permutation l (Array_sort by_magnitude l).
Proof.
  induction l as [| a l IH]; cbn [Array_sort fold_right]; [reflexivity |].
  rewrite <- sort_insert_perm. apply perm_skip. exact IH.
Qed.

Lemma In_Array_sort (s : Star.t) (l : list Star.t) :
  In s (Array_sort by_magnitude l) <-> In s l.
Proof.
  split; apply Permutation_in; [symmetry |]; apply Array_sort_perm.
Qed.

Lemma finite_magnitudes_perm (l l' : list Star.t) :
  Permutation l l' -> finite_magnitudes l -> finite_magnitudes l'.
Proof. intros P F. unfold finite_magnitudes in *. rewrite <- P. exact F. Qed.

Lemma finite_magnitudes_filter (f : Star.t -> bool) (l : list Star.t) :
  finite_magnitudes l -> finite_magnitudes (filter f l).
Proof.
  unfold finite_magnitudes. rewrite !Forall_forall. intros H s Hs.
  apply filter_In in Hs as [Hs _]. exact (H s Hs).
Qed.

Lemma sort_insert_sorted (a : Star.t) (l : list Star.t) :
  is_finite (Star.magnitude a) = true -> finite_magnitudes l ->
  brightest_first l -> brightest_first (sort_insert by_magnitude a l).
Proof.
  intros Fa Fl Sl. induction Sl as [| b l Sl IH Hb]; cbn [sort_insert].
  - repeat constructor.
  - inversion Fl as [| ? ? Fb Fl']; subst.
    rewrite SortCompare_by_magnitude by assumption.
    rewrite ltb_finite_key by assumption.
    destruct (fkey (Star.magnitude b) <? fkey (Star.magnitude a))%Z eqn:E.
    + apply Z.ltb_lt in E. constructor; [exact (IH Fl') |].
      apply (Permutation_Forall (sort_insert_perm a l)). constructor; [| exact Hb].
      rewrite leb_finite_key by assumption. apply Z.leb_le. lia.
    + apply Z.ltb_ge in E. constructor; [constructor; assumption |].
      assert (Hab : (Star.magnitude a <=? Star.magnitude b) = true).
      { rewrite leb_finite_key by assumption. apply Z.leb_le. exact E. }
      constructor; [exact Hab |].
      rewrite Forall_forall in Hb, Fl' |- *. intros c Hc.
      specialize (Hb c Hc). specialize (Fl' c Hc). cbn beta in Fl'.
      rewrite leb_finite_key in Hb |- * by assumption.
      apply Z.leb_le in Hb. apply Z.leb_le. lia.
Qed.

Lemma Array_sort_sorted (l : list Star.t) :
  finite_magnitudes l -> brightest_first (Array_sort by_magnitude l).
Proof.
  induction l as [| a l IH]; intros F; cbn [Array_sort fold_right].
  - constructor.
  - inversion F; subst. apply sort_insert_sorted; [assumption | |].
    + apply (finite_magnitudes_perm l); [apply Array_sort_perm | assumption].
    + apply IH. assumption.
Qed.

(** Insertion passes only strictly brighter stars, so it does not move a star
    across another of the same magnitude. *)
Lemma sort_insert_ties (v : number) (a : Star.t) (l : list Star.t) :
  is_finite (Star.magnitude a) = true -> finite_magnitudes l ->
  filter (fun s => Star.magnitude s =? v) (sort_insert by_magnitude a l) =
  filter (fun s => Star.magnitude s =? v) (a :: l).
Proof.
  intros Fa. induction l as [| b l IH]; intros Fl; cbn [sort_insert]; [reflexivity |].
  apply Forall_cons_iff in Fl as [Fb Fl'].
  rewrite SortCompare_by_magnitude by assumption.
  destruct (Star.magnitude b <? Star.magnitude a) eqn:E; [| reflexivity].
  cbn [filter] in IH |- *. rewrite (IH Fl').
  destruct (Star.magnitude a =? v) eqn:Ea; [| reflexivity].
  destruct (Star.magnitude b =? v) eqn:Eb; [| reflexivity].
  exfalso.
  assert (Nv : is_nan v = false).
  { destruct (is_nan v) eqn:N; [| reflexivity].
    apply is_nan_Prim2SF in N. rewrite FloatAxioms.eqb_spec, N in Ea.
    destruct (Prim2SF (Star.magnitude a)); discriminate. }
  rewrite eqb_key in Ea, Eb by first [assumption | apply is_finite_not_nan; assumption].
  rewrite ltb_finite_key in E by assumption.
  apply Z.eqb_eq in Ea, Eb. apply Z.ltb_lt in E. lia.
Qed.

Lemma Array_sort_ties (l : list Star.t) :
  finite_magnitudes l -> ties_in_order_of l (Array_sort by_magnitude l).
Proof.
  intros F v. induction l as [| a l IH]; cbn [Array_sort fold_right]; [reflexivity |].
  apply Forall_cons_iff in F as [Fa F].
  rewrite sort_insert_ties; try assumption.
  - cbn [filter]. fold (Array_sort by_magnitude l). rewrite IH by assumption. reflexivity.
  - apply (finite_magnitudes_perm l); [apply Array_sort_perm | assumption].
Qed.

Lemma Array_sort_selection (l : list Star.t) :
  finite_magnitudes l -> sorted_selection l (Array_sort by_magnitude l).
Proof.
  intros F. split; [apply Array_sort_perm |].
  split; [apply Array_sort_sorted | apply Array_sort_ties]; exact F.
Qed.

(** *** The loops of the queries *)

Lemma search_loop_filter (q : string) (todo : list Star.t) : forall results,
  search_loop q todo results = results ++ filter (search_match q) todo.
Proof.
  induction todo as [| star todo IH]; intros results; cbn [search_loop filter].
  - symmetry. apply app_nil_r.
  - rewrite IH. fold (search_match q star).
    destruct (search_match q star); [rewrite <- app_assoc |]; reflexivity.
Qed.

Section LoopFacts.
Context {M : MathLib}.

Lemma stars_in_view_loop_filter (c : CelestialCoordinate) (d m : number) (todo : list Star.t) :
  forall acc, stars_in_view_loop c d m todo acc = acc ++ filter (in_view c d m) todo.
Proof.
  induction todo as [| star todo IH]; intros acc; cbn [stars_in_view_loop filter].
  - symmetry. apply app_nil_r.
  - rewrite !IH.
    change (in_view c d m star) with
      (negb (Star.magnitude star >? m) &&
       (calculateAngularDistance {| ra := Star.ra star; dec := Star.dec star |} c <=? d)).
    destruct (Star.magnitude star >? m); cbn [negb andb]; [reflexivity |].
    destruct (_ <=? d); [rewrite <- app_assoc |]; reflexivity.
Qed.

Lemma visible_stars_loop_filter (fuel : nat) (loc : GeolocationCoords) (m : number) (t : Date)
    (todo : list Star.t) : forall acc r,
  visible_stars_loop fuel loc m t todo acc = Some r ->
  r = acc ++ filter (seen_above fuel loc m t) todo.
Proof.
  induction todo as [| star todo IH]; intros acc r; cbn [visible_stars_loop filter].
  - intros [= <-]. symmetry. apply app_nil_r.
  - change (seen_above fuel loc m t star) with
      (negb (Star.magnitude star >? m) &&
       match isAboveHorizon fuel star loc t with Some above => above | None => false end).
    destruct (Star.magnitude star >? m); cbn [negb andb]; [apply IH |].
    destruct (isAboveHorizon fuel star loc t) as [above |]; [| discriminate].
    intros H. apply IH in H. rewrite H.
    destruct above; [rewrite <- app_assoc |]; reflexivity.
Qed.

Lemma isAboveHorizon_returns (fuel : nat) (star : Star.t) (loc : GeolocationCoords) (t : Date) :
  calculateLocalSiderealTime fuel (longitude loc) t <> None ->
  isAboveHorizon fuel star loc t <> None.
Proof.
  unfold isAboveHorizon, celestialToHorizontal.
  destruct (calculateLocalSiderealTime fuel (longitude loc) t); [discriminate | congruence].
Qed.

Lemma visible_stars_loop_returns (fuel : nat) (loc : GeolocationCoords) (m : number) (t : Date) :
  calculateLocalSiderealTime fuel (longitude loc) t <> None ->
  forall todo acc, visible_stars_loop fuel loc m t todo acc <> None.
Proof.
  intros H. induction todo as [| star todo IH]; intros acc; cbn [visible_stars_loop].
  - discriminate.
  - destruct (Star.magnitude star >? m); [apply IH |].
    pose proof (isAboveHorizon_returns fuel star loc t H) as Ha.
    destruct (isAboveHorizon fuel star loc t); [apply IH | congruence].
Qed.

Lemma seen_above_iff (fuel : nat) (loc : GeolocationCoords) (m : number) (t : Date)
    (star : Star.t) :
  seen_above fuel loc m t star = true <->
  (Star.magnitude star >? m) = false /\
  exists h, celestialToHorizontal fuel {| ra := Star.ra star; dec := Star.dec star |} loc t
            = Some h /\ (altitude h >? -0.5) = true.
Proof.
  unfold seen_above, isAboveHorizon.
  destruct (Star.magnitude star >? m); cbn [negb andb].
  - split; [discriminate | intros [? _]; discriminate].
  - destruct (celestialToHorizontal fuel _ loc t) as [h |].
    + split.
      * intros H. split; [reflexivity |]. exists h. split; [reflexivity | exact H].
      * intros [_ (h' & [= <-] & H)]. exact H.
    + split; [discriminate | intros [_ (h' & H & _)]; discriminate].
Qed.

Lemma visible_planets_loop_spec (fuel : nat) (loc : GeolocationCoords) (t : Date)
    (todo : list Planet.t) : forall acc r,
  visible_planets_loop fuel loc t todo acc = Some r ->
  forall vp, In vp r <->
    In vp acc \/
    (In (body vp) todo /\
     calculatePlanetPosition fuel (body vp) t = Some (position vp) /\
     celestialToHorizontal fuel (position vp) loc t = Some (horizontal vp) /\
     (altitude (horizontal vp) >? -0.5) = true).
Proof.
  induction todo as [| p todo IH]; intros acc r; cbn [visible_planets_loop].
  - intros [= <-] vp. split; [auto | intros [H | [[] _]]; exact H].
  - destruct (calculatePlanetPosition fuel p t) as [pos |] eqn:Ep; [| discriminate].
    destruct (celestialToHorizontal fuel pos loc t) as [h |] eqn:Eh; [| discriminate].
    intros H vp. rewrite (IH _ _ H vp). clear H IH.
    destruct vp as [b ps hz]. cbn [body position horizontal In].
    destruct (altitude h >? -0.5) eqn:Ea.
    + rewrite in_app_iff. cbn [In]. split.
      * intros [[H | [H | []]] | (H1 & H2)]; [left; exact H | | right; tauto].
        injection H as <- <- <-. right. auto.
      * intros [H | ([H1 | H1] & H2 & H3 & H4)]; [left; left; exact H | | right; tauto].
        left. right. left. congruence.
    + split.
      * intros [H | (H1 & H2)]; [left; exact H | right; tauto].
      * intros [H | ([H1 | H1] & H2 & H3 & H4)]; [left; exact H | | right; tauto].
        exfalso. congruence.
Qed.

End LoopFacts.

Lemma reduce_brighter (l : list Star.t) : forall b0 : Star.t,
  exists b, reduce brighter l (Some b0) = Normal (Some b) /\
    (b = b0 \/ (In b l /\ (Star.magnitude b <? Star.magnitude b0) = true)) /\
    (forall s, In s l -> (Star.magnitude s <? Star.magnitude b) = false).
Proof.
  induction l as [| s l IH]; intros b0; cbn [reduce brighter].
  - exists b0. repeat split; auto. intros s [].
  - destruct (Star.magnitude s <? Star.magnitude b0) eqn:E.
    + destruct (IH s) as (b & Hr & Hb & Hmin). exists b. split; [exact Hr |]. split.
      * right. destruct Hb as [-> | [Hin Hlt]].
        -- split; [left; reflexivity | exact E].
        -- split; [right; exact Hin | exact (ltb_trans _ _ _ Hlt E)].
      * intros s' [<- | Hin]; [| exact (Hmin _ Hin)].
        destruct Hb as [-> | [_ Hlt]]; [apply ltb_irrefl |].
        destruct (Star.magnitude s <? Star.magnitude b) eqn:E2; [| reflexivity].
        pose proof (ltb_trans _ _ _ E2 Hlt) as C. rewrite ltb_irrefl in C. discriminate.
    + destruct (IH b0) as (b & Hr & Hb & Hmin). exists b. split; [exact Hr |]. split.
      * destruct Hb as [-> | [Hin Hlt]];
          [left; reflexivity | right; split; [right; exact Hin | exact Hlt]].
      * intros s' [<- | Hin]; [| exact (Hmin _ Hin)].
        destruct Hb as [-> | [_ Hlt]]; [exact E |].
        destruct (Star.magnitude s <? Star.magnitude b) eqn:E2; [| reflexivity].
        rewrite (ltb_trans _ _ _ E2 Hlt) in E. discriminate.
Qed.

Lemma getStatistics_completes (this : StarCatalogService) :
  exists st, getStatistics this = Normal st /\
    totalStars st = Number.of_Z (Z.of_nat (List.length (JsMap.values (stars this)))) /\
    totalConstellations st =
      Number.of_Z (Z.of_nat (List.length (JsMap.values (constellations this)))) /\
    totalPlanets st = Number.of_Z (Z.of_nat (List.length (JsMap.values (planets this)))) /\
    match brightestStar st with
    | None => JsMap.values (stars this) = []
    | Some b =>
        In b (JsMap.values (stars this)) /\
        forall s, In s (JsMap.values (stars this)) ->
                  (Star.magnitude s <? Star.magnitude b) = false
    end.
Proof.
  unfold getStatistics, JsMap.size, JsMap.values. rewrite !length_map.
  destruct (map snd (stars this)) as [| s0 l] eqn:E; cbn [hd_error].
  - cbn [reduce]. eexists. repeat split.
  - destruct (reduce_brighter (s0 :: l) s0) as (b & Hr & Hb & Hmin).
    rewrite Hr. eexists. split; [reflexivity |].
    cbn [totalStars totalConstellations totalPlanets brightestStar].
    repeat split; try exact Hmin.
    destruct Hb as [-> | [Hin _]]; [left; reflexivity | exact Hin].
Qed.

(** *** Queries before initialization *)

(** C3 (the code does not do this).  On the service as [getInstance] first
    returns it, [getVisibleStars], [getStarsInView], [searchStars] and
    [getVisiblePlanets] throw the not-initialized error, but [getStar],
    [getConstellations], [getConstellation], [getPlanets], [getPlanet] and
    [getStatistics] complete normally and return data of the empty
    collections. *)
Theorem getters_answer_before_initialize :
  isInitialized getInstance = false /\
  (forall (M : MathLib) fuel location maxMagnitude timestamp,
     getVisibleStars fuel getInstance location maxMagnitude timestamp
     = Some (Throw not_initialized)) /\
  (forall (M : MathLib) center fieldOfView maxMagnitude,
     getStarsInView getInstance center fieldOfView maxMagnitude = Throw not_initialized) /\
  (forall query, searchStars getInstance query = Throw not_initialized) /\
  (forall (M : MathLib) fuel location timestamp,
     getVisiblePlanets fuel getInstance location timestamp = Some (Throw not_initialized)) /\
  (forall id, getStar getInstance id = Normal None) /\
  getConstellations getInstance = Normal [] /\
  (forall id, getConstellation getInstance id = Normal None) /\
  getPlanets getInstance = Normal [] /\
  (forall id, getPlanet getInstance id = Normal None) /\
  getStatistics getInstance =
    Normal {| totalStars := 0; totalConstellations := 0; totalPlanets := 0;
              brightestStar := None |}.
Proof. repeat split. Qed.

(** *** Validation of the data *)

(** C4, as the claim states it, fails: data whose constellation names the
    missing star hip_404 is loaded without any error. *)
Lemma initialize_accepts_dangling_reference :
  references_exist dangling_data = false /\
  exists this,
    initialize (new_StarCatalogService dangling_data no_planets) = Normal this /\
    isInitialized this = true /\
    getConstellation this "ghost" = Normal (nth_error (StarData.constellations dangling_data) 0).
Proof. split; [reflexivity |]. eexists. repeat split. Qed.

(** C4 (amended).  [initialize] checks nothing: for all embedded data, with
    or without a reference to a missing star, it completes normally and sets
    the flag, and afterwards no query throws (the searches and the getters
    complete normally, and so do the visibility queries unless an angle loop
    reaches its bound).  The data the class embeds has no missing
    reference. *)
Theorem initialize_does_not_validate :
  (forall (starData : StarData.t) (planetData : PlanetData.t),
     exists this,
       initialize (new_StarCatalogService starData planetData) = Normal this /\
       isInitialized this = true /\
       (forall query, exists r, searchStars this query = Normal r) /\
       (forall (M : MathLib) center fieldOfView maxMagnitude,
          exists r, getStarsInView this center fieldOfView maxMagnitude = Normal r) /\
       (forall (M : MathLib) fuel location maxMagnitude timestamp,
          getVisibleStars fuel this location maxMagnitude timestamp = None \/
          exists r, getVisibleStars fuel this location maxMagnitude timestamp
                    = Some (Normal r)) /\
       (forall (M : MathLib) fuel location timestamp,
          getVisiblePlanets fuel this location timestamp = None \/
          exists r, getVisiblePlanets fuel this location timestamp = Some (Normal r)) /\
       (exists st, getStatistics this = Normal st)) /\
  references_exist embedded_STAR_DATA = true.
Proof.
  split; [| reflexivity]. intros starData planetData.
  destruct (initialize_completes starData planetData) as (this & Hi & Hf).
  exists this. split; [exact Hi |]. split; [exact Hf |].
  unfold searchStars, getStarsInView, getVisibleStars, getVisiblePlanets. rewrite Hf.
  cbn [negb]. repeat split; eauto.
  - intros M fuel location maxMagnitude timestamp.
    destruct (visible_stars_loop _ _ _ _ _ _); eauto.
  - intros M fuel location timestamp.
    destruct (visible_planets_loop _ _ _ _ _); eauto.
  - destruct (getStatistics_completes this) as (st & H & _). eauto.
Qed.

Lemma initialize_does_not_validate_witness :
  exists this,
    initialize (new_StarCatalogService dangling_data no_planets) = Normal this /\
    isInitialized this = true /\
    exists r, searchStars this "hip" = Normal r.
Proof.
  destruct (proj1 initialize_does_not_validate dangling_data no_planets)
    as (this & Hi & Hf & Hs & _).
  exists this. split; [exact Hi |]. split; [exact Hf |]. exact (Hs "hip").
Defined.

(** *** Visible bodies *)

(** C5, as the claim states it, fails: seen from the north pole at the
    J2000.0 epoch, the star of declination -0.5 on the meridian has the
    computed altitude -0.5 exactly; it is at the margin, and it is not in
    the result. *)
Lemma star_on_margin_is_left_out :
  In star_on_margin (JsMap.values (stars (initialized horizon_data no_planets))) /\
  (Star.magnitude star_on_margin >? 4) = false /\
  @celestialToHorizontal SampleMath 1
     {| ra := Star.ra star_on_margin; dec := Star.dec star_on_margin |} north_pole J2000_noon
  = Some {| azimuth := 90; altitude := -0.5 |} /\
  (-0.5 >=? -0.5) = true /\
  @getVisibleStars SampleMath 1 (initialized horizon_data no_planets) north_pole 4 J2000_noon
  = Some (Normal [star_high]).
Proof.
  split; [left; reflexivity |]. repeat split; vm_compute; reflexivity.
Qed.

(** *** Order of the results *)

(** C8, as the claim states it, fails: in the embedded catalog Mizar
    (hip_65378) and Caph (hip_3179) both have magnitude 2.27; the search for
    "eta" returns Mizar first, as the catalog lists it, although the id of
    Caph is the smaller one. *)
Lemma equal_magnitudes_keep_catalog_order :
  ids_and_magnitudes
    (searchStars (initialized embedded_STAR_DATA embedded_PLANET_DATA) "eta") =
    Normal
      [("hip_26727", 1.79); ("hip_67301", 1.86); ("hip_85822", 2.08); ("hip_57632", 2.14);
       ("hip_65378", 2.27); ("hip_3179", 2.27); ("hip_53910", 2.37); ("hip_104732", 3.08);
       ("hip_55642", 3.34); ("hip_46750", 3.44); ("hip_79822", 4.32); ("hip_72607", 4.95)] /\
  String.ltb "hip_3179" "hip_65378" = true.
Proof. split; vm_compute; reflexivity. Qed.

(** C8 (amended).  On an initialized catalog whose magnitudes are finite,
    [searchStars], [getStarsInView] and [getVisibleStars] return the stars
    they select brightest first (magnitudes never decrease), and stars of
    equal magnitude in the order of the catalog, which is the order of
    insertion and not the order of the ids. *)
Theorem star_queries_brightest_first_ties_in_catalog_order (M : MathLib)
    (this : StarCatalogService) :
  isInitialized this = true ->
  finite_magnitudes (JsMap.values (stars this)) ->
  (forall query, exists r,
     searchStars this query = Normal r /\
     sorted_selection
       (filter (search_match (trim (toLowerCase query))) (JsMap.values (stars this))) r) /\
  (forall center fieldOfView maxMagnitude, exists r,
     getStarsInView this center fieldOfView maxMagnitude = Normal r /\
     sorted_selection
       (filter (in_view center (fieldOfView / 2) maxMagnitude) (JsMap.values (stars this))) r) /\
  (forall fuel location maxMagnitude timestamp r,
     getVisibleStars fuel this location maxMagnitude timestamp = Some (Normal r) ->
     sorted_selection
       (filter (seen_above fuel location maxMagnitude timestamp) (JsMap.values (stars this))) r).
Proof.
  intros Hinit Hfin. unfold searchStars, getStarsInView, getVisibleStars.
  rewrite Hinit. cbn [negb]. split; [| split].
  - intros query. eexists. split; [reflexivity |].
    rewrite search_loop_filter. cbn [app].
    apply Array_sort_selection, finite_magnitudes_filter, Hfin.
  - intros center fieldOfView maxMagnitude. eexists. split; [reflexivity |].
    rewrite stars_in_view_loop_filter. cbn [app].
    apply Array_sort_selection, finite_magnitudes_filter, Hfin.
  - intros fuel location maxMagnitude timestamp r H.
    destruct (visible_stars_loop _ _ _ _ _ _) as [l |] eqn:E; [| discriminate].
    injection H as <-. apply visible_stars_loop_filter in E. cbn [app] in E. subst l.
    apply Array_sort_selection, finite_magnitudes_filter, Hfin.
Qed.

Lemma embedded_initialized :
  isInitialized (initialized embedded_STAR_DATA embedded_PLANET_DATA) = true.
Proof. reflexivity. Defined.

Lemma embedded_magnitudes_finite :
  finite_magnitudes (JsMap.values (stars (initialized embedded_STAR_DATA embedded_PLANET_DATA))).
Proof. repeat constructor. Defined.

Lemma star_queries_brightest_first_ties_in_catalog_order_witness :
  (isInitialized (initialized embedded_STAR_DATA embedded_PLANET_DATA) = true /\
   finite_magnitudes
     (JsMap.values (stars (initialized embedded_STAR_DATA embedded_PLANET_DATA)))) /\
  exists r,
    searchStars (initialized embedded_STAR_DATA embedded_PLANET_DATA) "eta" = Normal r /\
    sorted_selection
      (filter (search_match (trim (toLowerCase "eta")))
         (JsMap.values (stars (initialized embedded_STAR_DATA embedded_PLANET_DATA)))) r.
Proof.
  split; [split; [exact embedded_initialized | exact embedded_magnitudes_finite] |].
  destruct (star_queries_brightest_first_ties_in_catalog_order SampleMath
              (initialized embedded_STAR_DATA embedded_PLANET_DATA)
              embedded_initialized embedded_magnitudes_finite) as [H _].
  exact (H "eta").
Defined.

(** *** Statistics *)

(** C10.  For every state of the catalog [getStatistics] completes normally;
    its three totals are the sizes of the three collections, and its
    brightest star is a star of the catalog than which no star of the catalog
    has a strictly smaller magnitude, or null when there is no star. *)
Theorem getStatistics_totals_and_brightest (this : StarCatalogService) :
  exists st, getStatistics this = Normal st /\
    totalStars st = Number.of_Z (Z.of_nat (List.length (JsMap.values (stars this)))) /\
    totalConstellations st =
      Number.of_Z (Z.of_nat (List.length (JsMap.values (constellations this)))) /\
    totalPlanets st = Number.of_Z (Z.of_nat (List.length (JsMap.values (planets this)))) /\
    match brightestStar st with
    | None => JsMap.values (stars this) = []
    | Some b =>
        In b (JsMap.values (stars this)) /\
        forall s, In s (JsMap.values (stars this)) ->
                  (Star.magnitude s <? Star.magnitude b) = false
    end.
Proof. exact (getStatistics_completes this). Qed.

Lemma getStatistics_totals_and_brightest_witness :
  exists st b,
    getStatistics (initialized embedded_STAR_DATA embedded_PLANET_DATA) = Normal st /\
    brightestStar st = Some b /\
    In b (JsMap.values (stars (initialized embedded_STAR_DATA embedded_PLANET_DATA))) /\
    In star_vega (JsMap.values (stars (initialized embedded_STAR_DATA embedded_PLANET_DATA))) /\
    (Star.magnitude star_vega <? Star.magnitude b) = false.
Proof.
  destruct (getStatistics_totals_and_brightest
              (initialized embedded_STAR_DATA embedded_PLANET_DATA))
    as (st & Hst & _ & _ & _ & Hb).
  assert (Hv : In star_vega
                 (JsMap.values (stars (initialized embedded_STAR_DATA embedded_PLANET_DATA)))).
  { vm_compute. do 12 right. left. reflexivity. }
  destruct (brightestStar st) as [b |] eqn:Eb.
  - destruct Hb as [Hin Hmin]. exists st, b. repeat split; auto.
  - rewrite Hb in Hv. destruct Hv.
Defined.

Example statistics_of_the_embedded_catalog :
  match getStatistics (initialized embedded_STAR_DATA embedded_PLANET_DATA) with
  | Normal st =>
      (totalStars st, totalConstellations st, totalPlanets st,
       option_map Star.name (brightestStar st)) = (49, 9, 9, Some "Sirius")
  | Throw _ => False
  end.
Proof. vm_compute. reflexivity. Qed.

(** * Further properties of the service

    Properties that the code shows beyond the ones its specification
    states. *)

(** ** Loading the catalog *)

Local Open Scope string_scope.
Local Open Scope list_scope.

Section MapFacts.
Context {V : Type}.
Implicit Types (m : JsMap.t V) (k : string) (v : V).

Lemma get_set_same k v m : JsMap.get k (JsMap.set k v m) = Some v.
Proof.
  induction m as [| [k' v'] m IH]; cbn [JsMap.set JsMap.get].
  - rewrite String.eqb_refl. reflexivity.
  - destruct (String.eqb_spec k' k) as [-> | N]; cbn [JsMap.get].
    + rewrite String.eqb_refl. reflexivity.
    + destruct (String.eqb_spec k' k); [contradiction | exact IH].
Qed.

Lemma get_set_other k k' v m : k <> k' -> JsMap.get k' (JsMap.set k v m) = JsMap.get k' m.
Proof.
  intros N. induction m as [| [k0 v0] m IH]; cbn [JsMap.set JsMap.get].
  - destruct (String.eqb_spec k k'); [contradiction | reflexivity].
  - destruct (String.eqb_spec k0 k) as [-> | N0]; cbn [JsMap.get].
    + destruct (String.eqb_spec k k'); [contradiction | reflexivity].
    + rewrite IH. reflexivity.
Qed.

Lemma keys_set_present k v m : In k (map fst m) -> map fst (JsMap.set k v m) = map fst m.
Proof.
  induction m as [| [k0 v0] m IH]; cbn [JsMap.set map fst In]; [intros [] |].
  intros H. destruct (String.eqb_spec k0 k) as [-> | N]; cbn [map fst]; [reflexivity |].
  destruct H as [H | H]; [contradiction |]. rewrite (IH H). reflexivity.
Qed.

Lemma keys_set_absent k v m : ~ In k (map fst m) -> map fst (JsMap.set k v m) = map fst m ++ [k].
Proof.
  induction m as [| [k0 v0] m IH]; cbn [JsMap.set map fst In app]; [reflexivity |].
  intros H. destruct (String.eqb_spec k0 k) as [-> | N]; [tauto |].
  cbn [map fst]. rewrite IH by tauto. reflexivity.
Qed.

Lemma keys_set_cases k v m :
  (In k (map fst m) /\ map fst (JsMap.set k v m) = map fst m) \/
  (~ In k (map fst m) /\ map fst (JsMap.set k v m) = map fst m ++ [k]).
Proof.
  destruct (in_dec string_dec k (map fst m)) as [H | H].
  - left. split; [exact H | apply keys_set_present; exact H].
  - right. split; [exact H | apply keys_set_absent; exact H].
Qed.

Lemma NoDup_keys_set k v m : NoDup (map fst m) -> NoDup (map fst (JsMap.set k v m)).
Proof.
  intros H. destruct (keys_set_cases k v m) as [[_ ->] | [N ->]]; [exact H |].
  apply NoDup_app; [exact H | repeat constructor; intros [] |].
  intros a Ha [<- | []]. tauto.
Qed.

Lemma get_absent k m : ~ In k (map fst m) -> JsMap.get k m = None.
Proof.
  induction m as [| [k0 v0] m IH]; cbn [JsMap.get map fst In]; [reflexivity |].
  intros H. destruct (String.eqb_spec k0 k); [tauto | apply IH; tauto].
Qed.

(** A map without repeated keys is determined by its keys, in order, and by
    what [get] answers. *)
Lemma JsMap_ext m1 : forall m2,
  NoDup (map fst m1) -> map fst m1 = map fst m2 ->
  (forall k, JsMap.get k m1 = JsMap.get k m2) -> m1 = m2.
Proof.
  induction m1 as [| [k1 v1] m1 IH]; intros [| [k2 v2] m2]; cbn [map fst];
    try discriminate; [reflexivity |].
  intros D E G. injection E as -> E. inversion D as [| ? ? Hk D']; subst.
  pose proof (G k2) as G2. cbn [JsMap.get] in G2. rewrite String.eqb_refl in G2.
  injection G2 as ->. f_equal. apply IH; [exact D' | exact E |].
  intros k. specialize (G k). cbn [JsMap.get] in G.
  destruct (String.eqb_spec k2 k) as [-> | N]; [| exact G].
  rewrite !get_absent; [reflexivity | rewrite <- E; exact Hk | exact Hk].
Qed.

End MapFacts.

Section LoadFacts.
Context {A : Type} (key : A -> string).
Implicit Types (m : JsMap.t A) (l : list A).

Lemma find_append (p : A -> bool) (l1 l2 : list A) :
  find p (l1 ++ l2) = match find p l1 with Some x => Some x | None => find p l2 end.
Proof.
  induction l1 as [| a l1 IH]; cbn [app find]; [reflexivity |].
  destruct (p a); [reflexivity | exact IH].
Qed.

Lemma get_load_entries id l : forall m,
  JsMap.get id (load_entries key l m) =
  match last_with_id key id l with Some x => Some x | None => JsMap.get id m end.
Proof.
  unfold load_entries, last_with_id.
  induction l as [| x l IH]; intros m; cbn [fold_left rev]; [reflexivity |].
  rewrite IH, find_append. destruct (find _ (rev l)); [reflexivity |].
  cbn [find]. destruct (String.eqb_spec (key x) id) as [<- | N].
  - apply get_set_same.
  - apply get_set_other. exact N.
Qed.

Lemma NoDup_keys_load l : forall m,
  NoDup (map fst m) -> NoDup (map fst (load_entries key l m)).
Proof.
  unfold load_entries. induction l as [| x l IH]; intros m H; cbn [fold_left]; [exact H |].
  apply IH, NoDup_keys_set, H.
Qed.

Lemma keys_load_mono l : forall m k,
  In k (map fst m) -> In k (map fst (load_entries key l m)).
Proof.
  unfold load_entries. induction l as [| x l IH]; intros m k H; cbn [fold_left]; [exact H |].
  apply IH. destruct (keys_set_cases (key x) x m) as [[_ ->] | [_ ->]];
    [exact H | apply in_or_app; left; exact H].
Qed.

Lemma keys_load_data l : forall m x,
  In x l -> In (key x) (map fst (load_entries key l m)).
Proof.
  induction l as [| y l IH]; intros m x; [intros [] |]. intros [-> | H].
  - apply (keys_load_mono l).
    destruct (keys_set_cases (key x) x m) as [[H ->] | [_ ->]];
      [exact H | apply in_or_app; right; left; reflexivity].
  - apply (IH _ _ H).
Qed.

Lemma keys_load_covered l : forall m,
  (forall x, In x l -> In (key x) (map fst m)) ->
  map fst (load_entries key l m) = map fst m.
Proof.
  unfold load_entries. induction l as [| x l IH]; intros m H; cbn [fold_left]; [reflexivity |].
  assert (E : map fst (JsMap.set (key x) x m) = map fst m)
    by (apply keys_set_present, H; left; reflexivity).
  rewrite IH; [exact E |]. intros y Hy. rewrite E. apply H. right. exact Hy.
Qed.

Lemma entries_set (P : string * A -> Prop) k v m :
  Forall P m -> P (k, v) -> Forall P (JsMap.set k v m).
Proof.
  intros H Hk. induction H as [| [k0 v0] m H0 H IH]; cbn [JsMap.set].
  - repeat constructor. exact Hk.
  - destruct (String.eqb k0 k); constructor; assumption.
Qed.

Lemma entries_load_entries (P : string * A -> Prop) l : forall m,
  Forall P m -> (forall x, In x l -> P (key x, x)) -> Forall P (load_entries key l m).
Proof.
  unfold load_entries. induction l as [| x l IH]; intros m H Hl; cbn [fold_left]; [exact H |].
  apply IH.
  - apply entries_set; [exact H | apply Hl; left; reflexivity].
  - intros y Hy. apply Hl. right. exact Hy.
Qed.

Lemma load_entries_keyed l :
  map fst (load_entries key l []) = map key (JsMap.values (load_entries key l [])) /\
  incl (JsMap.values (load_entries key l [])) l.
Proof.
  pose proof (entries_load_entries (fun e => fst e = key (snd e) /\ In (snd e) l) l []
                (Forall_nil _) (fun x Hx => conj eq_refl Hx)) as H.
  unfold JsMap.values. induction H as [| [k v] m [H1 H2] H IH]; cbn [map fst snd] in *.
  - split; [reflexivity | intros ? []].
  - destruct IH as [IH1 IH2]. split; [f_equal; assumption |].
    intros a [<- | Ha]; [exact H2 | exact (IH2 a Ha)].
Qed.

Lemma load_entries_distinct l :
  distinct_entries_of key l (JsMap.values (load_entries key l [])).
Proof.
  destruct (load_entries_keyed l) as [E I]. unfold distinct_entries_of. rewrite <- E.
  split; [apply NoDup_keys_load; constructor |]. split; [exact I |].
  intros id H. apply in_map_iff in H as (x & <- & Hx). apply keys_load_data. exact Hx.
Qed.

Lemma load_entries_fresh l : forall m,
  NoDup (map fst m ++ map key l) ->
  load_entries key l m = m ++ map (fun x => (key x, x)) l.
Proof.
  unfold load_entries. induction l as [| x l IH]; intros m D; cbn [fold_left map].
  - symmetry. apply app_nil_r.
  - cbn [map] in D.
    assert (Hx : ~ In (key x) (map fst m)).
    { intros H. apply NoDup_remove_2 in D. apply D, in_or_app. left. exact H. }
    assert (Es : JsMap.set (key x) x m = m ++ [(key x, x)]).
    { clear -Hx. induction m as [| [k0 v0] m IHm]; cbn [JsMap.set app]; [reflexivity |].
      cbn [map fst In] in Hx. destruct (String.eqb_spec k0 (key x)); [tauto |].
      rewrite IHm by tauto. reflexivity. }
    rewrite Es, IH.
    + rewrite <- app_assoc. reflexivity.
    + rewrite map_app, <- app_assoc. cbn [map fst app]. exact D.
Qed.

Lemma load_entries_twice l m :
  NoDup (map fst m) ->
  load_entries key l (load_entries key l m) = load_entries key l m.
Proof.
  intros D. apply JsMap_ext.
  - apply NoDup_keys_load, NoDup_keys_load, D.
  - apply keys_load_covered. intros x Hx. apply keys_load_data. exact Hx.
  - intros k. rewrite !get_load_entries. destruct (last_with_id key k l); reflexivity.
Qed.

End LoadFacts.

Local Open Scope string_scope.
Local Open Scope list_scope.

Lemma no_repeat_NoDup (l : list string) : no_repeat l = true <-> NoDup l.
Proof.
  induction l as [| a l IH]; cbn [no_repeat].
  - split; [constructor | reflexivity].
  - rewrite andb_true_iff, negb_true_iff, IH. split.
    + intros [H1 H2]. constructor; [| exact H2]. intros Hin.
      assert (existsb (String.eqb a) l = true)
        by (apply existsb_exists; exists a; split; [exact Hin | apply String.eqb_refl]).
      congruence.
    + intros H. inversion H as [| ? ? H1 H2]; subst. split; [| exact H2].
      destruct (existsb (String.eqb a) l) eqn:E; [| reflexivity].
      apply existsb_exists in E as (b & Hb & Eb). apply String.eqb_eq in Eb. subst b. tauto.
Qed.

Lemma initialize_loads (sd : StarData.t) (pd : PlanetData.t) :
  initialize (new_StarCatalogService sd pd) =
  Normal {| stars := load_entries Star.id (StarData.stars sd) [];
            constellations := load_entries Constellation.id (StarData.constellations sd) [];
            planets := load_entries Planet.id (PlanetData.planets pd) [];
            isInitialized := true; STAR_DATA := sd; PLANET_DATA := pd |}.
Proof. reflexivity. Qed.

(** X1.  After [initialize] on a new service, [getStar], [getConstellation]
    and [getPlanet] answer, for every id, the last entry of the embedded data
    that has this id, and [undefined] when the data has none. *)
Theorem lookup_answers_last_entry_with_id (sd : StarData.t) (pd : PlanetData.t) :
  exists this, initialize (new_StarCatalogService sd pd) = Normal this /\
    (forall id, getStar this id = Normal (last_with_id Star.id id (StarData.stars sd))) /\
    (forall id, getConstellation this id =
                Normal (last_with_id Constellation.id id (StarData.constellations sd))) /\
    (forall id, getPlanet this id = Normal (last_with_id Planet.id id (PlanetData.planets pd))).
Proof.
  eexists. split; [apply initialize_loads |].
  unfold getStar, getConstellation, getPlanet. cbn [stars constellations planets].
  repeat split; intros id; rewrite get_load_entries;
    destruct (last_with_id _ id _); reflexivity.
Qed.

(** X2.  After [initialize] on a new service the stars of the catalog, the
    constellations that [getConstellations] returns and the planets that
    [getPlanets] returns have pairwise distinct ids, are entries of the
    embedded data, and cover every id of the data. *)
Theorem catalog_ids_are_distinct (sd : StarData.t) (pd : PlanetData.t) :
  exists this, initialize (new_StarCatalogService sd pd) = Normal this /\
    distinct_entries_of Star.id (StarData.stars sd) (JsMap.values (stars this)) /\
    (exists cs, getConstellations this = Normal cs /\
                distinct_entries_of Constellation.id (StarData.constellations sd) cs) /\
    (exists ps, getPlanets this = Normal ps /\
                distinct_entries_of Planet.id (PlanetData.planets pd) ps).
Proof.
  eexists. split; [apply initialize_loads |].
  unfold getConstellations, getPlanets. cbn [stars constellations planets].
  split; [apply load_entries_distinct |].
  split; eexists; (split; [reflexivity | apply load_entries_distinct]).
Qed.

Lemma load_entries_distinct_data {A : Type} (key : A -> string) (l : list A) :
  NoDup (map key l) -> JsMap.values (load_entries key l []) = l.
Proof.
  intros D. rewrite load_entries_fresh by exact D. cbn [app].
  unfold JsMap.values. rewrite map_map. cbn [snd]. apply map_id.
Qed.

(** X3.  When the ids of the embedded data are pairwise distinct,
    [initialize] keeps every entry, in the order of the data: the stars of
    the catalog, [getConstellations] and [getPlanets] are the lists of the
    data. *)
Theorem distinct_data_is_kept_in_order (sd : StarData.t) (pd : PlanetData.t) :
  NoDup (map Star.id (StarData.stars sd)) ->
  NoDup (map Constellation.id (StarData.constellations sd)) ->
  NoDup (map Planet.id (PlanetData.planets pd)) ->
  exists this, initialize (new_StarCatalogService sd pd) = Normal this /\
    JsMap.values (stars this) = StarData.stars sd /\
    getConstellations this = Normal (StarData.constellations sd) /\
    getPlanets this = Normal (PlanetData.planets pd).
Proof.
  intros D1 D2 D3. eexists. split; [apply initialize_loads |].
  unfold getConstellations, getPlanets. cbn [stars constellations planets].
  rewrite !load_entries_distinct_data by assumption. repeat split.
Qed.

Lemma distinct_data_is_kept_in_order_witness :
  (NoDup (map Star.id (StarData.stars embedded_STAR_DATA)) /\
   NoDup (map Constellation.id (StarData.constellations embedded_STAR_DATA)) /\
   NoDup (map Planet.id (PlanetData.planets embedded_PLANET_DATA))) /\
  exists this, initialize (new_StarCatalogService embedded_STAR_DATA embedded_PLANET_DATA)
               = Normal this /\
    getPlanets this = Normal (PlanetData.planets embedded_PLANET_DATA).
Proof.
  assert (D1 : NoDup (map Star.id (StarData.stars embedded_STAR_DATA)))
    by (apply no_repeat_NoDup; vm_compute; reflexivity).
  assert (D2 : NoDup (map Constellation.id (StarData.constellations embedded_STAR_DATA)))
    by (apply no_repeat_NoDup; vm_compute; reflexivity).
  assert (D3 : NoDup (map Planet.id (PlanetData.planets embedded_PLANET_DATA)))
    by (apply no_repeat_NoDup; vm_compute; reflexivity).
  split; [repeat split; assumption |].
  destruct (distinct_data_is_kept_in_order embedded_STAR_DATA embedded_PLANET_DATA D1 D2 D3)
    as (this & Hi & _ & _ & Hp).
  exists this. split; assumption.
Defined.

(** X4.  Calling [initialize] again on an initialized service changes
    nothing: no entry is added twice. *)
Theorem initialize_again_changes_nothing (sd : StarData.t) (pd : PlanetData.t) :
  exists this, initialize (new_StarCatalogService sd pd) = Normal this /\
               initialize this = Normal this.
Proof.
  eexists. split; [apply initialize_loads |].
  unfold initialize, loadEmbeddedCatalog, loadPlanetaryData.
  cbn [stars constellations planets STAR_DATA PLANET_DATA isInitialized].
  fold (load_entries Star.id (StarData.stars sd) (load_entries Star.id (StarData.stars sd) [])).
  fold (load_entries Constellation.id (StarData.constellations sd)
          (load_entries Constellation.id (StarData.constellations sd) [])).
  fold (load_entries Planet.id (PlanetData.planets pd)
          (load_entries Planet.id (PlanetData.planets pd) [])).
  rewrite !load_entries_twice by constructor. reflexivity.
Qed.

(** ** Searching by name *)

Local Open Scope string_scope.
Local Open Scope list_scope.

Lemma prefix_spec (q s : string) : prefix q s = true <-> exists b, s = (q ++ b)%string.
Proof.
  revert s. induction q as [| c q IH]; intros s.
  - split; [intros _; exists s; reflexivity | intros _; destruct s; reflexivity].
  - destruct s as [| d s]; cbn [prefix].
    + split; [discriminate | intros [b H]; discriminate].
    + destruct (ascii_dec c d) as [-> | N].
      * rewrite IH. split; intros [b H]; exists b; [rewrite H; reflexivity |].
        cbn [String.append] in H. congruence.
      * split; [discriminate |]. intros [b H]. cbn [String.append] in H. congruence.
Qed.

Lemma includes_spec (s q : string) :
  includes s q = true <-> exists a b, s = (a ++ q ++ b)%string.
Proof.
  induction s as [| c s IH]; cbn [includes]; rewrite orb_true_iff, prefix_spec.
  - split.
    + intros [[b H] | H]; [exists "", b; exact H | discriminate].
    + intros (a & b & H). left. destruct a; [exists b; exact H | discriminate].
  - rewrite IH. split.
    + intros [[b H] | (a & b & H)]; [exists "", b; exact H |].
      exists (String c a), b. cbn [String.append]. rewrite H. reflexivity.
    + intros (a & b & H). destruct a as [| d a]; cbn [String.append] in H.
      * left. exists b. exact H.
      * right. exists a, b. congruence.
Qed.

Lemma includes_empty (s : string) : includes s "" = true.
Proof. destruct s; reflexivity. Qed.

Lemma string_append_assoc (a b c : string) : ((a ++ b) ++ c = a ++ (b ++ c))%string.
Proof. induction a as [| x a IH]; cbn [String.append]; [reflexivity | rewrite IH; reflexivity]. Qed.

Lemma includes_trans (s q r : string) :
  includes s q = true -> includes q r = true -> includes s r = true.
Proof.
  rewrite !includes_spec. intros (a & b & ->) (c & d & ->).
  exists (a ++ c)%string, (d ++ b)%string. rewrite !string_append_assoc. reflexivity.
Qed.

Lemma trimStart_spec (s : string) : exists a, s = (a ++ trimStart s)%string /\ blank a = true.
Proof.
  induction s as [| c s (a & H & B)]; cbn [trimStart].
  - exists "". split; reflexivity.
  - destruct (is_white_space c) eqn:E.
    + exists (String c a). cbn [String.append blank]. rewrite E, B, <- H. split; reflexivity.
    + exists "". split; reflexivity.
Qed.

Lemma trimEnd_spec (s : string) : exists b, s = (trimEnd s ++ b)%string /\ blank b = true.
Proof.
  induction s as [| c s (b & H & B)]; cbn [trimEnd].
  - exists "". split; reflexivity.
  - destruct (trimEnd s) as [| d t] eqn:E.
    + destruct (is_white_space c) eqn:W.
      * exists (String c s). cbn [String.append] in H. subst s.
        cbn [String.append blank]. rewrite W, B. split; reflexivity.
      * exists b. cbn [String.append] in *. subst s. split; [reflexivity | exact B].
    + exists b. cbn [String.append] in *. rewrite <- H. split; [reflexivity | exact B].
Qed.

Lemma includes_trim (s : string) : includes s (trim s) = true.
Proof.
  apply includes_spec. unfold trim.
  destruct (trimStart_spec s) as (a & Ha & _).
  destruct (trimEnd_spec (trimStart s)) as (b & Hb & _).
  exists a, b. rewrite <- Hb. exact Ha.
Qed.

Lemma trim_blank (s : string) : blank s = true -> trim s = "".
Proof.
  intros B. unfold trim.
  assert (E : trimStart s = "").
  { induction s as [| c s IH]; cbn [trimStart blank] in *; [reflexivity |].
    apply andb_true_iff in B as [-> B]. exact (IH B). }
  rewrite E. reflexivity.
Qed.

Lemma is_white_space_lower (c : ascii) : is_white_space (lower_ascii c) = is_white_space c.
Proof. destruct c as [[] [] [] [] [] [] [] []]; reflexivity. Qed.

Lemma blank_toLowerCase (s : string) : blank (toLowerCase s) = blank s.
Proof.
  induction s as [| c s IH]; cbn [toLowerCase blank]; [reflexivity |].
  rewrite is_white_space_lower, IH. reflexivity.
Qed.

Lemma filter_all {A : Type} (p : A -> bool) (l : list A) :
  (forall a, p a = true) -> filter p l = l.
Proof.
  intros H. induction l as [| a l IH]; cbn [filter]; [reflexivity |].
  rewrite H, IH. reflexivity.
Qed.

(** X5.  On an initialized catalog whose magnitudes are finite, a query made
    only of the ASCII white-space characters (tab, line feed, vertical tab,
    form feed, carriage return, space; the empty query included) makes
    [searchStars] return every star of the catalog: the result is a
    permutation of the catalog, magnitudes never decrease along it, and stars
    of one magnitude keep the order of the catalog. *)
Theorem blank_query_lists_the_catalog (this : StarCatalogService) (query : string) :
  isInitialized this = true ->
  finite_magnitudes (JsMap.values (stars this)) ->
  blank query = true ->
  exists r, searchStars this query = Normal r /\
            sorted_selection (JsMap.values (stars this)) r.
Proof.
  intros Hi F B. unfold searchStars. rewrite Hi. cbn [negb].
  rewrite trim_blank by (rewrite blank_toLowerCase; exact B).
  rewrite search_loop_filter. cbn [app]. rewrite filter_all.
  - eexists. split; [reflexivity |]. apply Array_sort_selection. exact F.
  - intros s. unfold search_match. rewrite includes_empty. reflexivity.
Qed.

Lemma blank_query_lists_the_catalog_witness :
  (isInitialized (initialized embedded_STAR_DATA embedded_PLANET_DATA) = true /\
   finite_magnitudes
     (JsMap.values (stars (initialized embedded_STAR_DATA embedded_PLANET_DATA))) /\
   blank (String "009" " ") = true) /\
  (exists r,
     searchStars (initialized embedded_STAR_DATA embedded_PLANET_DATA)
       (String "009" " ") = Normal r /\
     sorted_selection
       (JsMap.values (stars (initialized embedded_STAR_DATA embedded_PLANET_DATA))) r) /\
  List.length
    (star_ids (Some (searchStars (initialized embedded_STAR_DATA embedded_PLANET_DATA)
                       (String "009" " ")))) = 49%nat /\
  firstn 3
    (star_ids (Some (searchStars (initialized embedded_STAR_DATA embedded_PLANET_DATA)
                       (String "009" " ")))) =
    ["hip_32349"; "hip_69673"; "hip_91262"].
Proof.
  split; [exact (conj embedded_initialized (conj embedded_magnitudes_finite eq_refl)) |].
  split.
  - exact (blank_query_lists_the_catalog (initialized embedded_STAR_DATA embedded_PLANET_DATA)
             (String "009" " ") embedded_initialized embedded_magnitudes_finite
             eq_refl).
  - split; vm_compute; reflexivity.
Defined.

(** X6.  On an initialized catalog, [searchStars] returns every star in
    whose name or common name the query occurs, letter case aside: trimming
    the query loses no star. *)
Theorem search_finds_stars_by_name (this : StarCatalogService) (query : string)
    (star : Star.t) :
  isInitialized this = true ->
  In star (JsMap.values (stars this)) ->
  names_contain query star = true ->
  exists r, searchStars this query = Normal r /\ In star r.
Proof.
  intros Hi Hin Hn. unfold searchStars. rewrite Hi. cbn [negb].
  eexists. split; [reflexivity |].
  rewrite In_Array_sort, search_loop_filter. cbn [app]. apply filter_In. split; [exact Hin |].
  unfold names_contain in Hn. unfold search_match.
  apply orb_true_iff in Hn. apply orb_true_iff. destruct Hn as [H | H].
  - left. apply (includes_trans _ _ _ H), includes_trim.
  - right. destruct (Star.commonName star); [| discriminate].
    apply (includes_trans _ _ _ H), includes_trim.
Qed.

Lemma search_finds_stars_by_name_witness :
  (isInitialized (initialized embedded_STAR_DATA embedded_PLANET_DATA) = true /\
   In star_vega (JsMap.values (stars (initialized embedded_STAR_DATA embedded_PLANET_DATA))) /\
   names_contain " LYRAE " star_vega = false /\ names_contain "LYRAE" star_vega = true) /\
  exists r, searchStars (initialized embedded_STAR_DATA embedded_PLANET_DATA) "LYRAE"
            = Normal r /\ In star_vega r.
Proof.
  assert (Hv : In star_vega
                 (JsMap.values (stars (initialized embedded_STAR_DATA embedded_PLANET_DATA)))).
  { vm_compute. do 12 right. left. reflexivity. }
  split; [repeat split; try reflexivity; exact Hv |].
  apply (search_finds_stars_by_name _ "LYRAE" star_vega); [reflexivity | exact Hv | reflexivity].
Defined.

(** ** Limits of the star queries, and the visible planets *)

Local Open Scope string_scope.
Local Open Scope list_scope.
Local Open Scope float_scope.

Lemma magnitude_filter_mono (m1 m2 v : number) :
  (m1 <=? m2) = true -> (v >? m1) = false -> (v >? m2) = false.
Proof.
  unfold Number.gtb. intros L H. destruct (leb_not_nan _ _ L) as [N1 N2].
  destruct (is_nan v) eqn:Nv; [apply ltb_nan_r; exact Nv |].
  rewrite ltb_key in * by assumption. rewrite leb_key in L by assumption.
  apply Z.leb_le in L. apply Z.ltb_ge in H. apply Z.ltb_ge. lia.
Qed.

Lemma leb_nan_r (x : number) : (x <=? nan) = false.
Proof. rewrite leb_spec. change (Prim2SF nan) with S754_nan. destruct (Prim2SF x); reflexivity. Qed.

Lemma gtb_nan (x : number) : (x >? nan) = false.
Proof. unfold Number.gtb. apply ltb_nan_l. reflexivity. Qed.

Lemma gtb_infinity (x : number) : (x >? infinity) = false.
Proof.
  unfold Number.gtb. rewrite ltb_spec. change (Prim2SF infinity) with (S754_infinity false).
  destruct (Prim2SF x) as [s | s | | s m e]; try reflexivity; destruct s; reflexivity.
Qed.

Section QueryFacts.
Context {M : MathLib}.

Lemma in_view_mono (c : CelestialCoordinate) (d m1 m2 : number) (s : Star.t) :
  (m1 <=? m2) = true -> in_view c d m1 s = true -> in_view c d m2 s = true.
Proof.
  unfold in_view. intros L H. apply andb_true_iff in H as [H1 H2].
  apply negb_true_iff in H1. rewrite (magnitude_filter_mono _ _ _ L H1), H2. reflexivity.
Qed.

Lemma seen_above_mono (fuel : nat) (loc : GeolocationCoords) (m1 m2 : number) (t : Date)
    (s : Star.t) :
  (m1 <=? m2) = true -> seen_above fuel loc m1 t s = true -> seen_above fuel loc m2 t s = true.
Proof.
  unfold seen_above. intros L H. apply andb_true_iff in H as [H1 H2].
  apply negb_true_iff in H1. rewrite (magnitude_filter_mono _ _ _ L H1), H2. reflexivity.
Qed.

End QueryFacts.

(** X8.  On an initialized catalog, a NaN field of view makes
    [getStarsInView] return no star, and a NaN magnitude limit filters
    nothing: [getStarsInView] and [getVisibleStars] then answer as for the
    limit +Infinity. *)
Theorem nan_limits_of_the_star_queries (M : MathLib) (this : StarCatalogService) :
  isInitialized this = true ->
  (forall center maxMagnitude, getStarsInView this center nan maxMagnitude = Normal []) /\
  (forall center fieldOfView,
     getStarsInView this center fieldOfView nan =
     getStarsInView this center fieldOfView infinity) /\
  (forall fuel location timestamp,
     getVisibleStars fuel this location nan timestamp =
     getVisibleStars fuel this location infinity timestamp).
Proof.
  intros Hi. unfold getStarsInView, getVisibleStars. rewrite Hi. cbn [negb].
  split; [| split].
  - intros c m. rewrite stars_in_view_loop_filter. cbn [app].
    change (nan / 2) with nan.
    assert (E : filter (in_view c nan m) (JsMap.values (stars this)) = []).
    { induction (JsMap.values (stars this)) as [| s l IH]; cbn [filter]; [reflexivity |].
      unfold in_view at 1. rewrite leb_nan_r, andb_false_r. exact IH. }
    rewrite E. reflexivity.
  - intros c f. f_equal. f_equal.
    induction (JsMap.values (stars this)) as [| s l IH] using rev_ind; [reflexivity |].
    rewrite !stars_in_view_loop_filter in *. cbn [app] in *.
    rewrite !filter_app, IH. f_equal. cbn [filter]. unfold in_view.
    rewrite gtb_nan, gtb_infinity. reflexivity.
  - intros fuel loc t.
    assert (E : forall todo acc, visible_stars_loop fuel loc nan t todo acc =
                                 visible_stars_loop fuel loc infinity t todo acc).
    { induction todo as [| s todo IH]; intros acc; cbn [visible_stars_loop]; [reflexivity |].
      rewrite gtb_nan, gtb_infinity. destruct (isAboveHorizon fuel s loc t); [apply IH | reflexivity]. }
    rewrite E. reflexivity.
Qed.

Lemma nan_limits_of_the_star_queries_witness :
  isInitialized (initialized horizon_data no_planets) = true /\
  @getStarsInView SampleMath (initialized horizon_data no_planets)
     {| ra := 10.46061837; dec := 36.97 |} nan 4 = Normal [].
Proof.
  split; [reflexivity |].
  apply (proj1 (nan_limits_of_the_star_queries SampleMath
                  (initialized horizon_data no_planets) eq_refl)).
Defined.

Section PlanetFacts.
Context {M : MathLib}.

Lemma visible_planets_loop_bodies (fuel : nat) (loc : GeolocationCoords) (t : Date)
    (todo : list Planet.t) : forall acc r,
  visible_planets_loop fuel loc t todo acc = Some r ->
  map body r = map body acc ++ filter (planet_above fuel loc t) todo.
Proof.
  induction todo as [| p todo IH]; intros acc r; cbn [visible_planets_loop filter].
  - intros [= <-]. symmetry. apply app_nil_r.
  - unfold planet_above at 1.
    destruct (calculatePlanetPosition fuel p t) as [pos |]; [| discriminate].
    destruct (celestialToHorizontal fuel pos loc t) as [h |]; [| discriminate].
    intros H. apply IH in H. rewrite H.
    destruct (altitude h >? -0.5); [| reflexivity].
    rewrite map_app, <- app_assoc. reflexivity.
Qed.

End PlanetFacts.

(** ** Normalized angles *)

Local Open Scope Z_scope.
Local Open Scope float_scope.

Lemma leb_nan_right (x y : number) : is_nan y = true -> (x <=? y) = false.
Proof.
  intros H. apply is_nan_Prim2SF in H. rewrite leb_spec, H. destruct (Prim2SF x); reflexivity.
Qed.

Lemma normalizeAngle_nan (fuel : nat) (x : number) :
  is_nan x = true -> normalizeAngle fuel x = Some x.
Proof.
  intros N. unfold normalizeAngle.
  assert (Ha : add_turns fuel x = Some x)
    by (destruct fuel; cbn [add_turns]; rewrite (ltb_nan_l _ _ N); reflexivity).
  rewrite Ha. destruct fuel; cbn [drop_turns]; unfold Number.geb;
    rewrite (leb_nan_right _ _ N); reflexivity.
Qed.

Lemma normalizeAngle_normalized (fuel : nat) (x r : number) :
  normalizeAngle fuel x = Some r -> normalized r.
Proof.
  intros H. destruct (is_nan x) eqn:N.
  - rewrite normalizeAngle_nan in H by exact N. injection H as <-. left. exact N.
  - right. exact (normalizeAngle_range fuel x r N H).
Qed.

(** X10.  Every angle that the service normalizes is NaN or lies in
    [[0,360)]: the local sidereal time, the true anomaly, and the right
    ascension of the Sun, of a converted heliocentric position and of a
    planet. *)
Theorem angles_are_normalized :
  (forall fuel longitude timestamp r,
     calculateLocalSiderealTime fuel longitude timestamp = Some r -> normalized r) /\
  (forall (M : MathLib) fuel eccentricAnomaly eccentricity r,
     calculateTrueAnomaly fuel eccentricAnomaly eccentricity = Some r -> normalized r) /\
  (forall (M : MathLib) fuel timestamp c,
     calculateSunPosition fuel timestamp = Some c -> normalized (ra c)) /\
  (forall (M : MathLib) fuel helioCoords sunPos timestamp c,
     heliocentricToGeocentric fuel helioCoords sunPos timestamp = Some c -> normalized (ra c)) /\
  (forall (M : MathLib) fuel planet timestamp c,
     calculatePlanetPosition fuel planet timestamp = Some c -> normalized (ra c)).
Proof.
  assert (Sun : forall (M : MathLib) fuel timestamp c,
            calculateSunPosition fuel timestamp = Some c -> normalized (ra c)).
  { intros M fuel t c. unfold calculateSunPosition.
    destruct (normalizeAngle fuel _) as [L |]; [| discriminate].
    destruct (normalizeAngle fuel _) as [g |]; [| discriminate].
    destruct (normalizeAngle fuel _) as [la |]; [| discriminate].
    destruct (normalizeAngle fuel _) as [a |] eqn:E; [| discriminate].
    intros [= <-]. exact (normalizeAngle_normalized _ _ _ E). }
  assert (Geo : forall (M : MathLib) fuel helioCoords sunPos timestamp c,
            heliocentricToGeocentric fuel helioCoords sunPos timestamp = Some c ->
            normalized (ra c)).
  { intros M fuel h s t c. unfold heliocentricToGeocentric.
    destruct (normalizeAngle fuel _) as [a |] eqn:E; [| discriminate].
    intros [= <-]. exact (normalizeAngle_normalized _ _ _ E). }
  split; [| split; [| split; [exact Sun | split; [exact Geo |]]]].
  - intros fuel lon t r. unfold calculateLocalSiderealTime.
    destruct (normalizeAngle fuel _) as [g |]; [| discriminate].
    apply normalizeAngle_normalized.
  - intros M fuel E e r. apply normalizeAngle_normalized.
  - intros M fuel p t c. unfold calculatePlanetPosition.
    destruct (Planet.type p); [| apply Sun].
    destruct (normalizeAngle fuel _) as [ma |]; [| discriminate].
    destruct (calculateTrueAnomaly fuel _ _) as [ta |]; [| discriminate].
    destruct (calculateSunPosition fuel t) as [sp |]; [| discriminate].
    apply Geo.
Qed.

Lemma angles_are_normalized_witness :
  calculateLocalSiderealTime 1 0 J2000_noon = Some 280.46061837 /\ normalized 280.46061837.
Proof.
  split; [vm_compute; reflexivity |].
  apply (proj1 angles_are_normalized 1%nat 0 J2000_noon 280.46061837).
  vm_compute. reflexivity.
Defined.

(** Infinite operands. *)

Lemma is_infinity_Prim2SF (x : number) :
  is_infinity x = true <-> exists s, Prim2SF x = S754_infinity s.
Proof.
  unfold is_infinity. rewrite eqb_spec, abs_spec.
  change (Prim2SF infinity) with (S754_infinity false).
  destruct (Prim2SF x) as [s | s | | s m e]; cbn; split;
    try discriminate; try (intros [s' H]; discriminate); eauto.
Qed.

Lemma add_infinite (g x : number) (s : bool) :
  is_finite g = true -> Prim2SF x = S754_infinity s ->
  g + x = if s then neg_infinity else infinity.
Proof.
  intros F E. rewrite is_finite_Prim2SF in F. apply Prim2SF_inj.
  rewrite add_spec, E. destruct (Prim2SF g) as [s' | s' | | s' m e]; try discriminate;
    destruct s; reflexivity.
Qed.

Lemma add_nan_l (g x : number) : is_nan g = true -> is_nan (g + x) = true.
Proof.
  intros N. apply is_nan_Prim2SF in N. apply is_nan_Prim2SF. rewrite add_spec, N. reflexivity.
Qed.

Lemma normalizeAngle_infinite (fuel : nat) :
  normalizeAngle fuel infinity = None /\ normalizeAngle fuel neg_infinity = None.
Proof.
  split; unfold normalizeAngle.
  - assert (Ha : add_turns fuel infinity = Some infinity) by (destruct fuel; reflexivity).
    rewrite Ha. induction fuel as [| fuel IH]; [reflexivity |].
    cbn [drop_turns]. change (infinity >=? 360) with true. cbv iota.
    change (infinity - 360) with infinity. apply IH. destruct fuel; reflexivity.
  - assert (Ha : add_turns fuel neg_infinity = None).
    { induction fuel as [| fuel IH]; [reflexivity |].
      cbn [add_turns]. change (neg_infinity <? 0) with true. cbv iota.
      change (neg_infinity + 360) with neg_infinity. exact IH. }
    rewrite Ha. reflexivity.
Qed.

Lemma in_range_finite (g : number) :
  (0 <=? g) = true -> (g <? 360) = true -> is_finite g = true /\ (0 <= fkey g < turn_key)%Z.
Proof.
  intros P Q. destruct (leb_not_nan _ _ P) as [_ N].
  rewrite leb_key in P by (reflexivity || exact N).
  rewrite ltb_key in Q by (reflexivity || exact N).
  apply Z.leb_le in P. apply Z.ltb_lt in Q. rewrite fkey_360 in Q.
  change (fkey 0) with 0%Z in P. split; [| lia].
  destruct (not_nan_cases g N) as [F | [s E]]; [exact F | exfalso].
  unfold fkey in P, Q. rewrite E in P, Q. cbn [SFkey] in P, Q.
  assert (turn_key < 2 ^ 2098)%Z by reflexivity.
  destruct s; cbn [cond_Zopp] in P, Q; lia.
Qed.

(** X11.  With an observer longitude of +Infinity or -Infinity,
    [calculateLocalSiderealTime] never returns a number: its second
    normalization does not end, or (when the Greenwich angle is NaN) it
    returns NaN. *)
Theorem sidereal_time_of_an_infinite_longitude (fuel : nat) (longitude : number)
    (timestamp : Date) :
  is_infinity longitude = true ->
  match calculateLocalSiderealTime fuel longitude timestamp with
  | None => True
  | Some r => is_nan r = true
  end.
Proof.
  intros H. apply is_infinity_Prim2SF in H as [s E]. unfold calculateLocalSiderealTime.
  destruct (normalizeAngle fuel _) as [g |] eqn:Eg; [| exact I].
  destruct (normalizeAngle_normalized _ _ _ Eg) as [N | [P Q]].
  - rewrite normalizeAngle_nan by (apply add_nan_l; exact N). apply add_nan_l. exact N.
  - destruct (in_range_finite g P Q) as [F _]. rewrite (add_infinite g longitude s F E).
    destruct (normalizeAngle_infinite fuel) as [H1 H2]. destruct s; [rewrite H2 | rewrite H1]; exact I.
Qed.

Lemma sidereal_time_of_an_infinite_longitude_witness :
  is_infinity infinity = true /\
  match calculateLocalSiderealTime 5 infinity J2000_noon with
  | None => True
  | Some r => is_nan r = true
  end.
Proof.
  split; [reflexivity |].
  apply (sidereal_time_of_an_infinite_longitude 5 infinity J2000_noon). reflexivity.
Defined.

Local Open Scope Z_scope.

(** The sum of two finite numbers whose exact sum is below a power of two
    in magnitude is finite and not above that power. *)
Lemma SFadd_bound (a b : spec_float) (p : Z) :
  valid_binary a = true -> valid_binary b = true ->
  SFfinite a = true -> SFfinite b = true ->
  0 <= p <= 2097 -> Z.abs (SFkey a + SFkey b) < 2 ^ p ->
  SFfinite (SF64add a b) = true /\ Z.abs (SFkey (SF64add a b)) <= 2 ^ p.
Proof.
  intros Va Vb Fa Fb Hp H. unfold SF64add.
  assert (P0 : 0 < 2 ^ p) by (apply Z.pow_pos_nonneg; lia).
  destruct a as [sa | sa | | sa ma ea]; try discriminate;
  destruct b as [sb | sb | | sb mb eb]; try discriminate; cbn [SFadd].
  - destruct sa, sb; (split; [reflexivity | exact (Z.lt_le_incl _ _ P0)]).
  - cbn [SFkey] in *. split; [reflexivity | lia].
  - cbn [SFkey] in *. rewrite Z.add_0_r in H. split; [reflexivity | lia].
  - pose proof (valid_finite_bounds _ _ _ Va) as (Ba & _ & _).
    pose proof (valid_finite_bounds _ _ _ Vb) as (Bb & _ & _).
    cbn [SFkey] in H.
    change (IntDef.Z.min ea eb) with (Z.min ea eb).
    set (ez := Z.min ea eb) in *.
    rewrite (key_aligned sa ma ea ez) in H by lia.
    rewrite (key_aligned sb mb eb ez) in H by lia.
    set (A := cond_Zopp sa (Zpos (fst (shl_align ma ea ez)))) in *.
    set (B := cond_Zopp sb (Zpos (fst (shl_align mb eb ez)))) in *.
    rewrite <- Z.mul_add_distr_r in H.
    set (z := A + B) in *.
    assert (PP : 0 < 2 ^ (ez + 1074)) by (apply Z.pow_pos_nonneg; lia).
    rewrite Z.abs_mul, (Z.abs_eq (2 ^ (ez + 1074))) in H by lia.
    destruct (Z.eq_dec z 0) as [Z0 | NZ].
    + rewrite Z0. split; [reflexivity | exact (Z.lt_le_incl _ _ P0)].
    + set (t := p - (ez + 1074)).
      assert (Ht : 0 < t).
      { destruct (Z_lt_le_dec 0 t) as [L | L]; [exact L | exfalso].
        assert (2 ^ p <= 2 ^ (ez + 1074)) by (apply Z.pow_le_mono_r; lia). nia. }
      assert (Pt : 2 ^ p = 2 ^ t * 2 ^ (ez + 1074)).
      { rewrite <- Z.pow_add_r by lia. f_equal. subst t. lia. }
      assert (Hz : Z.abs z < 2 ^ t) by nia.
      pose proof (Zdigits2_lt z t ltac:(lia) Hz) as Dd.
      destruct (binary_normalize_value z ez ltac:(lia) ltac:(subst t; lia)) as (F & U & _).
      split; [exact F |]. apply Z.le_trans with (1 := U).
      unfold rounding_shift. rewrite fexp_value.
      set (n := Z.max 0 (Z.max (Zdigits2 z + ez - 53) (-1074) - ez)).
      assert (Hn : 0 <= n < t) by (subst n; lia).
      assert (Pn : 0 < 2 ^ n) by (apply Z.pow_pos_nonneg; lia).
      assert (Et : 2 ^ t = 2 ^ n * 2 ^ (t - n)).
      { rewrite <- Z.pow_add_r by lia. f_equal. lia. }
      assert (Q : Z.abs z / 2 ^ n < 2 ^ (t - n)).
      { apply Z.div_lt_upper_bound; [exact Pn | lia]. }
      replace (ez + n + 1074) with (n + (ez + 1074)) by lia.
      rewrite Z.pow_add_r, Pt, Et by lia.
      replace (2 ^ n * 2 ^ (t - n) * 2 ^ (ez + 1074))
        with (2 ^ (t - n) * (2 ^ n * 2 ^ (ez + 1074))) by ring.
      apply Z.mul_le_mono_nonneg_r; [| lia].
      apply Z.mul_nonneg_nonneg; apply Z.pow_nonneg; lia.
Qed.

Local Open Scope float_scope.

Lemma add_bound (a b : number) (p : Z) :
  is_finite a = true -> is_finite b = true ->
  (0 <= p <= 2097)%Z -> (Z.abs (fkey a + fkey b) < 2 ^ p)%Z ->
  is_finite (a + b) = true /\ (Z.abs (fkey (a + b)%float) <= 2 ^ p)%Z.
Proof.
  rewrite !is_finite_Prim2SF. unfold fkey. rewrite add_spec.
  intros Fa Fb Hp H. apply SFadd_bound; try apply Prim2SF_valid; assumption.
Qed.

(** More iterations allowed do not change what the loops return. *)
Lemma add_turns_more (fuel : nat) : forall fuel' a r,
  add_turns fuel a = Some r -> (fuel <= fuel')%nat -> add_turns fuel' a = Some r.
Proof.
  induction fuel as [| fuel IH]; intros fuel' a r; cbn [add_turns].
  - destruct (a <? 0) eqn:E; [discriminate |]. intros [= <-] _.
    destruct fuel'; cbn [add_turns]; rewrite E; reflexivity.
  - destruct (a <? 0) eqn:E.
    + intros H L. destruct fuel' as [| fuel']; [lia |]. cbn [add_turns]. rewrite E.
      apply (IH _ _ _ H). lia.
    + intros [= <-] _. destruct fuel'; cbn [add_turns]; rewrite E; reflexivity.
Qed.

Lemma drop_turns_more (fuel : nat) : forall fuel' a r,
  drop_turns fuel a = Some r -> (fuel <= fuel')%nat -> drop_turns fuel' a = Some r.
Proof.
  induction fuel as [| fuel IH]; intros fuel' a r; cbn [drop_turns].
  - destruct (a >=? 360) eqn:E; [discriminate |]. intros [= <-] _.
    destruct fuel'; cbn [drop_turns]; rewrite E; reflexivity.
  - destruct (a >=? 360) eqn:E.
    + intros H L. destruct fuel' as [| fuel']; [lia |]. cbn [drop_turns]. rewrite E.
      apply (IH _ _ _ H). lia.
    + intros [= <-] _. destruct fuel'; cbn [drop_turns]; rewrite E; reflexivity.
Qed.

Lemma normalizeAngle_more (fuel fuel' : nat) (x r : number) :
  normalizeAngle fuel x = Some r -> (fuel <= fuel')%nat -> normalizeAngle fuel' x = Some r.
Proof.
  unfold normalizeAngle. destruct (add_turns fuel x) as [a |] eqn:E; [| discriminate].
  intros H L. rewrite (add_turns_more _ _ _ _ E L). exact (drop_turns_more _ _ _ _ H L).
Qed.

(** X12.  If [calculateLocalSiderealTime] returns for a timestamp at some
    longitude, then it returns, with a normalized angle, for the same
    timestamp at every longitude of magnitude below 2^54: the loop that
    normalizes the local angle always ends there. *)
Theorem sidereal_time_returns_at_every_longitude (fuel1 : nat) (longitude1 : number)
    (timestamp : Date) (r1 : number) (longitude : number) :
  calculateLocalSiderealTime fuel1 longitude1 timestamp = Some r1 ->
  (-18014398509481984 <? longitude) = true -> (longitude <? 18014398509481984) = true ->
  exists fuel0, forall fuel, (fuel0 <= fuel)%nat ->
    exists r, calculateLocalSiderealTime fuel longitude timestamp = Some r /\ normalized r.
Proof.
  unfold calculateLocalSiderealTime. cbv zeta.
  destruct (normalizeAngle fuel1 _) as [g |] eqn:Eg; [| discriminate].
  intros _ Lo Hi.
  destruct (normalizeAngle_normalized _ _ _ Eg) as [N | [P Q]].
  - exists fuel1. intros fuel Hf. rewrite (normalizeAngle_more _ _ _ _ Eg Hf).
    exists (g + longitude). rewrite normalizeAngle_nan by (apply add_nan_l; exact N).
    split; [reflexivity | left; apply add_nan_l; exact N].
  - destruct (in_range_finite g P Q) as [Fg Kg].
    destruct (ltb_not_nan _ _ Hi) as [Nl _].
    rewrite ltb_key in Lo, Hi by (exact Nl || reflexivity).
    apply Z.ltb_lt in Lo, Hi.
    change (fkey 18014398509481984) with (2 ^ 1128)%Z in Hi.
    change (fkey (-18014398509481984)) with (- 2 ^ 1128)%Z in Lo.
    assert (Fl : is_finite longitude = true).
    { destruct (not_nan_cases longitude Nl) as [F | [s E]]; [exact F | exfalso].
      unfold fkey in Lo, Hi. rewrite E in Lo, Hi. cbn [SFkey] in Lo, Hi.
      assert (2 ^ 1128 < 2 ^ 2098)%Z by reflexivity.
      destruct s; cbn [cond_Zopp] in Lo, Hi; lia. }
    assert (KK : (turn_key < 2 ^ 1128)%Z) by reflexivity.
    assert (E29 : (2 ^ 1129 = 2 * 2 ^ 1128)%Z) by reflexivity.
    assert (E30 : (magnitude_limit = 4 * 2 ^ 1128)%Z) by reflexivity.
    assert (P28 : (0 < 2 ^ 1128)%Z) by reflexivity.
    destruct (add_bound g longitude 1129 Fg Fl ltac:(lia) ltac:(lia)) as [Fs Ks].
    assert (Ls : (-72057594037927936 <? g + longitude) = true).
    { rewrite ltb_finite_key by (exact Fs || reflexivity). apply Z.ltb_lt.
      change (fkey (-72057594037927936)) with (- magnitude_limit)%Z. lia. }
    assert (Hs : (g + longitude <? 72057594037927936) = true).
    { rewrite ltb_finite_key by (exact Fs || reflexivity). apply Z.ltb_lt.
      change (fkey 72057594037927936) with magnitude_limit. lia. }
    destruct (normalizeAngle_returns (g + longitude) Ls Hs) as [fuel0 H0].
    exists (Nat.max fuel1 fuel0). intros fuel Hf.
    rewrite (normalizeAngle_more fuel1 fuel _ _ Eg ltac:(lia)).
    destruct (H0 fuel ltac:(lia)) as (r & Hr & Hrange).
    exists r. split; [exact Hr | right; exact Hrange].
Qed.

Lemma sidereal_time_returns_at_every_longitude_witness :
  (calculateLocalSiderealTime 1 0 J2000_noon = Some 280.46061837 /\
   (-18014398509481984 <? -122.4194) = true /\ (-122.4194 <? 18014398509481984) = true) /\
  exists fuel0, forall fuel, (fuel0 <= fuel)%nat ->
    exists r, calculateLocalSiderealTime fuel (-122.4194) J2000_noon = Some r /\ normalized r.
Proof.
  assert (H : calculateLocalSiderealTime 1 0 J2000_noon = Some 280.46061837)
    by (vm_compute; reflexivity).
  split; [split; [exact H | split; reflexivity] |].
  exact (sidereal_time_returns_at_every_longitude 1 0 J2000_noon 280.46061837 (-122.4194)
           H eq_refl eq_refl).
Defined.

Local Open Scope Z_scope.
Local Open Scope float_scope.

(** The second loop takes whole turns off exactly. *)
Lemma drop_turns_exact (n : nat) : forall (fuel : nat) (a : number),
  (n <= fuel)%nat -> is_finite a = true ->
  (0 <= fkey a < magnitude_limit)%Z -> (fkey a < (Z.of_nat n + 1) * turn_key)%Z ->
  exists r, drop_turns fuel a = Some r /\ fkey r = (fkey a mod turn_key)%Z.
Proof.
  pose proof turn_key_bounds as K.
  assert (stop : forall (fuel : nat) (a : number), is_finite a = true ->
            (0 <= fkey a < turn_key)%Z ->
            exists r, drop_turns fuel a = Some r /\ fkey r = (fkey a mod turn_key)%Z).
  { intros fuel a F B. exists a. assert (E : (360 <=? a) = false).
    { rewrite leb_finite_key, fkey_360 by (exact F || reflexivity). apply Z.leb_gt. lia. }
    split; [destruct fuel; cbn [drop_turns]; unfold Number.geb; rewrite E; reflexivity |].
    symmetry. apply Z.mod_small. exact B. }
  induction n as [| n IH]; intros fuel a Hf F B L.
  - apply stop; [exact F | lia].
  - destruct (Z_lt_le_dec (fkey a) turn_key) as [Small | Big]; [apply stop; [exact F | lia] |].
    assert (E : (360 <=? a) = true).
    { rewrite leb_finite_key, fkey_360 by (exact F || reflexivity). apply Z.leb_le. exact Big. }
    destruct fuel as [| fuel]; [lia |]. cbn [drop_turns]. unfold Number.geb. rewrite E.
    destruct (sub_turn a F ltac:(lia)) as [F' K'].
    destruct (IH fuel (a - 360) ltac:(lia) F' ltac:(lia) ltac:(lia)) as (r & Hr & Er).
    exists r. split; [exact Hr |]. rewrite Er, K'.
    replace (fkey a - turn_key)%Z with (fkey a + (-1) * turn_key)%Z by lia.
    apply Z.mod_add. lia.
Qed.

(** X13.  On a number of [[0, 2^56)] [normalizeAngle] takes whole turns off
    without any rounding: the value of the result is the value of the input
    modulo 360 ([fkey] is the value scaled by 2^1074). *)
Theorem whole_turns_are_taken_off_exactly (x : number) :
  (0 <=? x) = true -> (x <? 72057594037927936) = true ->
  exists fuel0, forall fuel, (fuel0 <= fuel)%nat ->
    exists r, normalizeAngle fuel x = Some r /\ fkey r = (fkey x mod fkey 360%float)%Z.
Proof.
  intros Lo Hi. pose proof turn_key_bounds as K. rewrite fkey_360.
  destruct (leb_not_nan _ _ Lo) as [_ N].
  rewrite leb_key in Lo by (exact N || reflexivity).
  rewrite ltb_key in Hi by (exact N || reflexivity).
  apply Z.leb_le in Lo. apply Z.ltb_lt in Hi.
  change (fkey 72057594037927936) with magnitude_limit in Hi. change (fkey 0) with 0%Z in Lo.
  assert (F : is_finite x = true).
  { destruct (not_nan_cases x N) as [F | [s E]]; [exact F | exfalso].
    unfold fkey in Lo, Hi. rewrite E in Lo, Hi. cbn [SFkey] in Lo, Hi.
    assert (magnitude_limit < 2 ^ 2098)%Z by reflexivity.
    destruct s; cbn [cond_Zopp] in Lo, Hi; lia. }
  set (n := Z.to_nat (fkey x / turn_key + 1)).
  assert (Hn : (fkey x < Z.of_nat n * turn_key)%Z).
  { subst n. rewrite Z2Nat.id by (pose proof (Z.div_pos (fkey x) turn_key); lia).
    pose proof (Z.mul_succ_div_gt (fkey x) turn_key ltac:(lia)). lia. }
  exists n. intros fuel Hf. unfold normalizeAngle.
  assert (Ha : add_turns fuel x = Some x).
  { assert (E : (x <? 0) = false).
    { rewrite ltb_finite_key by (exact F || reflexivity). apply Z.ltb_ge. exact Lo. }
    destruct fuel; cbn [add_turns]; rewrite E; reflexivity. }
  rewrite Ha. apply (drop_turns_exact n); [exact Hf | exact F | lia | lia].
Qed.

Lemma whole_turns_are_taken_off_exactly_witness :
  ((0 <=? 725.5) = true /\ (725.5 <? 72057594037927936) = true) /\
  normalizeAngle 3 725.5 = Some 5.5 /\
  exists fuel0, forall fuel, (fuel0 <= fuel)%nat ->
    exists r, normalizeAngle fuel 725.5 = Some r /\ fkey r = (fkey 725.5%float mod fkey 360%float)%Z.
Proof.
  split; [split; reflexivity |]. split; [reflexivity |].
  apply (whole_turns_are_taken_off_exactly 725.5); reflexivity.
Defined.

(** ** The rendering helpers of the AR view *)

Lemma Math_min_key (x y : number) :
  is_nan x = false -> is_nan y = false ->
  is_nan (Math_min x y) = false /\ fkey (Math_min x y) = Z.min (fkey x) (fkey y).
Proof.
  intros Nx Ny. unfold Math_min. rewrite Nx, Ny. cbn [orb].
  rewrite !(ltb_key x y), !(ltb_key y x) by assumption.
  destruct (Z.ltb_spec (fkey x) (fkey y)); [split; [exact Nx | lia] |].
  destruct (Z.ltb_spec (fkey y) (fkey x)); [split; [exact Ny | lia] |].
  destruct (get_sign x); split; try assumption; lia.
Qed.

Lemma Math_max_key (x y : number) :
  is_nan x = false -> is_nan y = false ->
  is_nan (Math_max x y) = false /\ fkey (Math_max x y) = Z.max (fkey x) (fkey y).
Proof.
  intros Nx Ny. unfold Math_max. rewrite Nx, Ny. cbn [orb].
  rewrite !(ltb_key x y), !(ltb_key y x) by assumption.
  destruct (Z.ltb_spec (fkey x) (fkey y)); [split; [exact Ny | lia] |].
  destruct (Z.ltb_spec (fkey y) (fkey x)); [split; [exact Nx | lia] |].
  destruct (get_sign x); split; try assumption; lia.
Qed.

Lemma Math_min_nan_r (x y : number) : is_nan y = true -> Math_min x y = nan.
Proof. intros N. unfold Math_min. rewrite N, orb_true_r. reflexivity. Qed.

Lemma Math_max_nan_r (x y : number) : is_nan y = true -> Math_max x y = nan.
Proof. intros N. unfold Math_max. rewrite N, orb_true_r. reflexivity. Qed.

(** [Math.max(lo, Math.min(hi, v))] is NaN when [v] is, and otherwise lies
    between [lo] and [hi]. *)
Lemma clamp_range (lo hi v : number) :
  (lo <=? hi) = true ->
  let r := Math_max lo (Math_min hi v) in
  if is_nan v then is_nan r = true else (lo <=? r) = true /\ (r <=? hi) = true.
Proof.
  intros L r. subst r. destruct (leb_not_nan _ _ L) as [Nlo Nhi].
  destruct (is_nan v) eqn:Nv.
  - rewrite (Math_min_nan_r _ _ Nv). rewrite Math_max_nan_r; reflexivity.
  - destruct (Math_min_key hi v Nhi Nv) as [N1 K1].
    destruct (Math_max_key lo _ Nlo N1) as [N2 K2].
    rewrite leb_key in L by assumption. apply Z.leb_le in L.
    rewrite !leb_key by assumption. rewrite K2, K1. split; apply Z.leb_le; lia.
Qed.

(** X14.  [getStarSize] never draws a brighter star smaller: it does not
    increase with the magnitude. *)
Theorem brighter_stars_are_not_drawn_smaller (m1 m2 : number) :
  (m1 <=? m2) = true -> (getStarSize m2 <=? getStarSize m1) = true.
Proof.
  intros L. destruct (leb_not_nan _ _ L) as [N1 N2].
  rewrite leb_key in L by assumption. apply Z.leb_le in L.
  unfold getStarSize. rewrite !ltb_key by (assumption || reflexivity).
  assert (H01 : (fkey 0%float < fkey 1%float)%Z) by reflexivity.
  assert (H12 : (fkey 1%float < fkey 2%float)%Z) by reflexivity.
  assert (H23 : (fkey 2%float < fkey 3%float)%Z) by reflexivity.
  destruct (Z.ltb_spec (fkey m1) (fkey 0)); destruct (Z.ltb_spec (fkey m2) (fkey 0));
    try reflexivity; try lia;
  destruct (Z.ltb_spec (fkey m1) (fkey 1)); destruct (Z.ltb_spec (fkey m2) (fkey 1));
    try reflexivity; try lia;
  destruct (Z.ltb_spec (fkey m1) (fkey 2)); destruct (Z.ltb_spec (fkey m2) (fkey 2));
    try reflexivity; try lia;
  destruct (Z.ltb_spec (fkey m1) (fkey 3)); destruct (Z.ltb_spec (fkey m2) (fkey 3));
    try reflexivity; lia.
Qed.

Lemma brighter_stars_are_not_drawn_smaller_witness :
  (-1.46 <=? 0.03) = true /\ (getStarSize 0.03 <=? getStarSize (-1.46)) = true.
Proof.
  split; [reflexivity |]. apply (brighter_stars_are_not_drawn_smaller (-1.46) 0.03). reflexivity.
Defined.

(** X15.  [getStarOpacity] is NaN or lies in [[0.7, 1.0]]. *)
Theorem star_opacity_is_clamped (magnitude : number) :
  is_nan (getStarOpacity magnitude) = true \/
  ((0.7 <=? getStarOpacity magnitude) = true /\ (getStarOpacity magnitude <=? 1.0) = true).
Proof.
  unfold getStarOpacity. cbv zeta.
  pose proof (clamp_range 0.7 1.0
                (1.0 - (Math_max (-2) (Math_min 6 magnitude) + 2) / 8) eq_refl) as H.
  cbv zeta in H. destruct (is_nan (1.0 - _)); [left | right]; exact H.
Qed.

(** ** The Julian Day

    [dateToJulianDay] works on whole numbers: the getters of the date, small
    constants, and [Math.floor] of quotients.  Binary64 arithmetic is exact
    on them, so the day count is the one of integer arithmetic. *)

Local Open Scope Z_scope.

(** Rounding a positive mantissa, whatever was lost before: the result lies
    between the truncated value and the next multiple of the unit. *)
Lemma binary_round_aux_between (s : bool) (mx : positive) (ex : Z) (lx : location) :
  -1074 <= ex <= 971 -> Zpos (digits2_pos mx) + ex <= 1023 ->
  let n := Z.max 0 (fexp prec emax (Zpos (digits2_pos mx) + ex) - ex) in
  exists m2 e2,
    binary_round_aux prec emax s (Zpos mx) ex lx = S754_finite s m2 e2 /\
    Zpos mx / 2 ^ n * 2 ^ (ex + n + 1074) <= Zpos m2 * 2 ^ (e2 + 1074)
      <= (Zpos mx / 2 ^ n + 1) * 2 ^ (ex + n + 1074).
Proof.
  intros He Hd n. unfold binary_round_aux.
  destruct (shr_fexp_shift mx ex lx ltac:(lia)) as (S1 & S2 & _).
  fold n in S1, S2.
  pose proof (shr_fexp_pos (Zpos mx) ex lx ltac:(lia) ltac:(lia)) as [P1 P2].
  destruct (shr_fexp prec emax (Zpos mx) ex lx) as [mrs' e'].
  cbn [fst snd] in S1, S2, P1, P2.
  pose proof (round_nearest_even_ge (shr_m mrs') (loc_of_shr_record mrs')) as R1.
  pose proof (round_nearest_even_le (shr_m mrs') (loc_of_shr_record mrs')) as R2.
  remember (round_nearest_even (shr_m mrs') (loc_of_shr_record mrs')) as m1' eqn:Em.
  assert (Hn : 0 <= n) by (subst n; lia).
  pose proof (digits2_pos_bounds mx) as [Dlo Dhi].
  set (d := Zpos (digits2_pos mx)) in *.
  assert (Hnd : n < d /\ d - n <= 53).
  { subst n. rewrite fexp_value. assert (0 < d) by (subst d; lia). lia. }
  destruct (digits_div mx n ltac:(fold d; lia)) as (q & Eq & Dq). fold d in Dq.
  rewrite <- S2 in Eq.
  pose proof (digits2_pos_bounds q) as [_ Qhi]. rewrite Dq in Qhi.
  assert (Q53 : Zpos q < 2 ^ 53).
  { apply Z.lt_le_trans with (1 := Qhi). apply Z.pow_le_mono_r; lia. }
  destruct m1' as [| p1 | p1]; try lia. clear Em.
  assert (Dp1 : Zpos (digits2_pos p1) <= d - n + 1).
  { apply digits2_pos_le; [lia |]. lia. }
  destruct (shr_fexp_shift p1 e' loc_Exact ltac:(lia)) as (T1 & T2 & _).
  pose proof (shr_fexp_pos (Zpos p1) e' loc_Exact ltac:(lia) ltac:(lia)) as [Q1 Q2].
  set (n2 := Z.max 0 (fexp prec emax (Zpos (digits2_pos p1) + e') - e')) in *.
  assert (Hn2 : 0 <= n2) by (subst n2; lia).
  assert (V : shr_m (fst (shr_fexp prec emax (Zpos p1) e' loc_Exact)) * 2 ^ n2 = Zpos p1 /\
              n2 <= 1).
  { rewrite T2. destruct (Z_lt_le_dec (Zpos p1) (2 ^ 53)) as [L | G].
    - pose proof (digits2_pos_lt p1 53 ltac:(lia) L) as D1.
      assert (n2 = 0) by (subst n2; rewrite fexp_value; lia).
      rewrite H, Z.pow_0_r, Z.div_1_r. lia.
    - assert (Ep : Zpos p1 = 2 ^ 53) by lia.
      assert (D1 : Zpos (digits2_pos p1) = 54).
      { apply digits2_pos_unique. rewrite Ep. split; [apply Z.le_refl | reflexivity]. }
      assert (n2 = 1) by (subst n2; rewrite D1, fexp_value; lia).
      rewrite H, Ep. split; [reflexivity | lia]. }
  destruct (shr_fexp prec emax (Zpos p1) e' loc_Exact) as [mrs'' e''].
  cbn [fst snd] in T1, T2, Q1, Q2, V. destruct V as [V Vn].
  assert (Le : e'' <= 971).
  { rewrite T1. subst n2. rewrite fexp_value. subst n. rewrite fexp_value in *. lia. }
  destruct (shr_m mrs'') as [| m2 | m2] eqn:E2; try lia.
  change (emax - prec) with 971.
  destruct (Z.leb_spec e'' 971) as [_ | ?]; [| lia].
  exists m2, e''. split; [reflexivity |].
  assert (Pe' : 0 < 2 ^ (e' + 1074)) by (apply Z.pow_pos_nonneg; lia).
  assert (V2 : Zpos m2 * 2 ^ (e'' + 1074) = Zpos p1 * 2 ^ (e' + 1074)).
  { rewrite T1. replace (e' + n2 + 1074) with (n2 + (e' + 1074)) by lia.
    rewrite Z.pow_add_r by lia. rewrite <- V. ring. }
  rewrite V2, <- S1, <- S2. nia.
Qed.

(** Valid finite numbers of one value are one number. *)
Lemma SFkey_inj (a b : spec_float) :
  valid_binary a = true -> valid_binary b = true ->
  SFfinite a = true -> SFfinite b = true ->
  SFkey a = SFkey b -> SFkey a <> 0 -> a = b.
Proof.
  intros Va Vb Fa Fb E NZ.
  assert (Na : a <> S754_nan) by (destruct a; try discriminate; congruence).
  assert (Nb : b <> S754_nan) by (destruct b; try discriminate; congruence).
  pose proof (SFcompare_key a b Va Vb Na Nb) as C. rewrite E, Z.compare_refl in C.
  destruct a as [sa | sa | | sa ma ea]; try discriminate; [cbn in NZ; congruence |].
  destruct b as [sb | sb | | sb mb eb]; try discriminate.
  - exfalso. apply NZ. rewrite E. reflexivity.
  - cbn [SFcompare] in C.
    destruct sa, sb; try discriminate.
    + destruct (Z.compare_spec ea eb) as [Ee | Ee | Ee]; try discriminate. subst eb.
      injection C as C. apply CompOpp_iff in C. cbn [CompOpp] in C.
      change (Pos.compare_cont Eq ma mb) with (Pos.compare ma mb) in C.
      apply Pos.compare_eq in C. subst. reflexivity.
    + destruct (Z.compare_spec ea eb) as [Ee | Ee | Ee]; try discriminate. subst eb.
      injection C as C.
      change (Pos.compare_cont Eq ma mb) with (Pos.compare ma mb) in C.
      apply Pos.compare_eq in C. subst. reflexivity.
Qed.

Local Open Scope Z_scope.

Lemma pow1074_pos : 0 < 2 ^ 1074.
Proof. reflexivity. Qed.

Lemma SFint_facts (a : spec_float) (X : Z) :
  valid_binary a = true -> SFint a X ->
  0 <= X /\ SFfinite a = true /\ SFkey a = X * 2 ^ 1074.
Proof.
  intros V H. pose proof pow1074_pos. destruct a as [[] | [] | | [] m e]; cbn [SFint] in H; try contradiction.
  - subst X. split; [lia |]. split; reflexivity.
  - pose proof (key_bound _ _ _ V) as B. cbn [SFfinite SFkey cond_Zopp].
    split; [| split; [reflexivity | exact H]].
    rewrite H in B. destruct B as [B _]. apply Z.lt_le_incl.
    apply (Zmult_lt_0_reg_r _ _ H0 B).
Qed.

Lemma SFint_unique (a b : spec_float) (X : Z) :
  valid_binary a = true -> valid_binary b = true -> SFint a X -> SFint b X -> a = b.
Proof.
  intros Va Vb Ha Hb.
  destruct (SFint_facts a X Va Ha) as (_ & Fa & Ka).
  destruct (SFint_facts b X Vb Hb) as (_ & Fb & Kb).
  destruct (Z.eq_dec X 0) as [-> | NZ].
  - destruct a as [[] | [] | | [] ma ea]; cbn [SFint] in Ha; try contradiction;
      destruct b as [[] | [] | | [] mb eb]; cbn [SFint] in Hb; try contradiction;
      try reflexivity;
      exfalso; pose proof pow1074_pos;
      first [pose proof (key_bound _ _ _ Va) | pose proof (key_bound _ _ _ Vb)]; lia.
  - apply SFkey_inj; try assumption; [congruence |].
    rewrite Ka. pose proof pow1074_pos. nia.
Qed.

(** The exponent of an integer mantissa-exponent pair below 2^53, and what
    its rounding shifts out. *)
Lemma int_rounding_exact (p : positive) (e X : Z) :
  -1074 <= e -> Zpos p * 2 ^ (e + 1074) = X * 2 ^ 1074 -> X < 2 ^ 53 ->
  let n := Z.max 0 (fexp prec emax (Zpos (digits2_pos p) + e) - e) in
  0 < X /\ e < 53 /\ Zpos (digits2_pos p) + e <= 53 /\ Zpos p = Zpos p / 2 ^ n * 2 ^ n.
Proof.
  intros He H HX n. pose proof pow1074_pos as P.
  assert (Pe : 0 < 2 ^ (e + 1074)) by (apply Z.pow_pos_nonneg; lia).
  assert (X0 : 0 < X) by nia.
  pose proof (digits2_pos_bounds p) as [Dlo Dhi].
  set (d := Zpos (digits2_pos p)) in *.
  assert (D0 : 0 < d) by (subst d; lia).
  destruct (Z_lt_le_dec e 0) as [Neg | Pos].
  - assert (E : Zpos p = X * 2 ^ (- e)).
    { assert (E1 : 2 ^ 1074 = 2 ^ (e + 1074) * 2 ^ (- e)).
      { rewrite <- Z.pow_add_r by lia. f_equal. lia. }
      rewrite E1 in H. nia. }
    assert (Pk : 0 < 2 ^ (- e)) by (apply Z.pow_pos_nonneg; lia).
    assert (Dd : d <= 53 - e).
    { apply digits2_pos_lt; [lia |]. rewrite E.
      replace (53 - e) with (53 + - e) by lia. rewrite Z.pow_add_r by lia. nia. }
    assert (Hn : 0 <= n <= - e) by (subst n; rewrite fexp_value; lia).
    split; [exact X0 |]. split; [lia |]. split; [lia |].
    rewrite E. apply multiple_div. exact Hn.
  - assert (E : X = Zpos p * 2 ^ e).
    { assert (E1 : 2 ^ (e + 1074) = 2 ^ e * 2 ^ 1074) by (apply Z.pow_add_r; lia).
      rewrite E1 in H. nia. }
    assert (Pk : 0 < 2 ^ e) by (apply Z.pow_pos_nonneg; lia).
    assert (Dd : d <= 53 - e).
    { destruct (Z_le_gt_dec d (53 - e)) as [L | G]; [exact L | exfalso].
      assert (2 ^ (53 - e) <= 2 ^ (d - 1)) by (apply Z.pow_le_mono_r; lia).
      assert (e < 53).
      { destruct (Z_lt_le_dec e 53) as [L | G']; [exact L | exfalso].
        assert (2 ^ 53 <= 2 ^ e) by (apply Z.pow_le_mono_r; lia). nia. }
      assert (E3 : 2 ^ 53 = 2 ^ (53 - e) * 2 ^ e).
      { rewrite <- Z.pow_add_r by lia. f_equal. lia. }
      nia. }
    assert (Hn : n = 0) by (subst n; rewrite fexp_value; lia).
    split; [exact X0 |]. split; [lia |]. split; [lia |].
    rewrite Hn, Z.pow_0_r, Z.div_1_r. lia.
Qed.

Lemma binary_round_aux_int (p : positive) (e X : Z) :
  -1074 <= e -> Zpos p * 2 ^ (e + 1074) = X * 2 ^ 1074 -> X < 2 ^ 53 ->
  SFint (binary_round_aux prec emax false (Zpos p) e loc_Exact) X.
Proof.
  intros He H HX.
  destruct (int_rounding_exact p e X He H HX) as (X0 & E53 & Dd & Ex).
  destruct (binary_round_aux_value false p e ltac:(lia) ltac:(lia)) as (m2 & e2 & -> & _ & V).
  cbn [SFint]. rewrite (V Ex). exact H.
Qed.

Lemma binary_normalize_int (z e X : Z) :
  -1074 <= e -> 0 <= z -> z * 2 ^ (e + 1074) = X * 2 ^ 1074 -> X < 2 ^ 53 ->
  SFint (binary_normalize prec emax z e false) X.
Proof.
  intros He Hz H HX. pose proof pow1074_pos as P.
  destruct z as [| p | p]; [| | lia]; cbn [binary_normalize].
  - cbn [SFint]. lia.
  - destruct (int_rounding_exact p e X He H HX) as (X0 & E53 & Dd & Ex).
    destruct (binary_round_value false p e ltac:(lia) ltac:(lia)) as (m2 & e2 & -> & _ & V).
    cbn [SFint]. rewrite (V Ex). exact H.
Qed.

Lemma SFint_add (a b : spec_float) (X Y : Z) :
  valid_binary a = true -> valid_binary b = true ->
  SFint a X -> SFint b Y -> X + Y < 2 ^ 53 -> SFint (SF64add a b) (X + Y).
Proof.
  intros Va Vb Ha Hb L. unfold SF64add.
  destruct a as [[] | [] | | [] ma ea]; cbn [SFint] in Ha; try contradiction;
  destruct b as [[] | [] | | [] mb eb]; cbn [SFint] in Hb; try contradiction; cbn [SFadd].
  - cbn. lia.
  - subst X. cbn [SFint]. rewrite Hb. reflexivity.
  - subst Y. cbn [SFint]. rewrite Ha. f_equal. lia.
  - pose proof (valid_finite_bounds _ _ _ Va) as (Ba & _ & _).
    pose proof (valid_finite_bounds _ _ _ Vb) as (Bb & _ & _).
    change (IntDef.Z.min ea eb) with (Z.min ea eb). set (ez := Z.min ea eb).
    pose proof (key_aligned false ma ea ez ltac:(lia)) as Ka.
    pose proof (key_aligned false mb eb ez ltac:(lia)) as Kb.
    cbn [cond_Zopp] in *.
    apply binary_normalize_int; [lia | lia | | exact L].
    rewrite Z.mul_add_distr_r, <- Ka, <- Kb, Ha, Hb. ring.
Qed.

Lemma SFint_sub (a b : spec_float) (X Y : Z) :
  valid_binary a = true -> valid_binary b = true ->
  SFint a X -> SFint b Y -> Y <= X -> X < 2 ^ 53 -> SFint (SF64sub a b) (X - Y).
Proof.
  intros Va Vb Ha Hb L HX. unfold SF64sub. pose proof pow1074_pos as P.
  destruct (SFint_facts b Y Vb Hb) as (Y0 & _).
  destruct a as [[] | [] | | [] ma ea]; cbn [SFint] in Ha; try contradiction;
  destruct b as [[] | [] | | [] mb eb]; cbn [SFint] in Hb; try contradiction; cbn [SFsub].
  - cbn. lia.
  - exfalso. pose proof (key_bound _ _ _ Vb). nia.
  - subst Y. cbn [SFint]. rewrite Ha. f_equal. lia.
  - pose proof (valid_finite_bounds _ _ _ Va) as (Ba & _ & _).
    pose proof (valid_finite_bounds _ _ _ Vb) as (Bb & _ & _).
    change (IntDef.Z.min ea eb) with (Z.min ea eb). set (ez := Z.min ea eb).
    pose proof (key_aligned false ma ea ez ltac:(lia)) as Ka.
    pose proof (key_aligned false mb eb ez ltac:(lia)) as Kb.
    cbn [cond_Zopp] in *.
    assert (Pz : 0 < 2 ^ (ez + 1074)) by (apply Z.pow_pos_nonneg; lia).
    assert (E : (Zpos (fst (shl_align ma ea ez)) - Zpos (fst (shl_align mb eb ez)))
                * 2 ^ (ez + 1074) = (X - Y) * 2 ^ 1074).
    { rewrite Z.mul_sub_distr_r, <- Ka, <- Kb, Ha, Hb. ring. }
    apply binary_normalize_int; [lia | nia | exact E | lia].
Qed.

Lemma SFint_mul (a b : spec_float) (X Y : Z) :
  valid_binary a = true -> valid_binary b = true ->
  SFint a X -> SFint b Y -> X * Y < 2 ^ 53 -> SFint (SF64mul a b) (X * Y).
Proof.
  intros Va Vb Ha Hb L. unfold SF64mul. pose proof pow1074_pos as P.
  destruct (SFint_facts a X Va Ha) as (X0 & _).
  destruct (SFint_facts b Y Vb Hb) as (Y0 & _).
  destruct a as [[] | [] | | [] ma ea]; cbn [SFint] in Ha; try contradiction;
  destruct b as [[] | [] | | [] mb eb]; cbn [SFint] in Hb; try contradiction; cbn [SFmul xorb].
  - cbn [SFint]. lia.
  - cbn [SFint]. lia.
  - cbn [SFint]. lia.
  - pose proof (valid_finite_bounds _ _ _ Va) as (Ba & Ma & _).
    pose proof (valid_finite_bounds _ _ _ Vb) as (Bb & Mb & _).
    assert (Pa : 0 < 2 ^ (ea + 1074)) by (apply Z.pow_pos_nonneg; lia).
    assert (Pb : 0 < 2 ^ (eb + 1074)) by (apply Z.pow_pos_nonneg; lia).
    assert (Xp : 0 < X) by nia. assert (Yp : 0 < Y) by nia.
    assert (La : -53 < ea).
    { destruct (Z_lt_le_dec (-53) ea) as [H | H]; [exact H | exfalso].
      assert (2 ^ (ea + 1074) * 2 ^ 53 <= 2 ^ 1074).
      { rewrite <- Z.pow_add_r by lia. apply Z.pow_le_mono_r; lia. }
      nia. }
    assert (Lb : -53 < eb).
    { destruct (Z_lt_le_dec (-53) eb) as [H | H]; [exact H | exfalso].
      assert (2 ^ (eb + 1074) * 2 ^ 53 <= 2 ^ 1074).
      { rewrite <- Z.pow_add_r by lia. apply Z.pow_le_mono_r; lia. }
      nia. }
    rewrite Pos2Z.inj_mul. 
    change (IntDef.Z.add ea eb) with (ea + eb).
    apply (binary_round_aux_int (ma * mb) (ea + eb) (X * Y)); [lia | | exact L].
    rewrite Pos2Z.inj_mul.
    assert (E : 2 ^ (ea + eb + 1074) * 2 ^ 1074 = 2 ^ (ea + 1074) * 2 ^ (eb + 1074)).
    { rewrite <- !Z.pow_add_r by lia. f_equal. lia. }
    assert (Pab : 0 < 2 ^ (ea + eb + 1074)) by (apply Z.pow_pos_nonneg; lia).
    apply (Z.mul_cancel_r _ _ (2 ^ 1074)); [lia |].
    rewrite <- !Z.mul_assoc, E.
    replace (Zpos ma * (Zpos mb * (2 ^ (ea + 1074) * 2 ^ (eb + 1074))))
      with ((Zpos ma * 2 ^ (ea + 1074)) * (Zpos mb * 2 ^ (eb + 1074))) by ring.
    rewrite Ha, Hb. ring.
Qed.

Local Open Scope Z_scope.

(** A positive integer below 2^53 is a normal number. *)
Lemma SFint_normal (m : positive) (e X : Z) :
  valid_binary (S754_finite false m e) = true ->
  Zpos m * 2 ^ (e + 1074) = X * 2 ^ 1074 -> X < 2 ^ 53 ->
  0 < X /\ -53 < e < 1 /\ Zpos (digits2_pos m) = 53 /\ 2 ^ (52 + e) <= X < 2 ^ (53 + e).
Proof.
  intros V H HX. pose proof pow1074_pos as P.
  pose proof (valid_finite_bounds _ _ _ V) as (B & M & N).
  assert (Pe : 0 < 2 ^ (e + 1074)) by (apply Z.pow_pos_nonneg; lia).
  assert (X0 : 0 < X) by nia.
  assert (L : -53 < e).
  { destruct (Z_lt_le_dec (-53) e) as [L | G]; [exact L | exfalso].
    assert (2 ^ (e + 1074) * 2 ^ 53 <= 2 ^ 1074).
    { rewrite <- Z.pow_add_r by lia. apply Z.pow_le_mono_r; lia. }
    nia. }
  specialize (N ltac:(lia)).
  assert (E1 : 2 ^ (e + 1074) * 2 ^ 52 = 2 ^ (52 + e) * 2 ^ 1074).
  { rewrite <- !Z.pow_add_r by lia. f_equal. lia. }
  assert (E2 : 2 ^ (e + 1074) * 2 ^ 53 = 2 ^ (53 + e) * 2 ^ 1074).
  { rewrite <- !Z.pow_add_r by lia. f_equal. lia. }
  assert (R : 2 ^ (52 + e) <= X < 2 ^ (53 + e)) by nia.
  assert (U : e < 1).
  { destruct (Z_lt_le_dec e 1) as [U | G]; [exact U | exfalso].
    assert (2 ^ 53 <= 2 ^ (52 + e)) by (apply Z.pow_le_mono_r; lia). lia. }
  split; [exact X0 |]. split; [lia |]. split; [| exact R].
  apply digits2_pos_unique. change (53 - 1) with 52. lia.
Qed.

Lemma SFdiv_floor (a b : spec_float) (X Y : Z) :
  valid_binary a = true -> valid_binary b = true ->
  SFint a X -> SFint b Y -> X < 2 ^ 31 -> 0 < Y < 2 ^ 21 ->
  SFfloor_is (SF64div a b) (X / Y).
Proof.
  intros Va Vb Ha Hb HX HY. unfold SF64div. pose proof pow1074_pos as P.
  destruct b as [[] | [] | | [] mb eb]; cbn [SFint] in Hb; try contradiction; [lia |].
  destruct a as [[] | [] | | [] ma ea]; cbn [SFint] in Ha; try contradiction; cbn [SFdiv xorb].
  { subst X. cbn [SFfloor_is]. apply Z.div_0_l. lia. }
  assert (HX53 : X < 2 ^ 53) by (apply Z.lt_trans with (1 := HX); reflexivity).
  assert (HY53 : Y < 2 ^ 53) by (apply Z.lt_trans with (1 := proj2 HY); reflexivity).
  destruct (SFint_normal ma ea X Va Ha HX53) as (X0 & Ea & Da & Ra).
  destruct (SFint_normal mb eb Y Vb Hb HY53) as (_ & Eb & Db & Rb).
  assert (Ea' : ea <= -22).
  { destruct (Z_le_gt_dec ea (-22)) as [L | G]; [exact L | exfalso].
    assert (2 ^ 31 <= 2 ^ (52 + ea)) by (apply Z.pow_le_mono_r; lia). lia. }
  assert (Eb' : eb <= -32).
  { destruct (Z_le_gt_dec eb (-32)) as [L | G]; [exact L | exfalso].
    assert (2 ^ 21 <= 2 ^ (52 + eb)) by (apply Z.pow_le_mono_r; lia). lia. }
  unfold SFdiv_core_binary. cbn [Zdigits2]. rewrite Da, Db, fexp_value.
  change (IntDef.Z.min (Z.max (53 + ea - (53 + eb) - 53) (-1074)) (ea - eb))
    with (Z.min (Z.max (53 + ea - (53 + eb) - 53) (-1074)) (ea - eb)).
  replace (Z.min (Z.max (53 + ea - (53 + eb) - 53) (-1074)) (ea - eb)) with (ea - eb - 53) by lia.
  replace (ea - eb - (ea - eb - 53)) with 53 by lia.
  rewrite Z.shiftl_mul_pow2 by lia.
  pose proof (Z_div_mod (Zpos ma * 2 ^ 53) (Zpos mb) ltac:(lia)) as DM.
  destruct (Z.div_eucl (Zpos ma * 2 ^ 53) (Zpos mb)) as [q r]. destruct DM as [DM Rr].
  set (ez := ea - eb - 53).
  pose proof (valid_finite_bounds _ _ _ Va) as (_ & Ma & Na).
  pose proof (valid_finite_bounds _ _ _ Vb) as (_ & Mb & Nb).
  specialize (Na ltac:(lia)). specialize (Nb ltac:(lia)).
  assert (P53 : 2 ^ 53 = 2 * 2 ^ 52) by reflexivity.
  assert (P52 : 0 < 2 ^ 52) by reflexivity.
  assert (Q : 2 ^ 52 <= q < 2 ^ 54).
  { change (2 ^ 54) with (2 * (2 * 2 ^ 52)). split; nia. }
  destruct q as [| q | q]; try lia.
  pose proof (digits2_pos_bounds q) as [Dlo Dhi].
  assert (Dq : 53 <= Zpos (digits2_pos q) <= 54).
  { split.
    - destruct (Z_le_gt_dec 53 (Zpos (digits2_pos q))) as [L | G]; [exact L | exfalso].
      assert (2 ^ Zpos (digits2_pos q) <= 2 ^ 52) by (apply Z.pow_le_mono_r; lia). lia.
    - apply digits2_pos_lt; lia. }
  set (d := Zpos (digits2_pos q)) in *.
  destruct (binary_round_aux_between false q ez (new_location (Zpos mb) r) ltac:(lia)
              ltac:(fold d; lia)) as (m2 & e2 & -> & Klo & Khi).
  fold d in Klo, Khi. rewrite fexp_value in Klo, Khi.
  replace (Z.max 0 (Z.max (d + ez - 53) (-1074) - ez)) with (d - 53) in Klo, Khi by lia.
  set (n := d - 53) in *. set (T := Zpos q / 2 ^ n) in *.
  cbn [SFfloor_is].
  (* the unit of the result and how many units make one *)
  set (j := - (ez + n)).
  assert (Hj : 22 <= j) by (subst j ez n; lia).
  assert (Pn : 0 < 2 ^ n) by (apply Z.pow_pos_nonneg; subst n; lia).
  assert (PW : 2 ^ 22 <= 2 ^ j) by (apply Z.pow_le_mono_r; lia).
  assert (EU : 2 ^ 1074 = 2 ^ (ez + n + 1074) * 2 ^ j).
  { rewrite <- Z.pow_add_r by (subst j ez n; lia). f_equal. subst j. lia. }
  assert (PU : 0 < 2 ^ (ez + n + 1074)) by (apply Z.pow_pos_nonneg; subst ez n; lia).
  (* quotient and truncation *)
  assert (Tq : T * 2 ^ n <= Zpos q < (T + 1) * 2 ^ n).
  { subst T. pose proof (Z.mul_div_le (Zpos q) (2 ^ n) Pn).
    pose proof (Z.mul_succ_div_gt (Zpos q) (2 ^ n) Pn). lia. }
  (* the cross relation between the mantissas and the integers *)
  set (E := 53 + eb - ea).
  assert (EE : 2 ^ E = 2 ^ j * 2 ^ n).
  { rewrite <- Z.pow_add_r by (subst j ez n; lia). f_equal. subst E j ez. lia. }
  assert (Cr : Zpos ma * 2 ^ 53 * Y = X * 2 ^ E * Zpos mb).
  { apply (Z.mul_cancel_r _ _ (2 ^ 1074)); [lia |].
    replace (Zpos ma * 2 ^ 53 * Y * 2 ^ 1074) with (Zpos ma * 2 ^ 53 * (Y * 2 ^ 1074)) by ring.
    replace (X * 2 ^ E * Zpos mb * 2 ^ 1074) with (X * 2 ^ 1074 * 2 ^ E * Zpos mb) by ring.
    rewrite <- Ha, <- Hb.
    assert (E3 : 2 ^ (ea + 1074) * 2 ^ E = 2 ^ 53 * 2 ^ (eb + 1074)).
    { rewrite <- !Z.pow_add_r by (subst E; lia). f_equal. subst E. lia. }
    replace (Zpos ma * 2 ^ (ea + 1074) * 2 ^ E * Zpos mb)
      with (Zpos ma * (2 ^ (ea + 1074) * 2 ^ E) * Zpos mb) by ring.
    rewrite E3. ring. }
  assert (PE : 0 < 2 ^ E) by (apply Z.pow_pos_nonneg; subst E; lia).
  assert (Pj : 0 < 2 ^ j) by (apply Z.pow_pos_nonneg; lia).
  assert (Q1 : Zpos q * Y <= X * 2 ^ E).
  { apply (Z.mul_le_mono_pos_r _ _ (Zpos mb)); [lia |].
    rewrite <- Cr, DM.
    assert (0 <= r * Y) by (apply Z.mul_nonneg_nonneg; lia). lia. }
  assert (Q2 : X * 2 ^ E < (Zpos q + 1) * Y).
  { apply (Z.mul_lt_mono_pos_r (Zpos mb)); [lia |].
    rewrite <- Cr, DM.
    assert (r * Y < Zpos mb * Y) by (apply Z.mul_lt_mono_pos_r; lia). lia. }
  assert (I1 : T * Y <= X * 2 ^ j).
  { apply (Z.mul_le_mono_pos_r _ _ (2 ^ n)); [exact Pn |].
    replace (X * 2 ^ j * 2 ^ n) with (X * 2 ^ E) by (rewrite EE; ring).
    assert (T * 2 ^ n * Y <= Zpos q * Y) by (apply Z.mul_le_mono_nonneg_r; lia). lia. }
  assert (I2 : X * 2 ^ j < (T + 1) * Y).
  { apply (Z.mul_lt_mono_pos_r (2 ^ n)); [exact Pn |].
    replace (X * 2 ^ j * 2 ^ n) with (X * 2 ^ E) by (rewrite EE; ring).
    assert ((Zpos q + 1) * Y <= (T + 1) * 2 ^ n * Y)
      by (apply Z.mul_le_mono_nonneg_r; lia). lia. }
  pose proof (Z.mul_div_le X Y ltac:(lia)) as N1.
  pose proof (Z.mul_succ_div_gt X Y ltac:(lia)) as N2.
  set (N := X / Y) in *.
  assert (W2 : 2 * Y <= 2 ^ j).
  { apply Z.le_trans with (2 := PW). change (2 ^ 22) with (2 * 2 ^ 21). lia. }
  assert (J1 : N * 2 ^ j <= T).
  { assert (H1 : Y * N * 2 ^ j <= X * 2 ^ j) by (apply Z.mul_le_mono_nonneg_r; lia).
    assert (H2 : Y * (N * 2 ^ j) < Y * (T + 1)) by lia.
    apply Z.mul_lt_mono_pos_l in H2; lia. }
  assert (J2 : T + 2 <= (N + 1) * 2 ^ j).
  { assert (H1 : X * 2 ^ j <= (Y * (N + 1) - 1) * 2 ^ j)
      by (apply Z.mul_le_mono_nonneg_r; lia).
    assert (H2 : Y * (T + 2) <= Y * ((N + 1) * 2 ^ j)) by lia.
    apply Z.mul_le_mono_pos_l in H2; lia. }
  rewrite EU. set (U := 2 ^ (ez + n + 1074)) in *.
  assert (K1 : N * 2 ^ j * U <= T * U) by (apply Z.mul_le_mono_nonneg_r; lia).
  assert (K2 : (T + 2) * U <= (N + 1) * 2 ^ j * U)
    by (apply Z.mul_le_mono_nonneg_r; lia).
  split; lia.
Qed.

Local Open Scope Z_scope.

Lemma of_Z_int (X : Z) : 0 <= X < 2 ^ 53 -> is_int (Number.of_Z X) X.
Proof.
  intros [Lo Hi]. unfold is_int, Number.of_Z. destruct X as [| p | p]; [reflexivity | | lia].
  rewrite of_uint63_spec, Uint63.of_Z_spec.
  rewrite Z.mod_small.
  - apply binary_normalize_int; [lia | lia | reflexivity | exact Hi].
  - split; [lia |]. apply Z.lt_trans with (1 := Hi). reflexivity.
Qed.

Lemma is_int_unique (x y : number) (X : Z) : is_int x X -> is_int y X -> x = y.
Proof.
  intros Hx Hy. apply Prim2SF_inj.
  apply (SFint_unique _ _ X); try apply Prim2SF_valid; assumption.
Qed.

Lemma is_int_of_Z (x : number) (X : Z) : is_int x X -> X < 2 ^ 53 -> x = Number.of_Z X.
Proof.
  intros H L. apply (is_int_unique _ _ X H). apply of_Z_int.
  destruct (SFint_facts _ _ (Prim2SF_valid x) H) as (X0 & _). lia.
Qed.

Local Open Scope float_scope.

Lemma is_int_add (x y : number) (X Y : Z) :
  is_int x X -> is_int y Y -> (X + Y < 2 ^ 53)%Z -> is_int (x + y) (X + Y).
Proof.
  unfold is_int. rewrite add_spec. apply SFint_add; apply Prim2SF_valid.
Qed.

Lemma is_int_sub (x y : number) (X Y : Z) :
  is_int x X -> is_int y Y -> (Y <= X)%Z -> (X < 2 ^ 53)%Z -> is_int (x - y) (X - Y).
Proof.
  unfold is_int. rewrite sub_spec. apply SFint_sub; apply Prim2SF_valid.
Qed.

Lemma is_int_mul (x y : number) (X Y : Z) :
  is_int x X -> is_int y Y -> (X * Y < 2 ^ 53)%Z -> is_int (x * y) (X * Y).
Proof.
  unfold is_int. rewrite mul_spec. apply SFint_mul; apply Prim2SF_valid.
Qed.

Lemma Math_floor_int (r : number) (N : Z) :
  SFfloor_is (Prim2SF r) N -> (N < 2 ^ 53)%Z -> is_int (Math_floor r) N.
Proof.
  intros H L. unfold Math_floor, is_int. pose proof pow1074_pos as P.
  pose proof (Prim2SF_valid r) as V.
  destruct (Prim2SF r) as [[] | [] | | [] m e] eqn:E; cbn [SFfloor_is] in H; try contradiction.
  - rewrite E. exact H.
  - pose proof (valid_finite_bounds _ _ _ V) as (B & _).
    destruct (Z.leb_spec 0 e) as [Pos | Neg].
    + rewrite E. cbn [SFint].
      assert (E1 : (2 ^ (e + 1074) = 2 ^ e * 2 ^ 1074)%Z) by (apply Z.pow_add_r; lia).
      rewrite E1 in *. nia.
    + assert (Pd : (0 < 2 ^ (- e))%Z) by (apply Z.pow_pos_nonneg; lia).
      assert (E1 : (2 ^ 1074 = 2 ^ (e + 1074) * 2 ^ (- e))%Z).
      { rewrite <- Z.pow_add_r by lia. f_equal. lia. }
      assert (Pe : (0 < 2 ^ (e + 1074))%Z) by (apply Z.pow_pos_nonneg; lia).
      assert (Q : (N * 2 ^ (- e) <= Zpos m < (N + 1) * 2 ^ (- e))%Z) by (rewrite E1 in H; nia).
      assert (N0 : (0 <= N)%Z) by nia.
      assert (Eq : (Zpos m / 2 ^ (- e) = N)%Z).
      { symmetry. apply (Z.div_unique _ _ _ (Zpos m - N * 2 ^ (- e))); lia. }
      cbv zeta. rewrite Eq.
      destruct (Z.eqb_spec (Zpos m mod 2 ^ (- e)) 0) as [Z0 | NZ].
      * rewrite E. cbn [SFint].
        pose proof (Z.div_mod (Zpos m) (2 ^ (- e)) ltac:(lia)) as DM.
        rewrite Eq, Z0 in DM. rewrite E1. nia.
      * apply of_Z_int. lia.
Qed.

Lemma is_int_div_floor (x y : number) (X Y : Z) :
  is_int x X -> is_int y Y -> (X < 2 ^ 31)%Z -> (0 < Y < 2 ^ 21)%Z ->
  is_int (Math_floor (x / y)) (X / Y).
Proof.
  intros Hx Hy LX LY.
  destruct (SFint_facts _ _ (Prim2SF_valid x) Hx) as (X0 & _).
  apply Math_floor_int.
  - rewrite div_spec. apply SFdiv_floor; try apply Prim2SF_valid; assumption.
  - apply Z.le_lt_trans with X.
    + apply Z.div_le_upper_bound; [lia | nia].
    + apply Z.lt_trans with (1 := LX). reflexivity.
Qed.

Lemma is_int_add_zero (x : number) (X : Z) : is_int x X -> x + 0 = x.
Proof.
  unfold is_int. intros H. apply Prim2SF_inj. rewrite add_spec.
  change (Prim2SF 0) with (S754_zero false).
  destruct (Prim2SF x) as [[] | [] | | [] m e]; cbn [SFint] in H; try contradiction; reflexivity.
Qed.

Local Open Scope Z_scope.

Local Open Scope float_scope.

Ltac int_literal := unfold is_int; vm_compute; reflexivity.

Ltac lia_div := Z.div_mod_to_equations; lia.

Lemma julian_day_integer_part (date : Date) :
  date_in_range date ->
  dateToJulianDay date =
  Number.of_Z (julian_day_number date) + (getUTCHours date - 12) / 24 +
  getUTCMinutes date / 1440 + getUTCSeconds date / 86400.
Proof.
  intros (Hy & Hm & Hd). unfold dateToJulianDay. cbv zeta.
  assert (P53 : (2 ^ 53 = 9007199254740992)%Z) by reflexivity.
  assert (P31 : (2 ^ 31 = 2147483648)%Z) by reflexivity.
  assert (P21 : (2 ^ 21 = 2097152)%Z) by reflexivity.
  set (YR := utcFullYear date) in *. set (MO := utcMonth date) in *.
  set (DD := utcDate date) in *.
  assert (Iyr : is_int (getUTCFullYear date) YR) by (apply of_Z_int; fold YR; lia).
  assert (Imo : is_int (getUTCMonth date) MO) by (apply of_Z_int; fold MO; lia).
  assert (Idd : is_int (getUTCDate date) DD) by (apply of_Z_int; fold DD; lia).
  assert (I1 : is_int 1 1) by int_literal.
  assert (I2 : is_int 2 2) by int_literal.
  assert (I3 : is_int 3 3) by int_literal.
  assert (I4 : is_int 4 4) by int_literal.
  assert (I5 : is_int 5 5) by int_literal.
  assert (I12 : is_int 12 12) by int_literal.
  assert (I14 : is_int 14 14) by int_literal.
  assert (I100 : is_int 100 100) by int_literal.
  assert (I153 : is_int 153 153) by int_literal.
  assert (I365 : is_int 365 365) by int_literal.
  assert (I400 : is_int 400 400) by int_literal.
  assert (I4800 : is_int 4800 4800) by int_literal.
  assert (I32045 : is_int 32045 32045) by int_literal.
  pose proof (is_int_add _ _ _ _ Imo I1 ltac:(lia_div)) as Imo1.
  set (mo1 := getUTCMonth date + 1) in *.
  pose proof (is_int_sub _ _ _ _ I14 Imo1 ltac:(lia_div) ltac:(lia_div)) as It.
  pose proof (is_int_div_floor _ _ _ _ It I12 ltac:(lia_div) ltac:(lia_div)) as Ia.
  set (a := Math_floor ((14 - mo1) / 12)) in *.
  set (A := ((14 - (MO + 1)) / 12)%Z) in *.
  assert (HA : (0 <= A <= 1 /\ (MO <= 1 -> A = 1) /\ (2 <= MO -> A = 0))%Z) by (subst A; lia_div).
  pose proof (is_int_add _ _ _ _ Iyr I4800 ltac:(lia_div)) as Iy0.
  pose proof (is_int_sub _ _ _ _ Iy0 Ia ltac:(lia_div) ltac:(lia_div)) as Iy.
  set (y := getUTCFullYear date + 4800 - a) in *.
  set (Y := (YR + 4800 - A)%Z) in *.
  assert (HY : (4799 <= Y <= 280560)%Z) by (subst Y; lia_div).
  pose proof (is_int_mul _ _ _ _ I12 Ia ltac:(lia_div)) as I12a.
  pose proof (is_int_add _ _ _ _ Imo1 I12a ltac:(lia_div)) as Im0.
  pose proof (is_int_sub _ _ _ _ Im0 I3 ltac:(lia_div) ltac:(lia_div)) as Im.
  set (m := mo1 + 12 * a - 3) in *.
  set (Mm := (MO + 1 + 12 * A - 3)%Z) in *.
  assert (HM : (0 <= Mm <= 11)%Z) by (subst Mm; lia_div).
  pose proof (is_int_mul _ _ _ _ I153 Im ltac:(lia_div)) as J1.
  pose proof (is_int_add _ _ _ _ J1 I2 ltac:(lia_div)) as J2.
  pose proof (is_int_div_floor _ _ _ _ J2 I5 ltac:(lia_div) ltac:(lia_div)) as F1.
  pose proof (is_int_mul _ _ _ _ I365 Iy ltac:(lia_div)) as J3.
  pose proof (is_int_div_floor _ _ _ _ Iy I4 ltac:(lia_div) ltac:(lia_div)) as F2.
  pose proof (is_int_div_floor _ _ _ _ Iy I100 ltac:(lia_div) ltac:(lia_div)) as F3.
  pose proof (is_int_div_floor _ _ _ _ Iy I400 ltac:(lia_div) ltac:(lia_div)) as F4.
  pose proof (is_int_add _ _ _ _ Idd F1 ltac:(lia_div)) as S1.
  pose proof (is_int_add _ _ _ _ S1 J3 ltac:(lia_div)) as S2.
  pose proof (is_int_add _ _ _ _ S2 F2 ltac:(lia_div)) as S3.
  pose proof (is_int_sub _ _ _ _ S3 F3 ltac:(lia_div) ltac:(lia_div)) as S4.
  pose proof (is_int_add _ _ _ _ S4 F4 ltac:(lia_div)) as S5.
  pose proof (is_int_sub _ _ _ _ S5 I32045 ltac:(lia_div) ltac:(lia_div)) as S6.
  rewrite (is_int_of_Z _ _ S6 ltac:(lia_div)). reflexivity.
Qed.

(** X16.  The day count of [dateToJulianDay] is computed without rounding:
    for a date from year 0 on, the sum of its integer terms is the number
    the same formula gives in integer arithmetic, and the result is that
    number plus the three fractions of the time of day. *)
Theorem julian_day_count_is_exact (date : Date) :
  date_in_range date ->
  dateToJulianDay date =
  Number.of_Z (julian_day_number date) + (getUTCHours date - 12) / 24 +
  getUTCMinutes date / 1440 + getUTCSeconds date / 86400.
Proof. exact (julian_day_integer_part date). Qed.

Lemma julian_day_count_is_exact_witness :
  date_in_range leap_day_evening /\
  dateToJulianDay leap_day_evening =
  Number.of_Z (julian_day_number leap_day_evening) +
  (getUTCHours leap_day_evening - 12) / 24 +
  getUTCMinutes leap_day_evening / 1440 + getUTCSeconds leap_day_evening / 86400.
Proof.
  assert (R : date_in_range leap_day_evening)
    by (unfold date_in_range; cbn; lia).
  split; [exact R | exact (julian_day_count_is_exact leap_day_evening R)].
Defined.

Local Open Scope Z_scope.

Lemma days_in_month_bounds (year month : Z) : 28 <= days_in_month year month <= 31.
Proof.
  unfold days_in_month. destruct (month =? 1); [destruct (leap_year year); lia |].
  destruct ((month =? 3) || (month =? 5) || (month =? 8) || (month =? 10)); lia.
Qed.

Lemma julian_day_number_next (date : Date) :
  0 <= utcMonth date <= 11 ->
  1 <= utcDate date <= days_in_month (utcFullYear date) (utcMonth date) ->
  julian_day_number (next_day date) = julian_day_number date + 1.
Proof.
  destruct date as [YR MO DD hh mi ss]. cbn [utcFullYear utcMonth utcDate].
  intros Hm Hd. unfold next_day. cbn [utcFullYear utcMonth utcDate].
  destruct (Z.ltb_spec DD (days_in_month YR MO)) as [L | G].
  { unfold julian_day_number. cbn [utcFullYear utcMonth utcDate]. lia. }
  assert (E : DD = days_in_month YR MO) by lia. clear G Hd.
  assert (C : MO = 0 \/ MO = 1 \/ MO = 2 \/ MO = 3 \/ MO = 4 \/ MO = 5 \/ MO = 6 \/
              MO = 7 \/ MO = 8 \/ MO = 9 \/ MO = 10 \/ MO = 11) by lia.
  unfold julian_day_number, days_in_month, leap_year in *.
  cbn [utcFullYear utcMonth utcDate].
  repeat destruct C as [C | C]; subst MO; cbn in E; subst DD; cbn -[Z.div Z.modulo Z.mul Z.add Z.sub];
    try (Z.div_mod_to_equations; lia).
  all: destruct (Z.eqb_spec (YR mod 4) 0); destruct (Z.eqb_spec (YR mod 100) 0);
    destruct (Z.eqb_spec (YR mod 400) 0); cbn -[Z.div Z.modulo Z.mul Z.add Z.sub];
    Z.div_mod_to_equations; lia.
Qed.

Local Open Scope float_scope.

Lemma julian_day_number_bounds (date : Date) :
  date_in_range date -> (1721000 <= julian_day_number date < 104220000)%Z.
Proof.
  intros (Hy & Hm & Hd). unfold julian_day_number. cbv zeta.
  Z.div_mod_to_equations. lia.
Qed.

Lemma julian_day_at_noon (date : Date) :
  date_in_range date ->
  utcHours date = 12%Z -> utcMinutes date = 0%Z -> utcSeconds date = 0%Z ->
  dateToJulianDay date = Number.of_Z (julian_day_number date).
Proof.
  intros R Hh Hm Hs. rewrite (julian_day_integer_part date R).
  unfold getUTCHours, getUTCMinutes, getUTCSeconds. rewrite Hh, Hm, Hs.
  change ((Number.of_Z 12 - 12) / 24) with 0.
  change (Number.of_Z 0 / 1440) with 0. change (Number.of_Z 0 / 86400) with 0.
  pose proof (julian_day_number_bounds date R) as B.
  assert (I : is_int (Number.of_Z (julian_day_number date)) (julian_day_number date)).
  { apply of_Z_int. split; [lia |]. apply Z.lt_trans with (1 := proj2 B). reflexivity. }
  rewrite !(is_int_add_zero _ _ I). reflexivity.
Qed.

Lemma calendar_noon_in_range (date : Date) : calendar_noon date -> date_in_range date.
Proof.
  intros (Hy & Hm & Hd & _). pose proof (days_in_month_bounds (utcFullYear date) (utcMonth date)).
  unfold date_in_range. lia.
Qed.

(** X17.  From one calendar day at noon UTC to the next, [dateToJulianDay]
    grows by exactly 1, across the ends of months and years and the leap
    days of the Gregorian calendar. *)
Theorem julian_day_advances_by_one_per_day (date : Date) :
  calendar_noon date ->
  dateToJulianDay (next_day date) = dateToJulianDay date + 1.
Proof.
  intros C. pose proof (calendar_noon_in_range date C) as R.
  destruct C as (Hy & Hm & Hd & Hh & Hi & Hs).
  pose proof (days_in_month_bounds (utcFullYear date) (utcMonth date)) as Bd.
  assert (R' : date_in_range (next_day date)).
  { unfold next_day, date_in_range.
    destruct (_ <? days_in_month _ _)%Z eqn:E1; [apply Z.ltb_lt in E1 |];
      [| destruct (Z.ltb_spec (utcMonth date) 11)];
      cbn [utcFullYear utcMonth utcDate]; lia. }
  assert (T : utcHours (next_day date) = 12%Z /\ utcMinutes (next_day date) = 0%Z /\
              utcSeconds (next_day date) = 0%Z).
  { unfold next_day. destruct (_ <? days_in_month _ _)%Z; [| destruct (_ <? 11)%Z];
      cbn [utcHours utcMinutes utcSeconds]; auto. }
  destruct T as (T1 & T2 & T3).
  rewrite (julian_day_at_noon _ R' T1 T2 T3), (julian_day_at_noon _ R Hh Hi Hs).
  rewrite (julian_day_number_next date Hm Hd).
  pose proof (julian_day_number_bounds date R) as B.
  assert (P53 : (2 ^ 53 = 9007199254740992)%Z) by reflexivity.
  apply (is_int_unique _ _ (julian_day_number date + 1)).
  - apply of_Z_int. lia.
  - apply is_int_add; [apply of_Z_int; lia | unfold is_int; vm_compute; reflexivity | lia].
Qed.

Lemma julian_day_advances_by_one_per_day_witness :
  calendar_noon leap_day_noon /\
  dateToJulianDay (next_day leap_day_noon) = dateToJulianDay leap_day_noon + 1.
Proof.
  assert (C : calendar_noon leap_day_noon).
  { unfold calendar_noon. cbn. repeat split; lia. }
  split; [exact C | exact (julian_day_advances_by_one_per_day leap_day_noon C)].
Defined.

(** The dates reached from the J2000.0 epoch, one day at a time. *)
Lemma days_from_J2000 (n : nat) :
  (Z.of_nat n <= 90000000)%Z ->
  let date := Nat.iter n next_day J2000_noon in
  (0 <= utcFullYear date)%Z /\ (0 <= utcMonth date <= 11)%Z /\
  (1 <= utcDate date <= days_in_month (utcFullYear date) (utcMonth date))%Z /\
  utcHours date = 12%Z /\ utcMinutes date = 0%Z /\ utcSeconds date = 0%Z /\
  julian_day_number date = (2451545 + Z.of_nat n)%Z.
Proof.
  induction n as [| n IH]; intros Hn.
  - cbv zeta. repeat split; try reflexivity; cbn; lia.
  - specialize (IH ltac:(lia)). cbv zeta in IH.
    set (date := Nat.iter n next_day J2000_noon) in *.
    destruct IH as (Hy & Hm & Hd & Hh & Hi & Hs & Hj).
    pose proof (julian_day_number_next date Hm Hd) as Hnext.
    pose proof (days_in_month_bounds (utcFullYear date) (utcMonth date)) as Bd.
    cbv zeta. change (Nat.iter (S n) next_day J2000_noon) with (next_day date).
    rewrite Hnext, Hj. unfold next_day.
    destruct (Z.ltb_spec (utcDate date) (days_in_month (utcFullYear date) (utcMonth date))).
    + cbn [utcFullYear utcMonth utcDate utcHours utcMinutes utcSeconds]. repeat split; lia.
    + destruct (Z.ltb_spec (utcMonth date) 11);
        cbn [utcFullYear utcMonth utcDate utcHours utcMinutes utcSeconds].
      * pose proof (days_in_month_bounds (utcFullYear date) (utcMonth date + 1)).
        repeat split; lia.
      * pose proof (days_in_month_bounds (utcFullYear date + 1) 0).
        repeat split; lia.
Qed.

(** X18.  The Julian Day of noon UTC is counted from J2000.0 without error:
    [n] days after 2000-01-01T12:00:00Z, [dateToJulianDay] is the integer
    2451545 + [n]. *)
Theorem julian_day_counts_the_days_from_J2000 (n : nat) :
  (Z.of_nat n <= 90000000)%Z ->
  dateToJulianDay (Nat.iter n next_day J2000_noon) = Number.of_Z (2451545 + Z.of_nat n).
Proof.
  intros Hn. destruct (days_from_J2000 n Hn) as (Hy & Hm & Hd & Hh & Hi & Hs & Hj).
  set (date := Nat.iter n next_day J2000_noon) in *.
  pose proof (days_in_month_bounds (utcFullYear date) (utcMonth date)) as Bd.
  assert (R : date_in_range date).
  { unfold date_in_range. split; [| lia]. split; [exact Hy |].
    unfold julian_day_number in Hj. cbv zeta in Hj.
    Z.div_mod_to_equations. lia. }
  rewrite (julian_day_at_noon date R Hh Hi Hs), Hj. reflexivity.
Qed.

Lemma julian_day_counts_the_days_from_J2000_witness :
  (Z.of_nat 366 <= 90000000)%Z /\
  dateToJulianDay (Nat.iter 366 next_day J2000_noon) = Number.of_Z (2451545 + Z.of_nat 366).
Proof.
  assert (H : (Z.of_nat 366 <= 90000000)%Z) by (cbn; lia).
  split; [exact H | exact (julian_day_counts_the_days_from_J2000 366 H)].
Defined.

(** ** The loops of the time and position computations end

    Every angle handed to [normalizeAngle] by [calculateLocalSiderealTime],
    [calculateSunPosition], [calculateTrueAnomaly], [calculatePlanetPosition]
    and [heliocentricToGeocentric] is NaN or of bounded magnitude, so the
    loops end.  The bounds are powers of two, carried through the binary64
    operations. *)

Local Open Scope Z_scope.

(** What the first shift of a rounding does, for any mantissa that is not
    negative and any exponent. *)
Lemma shr_fexp_shift_any (m e : Z) (l : location) :
  0 <= m ->
  let n := Z.max 0 (fexp prec emax (Zdigits2 m + e) - e) in
  snd (shr_fexp prec emax m e l) = e + n /\
  shr_m (fst (shr_fexp prec emax m e l)) = m / 2 ^ n.
Proof.
  intros Hm n. unfold shr_fexp, shr. subst n.
  destruct (fexp prec emax (Zdigits2 m + e) - e) as [| p | p] eqn:En; cbn [fst snd].
  - change (Z.max 0 0) with 0. rewrite shr_record_of_loc_m, Z.pow_0_r, Z.div_1_r. split; lia.
  - replace (Z.max 0 (Zpos p)) with (Zpos p) by lia.
    rewrite shr_m_iter by (rewrite shr_record_of_loc_m; lia).
    rewrite shr_record_of_loc_m. split; reflexivity.
  - replace (Z.max 0 (Zneg p)) with 0 by lia.
    rewrite shr_record_of_loc_m, Z.pow_0_r, Z.div_1_r. split; lia.
Qed.

Lemma Zdigits2_bounds (m : Z) : 0 <= m -> 0 <= Zdigits2 m /\ m < 2 ^ Zdigits2 m.
Proof.
  intros Hm. destruct m as [| p | p]; cbn [Zdigits2]; try lia.
  pose proof (digits2_pos_bounds p). lia.
Qed.

Lemma abs_cond_Zopp (s : bool) (z : Z) : Z.abs (cond_Zopp s z) = Z.abs z.
Proof. destruct s; cbn [cond_Zopp]; lia. Qed.

(** Rounding a value below 2^P gives a finite number not above 2^P. *)
Lemma binary_round_aux_below (s : bool) (mz ez : Z) (lz : location) (P : Z) :
  0 <= mz -> -1074 <= P <= 1023 -> ez <= 971 -> ez <= P -> mz < 2 ^ (P - ez) ->
  let r := binary_round_aux prec emax s mz ez lz in
  SFfinite r = true /\ Z.abs (SFkey r) <= 2 ^ (P + 1074).
Proof.
  intros Hm HP He HeP Hlt r. subst r. unfold binary_round_aux.
  destruct (shr_fexp_shift_any mz ez lz Hm) as [S1 S2].
  destruct (Zdigits2_bounds mz Hm) as [D0 D1].
  pose proof (Zdigits2_lt mz (P - ez) ltac:(lia) ltac:(lia)) as D2.
  rewrite fexp_value in S1, S2.
  set (d := Zdigits2 mz) in *.
  set (n := Z.max 0 (Z.max (d + ez - 53) (-1074) - ez)) in *.
  set (E := ez + n) in *.
  assert (HE : -1074 <= E <= P /\ E <= 971 /\ 0 <= n /\ d <= n + 53) by (subst E n; lia).
  destruct HE as (HE1 & HE2 & Hn & Hdn).
  assert (Pn : 0 < 2 ^ n) by (apply Z.pow_pos_nonneg; lia).
  assert (Q0 : 0 <= mz / 2 ^ n) by (apply Z.div_pos; lia).
  assert (Q1 : mz / 2 ^ n < 2 ^ (P - E)).
  { apply Z.div_lt_upper_bound; [exact Pn |].
    rewrite <- Z.pow_add_r by lia. replace (n + (P - E)) with (P - ez) by (subst E; lia).
    exact Hlt. }
  assert (Q2 : mz / 2 ^ n < 2 ^ 53).
  { apply Z.div_lt_upper_bound; [exact Pn |].
    rewrite <- Z.pow_add_r by lia. apply Z.lt_le_trans with (1 := D1).
    apply Z.pow_le_mono_r; lia. }
  destruct (shr_fexp prec emax mz ez lz) as [mrs' e']. cbn [fst snd] in S1, S2.
  pose proof (round_nearest_even_ge (shr_m mrs') (loc_of_shr_record mrs')) as R1.
  pose proof (round_nearest_even_le (shr_m mrs') (loc_of_shr_record mrs')) as R2.
  remember (round_nearest_even (shr_m mrs') (loc_of_shr_record mrs')) as m1 eqn:Em. clear Em.
  rewrite S2 in R1, R2. rewrite S1.
  assert (PP : 0 < 2 ^ (P + 1074)) by (apply Z.pow_pos_nonneg; lia).
  destruct (shr_fexp_shift_any m1 E loc_Exact ltac:(lia)) as [T1 T2].
  rewrite fexp_value in T1, T2.
  destruct m1 as [| p1 | p1]; try lia.
  - rewrite Z.div_0_l in T2 by (apply Z.pow_nonzero; lia).
    destruct (shr_fexp prec emax 0 E loc_Exact) as [mrs'' e'']. cbn [fst snd] in T2.
    rewrite T2. cbn [SFfinite SFkey Z.abs]. split; [reflexivity | lia].
  - cbn [Zdigits2] in T1, T2.
    set (n2 := Z.max 0 (Z.max (Zpos (digits2_pos p1) + E - 53) (-1074) - E)) in *.
    assert (V : Zpos p1 / 2 ^ n2 * 2 ^ n2 = Zpos p1 /\ 0 <= n2 /\ E + n2 <= 971 /\
                0 < Zpos p1 / 2 ^ n2).
    { destruct (Z_lt_le_dec (Zpos p1) (2 ^ 53)) as [L | G].
      - pose proof (digits2_pos_lt p1 53 ltac:(lia) L) as D3.
        assert (n2 = 0) by (subst n2; lia).
        rewrite H, Z.pow_0_r, Z.div_1_r. lia.
      - assert (Ep : Zpos p1 = 2 ^ 53) by lia.
        assert (D3 : Zpos (digits2_pos p1) = 54).
        { apply digits2_pos_unique. rewrite Ep. split; [apply Z.le_refl | reflexivity]. }
        assert (n2 = 1) by (subst n2; rewrite D3; lia).
        assert (53 <= P - E).
        { destruct (Z_le_gt_dec 53 (P - E)) as [L | L]; [exact L | exfalso].
          assert (2 ^ (P - E) <= 2 ^ 52) by (apply Z.pow_le_mono_r; lia).
          assert (2 ^ 52 < 2 ^ 53) by reflexivity. lia. }
        rewrite H, Ep. repeat split; try reflexivity; lia. }
    destruct V as (V & Hn2 & Le & Vp).
    destruct (shr_fexp prec emax (Zpos p1) E loc_Exact) as [mrs'' e''].
    cbn [fst snd] in T1, T2. rewrite T2, T1.
    destruct (Zpos p1 / 2 ^ n2) as [| m2 | m2] eqn:E2; try lia.
    change (emax - prec) with 971.
    destruct (Z.leb_spec (E + n2) 971) as [_ | ?]; [| lia].
    cbn [SFfinite SFkey]. split; [reflexivity |].
    rewrite abs_cond_Zopp, Z.abs_eq by (apply Z.mul_nonneg_nonneg; [lia | apply Z.pow_nonneg; lia]).
    replace (E + n2 + 1074) with (n2 + (E + 1074)) by lia.
    rewrite (Z.pow_add_r 2 n2 (E + 1074)) by lia.
    replace (Zpos m2 * (2 ^ n2 * 2 ^ (E + 1074))) with (Zpos m2 * 2 ^ n2 * 2 ^ (E + 1074)) by ring.
    rewrite V.
    replace (P + 1074) with ((P - E) + (E + 1074)) by lia.
    rewrite (Z.pow_add_r 2 (P - E) (E + 1074)) by lia.
    apply Z.mul_le_mono_nonneg_r; [apply Z.pow_nonneg; lia | lia].
Qed.

(** A finite number not above 2^p: its exponent and its mantissa. *)
Lemma key_le_pow (m : positive) (e p : Z) :
  -1074 <= e -> Zpos m * 2 ^ (e + 1074) <= 2 ^ (p + 1074) ->
  e <= p /\ Zpos m <= 2 ^ (p - e).
Proof.
  intros He H.
  assert (Pe : 0 < 2 ^ (e + 1074)) by (apply Z.pow_pos_nonneg; lia).
  assert (L1 : 2 ^ (e + 1074) <= Zpos m * 2 ^ (e + 1074)).
  { rewrite <- (Z.mul_1_l (2 ^ (e + 1074))) at 1. apply Z.mul_le_mono_nonneg_r; lia. }
  assert (Hp : 0 <= p + 1074).
  { destruct (Z_le_gt_dec 0 (p + 1074)) as [L | G]; [exact L | exfalso].
    rewrite (Z.pow_neg_r 2 (p + 1074)) in H by lia. lia. }
  assert (Le : e <= p).
  { assert (e + 1074 <= p + 1074); [| lia].
    apply (proj2 (Z.pow_le_mono_r_iff 2 (e + 1074) (p + 1074) ltac:(lia) Hp)). lia. }
  split; [exact Le |].
  replace (p + 1074) with ((p - e) + (e + 1074)) in H by lia.
  rewrite (Z.pow_add_r 2 (p - e) (e + 1074)) in H by lia.
  apply Z.mul_le_mono_pos_r in H; assumption.
Qed.

Lemma valid_exponent_le (s : bool) (m : positive) (e p : Z) :
  valid_binary (S754_finite s m e) = true -> Zpos m <= 2 ^ (p - e) -> e <= p ->
  e = -1074 \/ e <= p - 52.
Proof.
  intros V H Le. pose proof (valid_finite_bounds _ _ _ V) as (B & _ & N).
  destruct (Z.eq_dec e (-1074)) as [-> | Ne]; [left; reflexivity | right].
  specialize (N ltac:(lia)).
  destruct (Z_le_gt_dec e (p - 52)) as [L | G]; [exact L | exfalso].
  assert (2 ^ (p - e) <= 2 ^ 51) by (apply Z.pow_le_mono_r; lia).
  assert (2 ^ 51 < 2 ^ 52) by reflexivity. lia.
Qed.

(** The product of two finite numbers not above 2^p and 2^q is finite and
    not above 2^(p+q+1). *)
Lemma SFmul_below (a b : spec_float) (p q : Z) :
  valid_binary a = true -> valid_binary b = true ->
  SFfinite a = true -> SFfinite b = true ->
  -1074 <= p + q + 1 <= 1023 ->
  Z.abs (SFkey a) <= 2 ^ (p + 1074) -> Z.abs (SFkey b) <= 2 ^ (q + 1074) ->
  SFfinite (SF64mul a b) = true /\ Z.abs (SFkey (SF64mul a b)) <= 2 ^ (p + q + 1 + 1074).
Proof.
  intros Va Vb Fa Fb HP Ha Hb. unfold SF64mul.
  assert (PP : 0 <= 2 ^ (p + q + 1 + 1074)) by (apply Z.pow_nonneg; lia).
  destruct a as [sa | sa | | sa ma ea]; try discriminate;
  destruct b as [sb | sb | | sb mb eb]; try discriminate; cbn [SFmul];
    try (cbn [SFfinite SFkey Z.abs]; split; [reflexivity | exact PP]).
  pose proof (valid_finite_bounds _ _ _ Va) as (Ba & _ & _).
  pose proof (valid_finite_bounds _ _ _ Vb) as (Bb & _ & _).
  cbn [SFkey] in Ha, Hb. rewrite abs_cond_Zopp, Z.abs_eq in Ha, Hb
    by (apply Z.mul_nonneg_nonneg; [lia | apply Z.pow_nonneg; lia]).
  destruct (key_le_pow ma ea p ltac:(lia) Ha) as [La Ma].
  destruct (key_le_pow mb eb q ltac:(lia) Hb) as [Lb Mb].
  pose proof (valid_exponent_le _ _ _ _ Va Ma La) as Xa.
  pose proof (valid_exponent_le _ _ _ _ Vb Mb Lb) as Xb.
  apply binary_round_aux_below; try lia.
  rewrite Pos2Z.inj_mul.
  replace (p + q + 1 - (ea + eb)) with ((p - ea) + (q - eb) + 1) by lia.
  rewrite Z.pow_add_r, Z.pow_add_r, Z.pow_1_r by lia.
  assert (Zpos ma * Zpos mb <= 2 ^ (p - ea) * 2 ^ (q - eb)).
  { apply Z.mul_le_mono_nonneg; lia. }
  assert (0 < 2 ^ (p - ea) * 2 ^ (q - eb)).
  { apply Z.mul_pos_pos; apply Z.pow_pos_nonneg; lia. }
  lia.
Qed.

(** The quotient of a finite number not above 2^p by a finite number not
    below 2^q is finite and not above 2^(p-q+1). *)
Lemma SFdiv_below (a b : spec_float) (p q : Z) :
  valid_binary a = true -> valid_binary b = true ->
  SFfinite a = true -> SFfinite b = true ->
  -1074 <= q -> -1074 <= p - q -> p - q + 1 <= 1023 ->
  Z.abs (SFkey a) <= 2 ^ (p + 1074) -> 2 ^ (q + 1074) <= Z.abs (SFkey b) ->
  SFfinite (SF64div a b) = true /\ Z.abs (SFkey (SF64div a b)) <= 2 ^ (p - q + 1 + 1074).
Proof.
  intros Va Vb Fa Fb Hq Hpq HP Ha Hb. unfold SF64div.
  assert (PP : 0 <= 2 ^ (p - q + 1 + 1074)) by (apply Z.pow_nonneg; lia).
  assert (Pq : 0 < 2 ^ (q + 1074)) by (apply Z.pow_pos_nonneg; lia).
  destruct b as [sb | sb | | sb mb eb]; try discriminate;
    [cbn [SFkey Z.abs] in Hb; lia |].
  destruct a as [sa | sa | | sa ma ea]; try discriminate; cbn [SFdiv];
    [cbn [SFfinite SFkey Z.abs]; split; [reflexivity | exact PP] |].
  pose proof (valid_finite_bounds _ _ _ Va) as (Ba & _ & _).
  pose proof (valid_finite_bounds _ _ _ Vb) as (Bb & _ & _).
  cbn [SFkey] in Ha, Hb. rewrite abs_cond_Zopp, Z.abs_eq in Ha, Hb
    by (apply Z.mul_nonneg_nonneg; [lia | apply Z.pow_nonneg; lia]).
  destruct (key_le_pow ma ea p ltac:(lia) Ha) as [La Ma].
  pose proof (digits2_pos_le ma (p - ea) ltac:(lia) Ma) as D1.
  pose proof (digits2_pos_bounds mb) as [_ D2].
  assert (Peb : 0 < 2 ^ (eb + 1074)) by (apply Z.pow_pos_nonneg; lia).
  assert (D2' : q + 1 <= Zpos (digits2_pos mb) + eb).
  { assert (L : 2 ^ (q + 1074) < 2 ^ (Zpos (digits2_pos mb) + (eb + 1074))).
    { rewrite (Z.pow_add_r 2 (Zpos (digits2_pos mb)) (eb + 1074)) by lia.
      apply Z.le_lt_trans with (1 := Hb).
      apply Z.mul_lt_mono_pos_r; assumption. }
    apply Z.pow_lt_mono_r_iff in L; lia. }
  unfold SFdiv_core_binary. cbn [Zdigits2]. rewrite fexp_value.
  set (d1 := Zpos (digits2_pos ma)) in *. set (d2 := Zpos (digits2_pos mb)) in *.
  change (IntDef.Z.min (Z.max (d1 + ea - (d2 + eb) - 53) (-1074)) (ea - eb))
    with (Z.min (Z.max (d1 + ea - (d2 + eb) - 53) (-1074)) (ea - eb)).
  set (e' := Z.min (Z.max (d1 + ea - (d2 + eb) - 53) (-1074)) (ea - eb)).
  assert (He' : e' <= ea - eb /\ e' <= p - q /\ e' <= 969) by (subst e'; lia).
  destruct He' as (H1 & H2 & H3).
  set (s := ea - eb - e').
  assert (Hs : 0 <= s) by (subst s; lia).
  assert (Em : match s with
               | 0 => Zpos ma
               | Zpos _ => Z.shiftl (Zpos ma) s
               | Zneg _ => 0
               end = Zpos ma * 2 ^ s).
  { destruct s as [| ps | ps] eqn:Es; [rewrite Z.pow_0_r; lia | | lia].
    apply Z.shiftl_mul_pow2. lia. }
  rewrite Em. clear Em.
  set (m' := Zpos ma * 2 ^ s).
  assert (Eq : fst (Z.div_eucl m' (Zpos mb)) = m' / Zpos mb) by reflexivity.
  destruct (Z.div_eucl m' (Zpos mb)) as [q0 r0]. cbn [fst] in Eq. subst q0.
  assert (Ps : 0 < 2 ^ s) by (apply Z.pow_pos_nonneg; lia).
  assert (Pm : 0 <= m') by (subst m'; apply Z.mul_nonneg_nonneg; lia).
  assert (Px : 0 < 2 ^ (p - q - e')) by (apply Z.pow_pos_nonneg; lia).
  assert (U1 : m' <= 2 ^ (p - eb - e')).
  { replace (p - eb - e') with ((p - ea) + s) by (subst s; lia).
    rewrite Z.pow_add_r by lia. subst m'. apply Z.mul_le_mono_nonneg_r; lia. }
  assert (U2 : 2 ^ (p - eb - e') <= Zpos mb * 2 ^ (p - q - e')).
  { apply (Z.mul_le_mono_pos_r _ _ (2 ^ (eb + 1074))); [exact Peb |].
    rewrite <- Z.pow_add_r by lia.
    replace (p - eb - e' + (eb + 1074)) with ((q + 1074) + (p - q - e')) by lia.
    rewrite Z.pow_add_r by lia.
    replace (Zpos mb * 2 ^ (p - q - e') * 2 ^ (eb + 1074))
      with (Zpos mb * 2 ^ (eb + 1074) * 2 ^ (p - q - e')) by ring.
    apply Z.mul_le_mono_nonneg_r; lia. }
  apply binary_round_aux_below; try lia.
  - apply Z.div_pos; lia.
  - apply Z.div_lt_upper_bound; [lia |].
    replace (p - q + 1 - e') with ((p - q - e') + 1) by lia.
    rewrite Z.pow_add_r, Z.pow_1_r by lia.
    assert (0 < Zpos mb * 2 ^ (p - q - e')) by (apply Z.mul_pos_pos; lia).
    lia.
Qed.

(** The difference of two finite numbers whose exact difference is below a
    power of two in magnitude is finite and not above that power. *)
Lemma SFsub_bound (a b : spec_float) (p : Z) :
  valid_binary a = true -> valid_binary b = true ->
  SFfinite a = true -> SFfinite b = true ->
  0 <= p <= 2097 -> Z.abs (SFkey a - SFkey b) < 2 ^ p ->
  SFfinite (SF64sub a b) = true /\ Z.abs (SFkey (SF64sub a b)) <= 2 ^ p.
Proof.
  intros Va Vb Fa Fb Hp H. unfold SF64sub.
  assert (P0 : 0 < 2 ^ p) by (apply Z.pow_pos_nonneg; lia).
  destruct a as [sa | sa | | sa ma ea]; try discriminate;
  destruct b as [sb | sb | | sb mb eb]; try discriminate; cbn [SFsub].
  - destruct sa, sb; (split; [reflexivity | exact (Z.lt_le_incl _ _ P0)]).
  - cbn [SFkey] in *. split; [reflexivity |].
    rewrite abs_cond_Zopp. rewrite Z.sub_0_l, Z.abs_opp, abs_cond_Zopp in H. lia.
  - cbn [SFkey] in *. rewrite Z.sub_0_r in H. split; [reflexivity | lia].
  - pose proof (valid_finite_bounds _ _ _ Va) as (Ba & _ & _).
    pose proof (valid_finite_bounds _ _ _ Vb) as (Bb & _ & _).
    cbn [SFkey] in H.
    change (IntDef.Z.min ea eb) with (Z.min ea eb).
    set (ez := Z.min ea eb) in *.
    rewrite (key_aligned sa ma ea ez) in H by lia.
    rewrite (key_aligned sb mb eb ez) in H by lia.
    set (A := cond_Zopp sa (Zpos (fst (shl_align ma ea ez)))) in *.
    set (B := cond_Zopp sb (Zpos (fst (shl_align mb eb ez)))) in *.
    rewrite <- Z.mul_sub_distr_r in H.
    change (IntDef.Z.sub A B) with (A - B).
    set (z := A - B) in *.
    assert (PP : 0 < 2 ^ (ez + 1074)) by (apply Z.pow_pos_nonneg; lia).
    rewrite Z.abs_mul, (Z.abs_eq (2 ^ (ez + 1074))) in H by lia.
    destruct (Z.eq_dec z 0) as [Z0 | NZ].
    + rewrite Z0. split; [reflexivity | exact (Z.lt_le_incl _ _ P0)].
    + set (t := p - (ez + 1074)).
      assert (Az : 0 < Z.abs z) by lia.
      assert (Ht : 0 < t).
      { destruct (Z_lt_le_dec 0 t) as [L | L]; [exact L | exfalso].
        assert (2 ^ p <= 2 ^ (ez + 1074)) by (apply Z.pow_le_mono_r; lia).
        assert (1 * 2 ^ (ez + 1074) <= Z.abs z * 2 ^ (ez + 1074))
          by (apply Z.mul_le_mono_nonneg_r; lia).
        lia. }
      assert (Pt : 2 ^ p = 2 ^ t * 2 ^ (ez + 1074)).
      { rewrite <- Z.pow_add_r by lia. f_equal. subst t. lia. }
      assert (Hz : Z.abs z < 2 ^ t).
      { rewrite Pt in H. apply Z.mul_lt_mono_pos_r in H; assumption. }
      pose proof (Zdigits2_lt z t ltac:(lia) Hz) as Dd.
      destruct (binary_normalize_value z ez ltac:(lia) ltac:(subst t; lia)) as (F & U & _).
      split; [exact F |]. apply Z.le_trans with (1 := U).
      unfold rounding_shift. rewrite fexp_value.
      set (n := Z.max 0 (Z.max (Zdigits2 z + ez - 53) (-1074) - ez)).
      assert (Hn : 0 <= n < t) by (subst n; lia).
      assert (Pn : 0 < 2 ^ n) by (apply Z.pow_pos_nonneg; lia).
      assert (Et : 2 ^ t = 2 ^ n * 2 ^ (t - n)).
      { rewrite <- Z.pow_add_r by lia. f_equal. lia. }
      assert (Q : Z.abs z / 2 ^ n < 2 ^ (t - n)).
      { apply Z.div_lt_upper_bound; [exact Pn | lia]. }
      replace (ez + n + 1074) with (n + (ez + 1074)) by lia.
      rewrite Z.pow_add_r, Pt, Et by lia.
      replace (2 ^ n * 2 ^ (t - n) * 2 ^ (ez + 1074))
        with (2 ^ (t - n) * (2 ^ n * 2 ^ (ez + 1074))) by ring.
      apply Z.mul_le_mono_nonneg_r; [| lia].
      apply Z.mul_nonneg_nonneg; apply Z.pow_nonneg; lia.
Qed.

Local Open Scope float_scope.

Ltac below_literal := split; [reflexivity | apply Z.leb_le; vm_compute; reflexivity].

Ltac above_literal := apply Z.leb_le; vm_compute; reflexivity.

Lemma below_mul (x y : number) (p q r : Z) :
  below x p -> below y q -> r = (p + q + 1)%Z -> (-1074 <= r <= 1023)%Z -> below (x * y) r.
Proof.
  intros [Fx Kx] [Fy Ky] -> Hr. unfold below, fkey in *.
  rewrite is_finite_Prim2SF in *. rewrite mul_spec.
  apply SFmul_below; try apply Prim2SF_valid; assumption.
Qed.

Lemma below_div (x y : number) (p q r : Z) :
  below x p -> is_finite y = true -> (2 ^ (q + 1074) <= Z.abs (fkey y))%Z ->
  r = (p - q + 1)%Z -> (-1074 <= q)%Z -> (-1074 <= p - q)%Z -> (r <= 1023)%Z ->
  below (x / y) r.
Proof.
  intros [Fx Kx] Fy Ky -> Hq Hpq Hr. unfold below, fkey in *.
  rewrite is_finite_Prim2SF in *. rewrite div_spec.
  apply SFdiv_below; try apply Prim2SF_valid; assumption.
Qed.

Lemma pow_sum_lt (p q : Z) :
  (-1074 <= p < q)%Z -> (2 ^ (p + 1074) + 2 ^ (q + 1074) < 2 ^ (q + 1 + 1074))%Z.
Proof.
  intros H.
  assert (2 ^ (p + 1074) < 2 ^ (q + 1074))%Z by (apply Z.pow_lt_mono_r; lia).
  replace (q + 1 + 1074)%Z with ((q + 1074) + 1)%Z by lia.
  rewrite (Z.pow_add_r 2 (q + 1074) 1), Z.pow_1_r by lia. lia.
Qed.

Lemma below_add (x y : number) (p q r : Z) :
  below x p -> below y q -> (-1074 <= p < q)%Z -> r = (q + 1)%Z -> (r <= 1023)%Z ->
  below (x + y) r.
Proof.
  intros [Fx Kx] [Fy Ky] H -> Hr. pose proof (pow_sum_lt p q H).
  apply add_bound; try assumption; lia.
Qed.

Lemma below_add_r (x y : number) (p q r : Z) :
  below x p -> below y q -> (-1074 <= q < p)%Z -> r = (p + 1)%Z -> (r <= 1023)%Z ->
  below (x + y) r.
Proof.
  intros [Fx Kx] [Fy Ky] H -> Hr. pose proof (pow_sum_lt q p H).
  apply add_bound; try assumption; lia.
Qed.

Lemma sub_bound (a b : number) (p : Z) :
  is_finite a = true -> is_finite b = true ->
  (0 <= p <= 2097)%Z -> (Z.abs (fkey a - fkey b) < 2 ^ p)%Z ->
  is_finite (a - b) = true /\ (Z.abs (fkey (a - b)%float) <= 2 ^ p)%Z.
Proof.
  rewrite !is_finite_Prim2SF. unfold fkey. rewrite sub_spec.
  intros Fa Fb Hp H. apply SFsub_bound; try apply Prim2SF_valid; assumption.
Qed.

Lemma below_sub (x y : number) (p q r : Z) :
  below x p -> below y q -> (-1074 <= p < q)%Z -> r = (q + 1)%Z -> (r <= 1023)%Z ->
  below (x - y) r.
Proof.
  intros [Fx Kx] [Fy Ky] H -> Hr. pose proof (pow_sum_lt p q H).
  apply sub_bound; try assumption; lia.
Qed.

Lemma below_sub_r (x y : number) (p q r : Z) :
  below x p -> below y q -> (-1074 <= q < p)%Z -> r = (p + 1)%Z -> (r <= 1023)%Z ->
  below (x - y) r.
Proof.
  intros [Fx Kx] [Fy Ky] H -> Hr. pose proof (pow_sum_lt q p H).
  apply sub_bound; try assumption; lia.
Qed.

Lemma is_int_below (x : number) (X p : Z) :
  is_int x X -> (X <= 2 ^ p)%Z -> (0 <= p)%Z -> below x p.
Proof.
  unfold is_int, below, fkey. rewrite is_finite_Prim2SF.
  intros I L Hp.
  assert (P : (0 < 2 ^ 1074)%Z) by reflexivity.
  assert (E : (2 ^ (p + 1074) = 2 ^ p * 2 ^ 1074)%Z) by (apply Z.pow_add_r; lia).
  destruct (Prim2SF x) as [[] | [] | | [] m e]; cbn [SFint] in I; try contradiction;
    cbn [SFfinite SFkey cond_Zopp Z.abs].
  - split; [reflexivity | apply Z.pow_nonneg; lia].
  - split; [reflexivity |]. rewrite I, E, Z.abs_eq.
    + apply Z.mul_le_mono_nonneg_r; lia.
    + rewrite <- I. apply Z.mul_nonneg_nonneg; [lia | apply Z.pow_nonneg; lia].
Qed.

Lemma of_Z_below (X p : Z) :
  (0 <= X < 2 ^ 53)%Z -> (X <= 2 ^ p)%Z -> (0 <= p)%Z -> below (Number.of_Z X) p.
Proof. intros H L Hp. exact (is_int_below _ X p (of_Z_int X H) L Hp). Qed.

(** The Julian Day of a date of the calendar is below 2^30. *)
Lemma julian_day_below (date : Date) :
  date_in_range date -> clock_in_range date -> below (dateToJulianDay date) 30.
Proof.
  intros R (Hh & Hm & Hs). rewrite (julian_day_integer_part date R).
  pose proof (julian_day_number_bounds date R) as B.
  assert (P53 : (2 ^ 53 = 9007199254740992)%Z) by reflexivity.
  assert (B0 : below (Number.of_Z (julian_day_number date)) 27).
  { apply of_Z_below; [lia | | lia]. change (2 ^ 27)%Z with 134217728%Z. lia. }
  assert (B1 : below (getUTCHours date) 5).
  { apply of_Z_below; [lia | | lia]. change (2 ^ 5)%Z with 32%Z. lia. }
  assert (B2 : below (getUTCMinutes date) 6).
  { apply of_Z_below; [lia | | lia]. change (2 ^ 6)%Z with 64%Z. lia. }
  assert (B3 : below (getUTCSeconds date) 6).
  { apply of_Z_below; [lia | | lia]. change (2 ^ 6)%Z with 64%Z. lia. }
  assert (C12 : below 12 4) by below_literal.
  pose proof (below_sub_r _ _ 5 4 6 B1 C12 ltac:(lia) eq_refl ltac:(lia)) as B4.
  assert (B5 : below ((getUTCHours date - 12) / 24) 3).
  { apply (below_div _ _ 6 4 3 B4); [reflexivity | above_literal | lia ..]. }
  assert (B6 : below (getUTCMinutes date / 1440) (-3)).
  { apply (below_div _ _ 6 10 (-3) B2); [reflexivity | above_literal | lia ..]. }
  assert (B7 : below (getUTCSeconds date / 86400) (-9)).
  { apply (below_div _ _ 6 16 (-9) B3); [reflexivity | above_literal | lia ..]. }
  pose proof (below_add_r _ _ 27 3 28 B0 B5 ltac:(lia) eq_refl ltac:(lia)) as B8.
  pose proof (below_add_r _ _ 28 (-3) 29 B8 B6 ltac:(lia) eq_refl ltac:(lia)) as B9.
  exact (below_add_r _ _ 29 (-9) 30 B9 B7 ltac:(lia) eq_refl ltac:(lia)).
Qed.

(** The Greenwich angle before it is normalized is below 2^44. *)
Lemma sidereal_angle_below (jd : number) :
  below jd 30 ->
  let t := (jd - 2451545.0) / 36525.0 in
  below (280.46061837 + 360.98564736629 * (jd - 2451545.0) +
         0.000387933 * t * t - t * t * t / 38710000.0) 44.
Proof.
  intros B t.
  assert (C1 : below 2451545.0 22) by below_literal.
  assert (C2 : below 360.98564736629 9) by below_literal.
  assert (C3 : below 280.46061837 9) by below_literal.
  assert (C4 : below 0.000387933 (-11)) by below_literal.
  pose proof (below_sub_r _ _ 30 22 31 B C1 ltac:(lia) eq_refl ltac:(lia)) as D.
  assert (T : below t 17).
  { apply (below_div _ _ 31 15 17 D); [reflexivity | above_literal | lia ..]. }
  pose proof (below_mul _ _ 9 31 41 C2 D eq_refl ltac:(lia)) as M1.
  pose proof (below_add _ _ 9 41 42 C3 M1 ltac:(lia) eq_refl ltac:(lia)) as S1.
  pose proof (below_mul _ _ (-11) 17 7 C4 T eq_refl ltac:(lia)) as M2.
  pose proof (below_mul _ _ 7 17 25 M2 T eq_refl ltac:(lia)) as M3.
  pose proof (below_add_r _ _ 42 25 43 S1 M3 ltac:(lia) eq_refl ltac:(lia)) as S2.
  pose proof (below_mul _ _ 17 17 35 T T eq_refl ltac:(lia)) as M4.
  pose proof (below_mul _ _ 35 17 53 M4 T eq_refl ltac:(lia)) as M5.
  assert (Q : below (t * t * t / 38710000.0) 29).
  { apply (below_div _ _ 53 25 29 M5); [reflexivity | above_literal | lia ..]. }
  exact (below_sub_r _ _ 43 29 44 S2 Q ltac:(lia) eq_refl ltac:(lia)).
Qed.

(** A number below 2^55 is normalized by the loops. *)
Lemma below_normalizeAngle_returns (x : number) (p : Z) :
  below x p -> (p <= 55)%Z ->
  exists fuel0, forall fuel, (fuel0 <= fuel)%nat ->
    exists r, normalizeAngle fuel x = Some r /\ (0 <=? r) = true /\ (r <? 360) = true.
Proof.
  intros [F K] Hp. apply normalizeAngle_returns.
  - rewrite ltb_finite_key by (exact F || reflexivity). apply Z.ltb_lt.
    change (fkey (-72057594037927936)) with (- magnitude_limit)%Z.
    assert (2 ^ (p + 1074) <= 2 ^ 1129)%Z by (apply Z.pow_le_mono_r; lia).
    assert (2 ^ 1129 < magnitude_limit)%Z by reflexivity. lia.
  - rewrite ltb_finite_key by (exact F || reflexivity). apply Z.ltb_lt.
    change (fkey 72057594037927936) with magnitude_limit.
    assert (2 ^ (p + 1074) <= 2 ^ 1129)%Z by (apply Z.pow_le_mono_r; lia).
    assert (2 ^ 1129 < magnitude_limit)%Z by reflexivity. lia.
Qed.

Lemma in_range_below (g : number) :
  (0 <=? g) = true -> (g <? 360) = true -> below g 9.
Proof.
  intros P Q. destruct (in_range_finite g P Q) as [F K]. split; [exact F |].
  assert (turn_key < 2 ^ (9 + 1074))%Z by reflexivity. lia.
Qed.

Lemma longitude_below (longitude : number) :
  (-18014398509481984 <? longitude) = true -> (longitude <? 18014398509481984) = true ->
  below longitude 54.
Proof.
  intros Lo Hi. destruct (ltb_not_nan _ _ Hi) as [Nl _].
  rewrite ltb_key in Lo, Hi by (exact Nl || reflexivity).
  apply Z.ltb_lt in Lo, Hi.
  change (fkey 18014398509481984) with (2 ^ 1128)%Z in Hi.
  change (fkey (-18014398509481984)) with (- 2 ^ 1128)%Z in Lo.
  assert (Fl : is_finite longitude = true).
  { destruct (not_nan_cases longitude Nl) as [F | [s E]]; [exact F | exfalso].
    unfold fkey in Lo, Hi. rewrite E in Lo, Hi. cbn [SFkey] in Lo, Hi.
    assert (2 ^ 1128 < 2 ^ 2098)%Z by reflexivity.
    destruct s; cbn [cond_Zopp] in Lo, Hi; lia. }
  split; [exact Fl |]. change (54 + 1074)%Z with 1128%Z. lia.
Qed.

(** For a date of the calendar and a longitude below 2^54, both loops of
    [calculateLocalSiderealTime] end, with one result however many
    iterations are allowed beyond those they need. *)
Lemma sidereal_time_settles (longitude : number) (timestamp : Date) :
  date_in_range timestamp -> clock_in_range timestamp ->
  (-18014398509481984 <? longitude) = true -> (longitude <? 18014398509481984) = true ->
  exists r, ((0 <=? r) = true /\ (r <? 360) = true) /\
    exists fuel0, forall fuel, (fuel0 <= fuel)%nat ->
      calculateLocalSiderealTime fuel longitude timestamp = Some r.
Proof.
  intros R C Lo Hi. unfold calculateLocalSiderealTime. cbv zeta.
  pose proof (sidereal_angle_below _ (julian_day_below timestamp R C)) as G. cbv zeta in G.
  destruct (below_normalizeAngle_returns _ 44 G ltac:(lia)) as [fuel1 H1].
  destruct (H1 fuel1 (Nat.le_refl _)) as (g & Eg & P & Q).
  pose proof (below_add _ _ 9 54 55 (in_range_below g P Q) (longitude_below longitude Lo Hi)
                ltac:(lia) eq_refl ltac:(lia)) as L.
  destruct (below_normalizeAngle_returns _ 55 L ltac:(lia)) as [fuel2 H2].
  destruct (H2 fuel2 (Nat.le_refl _)) as (r & Er & Hr).
  exists r. split; [exact Hr |].
  exists (Nat.max fuel1 fuel2). intros fuel Hf.
  rewrite (normalizeAngle_more fuel1 fuel _ _ Eg ltac:(lia)).
  exact (normalizeAngle_more fuel2 fuel _ _ Er ltac:(lia)).
Qed.

(** X19.  For every date from year 0 to 275760 with a time of day, and every
    observer longitude of magnitude below 2^54, [calculateLocalSiderealTime]
    returns, with an angle of [[0, 360)]: both normalizing loops end. *)
Theorem sidereal_time_returns (longitude : number) (timestamp : Date) :
  date_in_range timestamp -> clock_in_range timestamp ->
  (-18014398509481984 <? longitude) = true -> (longitude <? 18014398509481984) = true ->
  exists fuel0, forall fuel, (fuel0 <= fuel)%nat ->
    exists r, calculateLocalSiderealTime fuel longitude timestamp = Some r /\
              (0 <=? r) = true /\ (r <? 360) = true.
Proof.
  intros R C Lo Hi.
  destruct (sidereal_time_settles longitude timestamp R C Lo Hi) as (r & Hr & fuel0 & H).
  exists fuel0. intros fuel Hf. exists r. split; [exact (H fuel Hf) | exact Hr].
Qed.

Lemma sidereal_time_returns_witness :
  (date_in_range leap_day_evening /\ clock_in_range leap_day_evening /\
   (-18014398509481984 <? -122.4194) = true /\ (-122.4194 <? 18014398509481984) = true) /\
  exists fuel0, forall fuel, (fuel0 <= fuel)%nat ->
    exists r, calculateLocalSiderealTime fuel (-122.4194) leap_day_evening = Some r /\
              (0 <=? r) = true /\ (r <? 360) = true.
Proof.
  assert (R : date_in_range leap_day_evening) by (unfold date_in_range; cbn; lia).
  assert (C : clock_in_range leap_day_evening) by (unfold clock_in_range; cbn; lia).
  split; [repeat split; try reflexivity; try apply R; apply C |].
  exact (sidereal_time_returns (-122.4194) leap_day_evening R C eq_refl eq_refl).
Defined.

(** X20.  For every date from year 0 to 275760 with a time of day and an
    observer longitude of magnitude below 2^54, [celestialToHorizontal]
    returns for every celestial coordinate and [getVisibleStars] returns for
    every catalog and magnitude limit, whatever the [Math] library answers. *)
Theorem star_positions_return {M : MathLib} (this : StarCatalogService)
    (location : GeolocationCoords) (maxMagnitude : number) (timestamp : Date) :
  date_in_range timestamp -> clock_in_range timestamp ->
  (-18014398509481984 <? longitude location) = true ->
  (longitude location <? 18014398509481984) = true ->
  exists fuel0, forall fuel, (fuel0 <= fuel)%nat ->
    (forall celestial, exists h,
       celestialToHorizontal fuel celestial location timestamp = Some h) /\
    exists result, getVisibleStars fuel this location maxMagnitude timestamp = Some result.
Proof.
  intros R C Lo Hi.
  destruct (sidereal_time_settles _ timestamp R C Lo Hi) as (r & _ & fuel0 & H).
  exists fuel0. intros fuel Hf. specialize (H fuel Hf). split.
  - intros celestial. unfold celestialToHorizontal. cbv zeta. rewrite H. eexists. reflexivity.
  - unfold getVisibleStars. destruct (negb (isInitialized this)); [eexists; reflexivity |].
    assert (N : calculateLocalSiderealTime fuel (longitude location) timestamp <> None)
      by (rewrite H; discriminate).
    pose proof (visible_stars_loop_returns fuel location maxMagnitude timestamp N
                  (JsMap.values (stars this)) []) as V.
    destruct (visible_stars_loop fuel location maxMagnitude timestamp _ []);
      [eexists; reflexivity | congruence].
Qed.

Lemma star_positions_return_witness :
  (date_in_range leap_day_evening /\ clock_in_range leap_day_evening /\
   (-18014398509481984 <? longitude north_pole) = true /\
   (longitude north_pole <? 18014398509481984) = true) /\
  exists fuel0, forall fuel, (fuel0 <= fuel)%nat ->
    (forall celestial, exists h,
       @celestialToHorizontal SampleMath fuel celestial north_pole leap_day_evening = Some h) /\
    exists result,
      @getVisibleStars SampleMath fuel (initialized horizon_data no_planets) north_pole 4
        leap_day_evening = Some result.
Proof.
  assert (R : date_in_range leap_day_evening) by (unfold date_in_range; cbn; lia).
  assert (C : clock_in_range leap_day_evening) by (unfold clock_in_range; cbn; lia).
  split; [repeat split; try reflexivity; try apply R; apply C |].
  exact (@star_positions_return SampleMath (initialized horizon_data no_planets) north_pole 4
           leap_day_evening R C eq_refl eq_refl).
Defined.

Lemma mul_nan_l (x y : number) : is_nan x = true -> is_nan (x * y) = true.
Proof.
  intros N. apply is_nan_Prim2SF in N. apply is_nan_Prim2SF. rewrite mul_spec, N. reflexivity.
Qed.

Lemma mul_nan_r (x y : number) : is_nan y = true -> is_nan (x * y) = true.
Proof.
  intros N. apply is_nan_Prim2SF in N. apply is_nan_Prim2SF. rewrite mul_spec, N.
  destruct (Prim2SF x); reflexivity.
Qed.

Lemma add_nan_r (x y : number) : is_nan y = true -> is_nan (x + y) = true.
Proof.
  intros N. apply is_nan_Prim2SF in N. apply is_nan_Prim2SF. rewrite add_spec, N.
  destruct (Prim2SF x); reflexivity.
Qed.

Lemma sub_nan_l (x y : number) : is_nan x = true -> is_nan (x - y) = true.
Proof.
  intros N. apply is_nan_Prim2SF in N. apply is_nan_Prim2SF. rewrite sub_spec, N. reflexivity.
Qed.

Lemma sub_nan_r (x y : number) : is_nan y = true -> is_nan (x - y) = true.
Proof.
  intros N. apply is_nan_Prim2SF in N. apply is_nan_Prim2SF. rewrite sub_spec, N.
  destruct (Prim2SF x); reflexivity.
Qed.

Lemma div_nan_l (x y : number) : is_nan x = true -> is_nan (x / y) = true.
Proof.
  intros N. apply is_nan_Prim2SF in N. apply is_nan_Prim2SF. rewrite div_spec, N. reflexivity.
Qed.

Lemma below_tame (x : number) (p : Z) : below x p -> tame x p.
Proof. intros H. right. exact H. Qed.

Lemma tame_mul (x y : number) (p q r : Z) :
  tame x p -> tame y q -> r = (p + q + 1)%Z -> (-1074 <= r <= 1023)%Z -> tame (x * y) r.
Proof.
  intros [Nx | Bx] [Ny | By] E Hr;
    [left; apply mul_nan_l; exact Nx | left; apply mul_nan_l; exact Nx |
     left; apply mul_nan_r; exact Ny |].
  right. exact (below_mul x y p q r Bx By E Hr).
Qed.

Lemma tame_div (x y : number) (p q r : Z) :
  tame x p -> is_finite y = true -> (2 ^ (q + 1074) <= Z.abs (fkey y))%Z ->
  r = (p - q + 1)%Z -> (-1074 <= q)%Z -> (-1074 <= p - q)%Z -> (r <= 1023)%Z ->
  tame (x / y) r.
Proof.
  intros [Nx | Bx] Fy Ky E Hq Hpq Hr; [left; apply div_nan_l; exact Nx |].
  right. exact (below_div x y p q r Bx Fy Ky E Hq Hpq Hr).
Qed.

Lemma tame_add (x y : number) (p q r : Z) :
  tame x p -> tame y q -> (-1074 <= p < q)%Z -> r = (q + 1)%Z -> (r <= 1023)%Z ->
  tame (x + y) r.
Proof.
  intros [Nx | Bx] [Ny | By] H E Hr;
    [left; apply add_nan_l; exact Nx | left; apply add_nan_l; exact Nx |
     left; apply add_nan_r; exact Ny |].
  right. exact (below_add x y p q r Bx By H E Hr).
Qed.

Lemma tame_add_r (x y : number) (p q r : Z) :
  tame x p -> tame y q -> (-1074 <= q < p)%Z -> r = (p + 1)%Z -> (r <= 1023)%Z ->
  tame (x + y) r.
Proof.
  intros [Nx | Bx] [Ny | By] H E Hr;
    [left; apply add_nan_l; exact Nx | left; apply add_nan_l; exact Nx |
     left; apply add_nan_r; exact Ny |].
  right. exact (below_add_r x y p q r Bx By H E Hr).
Qed.

Lemma tame_sub_r (x y : number) (p q r : Z) :
  tame x p -> tame y q -> (-1074 <= q < p)%Z -> r = (p + 1)%Z -> (r <= 1023)%Z ->
  tame (x - y) r.
Proof.
  intros [Nx | Bx] [Ny | By] H E Hr;
    [left; apply sub_nan_l; exact Nx | left; apply sub_nan_l; exact Nx |
     left; apply sub_nan_r; exact Ny |].
  right. exact (below_sub_r x y p q r Bx By H E Hr).
Qed.

(** A number between two numbers below 2^p is below 2^p. *)
Lemma within_tame (x lo hi : number) (p : Z) :
  within x lo hi -> below lo p -> below hi p -> (-1074 <= p <= 1023)%Z -> tame x p.
Proof.
  intros [N | [L H]] [Flo Klo] [Fhi Khi] Hp; [left; exact N | right].
  destruct (leb_not_nan _ _ L) as [Nlo Nx]. destruct (leb_not_nan _ _ H) as [_ Nhi].
  rewrite leb_key in L, H by assumption. apply Z.leb_le in L, H.
  assert (K : (Z.abs (fkey x) <= 2 ^ (p + 1074))%Z) by lia.
  split; [| exact K].
  destruct (not_nan_cases x Nx) as [F | [s E]]; [exact F | exfalso].
  unfold fkey in K. rewrite E in K. cbn [SFkey] in K. rewrite abs_cond_Zopp in K.
  assert (2 ^ (p + 1074) < 2 ^ 2098)%Z by (apply Z.pow_lt_mono_r; lia).
  assert (0 < 2 ^ 2098)%Z by reflexivity. lia.
Qed.

(** The loops end on NaN and on every number below 2^55, with one result
    however many iterations are allowed beyond those they need. *)
Lemma tame_normalizeAngle_settles (x : number) (p : Z) :
  tame x p -> (p <= 55)%Z ->
  exists r, (tame r 9 /\ normalized r) /\
    exists fuel0, forall fuel, (fuel0 <= fuel)%nat -> normalizeAngle fuel x = Some r.
Proof.
  intros [N | B] Hp.
  - exists x. split; [split; left; exact N |]. exists 0%nat. intros fuel _.
    apply normalizeAngle_nan. exact N.
  - destruct (below_normalizeAngle_returns x p B Hp) as [fuel0 H].
    destruct (H fuel0 (Nat.le_refl _)) as (r & Er & P & Q).
    exists r. split; [split; right; [exact (in_range_below r P Q) | split; assumption] |].
    exists fuel0. intros fuel Hf. exact (normalizeAngle_more fuel0 fuel _ _ Er Hf).
Qed.

Section Positions.
Context {M : MathLib}.
Hypothesis ranges : ranges_kept M.

Lemma sin_tame (x : number) : tame (Math_sin x) 0.
Proof.
  apply (within_tame _ (-1) 1); [apply ranges | below_literal | below_literal | lia].
Qed.

Lemma atan2_tame (y x : number) : tame (Math_atan2 y x) 2.
Proof.
  apply (within_tame _ (-4) 4); [apply ranges | below_literal | below_literal | lia].
Qed.

(** An arc tangent in degrees, as [normalizeAngle] receives it. *)
Lemma atan2_degrees_tame (y x : number) : tame (Math_atan2 y x * 180 / Math_PI) 11.
Proof.
  assert (C : below 180 8) by below_literal.
  pose proof (tame_mul _ _ 2 8 11 (atan2_tame y x) (below_tame _ _ C) eq_refl ltac:(lia)) as T.
  apply (tame_div _ _ 11 1 11 T); [reflexivity | above_literal | lia ..].
Qed.

Lemma sun_position_settles (timestamp : Date) :
  date_in_range timestamp -> clock_in_range timestamp ->
  exists c fuel0, normalized (ra c) /\ forall fuel, (fuel0 <= fuel)%nat ->
    calculateSunPosition fuel timestamp = Some c.
Proof.
  intros R C. unfold calculateSunPosition. cbv zeta.
  pose proof (julian_day_below timestamp R C) as J.
  set (jd := dateToJulianDay timestamp) in *.
  assert (C0 : below 2451545.0 22) by below_literal.
  pose proof (below_sub_r _ _ 30 22 31 J C0 ltac:(lia) eq_refl ltac:(lia)) as N.
  set (n := jd - 2451545.0) in *.
  assert (C1 : below 0.9856474 0) by below_literal.
  assert (C2 : below 280.460 9) by below_literal.
  assert (C3 : below 0.9856003 0) by below_literal.
  assert (C4 : below 357.528 9) by below_literal.
  assert (C5 : below 1.915 1) by below_literal.
  assert (C6 : below 0.020 (-5)) by below_literal.
  pose proof (below_add _ _ 9 32 33 C2 (below_mul _ _ 0 31 32 C1 N eq_refl ltac:(lia))
                ltac:(lia) eq_refl ltac:(lia)) as A1.
  pose proof (below_add _ _ 9 32 33 C4 (below_mul _ _ 0 31 32 C3 N eq_refl ltac:(lia))
                ltac:(lia) eq_refl ltac:(lia)) as A2.
  destruct (tame_normalizeAngle_settles _ 33 (below_tame _ _ A1) ltac:(lia))
    as (L & [TL _] & f1 & H1).
  destruct (tame_normalizeAngle_settles _ 33 (below_tame _ _ A2) ltac:(lia))
    as (g0 & _ & f2 & H2).
  set (g := g0 * Math_PI / 180).
  assert (A3 : tame (L + 1.915 * Math_sin g + 0.020 * Math_sin (2 * g)) 11).
  { pose proof (tame_mul _ _ 1 0 2 (below_tame _ _ C5) (sin_tame g) eq_refl ltac:(lia)) as T1.
    pose proof (tame_add_r _ _ 9 2 10 TL T1 ltac:(lia) eq_refl ltac:(lia)) as T2.
    pose proof (tame_mul _ _ (-5) 0 (-4) (below_tame _ _ C6) (sin_tame (2 * g)) eq_refl
                  ltac:(lia)) as T3.
    exact (tame_add_r _ _ 10 (-4) 11 T2 T3 ltac:(lia) eq_refl ltac:(lia)). }
  destruct (tame_normalizeAngle_settles _ 11 A3 ltac:(lia)) as (lambda & _ & f3 & H3).
  set (lambdaRad := lambda * Math_PI / 180).
  set (obliquity := 23.439 * Math_PI / 180).
  destruct (tame_normalizeAngle_settles _ 11
              (atan2_degrees_tame (Math_cos obliquity * Math_sin lambdaRad)
                 (Math_cos lambdaRad)) ltac:(lia)) as (ra' & [_ Nra] & f4 & H4).
  eexists. exists (Nat.max (Nat.max f1 f2) (Nat.max f3 f4)). split.
  2: { intros fuel Hf.
       rewrite (H1 fuel ltac:(lia)), (H2 fuel ltac:(lia)). fold g.
       rewrite (H3 fuel ltac:(lia)). fold lambdaRad obliquity.
       rewrite (H4 fuel ltac:(lia)). reflexivity. }
  exact Nra.
Qed.

Lemma calculateTrueAnomaly_settles (eccentricAnomaly eccentricity : number) :
  exists r fuel0, forall fuel, (fuel0 <= fuel)%nat ->
    calculateTrueAnomaly fuel eccentricAnomaly eccentricity = Some r.
Proof.
  unfold calculateTrueAnomaly. cbv zeta.
  set (E := eccentricAnomaly * Math_PI / 180).
  assert (C2 : below 2 1) by below_literal.
  assert (C180 : below 180 8) by below_literal.
  pose proof (tame_mul _ _ 1 2 4 (below_tame _ _ C2)
                (atan2_tame (Math_sqrt (1 + eccentricity) * Math_sin (E / 2))
                   (Math_sqrt (1 - eccentricity) * Math_cos (E / 2))) eq_refl ltac:(lia)) as U1.
  pose proof (tame_mul _ _ 4 8 13 U1 (below_tame _ _ C180) eq_refl ltac:(lia)) as U2.
  assert (U3 : tame (2 * Math_atan2 (Math_sqrt (1 + eccentricity) * Math_sin (E / 2))
                           (Math_sqrt (1 - eccentricity) * Math_cos (E / 2)) * 180 / Math_PI) 13).
  { apply (tame_div _ _ 13 1 13 U2); [reflexivity | above_literal | lia ..]. }
  destruct (tame_normalizeAngle_settles _ 13 U3 ltac:(lia)) as (r & _ & f & H).
  exists r, f. exact H.
Qed.

Lemma heliocentricToGeocentric_settles (helioCoords : Vector3) (sunPos : CelestialCoordinate)
    (timestamp : Date) :
  exists c fuel0, normalized (ra c) /\ forall fuel, (fuel0 <= fuel)%nat ->
    heliocentricToGeocentric fuel helioCoords sunPos timestamp = Some c.
Proof.
  unfold heliocentricToGeocentric. cbv zeta.
  match goal with
  | |- context [normalizeAngle _ (Math_atan2 ?a ?b * 180 / Math_PI)] =>
      destruct (tame_normalizeAngle_settles _ 11 (atan2_degrees_tame a b) ltac:(lia))
        as (ra' & [_ Nra] & f & H)
  end.
  eexists. exists f. split.
  2: { intros fuel Hf. rewrite (H fuel Hf). reflexivity. }
  exact Nra.
Qed.

Lemma planet_position_settles (planet : Planet.t) (timestamp : Date) :
  date_in_range timestamp -> clock_in_range timestamp -> elements_bounded planet ->
  exists c fuel0, normalized (ra c) /\ forall fuel, (fuel0 <= fuel)%nat ->
    calculatePlanetPosition fuel planet timestamp = Some c.
Proof.
  intros R C (E1 & E2 & E3). unfold calculatePlanetPosition.
  destruct (sun_position_settles timestamp R C) as (sunPos & fs & Ns & Hs).
  destruct (Planet.type planet); [| exists sunPos, fs; split; assumption].
  cbv zeta. set (el := Planet.orbitalElements planet) in *.
  pose proof (julian_day_below timestamp R C) as J.
  set (jd := dateToJulianDay timestamp) in *.
  assert (T1 : tame (OrbitalElements.meanAnomalyAtEpoch el) 9).
  { apply (within_tame _ _ _ 9 E1); [below_literal | below_literal | lia]. }
  assert (T2 : tame (OrbitalElements.dailyMotion el) 9).
  { apply (within_tame _ _ _ 9 E2); [below_literal | below_literal | lia]. }
  assert (T3 : tame (OrbitalElements.epoch el) 22).
  { apply (within_tame _ _ _ 22 E3); [below_literal | below_literal | lia]. }
  pose proof (tame_sub_r _ _ 30 22 31 (below_tame _ _ J) T3 ltac:(lia) eq_refl ltac:(lia)) as D.
  pose proof (tame_mul _ _ 9 31 41 T2 D eq_refl ltac:(lia)) as P.
  pose proof (tame_add _ _ 9 41 42 T1 P ltac:(lia) eq_refl ltac:(lia)) as A.
  destruct (tame_normalizeAngle_settles _ 42 A ltac:(lia)) as (meanAnomaly & _ & f1 & H1).
  destruct (calculateTrueAnomaly_settles
              (solveKeplerEquation meanAnomaly (OrbitalElements.eccentricity el))
              (OrbitalElements.eccentricity el)) as (trueAnomaly & f2 & H2).
  destruct (heliocentricToGeocentric_settles
              (calculateHeliocentricCoordinates planet trueAnomaly) sunPos timestamp)
    as (c & f3 & Nc & H3).
  exists c, (Nat.max (Nat.max f1 f2) (Nat.max f3 fs)). split; [exact Nc |]. intros fuel Hf.
  rewrite (H1 fuel ltac:(lia)), (H2 fuel ltac:(lia)), (Hs fuel ltac:(lia)).
  exact (H3 fuel ltac:(lia)).
Qed.

End Positions.

Lemma celestialToHorizontal_settles {M : MathLib} (location : GeolocationCoords)
    (timestamp : Date) :
  date_in_range timestamp -> clock_in_range timestamp ->
  (-18014398509481984 <? longitude location) = true ->
  (longitude location <? 18014398509481984) = true ->
  exists fuel0, forall fuel, (fuel0 <= fuel)%nat -> forall celestial,
    exists h, celestialToHorizontal fuel celestial location timestamp = Some h.
Proof.
  intros R C Lo Hi.
  destruct (sidereal_time_settles _ timestamp R C Lo Hi) as (r & _ & fuel0 & H).
  exists fuel0. intros fuel Hf celestial.
  unfold celestialToHorizontal. cbv zeta. rewrite (H fuel Hf). eexists. reflexivity.
Qed.

Section PlanetsReturn.
Context {M : MathLib}.
Hypothesis ranges : ranges_kept M.

Lemma visible_planets_loop_settles (location : GeolocationCoords) (timestamp : Date) :
  date_in_range timestamp -> clock_in_range timestamp ->
  (-18014398509481984 <? longitude location) = true ->
  (longitude location <? 18014398509481984) = true ->
  forall todo : list Planet.t,
  (forall planet, In planet todo -> elements_bounded planet) ->
  exists fuel0, forall fuel, (fuel0 <= fuel)%nat -> forall acc,
    exists r, visible_planets_loop fuel location timestamp todo acc = Some r.
Proof.
  intros R C Lo Hi.
  destruct (celestialToHorizontal_settles location timestamp R C Lo Hi) as [fh Hh].
  induction todo as [| planet todo IH]; intros Hb.
  - exists 0%nat. intros fuel _ acc. exists acc. reflexivity.
  - destruct (IH (fun p Hp => Hb p (or_intror Hp))) as [ft Ht].
    destruct (planet_position_settles ranges planet timestamp R C (Hb planet (or_introl eq_refl)))
      as (c & fp & _ & Hp).
    exists (Nat.max fh (Nat.max ft fp)). intros fuel Hf acc.
    cbn [visible_planets_loop]. rewrite (Hp fuel ltac:(lia)).
    destruct (Hh fuel ltac:(lia) c) as [h Eh]. rewrite Eh.
    apply Ht. lia.
Qed.

End PlanetsReturn.

(** X21.  With a [Math] library whose sine and arc tangent stay in their
    ranges (or are NaN), for every date from year 0 to 275760 with a time of
    day, [calculateSunPosition] returns, and [calculatePlanetPosition]
    returns for every planet whose mean anomaly and daily motion are at most
    a turn and whose epoch is at most 2^22: all their normalizing loops end.
    The right ascension they return is NaN or an angle of [[0, 360)]. *)
Theorem planet_positions_return {M : MathLib} (planet : Planet.t) (timestamp : Date) :
  ranges_kept M ->
  date_in_range timestamp -> clock_in_range timestamp -> elements_bounded planet ->
  exists fuel0, forall fuel, (fuel0 <= fuel)%nat ->
    (exists c, calculateSunPosition fuel timestamp = Some c /\ normalized (ra c)) /\
    (exists c, calculatePlanetPosition fuel planet timestamp = Some c /\ normalized (ra c)).
Proof.
  intros G R C E.
  destruct (sun_position_settles G timestamp R C) as (cs & fs & Ns & Hs).
  destruct (planet_position_settles G planet timestamp R C E) as (cp & fp & Np & Hp).
  exists (Nat.max fs fp). intros fuel Hf. split.
  - exists cs. split; [apply Hs; lia | exact Ns].
  - exists cp. split; [apply Hp; lia | exact Np].
Qed.

(** X22.  With a [Math] library whose sine and arc tangent stay in their
    ranges (or are NaN), a date from year 0 to 275760 with a time of day, an
    observer longitude of magnitude below 2^54 and a catalog whose planets
    have a mean anomaly and a daily motion of at most a turn and an epoch of
    at most 2^22, [getVisiblePlanets] returns: no loop of the position
    computations runs forever. *)
Theorem visible_planets_return {M : MathLib} (this : StarCatalogService)
    (location : GeolocationCoords) (timestamp : Date) :
  ranges_kept M ->
  date_in_range timestamp -> clock_in_range timestamp ->
  (-18014398509481984 <? longitude location) = true ->
  (longitude location <? 18014398509481984) = true ->
  (forall planet, In planet (JsMap.values (planets this)) -> elements_bounded planet) ->
  exists fuel0, forall fuel, (fuel0 <= fuel)%nat ->
    exists result, getVisiblePlanets fuel this location timestamp = Some result.
Proof.
  intros G R C Lo Hi E.
  destruct (visible_planets_loop_settles G location timestamp R C Lo Hi _ E) as [fuel0 H].
  exists fuel0. intros fuel Hf. unfold getVisiblePlanets.
  destruct (negb (isInitialized this)); [eexists; reflexivity |].
  destruct (H fuel Hf []) as [r Er]. rewrite Er. eexists. reflexivity.
Qed.

Lemma eqb_zero_within (x : number) : (x =? 0) = true -> within x (-1) 1.
Proof.
  intros E. right. rewrite eqb_spec in E. rewrite !leb_spec.
  change (Prim2SF 0) with (S754_zero false) in E.
  destruct (Prim2SF x) as [[] | [] | | [] m e]; cbn in E; try discriminate;
    split; reflexivity.
Qed.

Lemma SampleMath_ranges : ranges_kept SampleMath.
Proof.
  split.
  - intros x. cbn [Math_sin SampleMath]. unfold sample_sin.
    destruct (is_nan x || is_infinity x); [left; reflexivity |].
    destruct (x =? 0) eqn:E0; [exact (eqb_zero_within x E0) |].
    repeat match goal with
           | |- context [if ?b then _ else _] => destruct b
           end; right; split; reflexivity.
  - intros y x. cbn [Math_atan2 SampleMath].
    destruct (is_nan y || is_nan x); [left | right; split]; reflexivity.
Qed.

Lemma embedded_elements_bounded (planet : Planet.t) :
  In planet (JsMap.values (planets (initialized embedded_STAR_DATA embedded_PLANET_DATA))) ->
  elements_bounded planet.
Proof.
  intros H. vm_compute in H.
  repeat (destruct H as [<- | H]; [repeat split; right; split; reflexivity |]).
  destruct H.
Qed.

Lemma planet_positions_return_witness :
  (ranges_kept SampleMath /\ date_in_range leap_day_evening /\
   clock_in_range leap_day_evening /\ elements_bounded planet_mercury) /\
  exists fuel0, forall fuel, (fuel0 <= fuel)%nat ->
    (exists c, @calculateSunPosition SampleMath fuel leap_day_evening = Some c /\
               normalized (ra c)) /\
    (exists c, @calculatePlanetPosition SampleMath fuel planet_mercury leap_day_evening = Some c /\
               normalized (ra c)).
Proof.
  assert (R : date_in_range leap_day_evening) by (unfold date_in_range; cbn; lia).
  assert (C : clock_in_range leap_day_evening) by (unfold clock_in_range; cbn; lia).
  assert (E : elements_bounded planet_mercury) by (repeat split; right; split; reflexivity).
  split; [exact (conj SampleMath_ranges (conj R (conj C E))) |].
  exact (@planet_positions_return SampleMath planet_mercury leap_day_evening
           SampleMath_ranges R C E).
Defined.

Lemma visible_planets_return_witness :
  (ranges_kept SampleMath /\ date_in_range leap_day_evening /\
   clock_in_range leap_day_evening /\
   (-18014398509481984 <? longitude north_pole) = true /\
   (longitude north_pole <? 18014398509481984) = true /\
   forall planet,
     In planet (JsMap.values (planets (initialized embedded_STAR_DATA embedded_PLANET_DATA))) ->
     elements_bounded planet) /\
  exists fuel0, forall fuel, (fuel0 <= fuel)%nat ->
    exists result,
      @getVisiblePlanets SampleMath fuel (initialized embedded_STAR_DATA embedded_PLANET_DATA)
        north_pole leap_day_evening = Some result.
Proof.
  assert (R : date_in_range leap_day_evening) by (unfold date_in_range; cbn; lia).
  assert (C : clock_in_range leap_day_evening) by (unfold clock_in_range; cbn; lia).
  split;
    [exact (conj SampleMath_ranges
              (conj R (conj C (conj eq_refl (conj eq_refl embedded_elements_bounded))))) |].
  exact (@visible_planets_return SampleMath
           (initialized embedded_STAR_DATA embedded_PLANET_DATA) north_pole leap_day_evening
           SampleMath_ranges R C eq_refl eq_refl embedded_elements_bounded).
Defined.

(** ** The visible bodies

    What the visibility queries return, and that they return it. *)

Local Open Scope string_scope.
Local Open Scope list_scope.
Local Open Scope float_scope.

(** *** The second sample library keeps the ranges *)

Lemma lookup_within (table : list (number * number)) (otherwise x lo hi : number) :
  forallb (fun entry => (lo <=? snd entry) && (snd entry <=? hi)) table = true ->
  within otherwise lo hi -> within (lookup table otherwise x) lo hi.
Proof.
  intros T O. unfold lookup.
  destruct (find (fun entry => x =? fst entry) table) as [entry |] eqn:E; [| exact O].
  apply find_some in E as [E _]. rewrite forallb_forall in T.
  specialize (T entry E). apply andb_true_iff in T. right. exact T.
Qed.

Lemma lookup2_within (table : list (number * number * number)) (otherwise y x lo hi : number) :
  forallb (fun entry => (lo <=? snd entry) && (snd entry <=? hi)) table = true ->
  within otherwise lo hi -> within (lookup2 table otherwise y x) lo hi.
Proof.
  intros T O. unfold lookup2.
  destruct (find (fun entry => (y =? fst (fst entry)) && (x =? snd (fst entry))) table)
    as [entry |] eqn:E; [| exact O].
  apply find_some in E as [E _]. rewrite forallb_forall in T.
  specialize (T entry E). apply andb_true_iff in T. right. exact T.
Qed.

Lemma SkyMath_ranges : ranges_kept SkyMath.
Proof.
  split.
  - intros x. cbn [Math_sin SkyMath].
    destruct (is_nan x || is_infinity x); [left; reflexivity |].
    apply lookup_within; [vm_compute; reflexivity | right; split; reflexivity].
  - intros y x. cbn [Math_atan2 SkyMath].
    destruct (is_nan y || is_nan x); [left; reflexivity |].
    apply lookup2_within; [vm_compute; reflexivity | right; split; reflexivity].
Qed.

Lemma leap_day_evening_in_range :
  date_in_range leap_day_evening /\ clock_in_range leap_day_evening.
Proof. split; [unfold date_in_range | unfold clock_in_range]; cbn; lia. Qed.

(** *** The visible bodies *)

Section VisibleFacts.
Context {M : MathLib}.

Lemma visible_stars_exactly (fuel : nat) (this : StarCatalogService)
    (location : GeolocationCoords) (maxMagnitude : number) (timestamp : Date)
    (r : list Star.t) :
  isInitialized this = true ->
  getVisibleStars fuel this location maxMagnitude timestamp = Some (Normal r) ->
  stars_above_margin fuel this location maxMagnitude timestamp r.
Proof.
  intros Hi. unfold getVisibleStars. rewrite Hi. cbn [negb]. intros H star.
  destruct (visible_stars_loop _ _ _ _ _ _) as [l |] eqn:E; [| discriminate].
  injection H as <-. apply visible_stars_loop_filter in E. cbn [app] in E. subst l.
  rewrite In_Array_sort, filter_In, seen_above_iff. reflexivity.
Qed.

Lemma visible_planets_exactly (fuel : nat) (this : StarCatalogService)
    (location : GeolocationCoords) (timestamp : Date) (r : list VisiblePlanet) :
  isInitialized this = true ->
  getVisiblePlanets fuel this location timestamp = Some (Normal r) ->
  planets_above_margin fuel this location timestamp r.
Proof.
  intros Hi. unfold getVisiblePlanets. rewrite Hi. cbn [negb]. intros H vp.
  destruct (visible_planets_loop _ _ _ _ _) as [l |] eqn:E; [| discriminate].
  injection H as <-. rewrite (visible_planets_loop_spec _ _ _ _ _ _ E vp). cbn [In]. tauto.
Qed.

(** For a date of the calendar and a longitude below 2^54 [getVisibleStars]
    returns a list. *)
Lemma visible_stars_settle (this : StarCatalogService) (location : GeolocationCoords)
    (maxMagnitude : number) (timestamp : Date) :
  isInitialized this = true ->
  date_in_range timestamp -> clock_in_range timestamp ->
  (-18014398509481984 <? longitude location) = true ->
  (longitude location <? 18014398509481984) = true ->
  exists fuel0, forall fuel, (fuel0 <= fuel)%nat ->
    exists r, getVisibleStars fuel this location maxMagnitude timestamp = Some (Normal r).
Proof.
  intros Hi R C Lo Hi'.
  destruct (sidereal_time_settles _ timestamp R C Lo Hi') as (lst & _ & fuel0 & H).
  exists fuel0. intros fuel Hf. unfold getVisibleStars. rewrite Hi. cbn [negb].
  assert (N : calculateLocalSiderealTime fuel (longitude location) timestamp <> None)
    by (rewrite (H fuel Hf); discriminate).
  pose proof (visible_stars_loop_returns fuel location maxMagnitude timestamp N
                (JsMap.values (stars this)) []) as V.
  destruct (visible_stars_loop fuel location maxMagnitude timestamp _ []);
    [eexists; reflexivity | congruence].
Qed.

Lemma visible_planets_settle (this : StarCatalogService) (location : GeolocationCoords)
    (timestamp : Date) :
  isInitialized this = true -> ranges_kept M ->
  date_in_range timestamp -> clock_in_range timestamp ->
  (-18014398509481984 <? longitude location) = true ->
  (longitude location <? 18014398509481984) = true ->
  (forall planet, In planet (JsMap.values (planets this)) -> elements_bounded planet) ->
  exists fuel0, forall fuel, (fuel0 <= fuel)%nat ->
    exists r, getVisiblePlanets fuel this location timestamp = Some (Normal r).
Proof.
  intros Hi G R C Lo Hi' E.
  destruct (visible_planets_loop_settles G location timestamp R C Lo Hi' _ E) as [fuel0 H].
  exists fuel0. intros fuel Hf. unfold getVisiblePlanets. rewrite Hi. cbn [negb].
  destruct (H fuel Hf []) as [r Er]. rewrite Er. eexists. reflexivity.
Qed.

End VisibleFacts.

(** C5 (amended).  On an initialized catalog, whenever [getVisibleStars]
    returns, a star is in its result exactly when it is in the catalog, its
    magnitude is not above the limit and its computed altitude is strictly
    above -0.5; whenever [getVisiblePlanets] returns, a planet is in its
    result, with its position and horizontal coordinates, exactly when its
    computed altitude is strictly above -0.5.  The queries do return such a
    result for every date from year 0 to 275760 with a time of day and every
    observer longitude of magnitude below 2^54: [getVisibleStars] whatever
    the [Math] library answers, [getVisiblePlanets] when the sine and the arc
    tangent of the library stay in their ranges and the orbital elements of
    the planets are of ordinary size. *)
Theorem visible_bodies_are_strictly_above_margin (M : MathLib) (this : StarCatalogService) :
  isInitialized this = true ->
  (forall fuel location maxMagnitude timestamp r,
     getVisibleStars fuel this location maxMagnitude timestamp = Some (Normal r) ->
     stars_above_margin fuel this location maxMagnitude timestamp r) /\
  (forall fuel location timestamp r,
     getVisiblePlanets fuel this location timestamp = Some (Normal r) ->
     planets_above_margin fuel this location timestamp r) /\
  (forall location timestamp,
     date_in_range timestamp -> clock_in_range timestamp ->
     (-18014398509481984 <? longitude location) = true ->
     (longitude location <? 18014398509481984) = true ->
     (forall maxMagnitude, exists fuel0, forall fuel, (fuel0 <= fuel)%nat ->
        exists r, getVisibleStars fuel this location maxMagnitude timestamp = Some (Normal r) /\
                  stars_above_margin fuel this location maxMagnitude timestamp r) /\
     (ranges_kept M ->
      (forall planet, In planet (JsMap.values (planets this)) -> elements_bounded planet) ->
      exists fuel0, forall fuel, (fuel0 <= fuel)%nat ->
        exists r, getVisiblePlanets fuel this location timestamp = Some (Normal r) /\
                  planets_above_margin fuel this location timestamp r)).
Proof.
  intros Hi. split; [| split].
  - intros fuel location maxMagnitude timestamp r. apply visible_stars_exactly. exact Hi.
  - intros fuel location timestamp r. apply visible_planets_exactly. exact Hi.
  - intros location timestamp R C Lo Hi'. split.
    + intros maxMagnitude.
      destruct (visible_stars_settle this location maxMagnitude timestamp Hi R C Lo Hi')
        as [fuel0 H].
      exists fuel0. intros fuel Hf. destruct (H fuel Hf) as [r Hr].
      exists r. split; [exact Hr | exact (visible_stars_exactly _ _ _ _ _ _ Hi Hr)].
    + intros G E.
      destruct (visible_planets_settle this location timestamp Hi G R C Lo Hi' E) as [fuel0 H].
      exists fuel0. intros fuel Hf. destruct (H fuel Hf) as [r Hr].
      exists r. split; [exact Hr | exact (visible_planets_exactly _ _ _ _ _ Hi Hr)].
Qed.

Lemma visible_bodies_are_strictly_above_margin_witness :
  (isInitialized (initialized embedded_STAR_DATA embedded_PLANET_DATA) = true /\
   date_in_range leap_day_evening /\ clock_in_range leap_day_evening /\
   (-18014398509481984 <? longitude san_francisco) = true /\
   (longitude san_francisco <? 18014398509481984) = true /\
   ranges_kept SkyMath /\
   forall planet,
     In planet (JsMap.values (planets (initialized embedded_STAR_DATA embedded_PLANET_DATA))) ->
     elements_bounded planet) /\
  (exists fuel0, forall fuel, (fuel0 <= fuel)%nat -> exists r,
     @getVisibleStars SkyMath fuel (initialized embedded_STAR_DATA embedded_PLANET_DATA)
       san_francisco 0.5 leap_day_evening = Some (Normal r) /\
     @stars_above_margin SkyMath fuel (initialized embedded_STAR_DATA embedded_PLANET_DATA)
       san_francisco 0.5 leap_day_evening r) /\
  (exists fuel0, forall fuel, (fuel0 <= fuel)%nat -> exists r,
     @getVisiblePlanets SkyMath fuel (initialized embedded_STAR_DATA embedded_PLANET_DATA)
       san_francisco leap_day_evening = Some (Normal r) /\
     @planets_above_margin SkyMath fuel (initialized embedded_STAR_DATA embedded_PLANET_DATA)
       san_francisco leap_day_evening r) /\
  star_ids (@getVisibleStars SkyMath (100 * 100)
              (initialized embedded_STAR_DATA embedded_PLANET_DATA)
              san_francisco 0.5 leap_day_evening) =
    ["hip_91262"; "hip_25336"; "hip_27989"] /\
  planet_ids_and_altitudes
    (@getVisiblePlanets SkyMath (100 * 100)
       (initialized embedded_STAR_DATA embedded_PLANET_DATA) san_francisco leap_day_evening) =
    [("sun", 41.988886308369516); ("mars", 37.0491926300859); ("jupiter", 42.01846258278727);
     ("saturn", 39.73246834909667); ("uranus", 42.30151933201365);
     ("neptune", 49.95910514407344)].
Proof.
  destruct leap_day_evening_in_range as [R C].
  destruct (visible_bodies_are_strictly_above_margin SkyMath
              (initialized embedded_STAR_DATA embedded_PLANET_DATA) embedded_initialized)
    as (_ & _ & H).
  destruct (H san_francisco leap_day_evening R C eq_refl eq_refl) as [Hs Hp].
  split; [exact (conj embedded_initialized (conj R (conj C (conj eq_refl (conj eq_refl
                   (conj SkyMath_ranges embedded_elements_bounded)))))) |].
  split; [exact (Hs 0.5) |].
  split; [exact (Hp SkyMath_ranges embedded_elements_bounded) |].
  split; vm_compute; reflexivity.
Defined.

(** X7.  Raising the magnitude limit of [getStarsInView] or of
    [getVisibleStars] never removes a star from the result: on an
    initialized catalog and for limits m1 <= m2, [getStarsInView] returns
    with both limits and the first result is within the second; for every
    date from year 0 to 275760 with a time of day and every observer
    longitude of magnitude below 2^54 the same holds of [getVisibleStars];
    and whenever [getVisibleStars] returns with both limits, the first
    result is within the second. *)
Theorem raising_the_magnitude_limit_keeps_every_star (M : MathLib)
    (this : StarCatalogService) (m1 m2 : number) :
  isInitialized this = true -> (m1 <=? m2) = true ->
  (forall center fieldOfView, exists r1 r2,
     getStarsInView this center fieldOfView m1 = Normal r1 /\
     getStarsInView this center fieldOfView m2 = Normal r2 /\ incl r1 r2) /\
  (forall location timestamp,
     date_in_range timestamp -> clock_in_range timestamp ->
     (-18014398509481984 <? longitude location) = true ->
     (longitude location <? 18014398509481984) = true ->
     exists fuel0, forall fuel, (fuel0 <= fuel)%nat -> exists r1 r2,
       getVisibleStars fuel this location m1 timestamp = Some (Normal r1) /\
       getVisibleStars fuel this location m2 timestamp = Some (Normal r2) /\ incl r1 r2) /\
  (forall fuel location timestamp r1 r2,
     getVisibleStars fuel this location m1 timestamp = Some (Normal r1) ->
     getVisibleStars fuel this location m2 timestamp = Some (Normal r2) -> incl r1 r2).
Proof.
  intros Hi L.
  assert (Hc : forall fuel location timestamp r1 r2,
             getVisibleStars fuel this location m1 timestamp = Some (Normal r1) ->
             getVisibleStars fuel this location m2 timestamp = Some (Normal r2) -> incl r1 r2).
  { unfold getVisibleStars. rewrite Hi. cbn [negb]. intros fuel loc t r1 r2.
    destruct (visible_stars_loop fuel loc m1 t _ _) as [l1 |] eqn:E1; [| discriminate].
    destruct (visible_stars_loop fuel loc m2 t _ _) as [l2 |] eqn:E2; [| discriminate].
    intros [= <-] [= <-]. apply visible_stars_loop_filter in E1, E2. cbn [app] in E1, E2.
    subst l1 l2. intros s. rewrite !In_Array_sort, !filter_In.
    intros [H1 H2]. split; [exact H1 | exact (seen_above_mono _ _ _ _ _ _ L H2)]. }
  split; [| split; [| exact Hc]].
  - unfold getStarsInView. rewrite Hi. cbn [negb].
    intros c f. do 2 eexists. split; [reflexivity |]. split; [reflexivity |].
    intros s. rewrite !In_Array_sort, !stars_in_view_loop_filter. cbn [app].
    rewrite !filter_In. intros [H1 H2]. split; [exact H1 | exact (in_view_mono _ _ _ _ _ L H2)].
  - intros location timestamp R C Lo Hi'.
    destruct (visible_stars_settle this location m1 timestamp Hi R C Lo Hi') as [f1 H1].
    destruct (visible_stars_settle this location m2 timestamp Hi R C Lo Hi') as [f2 H2].
    exists (Nat.max f1 f2). intros fuel Hf.
    destruct (H1 fuel ltac:(lia)) as [r1 E1]. destruct (H2 fuel ltac:(lia)) as [r2 E2].
    exists r1, r2. split; [exact E1 |]. split; [exact E2 |].
    exact (Hc fuel location timestamp r1 r2 E1 E2).
Qed.

Lemma raising_the_magnitude_limit_keeps_every_star_witness :
  (isInitialized (initialized embedded_STAR_DATA embedded_PLANET_DATA) = true /\
   (0.1 <=? 0.5) = true /\
   date_in_range leap_day_evening /\ clock_in_range leap_day_evening /\
   (-18014398509481984 <? longitude san_francisco) = true /\
   (longitude san_francisco <? 18014398509481984) = true) /\
  (exists r1 r2,
     @getStarsInView SkyMath (initialized embedded_STAR_DATA embedded_PLANET_DATA)
       winter_sky 60 0.1 = Normal r1 /\
     @getStarsInView SkyMath (initialized embedded_STAR_DATA embedded_PLANET_DATA)
       winter_sky 60 0.5 = Normal r2 /\ incl r1 r2) /\
  (exists fuel0, forall fuel, (fuel0 <= fuel)%nat -> exists r1 r2,
     @getVisibleStars SkyMath fuel (initialized embedded_STAR_DATA embedded_PLANET_DATA)
       san_francisco 0.1 leap_day_evening = Some (Normal r1) /\
     @getVisibleStars SkyMath fuel (initialized embedded_STAR_DATA embedded_PLANET_DATA)
       san_francisco 0.5 leap_day_evening = Some (Normal r2) /\ incl r1 r2) /\
  star_ids (Some (@getStarsInView SkyMath (initialized embedded_STAR_DATA embedded_PLANET_DATA)
                    winter_sky 60 0.1)) = ["hip_25336"] /\
  star_ids (Some (@getStarsInView SkyMath (initialized embedded_STAR_DATA embedded_PLANET_DATA)
                    winter_sky 60 0.5)) = ["hip_25336"; "hip_37279"; "hip_27989"] /\
  star_ids (@getVisibleStars SkyMath (100 * 100)
              (initialized embedded_STAR_DATA embedded_PLANET_DATA)
              san_francisco 0.1 leap_day_evening) = ["hip_91262"; "hip_25336"] /\
  star_ids (@getVisibleStars SkyMath (100 * 100)
              (initialized embedded_STAR_DATA embedded_PLANET_DATA)
              san_francisco 0.5 leap_day_evening) = ["hip_91262"; "hip_25336"; "hip_27989"].
Proof.
  destruct leap_day_evening_in_range as [R C].
  destruct (raising_the_magnitude_limit_keeps_every_star SkyMath
              (initialized embedded_STAR_DATA embedded_PLANET_DATA) 0.1 0.5
              embedded_initialized eq_refl) as (Hv & Hs & _).
  split; [exact (conj embedded_initialized (conj eq_refl (conj R (conj C
                   (conj eq_refl eq_refl))))) |].
  split; [exact (Hv winter_sky 60) |].
  split; [exact (Hs san_francisco leap_day_evening R C eq_refl eq_refl) |].
  repeat split; vm_compute; reflexivity.
Defined.

(** X9.  The planets that [getVisiblePlanets] returns are the planets of
    the catalog whose computed altitude is above -0.5, each once and in the
    order of the catalog: so it is whenever the query returns, and the query
    does return for every date from year 0 to 275760 with a time of day and
    every observer longitude of magnitude below 2^54, when the sine and the
    arc tangent of the [Math] library stay in their ranges and the orbital
    elements of the planets are of ordinary size. *)
Theorem visible_planets_keep_catalog_order (M : MathLib) (this : StarCatalogService) :
  isInitialized this = true ->
  (forall fuel location timestamp r,
     getVisiblePlanets fuel this location timestamp = Some (Normal r) ->
     map body r =
     filter (planet_above fuel location timestamp) (JsMap.values (planets this))) /\
  (forall location timestamp,
     ranges_kept M ->
     date_in_range timestamp -> clock_in_range timestamp ->
     (-18014398509481984 <? longitude location) = true ->
     (longitude location <? 18014398509481984) = true ->
     (forall planet, In planet (JsMap.values (planets this)) -> elements_bounded planet) ->
     exists fuel0, forall fuel, (fuel0 <= fuel)%nat -> exists r,
       getVisiblePlanets fuel this location timestamp = Some (Normal r) /\
       map body r =
       filter (planet_above fuel location timestamp) (JsMap.values (planets this))).
Proof.
  intros Hi.
  assert (Hc : forall fuel location timestamp r,
             getVisiblePlanets fuel this location timestamp = Some (Normal r) ->
             map body r =
             filter (planet_above fuel location timestamp) (JsMap.values (planets this))).
  { intros fuel location timestamp r. unfold getVisiblePlanets. rewrite Hi. cbn [negb].
    destruct (visible_planets_loop _ _ _ _ _) as [l |] eqn:E; [| discriminate].
    intros [= <-]. apply visible_planets_loop_bodies in E. exact E. }
  split; [exact Hc |].
  intros location timestamp G R C Lo Hi' E.
  destruct (visible_planets_settle this location timestamp Hi G R C Lo Hi' E) as [fuel0 H].
  exists fuel0. intros fuel Hf. destruct (H fuel Hf) as [r Hr].
  exists r. split; [exact Hr | exact (Hc fuel location timestamp r Hr)].
Qed.

Lemma visible_planets_keep_catalog_order_witness :
  (isInitialized (initialized embedded_STAR_DATA embedded_PLANET_DATA) = true /\
   ranges_kept SkyMath /\
   date_in_range leap_day_evening /\ clock_in_range leap_day_evening /\
   (-18014398509481984 <? longitude san_francisco) = true /\
   (longitude san_francisco <? 18014398509481984) = true /\
   forall planet,
     In planet (JsMap.values (planets (initialized embedded_STAR_DATA embedded_PLANET_DATA))) ->
     elements_bounded planet) /\
  (exists fuel0, forall fuel, (fuel0 <= fuel)%nat -> exists r,
     @getVisiblePlanets SkyMath fuel (initialized embedded_STAR_DATA embedded_PLANET_DATA)
       san_francisco leap_day_evening = Some (Normal r) /\
     map body r =
     filter (@planet_above SkyMath fuel san_francisco leap_day_evening)
       (JsMap.values (planets (initialized embedded_STAR_DATA embedded_PLANET_DATA)))) /\
  map Planet.id
    (JsMap.values (planets (initialized embedded_STAR_DATA embedded_PLANET_DATA))) =
    ["sun"; "mercury"; "venus"; "earth"; "mars"; "jupiter"; "saturn"; "uranus"; "neptune"] /\
  map Planet.id
    (filter (@planet_above SkyMath (100 * 100) san_francisco leap_day_evening)
       (JsMap.values (planets (initialized embedded_STAR_DATA embedded_PLANET_DATA)))) =
    ["sun"; "mars"; "jupiter"; "saturn"; "uranus"; "neptune"].
Proof.
  destruct leap_day_evening_in_range as [R C].
  destruct (visible_planets_keep_catalog_order SkyMath
              (initialized embedded_STAR_DATA embedded_PLANET_DATA) embedded_initialized)
    as [_ H].
  split; [exact (conj embedded_initialized (conj SkyMath_ranges (conj R (conj C
                   (conj eq_refl (conj eq_refl embedded_elements_bounded)))))) |].
  split; [exact (H san_francisco leap_day_evening SkyMath_ranges R C eq_refl eq_refl
                   embedded_elements_bounded) |].
  split; vm_compute; reflexivity.
Defined.
